(* ===== verification/_CoqProject ===== *)
-Q . S2P
Prelude.v
GoText.v
GoErr.v
Redis.v
Env.v
Retry.v
Scheduler.v
SchedulerSpec.v
SchedulerSteps.v
SchedulerProps.v
SchedulerThms.v
Admission.v
AdmissionThms.v
Idempotency.v
Postgres.v
Job.v
JobThms.v
IdempotencyThms.v
Inference.v
InferenceThms.v
Worker.v
WorkerThms.v
Recovery.v
RecoveryThms.v
Http.v
HttpThms.v
Stream.v
StreamThms.v
SseThms.v
InferenceServer.v
InferenceServerThms.v
System.v
User.v
UserThms.v
AdminThms.v
Auth.v
AuthThms.v
Transport.v
TransportThms.v
Metrics.v
MetricsThms.v
Logging.v
Health.v
App.v
AppThms.v
JobOutcome.v
Wiring.v
Footprint.v
WiringThms.v
WiringDemo.v
Server.v
CrashRecovery.v
EndToEnd.v
Submission.v
Client.v
SignIn.v
