(* ===== verification/Prelude.v ===== *)
(** * Efficient request queueing for LLM inference: a verified model

    The program accepts inference requests over HTTP, checks them, stores a
    job, queues it per user in Redis, and a pool of workers serves the users
    in turn, streams the generated text and records the outcome; a recovery
    loop repairs what crashes leave behind.  This library models the code
    under src/internal that decides what happens to a request, and proves
    what each part promises to the others.

    ** The files

    - Prelude.v (this file): Go's [(T, error)], the state-passing monad in
      which the Go code is written, machine integers, shared lemmas.
    - GoErr.v (shared/errors): errors as values, wrapping, [errors.Is] and
      [errors.As] as searches in the tree of wrapped errors, [AppError],
      [EnsureAppError], [IsCode], the resolver.
    - GoText.v: what the code uses of unicode/utf8, strings and
      encoding/json, on strings as bytes.
    - Redis.v: the Redis server as a class of typed commands ([Redis]) with
      the documented behaviour of each command ([RedisDoc], instance
      [rdata]); Lua scripts are programs over those commands, executed
      atomically.  Postgres.v: the same for the SQL statements.
    - Env.v: the clock, the request context, the formatter, the connection.
      System.v: a world with both servers and a schedule of lost requests.
    - Retry.v (shared/retry): [DoWithRetry] and its back-off.
    - Scheduler.v (scheduler): the Lua scripts of lua_scripts.go, the
      repository, both use cases and the module.  SchedulerSpec.v holds the
      abstract queue (users in turn, one list each), the invariant of the
      Redis data and the refinement of every script; SchedulerSteps.v the
      transition system over all repository methods and its reachable
      states; SchedulerProps.v the trace lemmas; SchedulerThms.v the theorems.
    - Admission.v, AdmissionThms.v (admission): the policies, the token
      bucket script over Lua numbers, the use case, the configuration.
    - Idempotency.v, IdempotencyThms.v (inference/infrastructure,
      inference/domain): the idempotency store and the coalescing store.
    - Job.v, JobThms.v (job, shared/tx/postgres): state machine, repository,
      unit of work, use cases, retry configuration.
    - Inference.v, InferenceThms.v (inference/usecase, ports, adapters,
      module.go): [Submit] on every branch.
    - Worker.v, WorkerThms.v (worker): heartbeat, [processJob], the loop.
    - Recovery.v, RecoveryThms.v (recovery): the three sweeps.
    - Http.v (shared/middleware, shared/errors): gin as a class of typed
      operations ([Gin], documented by [GinDoc], instance [gin_state]), the
      shared middleware (a handler returns or panics), the error handler;
      HttpThms.v: the contract between the handlers of a module and its error
      handler, and what runs behind the middleware of /api.
    - Transport.v, TransportThms.v (inference/transport): POST /request.
    - Stream.v, StreamThms.v, SseThms.v (stream): publishing, subscribing,
      the handler that writes server-sent events, its routes.
    - InferenceServer.v, InferenceServerThms.v (inference_server,
      worker/adapters): the client of the server, which implements the
      interface [Worker.InferenceEngine] the worker is proved against.
    - User.v, UserThms.v, AdminThms.v (user): users, the cache of their
      tiers, the routes of administrators.
    - Auth.v, AuthThms.v (auth): OAuth states, accounts, the GitHub client,
      access tokens, the routes.
    - Metrics.v, MetricsThms.v (observability/metrics and the metrics
      adapters): the module, its builder, the recorders, GET /metrics;
      Logging.v (observability/logger): the handler of records over
      [slog.Handler] as a class, and what a record takes from its context.
    - Health.v (health_checker) and App.v, AppThms.v (application, infra,
      cmd): the registry of modules, the configuration, the composition of the
      modules of the other files, the run loop, its shutdown and [main].
    - Wiring.v (application/composition.go and the module.go of the modules):
      one world that runs all modules at once, each against the real
      implementation of the others, beside an environment that acts on both
      servers before any request; the program's operations [app_Submit],
      [app_process_claimed], [app_worker_iteration], [app_recovery_tick].
      Server.v (application/app.go and the routes.go of the modules): the
      tables of routes and the engine, with the middleware of /api.
    - JobOutcome.v: what a worker does to one job, proved against a class of
      what the services promise ([JobWorld]); WiringThms.v: the composed
      program keeps those promises; Footprint.v: the keys a script may touch;
      WiringDemo.v: a concrete program; EndToEnd.v (a job, its row and its
      stream), Client.v (the client of a stream), Submission.v (a request),
      SignIn.v (a user) and CrashRecovery.v (a lost worker): the theorems
      about the composed program.

    ** How the model follows the code

    A Go function is a definition of the same name in the monad [M W]; [W]
    is any world that has the services the function calls, each a type
    class.  Theorems quantify over the world, hence over every answer and
    failure of the services, and use the documented behaviour of Redis or
    PostgreSQL only as the class [RedisDoc] or [PostgresDoc].  Witnesses run
    the code on [rdata] and [pgdata], the executable instances.  Names that
    two packages share ([ErrJobNotFound], [Create], ...) live in the file of
    their package.

    Concurrency has the grain of the program: a Lua script, a single Redis
    command and a SQL statement are atomic, and everything between them may
    interleave.  SchedulerSteps.v and IdempotencyThms.v state their
    invariants for every sequence of such steps, JobThms.v interleaves two
    use cases between their statements, StreamThms.v interleaves the two
    commands of a publication with the reads of a subscriber, and Worker.v
    puts the ticks of the heartbeat goroutine, chosen by a schedule, before
    every operation of the job it guards.  In Wiring.v the others (other
    workers, requests and clients) act before every request of the process to
    a server; only transactions of PostgreSQL are serialised.

    Integers: Go's [int] and [int64] are [Z] with [wrap64] where the code can
    overflow ([retryDelay], token costs); lengths and scores of Redis are
    [Z]; Lua numbers are rationals with a rounding function [rnd] that
    represents the double format.

    Fuel: [Retry.retry_loop] and [Auth.do_loop] recurse on the attempts left,
    which the policy bounds; [rune_count], [trim_with], [json_body] and the
    JSON parsers of GoText.v recurse on a number taken from the length of
    the text, of which each step consumes a byte ([parse_json] takes twice
    the length, since a call that consumes none precedes one that does);
    [Worker.runWorker] and [Stream.subscribe_loop] take the number of
    iterations to run, as the loops themselves end only with their context
    or a terminal event: [StreamThms.stream_delivery] says how many suffice.

    ** What the theorems show

    - Scheduler: the Redis data satisfy an invariant in all reachable states,
      whatever attempts are pushed; a claim takes the first job of the first
      user in turn and moves the user to the back; a user's jobs are claimed
      in the order they were queued; a waiting user is served within as many
      claims as users are before it; a job is claimed at most once for each
      push of it, hence at most once where every submission pushes a new job;
      a live lease keeps recovery away; of two recoveries of one job only one
      succeeds.
    - Admission: the bucket is an exact function of time and cost, an
      interval admits at most its capacity plus the refill, [Admit] accepts
      exactly the requests all policies accept, and rejects without charge.
    - Inference: one claim per idempotency key, a completed job is replayed,
      a success of [Submit] comes with a stored, bound and enqueued job (or a
      replay), and a rejected admission leaves no claim.
    - Jobs: creation is all or nothing, a terminal job changes no more
      (sequentially), compare-and-set updates.
    - Worker and recovery: the order of the terminal writes on each path, and
      the decision recovery takes for a job.
    - Retry: the attempts made are exactly those of the policy.
    - The composed program: the text that the inference server generates is
      the text that a subscriber reads, through worker, Redis and stream, and
      that a client of the event stream shows, through the HTTP server; a
      token is issued to the user that PostgreSQL links to the account GitHub
      named, and every module recognises that user by it; the terminal event
      on a stream is that of the status recorded in PostgreSQL, even when
      requests to Redis are lost, unless the request that records the status
      is lost; a request that is answered 202 is
      stored and queued; and a sweep of the recovery loop puts every job whose
      worker has disappeared back in the queue of its user.
    - HTTP: the routes of requests and of administrators do to the services
      exactly what an ordered list of checks says, and answer once.
    - Streams: a subscriber receives what is published, in order, up to the
      first terminal event; the text of the handler reads back as the events.
    - Inference server: which chunks and which error the worker sees of a
      stream, and when it retries.
    - Users and authentication: the cache of tiers is transparent as long as
      invalidations arrive and PostgreSQL answers the update, signing up is atomic under lost requests, a
      state parameter is accepted once, tokens validate to what they were
      made of until they expire.
    - Metrics: no report of any module panics, the series that can exist are
      finitely many, every request is answered and counted once and is in
      flight while it is handled, also when its handler panics.
    - Application: a run starts the modules in order, stops them in reverse,
      each once, and closes the pools after them, whatever fails.
    - Logging: a record of a request carries the id its client is given,
      whatever the logger has been derived with.
    - A group of theorems states behaviour that departs from the evident
      intention (lost errors, a lost worker, an inverted test, ...); each
      says so in its comment.

    ** What is not modelled

    The calls of the logger in the other files: a record has no effect on the
    program, and Logging.v says what it holds.  Where a handler panics: what
    runs behind the middleware is any program that returns or panics.  The
    pools of the integration tests (tests/testenv), which are no part of the
    program.  The libraries the code calls (SHA-256, JWT, YAML, net/http,
    openai, Prometheus, the connection pools, gin, pgx, go-redis) are
    parameters or classes with their documented behaviour.  [rdata] keeps
    integer scores, as the program writes no others, and gives no reply of a
    wrong type, as the program uses each key with one type; the text columns
    of [pgdata] take every string, where PostgreSQL refuses a NUL and invalid
    UTF-8; the parser of tokens is not asked for an empty audience or issuer,
    which the configuration rules out.  Deadlines appear
    as answers of the context; the scheduler of goroutines is an arbitrary
    schedule.

    The modules meet at their interfaces: each theorem of a client holds for
    every implementation of the classes it uses, and Wiring.v instantiates
    them with each other.  The composed theorems follow one job or one request
    of this process; what the other processes do is any action within the
    hypotheses on the environment (it leaves the rows and the stream of the
    job to its worker, or deletes no jobs). *)

From stdpp Require Import base gmap sets list strings pretty sorting.
From Stdlib Require Import ZArith Lia.

(** ** Go's error returns *)

(** A Go call [(T, error)]: [Ok v] is [(v, nil)], [Err e] is [(zero, e)]. *)
Inductive res (E A : Type) : Type :=
| Ok (a : A)
| Err (e : E).
Arguments Ok {E A} a.
Arguments Err {E A} e.

Definition res_map {E A B} (f : A -> B) (r : res E A) : res E B :=
  match r with Ok a => Ok (f a) | Err e => Err e end.

Definition is_ok {E A} (r : res E A) : bool :=
  match r with Ok _ => true | Err _ => false end.

(** ** Stateful Go code: a state-passing monad over a world [W]

    A Go function of the repository that calls Redis, PostgreSQL, another
    service or the clock is a program [M W A]; [x ← m; k] is sequencing. *)

Definition M (W A : Type) : Type := W -> A * W.

#[global] Instance M_ret (W : Type) : MRet (M W) := fun A a w => (a, w).
#[global] Instance M_bind (W : Type) : MBind (M W) :=
  fun A B k m w => let '(a, w') := m w in k a w'.

Definition get_world {W : Type} : M W W := fun w => (w, w).
Definition modify_world {W : Type} (f : W -> W) : M W unit := fun w => (tt, f w).
Definition skip {W : Type} : M W unit := mret tt.

(** Go's [if c { m }]. *)
Definition when {W : Type} (c : bool) (m : M W unit) : M W unit :=
  if c then m else skip.

(** Run the body on every element, in order, ignoring the results (Go's
    [for _, x := range xs] with no [break]). *)
Fixpoint for_each {W A : Type} (f : A -> M W unit) (xs : list A) : M W unit :=
  match xs with
  | [] => skip
  | x :: xs' => _ ← f x; for_each f xs'
  end.

(** Run the body on every element until it returns an error (Go's loop with
    an early [return err]). *)
Fixpoint for_each_err {W A E : Type} (f : A -> M W (option E)) (xs : list A)
  : M W (option E) :=
  match xs with
  | [] => mret None
  | x :: xs' =>
      r ← f x;
      match r with
      | Some e => mret (Some e)
      | None => for_each_err f xs'
      end
  end.

(** ** Reasoning about programs *)

(** [Preserves I m]: the program keeps the invariant [I], whatever it
    returns.  The class is closed under the monad, so an invariant of the
    primitive operations lifts to every program built from them. *)
Class Preserves {W A : Type} (I : W -> Prop) (m : M W A) : Prop :=
  preserves : forall w, I w -> I (snd (m w)).

(** Total correctness of a program: from [P], the result and the final
    world satisfy [Q]. *)
Definition Triple {W A : Type} (P : W -> Prop) (m : M W A) (Q : A -> W -> Prop)
  : Prop := forall w, P w -> Q (fst (m w)) (snd (m w)).

Lemma bind_unfold {W A B : Type} (m : M W A) (k : A -> M W B) (w : W) :
  (x ← m; k x) w = k (fst (m w)) (snd (m w)).
Proof. unfold mbind, M_bind. by destruct (m w). Qed.

Lemma ret_unfold {W A : Type} (a : A) (w : W) : (mret a : M W A) w = (a, w).
Proof. reflexivity. Qed.

#[global] Instance Preserves_ret {W A : Type} (I : W -> Prop) (a : A) :
  Preserves I (mret a : M W A).
Proof. by intros w. Qed.

#[global] Instance Preserves_bind {W A B : Type} (I : W -> Prop)
    (m : M W A) (k : A -> M W B) :
  Preserves I m -> (forall a, Preserves I (k a)) -> Preserves I (x ← m; k x).
Proof. intros Hm Hk w Hw. rewrite bind_unfold. apply Hk, Hm, Hw. Qed.

#[global] Instance Preserves_when {W : Type} (I : W -> Prop) c (m : M W unit) :
  Preserves I m -> Preserves I (when c m).
Proof. destruct c; [done|]. intros _ w Hw. exact Hw. Qed.

#[global] Instance Preserves_for_each {W A : Type} (I : W -> Prop)
    (f : A -> M W unit) (xs : list A) :
  (forall a, Preserves I (f a)) -> Preserves I (for_each f xs).
Proof. intros Hf. induction xs as [|x xs IH]; [by intros w|]. apply _. Qed.

#[global] Instance Preserves_for_each_err {W A E : Type} (I : W -> Prop)
    (f : A -> M W (option E)) (xs : list A) :
  (forall a, Preserves I (f a)) -> Preserves I (for_each_err f xs).
Proof.
  intros Hf. induction xs as [|x xs IH]; [by intros w|].
  apply Preserves_bind; [apply _|]. intros [e|]; [by intros w|exact IH].
Qed.

Lemma Triple_conseq {W A : Type} (P P' : W -> Prop) (m : M W A) (Q Q' : A -> W -> Prop) :
  Triple P m Q -> (forall w, P' w -> P w) -> (forall a w, Q a w -> Q' a w) ->
  Triple P' m Q'.
Proof. intros H HP HQ w Hw. apply HQ, H, HP, Hw. Qed.

Lemma Triple_bind {W A B : Type} (P : W -> Prop) (m : M W A) (k : A -> M W B)
    (R : A -> W -> Prop) (Q : B -> W -> Prop) :
  Triple P m R -> (forall a, Triple (R a) (k a) Q) -> Triple P (x ← m; k x) Q.
Proof. intros Hm Hk w Hw. rewrite bind_unfold. apply Hk, Hm, Hw. Qed.

(** Unfold one layer of a program applied to a world. *)
Ltac step_prog :=
  repeat first [ rewrite bind_unfold | rewrite ret_unfold ].

(** Case analysis on every [match] of the goal. *)
Ltac case_matches := repeat (case_match; simplify_eq/=).

(** ** Machine integers *)

Definition int64_min : Z := - 2 ^ 63.
Definition int64_max : Z := 2 ^ 63 - 1.

(** Two's complement wrap-around of Go's [int64] (also [int] on 64-bit
    targets and [time.Duration]). *)
Definition wrap64 (z : Z) : Z := (z + 2 ^ 63) mod 2 ^ 64 - 2 ^ 63.

Definition in_int64 (z : Z) : Prop := (int64_min <= z <= int64_max)%Z.

Lemma wrap64_bounds z : in_int64 (wrap64 z).
Proof.
  unfold in_int64, wrap64, int64_min, int64_max.
  pose proof (Z.mod_pos_bound (z + 2 ^ 63) (2 ^ 64) ltac:(lia)). lia.
Qed.

Lemma wrap64_small z : in_int64 z -> wrap64 z = z.
Proof.
  unfold in_int64, wrap64, int64_min, int64_max. intros H.
  rewrite Z.mod_small; lia.
Qed.

Definition second : Z := 10 ^ 9.
Definition millisecond : Z := 10 ^ 6.

(** [int(d.Seconds())] and [d.Milliseconds()] of a [time.Duration] in
    nanoseconds: division truncated towards zero. *)
Definition duration_seconds (d : Z) : Z := Z.quot d (10 ^ 9).
Definition duration_milliseconds (d : Z) : Z := Z.quot d (10 ^ 6).

(** ** Strings *)

Definition str_eqb (a b : string) : bool := String.eqb a b.

(** The double quote, for the JSON the code writes. *)
Definition dq : string := String (Ascii.ascii_of_nat 34) "".

Definition str_empty (a : string) : bool := String.eqb a "".

(** ** Lists *)

Section lists.
Context {A : Type}.
Implicit Types l : list A.

Lemma last_cons_snoc (x : A) l : last (l ++ [x]) = Some x.
Proof. apply last_snoc. Qed.

Lemma removelast_snoc l (x : A) : removelast (l ++ [x]) = l.
Proof. apply removelast_last. Qed.
End lists.
