(* ===== verification/GoText.v ===== *)
(** * Text: what the code uses of Go's standard library

    Strings are sequences of bytes.  unicode/utf8, strings and encoding/json,
    with the lemmas on JSON strings. *)

From S2P Require Import Prelude.
From stdpp Require Import base list strings.
From Stdlib Require Import ZArith Lia Ascii.

Abbreviation bstr := (list Ascii.ascii).

(** ** unicode/utf8 *)

Definition code (b : Ascii.ascii) : N := Ascii.N_of_ascii b.
Definition bytes (l : list N) : bstr := Ascii.ascii_of_N <$> l.

Definition between (lo hi : N) (b : Ascii.ascii) : bool :=
  (lo <=? code b)%N && (code b <=? hi)%N.

(** The length of the first encoded rune; 1 when it is not a valid one. *)
Definition rune_width (b : Ascii.ascii) (rest : bstr) : nat :=
  let cont := between 128 191 in
  let tail (lo hi : N) (n : nat) :=
    match rest with
    | c :: cs => if between lo hi c && forallb cont (take (n - 2) cs)
                    && (n - 2 <=? length cs)%nat then n else 1%nat
    | [] => 1%nat
    end in
  if between 194 223 b then tail 128%N 191%N 2%nat
  else if between 224 224 b then tail 160%N 191%N 3%nat
  else if between 237 237 b then tail 128%N 159%N 3%nat
  else if between 225 239 b then tail 128%N 191%N 3%nat
  else if between 240 240 b then tail 144%N 191%N 4%nat
  else if between 241 243 b then tail 128%N 191%N 4%nat
  else if between 244 244 b then tail 128%N 143%N 4%nat
  else 1%nat.

(** [utf8.RuneCountInString]: an invalid byte counts as one rune. *)
Fixpoint rune_count (fuel : nat) (s : bstr) : nat :=
  match fuel, s with
  | S fuel', b :: rest => S (rune_count fuel' (drop (rune_width b rest - 1) rest))
  | _, _ => O
  end.

Definition RuneCountInString (s : string) : Z :=
  Z.of_nat (rune_count (String.length s) (String.list_ascii_of_string s)).

(** The encoding of [unicode.ReplacementChar], U+FFFD. *)
Definition replacement : bstr := bytes [239; 191; 189]%N.

(** [utf8.AppendRune]. *)
Definition encode_rune (r : N) : bstr :=
  if (r <? 128)%N then bytes [r]
  else if (r <? 2048)%N then bytes [192 + r / 64; 128 + r mod 64]%N
  else if ((55296 <=? r) && (r <? 57344))%N || (1114111 <? r)%N then replacement
  else if (r <? 65536)%N then
    bytes [224 + r / 4096; 128 + r / 64 mod 64; 128 + r mod 64]%N
  else bytes [240 + r / 262144; 128 + r / 4096 mod 64; 128 + r / 64 mod 64;
              128 + r mod 64]%N.

(** [utf8.Valid]: only ASCII bytes and runes of several bytes. *)
Fixpoint valid_utf8 (fuel : nat) (s : bstr) : bool :=
  match fuel, s with
  | S fuel', b :: rest =>
      ((code b <? 128)%N || (1 <? rune_width b rest)%nat)
      && valid_utf8 fuel' (drop (rune_width b rest - 1) rest)
  | _, _ => true
  end.

Definition ValidString (s : string) : bool :=
  valid_utf8 (String.length s) (String.list_ascii_of_string s).

(** ** strings *)

(** [strings.TrimSpace]: the white space of Unicode, in UTF-8. *)
Definition white_space : list bstr :=
  (bytes <$> [[9]; [10]; [11]; [12]; [13]; [32]; [194; 133]; [194; 160]; [225; 154; 128];
              [226; 128; 168]; [226; 128; 169]; [226; 128; 175]; [226; 129; 159];
              [227; 128; 128]]%N)
  ++ ((fun b => bytes [226; 128; b]%N) <$>
        [128; 129; 130; 131; 132; 133; 134; 135; 136; 137; 138]%N).

Fixpoint strip_prefix (p s : bstr) : option bstr :=
  match p, s with
  | [], _ => Some s
  | a :: p', b :: s' => if Ascii.eqb a b then strip_prefix p' s' else None
  | _ :: _, [] => None
  end.

Fixpoint trim_with (seps : list bstr) (fuel : nat) (s : bstr) : bstr :=
  match fuel with
  | O => s
  | S fuel' =>
      match omap (fun p => strip_prefix p s) seps with
      | rest :: _ => trim_with seps fuel' rest
      | [] => s
      end
  end.

Definition TrimSpace (s : string) : string :=
  let n := String.length s in
  let l := trim_with white_space n (String.list_ascii_of_string s) in
  String.string_of_list_ascii
    (reverse (trim_with (reverse <$> white_space) n (reverse l))).

(** [strings.Split] at one byte; the result is never empty. *)
Fixpoint split_bytes (sep : Ascii.ascii) (s : bstr) : bstr * list bstr :=
  match s with
  | [] => ([], [])
  | b :: s' =>
      let '(l, ls) := split_bytes sep s' in
      if Ascii.eqb b sep then ([], l :: ls) else (b :: l, ls)
  end.

Definition Split (s : string) (sep : Ascii.ascii) : list string :=
  let '(l, ls) := split_bytes sep (String.list_ascii_of_string s) in
  String.string_of_list_ascii <$> l :: ls.

(** [strings.SplitN(s, sep, 2)] at one byte: [None] when it gives one part. *)
Fixpoint cut (sep : Ascii.ascii) (s : string) : option (string * string) :=
  match s with
  | EmptyString => None
  | String b s' =>
      if Ascii.eqb b sep then Some ("", s')
      else match cut sep s' with
           | Some (x, y) => Some (String b x, y)
           | None => None
           end
  end.

(** Comparison up to case with a word of ASCII letters other than k and s
    (the two that have non-ASCII case variants). *)
Definition to_lower (b : Ascii.ascii) : Ascii.ascii :=
  if between 65 90 b then Ascii.ascii_of_N (code b + 32) else b.

Fixpoint lower (s : string) : string :=
  match s with
  | EmptyString => ""
  | String b s' => String (to_lower b) (lower s')
  end.

Definition EqualFold (s word : string) : bool := String.eqb (lower s) (lower word).

(** [strings.TrimPrefix], and [strings.ToUpper] as far as it gives ASCII
    letters: besides the small letters these are the upper cases of dotless i
    and of long s. *)
Definition TrimPrefix (s prefix : string) : string :=
  match strip_prefix (String.list_ascii_of_string prefix) (String.list_ascii_of_string s) with
  | Some rest => String.string_of_list_ascii rest
  | None => s
  end.

Fixpoint upper_bytes (s : bstr) : bstr :=
  match s with
  | [] => []
  | b :: s' =>
      match s' with
      | b' :: s'' =>
          if (code b =? 196)%N && (code b' =? 177)%N then "I"%char :: upper_bytes s''
          else if (code b =? 197)%N && (code b' =? 191)%N then "S"%char :: upper_bytes s''
          else (if between 97 122 b then Ascii.ascii_of_N (code b - 32) else b) :: upper_bytes s'
      | [] => [if between 97 122 b then Ascii.ascii_of_N (code b - 32) else b]
      end
  end.

Definition ToUpper (s : string) : string :=
  String.string_of_list_ascii (upper_bytes (String.list_ascii_of_string s)).

(** ** encoding/json *)

Definition quote : Ascii.ascii := Ascii.ascii_of_N 34.
Definition backslash : Ascii.ascii := Ascii.ascii_of_N 92.

Definition hex_digit (n : N) : Ascii.ascii :=
  Ascii.ascii_of_N (if (n <? 10)%N then 48 + n else 87 + n).

(** *** Encoding a string, with the HTML escapes of [json.Marshal] *)

Definition json_escape (b : Ascii.ascii) : bstr :=
  if Ascii.eqb b quote || Ascii.eqb b backslash then [backslash; b]
  else if (code b =? 8)%N then [backslash; "b"%char]
  else if (code b =? 9)%N then [backslash; "t"%char]
  else if (code b =? 10)%N then [backslash; "n"%char]
  else if (code b =? 12)%N then [backslash; "f"%char]
  else if (code b =? 13)%N then [backslash; "r"%char]
  else if (code b <? 32)%N || (code b =? 38)%N || (code b =? 60)%N || (code b =? 62)%N then
    backslash :: "u"%char :: "0"%char :: "0"%char ::
      [hex_digit (code b / 16); hex_digit (code b mod 16)]
  else [b].

(** One rune: U+2028 and U+2029 are escaped, an invalid byte is replaced. *)
Definition json_rune (b : Ascii.ascii) (rest : bstr) : bstr :=
  if (code b <? 128)%N then json_escape b
  else
    let w := rune_width b rest in
    let r := b :: take (w - 1) rest in
    if (w <=? 1)%nat then backslash :: String.list_ascii_of_string "ufffd"
    else if decide (r = bytes [226; 128; 168]%N)
    then backslash :: String.list_ascii_of_string "u2028"
    else if decide (r = bytes [226; 128; 169]%N)
    then backslash :: String.list_ascii_of_string "u2029"
    else r.

Fixpoint json_body (fuel : nat) (s : bstr) : bstr :=
  match fuel, s with
  | S fuel', b :: rest =>
      json_rune b rest ++ json_body fuel' (drop (rune_width b rest - 1) rest)
  | _, _ => []
  end.

Definition json_string (s : string) : bstr :=
  quote :: json_body (String.length s) (String.list_ascii_of_string s) ++ [quote].

(** *** Values and their syntax *)

#[warnings="-register-all"]
Inductive json : Type :=
| JNull
| JBool (b : bool)
| JNumber (text : bstr)
| JString (s : bstr)
| JArray (l : list json)
| JObject (l : list (bstr * json)).

Definition hex_value (b : Ascii.ascii) : option N :=
  if between 48 57 b then Some (code b - 48)%N
  else if between 65 70 b then Some (code b - 55)%N
  else if between 97 102 b then Some (code b - 87)%N
  else None.

Definition hex4 (s : bstr) : option (N * bstr) :=
  match s with
  | a :: b :: c :: d :: rest =>
      a ← hex_value a; b ← hex_value b; c ← hex_value c; d ← hex_value d;
      Some (a * 4096 + b * 256 + c * 16 + d, rest)%N
  | _ => None
  end.

(** A [\\u] escape, after the [u]: a surrogate is read with the escape that
    follows it, or replaced. *)
Definition unescape_u (s : bstr) : option (bstr * bstr) :=
  p ← hex4 s;
  let '(u, rest) := p in
  if ((55296 <=? u) && (u <? 57344))%N then
    match rest with
    | x :: y :: rest' =>
        match (if Ascii.eqb x backslash && Ascii.eqb y "u"%char then hex4 rest' else None) with
        | Some (v, rest'') =>
            if ((u <? 56320) && (56320 <=? v) && (v <? 57344))%N
            then Some (encode_rune (65536 + (u - 55296) * 1024 + (v - 56320))%N, rest'')
            else Some (replacement, rest)
        | None => Some (replacement, rest)
        end
    | _ => Some (replacement, rest)
    end
  else Some (encode_rune u, rest).

Definition unescape (s : bstr) : option (bstr * bstr) :=
  match s with
  | [] => None
  | c :: rest =>
      if Ascii.eqb c quote || Ascii.eqb c backslash || Ascii.eqb c "/"%char
      then Some ([c], rest)
      else if Ascii.eqb c "b"%char then Some (bytes [8]%N, rest)
      else if Ascii.eqb c "f"%char then Some (bytes [12]%N, rest)
      else if Ascii.eqb c "n"%char then Some (bytes [10]%N, rest)
      else if Ascii.eqb c "r"%char then Some (bytes [13]%N, rest)
      else if Ascii.eqb c "t"%char then Some (bytes [9]%N, rest)
      else if Ascii.eqb c "u"%char then unescape_u rest
      else None
  end.

(** The rest of a string, after its opening quote. *)
Fixpoint parse_string (fuel : nat) (s : bstr) : option (bstr * bstr) :=
  match fuel, s with
  | S fuel', b :: rest =>
      if Ascii.eqb b quote then Some ([], rest)
      else
        p ← (if Ascii.eqb b backslash then unescape rest
             else if (code b <? 32)%N then None
             else if (code b <? 128)%N then Some ([b], rest)
             else
               let w := rune_width b rest in
               Some (if (w <=? 1)%nat then replacement else b :: take (w - 1) rest,
                     drop (w - 1) rest));
        q ← parse_string fuel' p.2;
        Some (p.1 ++ q.1, q.2)
  | _, _ => None
  end.

Fixpoint skip_ws (s : bstr) : bstr :=
  match s with
  | b :: rest => if (code b =? 32)%N || (code b =? 9)%N || (code b =? 10)%N || (code b =? 13)%N
                 then skip_ws rest else s
  | [] => []
  end.

Fixpoint digits (s : bstr) : bstr * bstr :=
  match s with
  | b :: rest => if between 48 57 b then let '(d, r) := digits rest in (b :: d, r) else ([], s)
  | [] => ([], [])
  end.

Definition digits1 (s : bstr) : option (bstr * bstr) :=
  match digits s with ([], _) => None | p => Some p end.

(** A number: an optional minus, an integer without leading zeros, an
    optional fraction and an optional exponent. *)
Definition parse_number (s : bstr) : option (bstr * bstr) :=
  let '(sign, s) := match s with
                    | b :: rest => if Ascii.eqb b "-"%char then ([b], rest) else ([], s)
                    | [] => ([], [])
                    end in
  int ← match s with
        | b :: rest => if Ascii.eqb b "0"%char then Some ([b], rest) else digits1 s
        | [] => None
        end;
  frac ← match int.2 with
         | b :: rest => if Ascii.eqb b "."%char
                        then p ← digits1 rest; Some (b :: p.1, p.2) else Some ([], int.2)
         | [] => Some ([], [])
         end;
  exp ← match frac.2 with
        | b :: rest =>
            if Ascii.eqb (to_lower b) "e"%char then
              let '(sg, rest') := match rest with
                                  | c :: r => if Ascii.eqb c "+"%char || Ascii.eqb c "-"%char
                                              then ([c], r) else ([], rest)
                                  | [] => ([], [])
                                  end in
              p ← digits1 rest'; Some (b :: sg ++ p.1, p.2)
            else Some ([], frac.2)
        | [] => Some ([], [])
        end;
  Some (sign ++ int.1 ++ frac.1 ++ exp.1, exp.2).

(** A value, at the head of the input.  The members of an object and the
    elements of an array are read one by one: [parse_members] and
    [parse_elements] start after the opening bracket or a comma. *)
Fixpoint parse_value (fuel : nat) (s : bstr) : option (json * bstr) :=
  match fuel with
  | O => None
  | S n =>
      match skip_ws s with
      | [] => None
      | b :: rest =>
          if Ascii.eqb b quote then p ← parse_string n rest; Some (JString p.1, p.2)
          else if Ascii.eqb b "{"%char then
            match skip_ws rest with
            | c :: rest' => if Ascii.eqb c "}"%char then Some (JObject [], rest')
                            else p ← parse_members n rest; Some (JObject p.1, p.2)
            | [] => None
            end
          else if Ascii.eqb b "["%char then
            match skip_ws rest with
            | c :: rest' => if Ascii.eqb c "]"%char then Some (JArray [], rest')
                            else p ← parse_elements n rest; Some (JArray p.1, p.2)
            | [] => None
            end
          else
            match strip_prefix (String.list_ascii_of_string "null") (b :: rest),
                  strip_prefix (String.list_ascii_of_string "true") (b :: rest),
                  strip_prefix (String.list_ascii_of_string "false") (b :: rest) with
            | Some r, _, _ => Some (JNull, r)
            | _, Some r, _ => Some (JBool true, r)
            | _, _, Some r => Some (JBool false, r)
            | None, None, None => p ← parse_number (b :: rest); Some (JNumber p.1, p.2)
            end
      end
  end
with parse_elements (fuel : nat) (s : bstr) : option (list json * bstr) :=
  match fuel with
  | O => None
  | S n =>
      p ← parse_value n s;
      match skip_ws p.2 with
      | c :: rest =>
          if Ascii.eqb c "]"%char then Some ([p.1], rest)
          else if Ascii.eqb c ","%char then
            q ← parse_elements n rest; Some (p.1 :: q.1, q.2)
          else None
      | [] => None
      end
  end
with parse_members (fuel : nat) (s : bstr) : option (list (bstr * json) * bstr) :=
  match fuel with
  | O => None
  | S n =>
      match skip_ws s with
      | b :: rest =>
          if Ascii.eqb b quote then
            k ← parse_string n rest;
            match skip_ws k.2 with
            | colon :: rest' =>
                if Ascii.eqb colon ":"%char then
                  p ← parse_value n rest';
                  match skip_ws p.2 with
                  | c :: rest'' =>
                      if Ascii.eqb c "}"%char then Some ([(k.1, p.1)], rest'')
                      else if Ascii.eqb c ","%char then
                        q ← parse_members n rest''; Some ((k.1, p.1) :: q.1, q.2)
                      else None
                  | [] => None
                  end
                else None
            | [] => None
            end
          else None
      | [] => None
      end
  end.

(** A whole document.  Every level of the recursion consumes a byte or
    precedes one that does, so twice the length is fuel enough.  (Go also
    refuses documents nested more than 10000 deep.) *)
Definition parse_json (s : bstr) : option json :=
  match parse_value (2 * length s + 2) s with
  | Some (v, rest) => match skip_ws rest with [] => Some v | _ => None end
  | None => None
  end.

(** Decoding into the fields of a struct, all of type [string]: names match
    up to case, other members are ignored, [null] leaves the field alone, a
    value of another type is an error; the last member of a name wins. *)
Definition field_value (name : string) (v : string) (m : bstr * json) : option string :=
  if EqualFold (String.string_of_list_ascii m.1) name then
    match m.2 with
    | JString s => Some (String.string_of_list_ascii s)
    | JNull => Some v
    | _ => None
    end
  else Some v.

Fixpoint decode_field (name : string) (v : string) (ms : list (bstr * json)) : option string :=
  match ms with
  | [] => Some v
  | m :: ms' => v' ← field_value name v m; decode_field name v' ms'
  end.

Definition decode_fields (names : list string) (v : json) : option (list string) :=
  match v with
  | JNull => Some ((fun _ => "") <$> names)
  | JObject ms => mapM (fun name => decode_field name "" ms) names
  | _ => None
  end.

(** ** Lemmas *)

(** A rune of several bytes is complete, and is the same whatever follows:
    its width depends on its own bytes only. *)
Lemma rune_width_local b (rest rest' : bstr) (w := rune_width b rest) :
  (1 < w)%nat -> take (w - 1) rest' = take (w - 1) rest ->
  rune_width b rest' = w /\ (w - 1 <= length rest)%nat.
Proof.
  intros Hw Ht. destruct rest as [|c cs].
  { unfold w, rune_width in Hw. repeat case_match; lia. }
  destruct rest' as [|c' cs'].
  { destruct (w - 1)%nat eqn:E; [lia|discriminate]. }
  destruct (w - 1)%nat as [|k] eqn:Ek; [lia|]. cbn [take] in Ht. injection Ht as -> Ht.
  assert (Hl : ((length cs' <? k) = (length cs <? k))%nat).
  { apply (f_equal length) in Ht. rewrite !length_take in Ht.
    destruct (Nat.ltb_spec (length cs') k), (Nat.ltb_spec (length cs) k); lia. }
  subst w. unfold rune_width in *. cbn [length].
  repeat match goal with
  | H : context [if between ?l ?h b then _ else _] |- _ => destruct (between l h b) eqn:?
  end; try lia;
    match type of Hw with
    | context [(?n <=? length cs)%nat] =>
        destruct (Nat.leb_spec n (length cs)) as [Hn|Hn];
          [|rewrite andb_false_r in Hw; lia];
        destruct (forallb _ (take _ cs)) eqn:Hf;
          [|rewrite !andb_false_r in Hw; cbn in Hw; lia];
        destruct (between _ _ c) eqn:Hc; cbn [andb] in *; [|lia];
        assert (k = n) as -> by lia;
        rewrite Ht, Hf; apply Nat.ltb_ge in Hn;
        rewrite Nat.leb_antisym, Hl, Hn; cbn [negb]; apply Nat.ltb_ge in Hn; split; [done|lia]
    end.
Qed.

Lemma rune_width_pos b (rest : bstr) : (1 <= rune_width b rest)%nat.
Proof. unfold rune_width. repeat case_match; lia. Qed.

Lemma rune_width_high b (rest : bstr) : (1 < rune_width b rest)%nat -> (194 <= code b)%N.
Proof.
  unfold rune_width, between. intros H.
  repeat match goal with
  | H : context [if ?c then _ else _] |- _ =>
      let E := fresh in destruct c eqn:E; [apply andb_prop in E as [E _]; apply N.leb_le in E; lia|]
  end. lia.
Qed.

(** The decoder undoes the encoding, byte by byte and rune by rune. *)
Lemma parse_escape b n more :
  (code b < 128)%N ->
  parse_string (S n) (json_escape b ++ more)
    = (q ← parse_string n more; Some ([b] ++ q.1, q.2)).
Proof.
  destruct b as [[] [] [] [] [] [] [] []]; intros H; first [reflexivity | vm_compute in H; discriminate].
Qed.

Lemma parse_rune b rest n more :
  ((code b < 128)%N \/ (1 < rune_width b rest)%nat) ->
  parse_string (S n) (json_rune b rest ++ more)
    = (q ← parse_string n more; Some ((b :: take (rune_width b rest - 1) rest) ++ q.1, q.2)).
Proof.
  intros H. unfold json_rune. destruct (N.ltb_spec (code b) 128) as [Hb|Hb].
  - rewrite parse_escape by done.
    assert (rune_width b rest = 1%nat) as ->; [|done].
    pose proof (rune_width_pos b rest). pose proof (rune_width_high b rest).
    destruct (decide (1 < rune_width b rest)%nat); lia.
  - destruct H as [H|Hw]; [lia|].
    destruct (Nat.leb_spec (rune_width b rest) 1) as [|_]; [lia|].
    case_decide as E1; [rewrite E1; reflexivity|].
    case_decide as E2; [rewrite E2; reflexivity|].
    destruct (rune_width_local b rest rest Hw eq_refl) as [_ Hlen].
    set (w := rune_width b rest) in *. set (r := take (w - 1) rest).
    assert (Hr : length r = (w - 1)%nat) by (unfold r; rewrite length_take; lia).
    assert (Hwr : rune_width b (r ++ more) = w).
    { apply rune_width_local; [done|]. change (take (w - 1) (r ++ more) = r).
      rewrite <- Hr. apply take_app_length. }
    pose proof (rune_width_high b rest Hw) as Hhigh.
    cbn [app parse_string].
    rewrite (proj2 (Ascii.eqb_neq b quote)) by (intros ->; by apply Hhigh).
    rewrite (proj2 (Ascii.eqb_neq b backslash)) by (intros ->; by apply Hhigh).
    rewrite (proj2 (N.ltb_ge (code b) 32)), (proj2 (N.ltb_ge (code b) 128)) by lia.
    rewrite Hwr, (proj2 (Nat.leb_gt w 1)) by lia.
    rewrite <- Hr at 1 2. rewrite take_app_length, drop_app_length. reflexivity.
Qed.

(** A valid string survives encoding and decoding. *)
Lemma parse_json_body n m s more :
  (length s <= n)%nat -> valid_utf8 n s = true ->
  (length (json_body n s) < m)%nat ->
  parse_string m (json_body n s ++ quote :: more) = Some (s, more).
Proof.
  revert m s. induction n as [|n IH]; intros m s Hn Hv Hm.
  { destruct s; [|cbn in Hn; lia]. destruct m; [cbn in Hm; lia|]. reflexivity. }
  destruct s as [|b rest]; [destruct m; [cbn in Hm; lia|]; reflexivity|].
  cbn [valid_utf8 json_body] in *. apply andb_prop in Hv as [Hb Hv].
  apply orb_prop in Hb. rewrite N.ltb_lt, Nat.ltb_lt in Hb.
  rewrite length_app in Hm. destruct m as [|m]; [lia|].
  assert (Hne : (1 <= length (json_rune b rest))%nat).
  { unfold json_rune, json_escape. repeat case_match; cbn; lia. }
  rewrite <- app_assoc, parse_rune by done.
  cbn in Hn. rewrite IH; [|rewrite length_drop; lia|done|lia].
  cbn. by rewrite take_drop.
Qed.

Lemma list_string_list (s : string) :
  String.string_of_list_ascii (String.list_ascii_of_string s) = s.
Proof. apply String.string_of_list_ascii_of_string. Qed.

(** ** Concatenation *)

Lemma length_string_app (s t : string) :
  String.length (s +:+ t) = String.length s + String.length t.
Proof. induction s as [|c s IH]; [done|]. exact (f_equal S IH). Qed.

Lemma string_app_tail_inj (s t u : string) : s +:+ u = t +:+ u -> s = t.
Proof.
  intros E. assert (String.length s = String.length t) as El.
  { apply (f_equal String.length) in E. rewrite !length_string_app in E. lia. }
  revert t E El. induction s as [|c s IH]; intros [|d t] E El; try discriminate; [done|].
  injection E as -> E. injection El as El. f_equal. by apply IH.
Qed.
