(* ===== verification/GoErr.v ===== *)
(** * Error values (shared/errors)

    Go's [error] interface as the repository uses it: sentinels, [AppError],
    [fmt.Errorf] with [%w], [errors.Join], and the error types of the
    libraries that [resolver.go] tells apart.  A [nil] error is [None] of
    [option goerr]. *)

From S2P Require Import Prelude.
From stdpp Require Import base gmap list strings pretty.

(** ** The tree of errors *)

(** The leaves: an error that wraps nothing. *)
Inductive leaf : Type :=
| Sentinel (name : string)      (* a package level [var ErrX = errors.New(..)] *)
| ValidationErrors              (* validator.ValidationErrors *)
| UnmarshalTypeError            (* *json.UnmarshalTypeError *)
| SyntaxError                   (* *json.SyntaxError *)
| MaxBytesError                 (* *http.MaxBytesError *)
| Opaque.                       (* any other error value, made by [errors.New] *)

#[global] Instance leaf_eq_dec : EqDecision leaf.
Proof. solve_decision. Defined.

#[warnings="-register-all"]
Inductive goerr : Type :=
| Leaf (k : leaf) (msg : string)
| NetError (msg : string) (timeout : bool) (cause : option goerr)
| AppError (ErrCode ErrType : string) (Cause : option goerr)
| Errorf (prefix : string) (cause : goerr) (suffix : string)
| Errorf2 (first second : goerr)   (* fmt.Errorf of "%w: %w" *)
| Join (errs : list goerr).

(** [context.Canceled], [context.DeadlineExceeded], [redis.Nil]. *)
Definition Canceled : goerr := Leaf (Sentinel "context.Canceled") "context canceled".
Definition DeadlineExceeded : goerr :=
  Leaf (Sentinel "context.DeadlineExceeded") "context deadline exceeded".
Definition redis_Nil : goerr := Leaf (Sentinel "redis.Nil") "redis: nil".

(** [errors.New] of a message. *)
Definition errors_New (msg : string) : goerr := Leaf Opaque msg.

(** [fmt.Errorf("prefix%w", err)], also at [nil]: the formatter then writes
    [%!w(<nil>)] and the result wraps nothing. *)
Definition errorf_w (prefix : string) (err : option goerr) : goerr :=
  match err with
  | Some e => Errorf prefix e ""
  | None => errors_New (prefix +:+ "%!w(<nil>)")
  end.

(** [errors.Join]: [nil] when every argument is [nil]. *)
Definition errors_Join (errs : list (option goerr)) : option goerr :=
  match omap id errs with
  | [] => None
  | es => Some (Join es)
  end.

(** ** Induction over the tree *)

Section goerr_ind.
Context (P : goerr -> Prop).
Context (HLeaf : forall k m, P (Leaf k m)).
Context (HNet : forall m t c, (forall e, c = Some e -> P e) -> P (NetError m t c)).
Context (HApp : forall c t o, (forall e, o = Some e -> P e) -> P (AppError c t o)).
Context (HErrorf : forall p e s, P e -> P (Errorf p e s)).
Context (HErrorf2 : forall e1 e2, P e1 -> P e2 -> P (Errorf2 e1 e2)).
Context (HJoin : forall es, Forall P es -> P (Join es)).

Fixpoint goerr_tree_ind (e : goerr) : P e :=
  let opt (o : option goerr) : forall e', o = Some e' -> P e' :=
    match o with
    | None => fun e' H => ltac:(discriminate)
    | Some x => fun e' H => eq_ind x P (goerr_tree_ind x) e' (f_equal (default x) H)
    end in
  match e with
  | Leaf k m => HLeaf k m
  | NetError m t c => HNet m t c (opt c)
  | AppError c t o => HApp c t o (opt o)
  | Errorf p e' s => HErrorf p e' s (goerr_tree_ind e')
  | Errorf2 e1 e2 => HErrorf2 e1 e2 (goerr_tree_ind e1) (goerr_tree_ind e2)
  | Join es =>
      HJoin es ((fix go l : Forall P l :=
        match l with
        | [] => List.Forall_nil P
        | x :: l' => List.Forall_cons P x l' (goerr_tree_ind x) (go l')
        end) es)
  end.
End goerr_ind.

(** ** Traversal: [errors.As] and [errors.Is] *)

(** Pre-order, depth first: the error itself, then what it unwraps to.  The
    same walk serves [errors.As] (the first error of a type) and [errors.Is]
    (the first match). *)
Fixpoint find_err {A : Type} (f : goerr -> option A) (e : goerr) : option A :=
  match f e with
  | Some a => Some a
  | None =>
      match e with
      | Leaf _ _ => None
      | NetError _ _ (Some c) | AppError _ _ (Some c) | Errorf _ c _ => find_err f c
      | NetError _ _ None | AppError _ _ None => None
      | Errorf2 e1 e2 => match find_err f e1 with Some a => Some a | None => find_err f e2 end
      | Join es =>
          (fix go (l : list goerr) : option A :=
             match l with
             | [] => None
             | x :: l' => match find_err f x with
                          | Some a => Some a
                          | None => go l'
                          end
             end) es
      end
  end.

Record app_error := MkAppError {
  ae_code : string;
  ae_type : string;
  ae_err : option goerr;
}.

(** [errors.As(err, &appErr)] with [appErr *AppError]. *)
Definition as_app_error (e : goerr) : option app_error :=
  find_err (fun x => match x with
                     | AppError c t o => Some (MkAppError c t o)
                     | _ => None
                     end) e.

Definition as_leaf (k : leaf) (e : goerr) : bool :=
  match find_err (fun x => match x with
                           | Leaf k' _ => if decide (k = k') then Some tt else None
                           | _ => None
                           end) e with
  | Some _ => true
  | None => false
  end.

(** [errors.As(err, &netErr)] with [netErr net.Error]; the value is what
    [netErr.Timeout()] answers.  [context.DeadlineExceeded] is itself a
    [net.Error] whose [Timeout()] is true. *)
Definition as_net_error (e : goerr) : option bool :=
  find_err (fun x => match x with
                     | NetError _ t _ => Some t
                     | Leaf (Sentinel "context.DeadlineExceeded") _ => Some true
                     | _ => None
                     end) e.

(** [(e *AppError) Is(target)]: same code as the first [AppError] of the
    target. *)
Definition AppError_Is (ErrCode : string) (target : goerr) : bool :=
  match as_app_error target with
  | Some t => String.eqb ErrCode (ae_code t)
  | None => false
  end.

(** One comparison of [errors.Is]: identity for sentinels, the [Is] method
    for [AppError]s. *)
Definition is_match (target e : goerr) : bool :=
  match e with
  | Leaf (Sentinel n) _ =>
      match target with
      | Leaf (Sentinel n') _ => String.eqb n n'
      | _ => false
      end
  | AppError c _ _ => AppError_Is c target
  | _ => false
  end.

(** [errors.Is(err, target)] for a target that is a sentinel or an
    [AppError]. *)
Definition errors_Is (err : option goerr) (target : goerr) : bool :=
  match err with
  | None => false
  | Some e => match find_err (fun x => if is_match target x then Some tt else None) e with
              | Some _ => true
              | None => false
              end
  end.

(** ** shared/errors/errors.go *)

(** [(e *AppError) Error()] and the messages of the other errors. *)
Fixpoint error_string (e : goerr) : string :=
  match e with
  | Leaf _ m => m
  | NetError m _ _ => m
  | AppError c _ None => c
  | AppError c _ (Some e') =>
      if str_empty c then error_string e' else c +:+ ": " +:+ error_string e'
  | Errorf p e' s => p +:+ error_string e' +:+ s
  | Errorf2 e1 e2 => error_string e1 +:+ ": " +:+ error_string e2
  | Join es =>
      (fix go (l : list goerr) : string :=
         match l with
         | [] => ""
         | [x] => error_string x
         | x :: l' => error_string x +:+ String (Ascii.ascii_of_nat 10) "" +:+ go l'
         end) es
  end.

Definition NewAppError (errcode errtype : string) (err : option goerr) : goerr :=
  AppError errcode errtype err.

Definition AppError_Unwrap (e : app_error) : option goerr := ae_err e.

Definition Code (err : option goerr) : string :=
  match err ≫= as_app_error with
  | Some a => ae_code a
  | None => ""
  end.

Definition IsCode (err : option goerr) (code : string) : bool :=
  match err ≫= as_app_error with
  | Some a => String.eqb (ae_code a) code
  | None => false
  end.

(** ** shared/errors/errors_types_codes.go *)

Definition ErrCodeDBQueryFailed := "DB_QUERY_FAILED".
Definition ErrCodeDBTransactionFailed := "DB_TX_FAILED".
Definition ErrCodeCacheWriteFailed := "CACHE_WRITE_FAILED".
Definition ErrCodeCacheReadFailed := "CACHE_READ_FAILED".
Definition ErrCodeCacheDeleteFailed := "CACHE_DELETE_FAILED".
Definition ErrCodeLuaScriptExecutionFailed := "LUA_SCRIPT_EXECUTION_FAILED".
Definition ErrCodeUnauthorized := "UNAUTHORIZED".
Definition ErrCodeInternal := "INTERNAL_ERROR".
Definition ErrCodeValidation := "VALIDATION_ERROR".
Definition ErrCodeNotFound := "NOT_FOUND".
Definition ErrCodeConflict := "CONFLICT".
Definition ErrCodeForbidden := "FORBIDDEN".
Definition ErrCodeMarshalingStruct := "MARSHALING_FAILED".

Definition IsTransient (err : option goerr) : bool :=
  match err with
  | None => false
  | Some e =>
      if errors_Is err Canceled then false
      else if errors_Is err DeadlineExceeded then true
      else match as_net_error e with
           | Some true => true
           | _ => false
           end
  end.

(** ** shared/errors/resolver.go *)

Definition msgFallbackInternal :=
  "Your request could not be completed due to an unexpected server error. Please retry.".

Record ErrorMeta := MkErrorMeta { em_status : Z; em_message : string }.

Definition CodeRegistry := gmap string ErrorMeta.

Record ResolvedError := MkResolved {
  StatusCode : Z;
  ErrorCode : string;
  ErrorType : string;
  ResolvedCause : option goerr;
  Message : string;
}.

Definition fallbackInternal (err : option goerr) (errType : string) : ResolvedError :=
  MkResolved 500 ErrCodeInternal errType err msgFallbackInternal.

Definition ResolveError (err : option goerr) (registry : CodeRegistry)
    (defaultErrorType : string) : ResolvedError :=
  match err with
  | None => fallbackInternal None defaultErrorType
  | Some e =>
      match as_app_error e with
      | Some appErr =>
          match registry !! ae_code appErr with
          | Some meta =>
              MkResolved (em_status meta) (ae_code appErr) (ae_type appErr)
                (ae_err appErr) (em_message meta)
          | None => fallbackInternal err defaultErrorType
          end
      | None =>
          if as_leaf ValidationErrors e then
            MkResolved 400 ErrCodeValidation defaultErrorType err
              "Your request contains invalid or missing fields. Verify all required parameters are provided and correctly formatted."
          else if as_leaf UnmarshalTypeError e then
            MkResolved 400 "INVALID_FIELD_TYPE" defaultErrorType err
              "Your request contains fields with invalid types. Verify all field types match the expected format."
          else if as_leaf SyntaxError e then
            MkResolved 400 "INVALID_JSON" defaultErrorType err
              "Your request could not be processed because the JSON payload is malformed. Ensure your request body is valid JSON."
          else if errors_Is err DeadlineExceeded then
            MkResolved 504 "REQUEST_TIMEOUT" defaultErrorType err
              "Your request took too long to process and has timed out. Please retry your request shortly."
          else if as_leaf MaxBytesError e then
            MkResolved 413 "REQUEST_TOO_LARGE" defaultErrorType err
              "Your request payload is too large to process. Please reduce the size of your request and try again."
          else fallbackInternal err defaultErrorType
      end
  end.

Definition EnsureAppError (err : option goerr) (defaultErrorCode defaultErrorType : string)
  : option goerr :=
  match err with
  | None => None
  | Some e =>
      match as_app_error e with
      | Some _ => err
      | None => Some (NewAppError defaultErrorCode defaultErrorType err)
      end
  end.

(** The same at an error that is there. *)
Definition ensure_app (err : goerr) (defaultErrorCode defaultErrorType : string) : goerr :=
  default err (EnsureAppError (Some err) defaultErrorCode defaultErrorType).

(** ** Lemmas *)

Lemma find_err_app_none (e : goerr) :
  as_app_error e = None -> forall c, IsCode (Some e) c = false.
Proof. intros H c. unfold IsCode. simpl. by rewrite H. Qed.

Lemma as_app_error_AppError c t o :
  as_app_error (AppError c t o) = Some (MkAppError c t o).
Proof. by destruct o. Qed.

Lemma as_app_error_Errorf p e s : as_app_error (Errorf p e s) = as_app_error e.
Proof. reflexivity. Qed.

Lemma IsCode_AppError c t o code :
  IsCode (Some (AppError c t o)) code = String.eqb c code.
Proof. by destruct o. Qed.

Lemma EnsureAppError_nil c t : EnsureAppError None c t = None.
Proof. reflexivity. Qed.

Lemma EnsureAppError_some e c t :
  exists e', EnsureAppError (Some e) c t = Some e' /\ is_Some (as_app_error e').
Proof.
  unfold EnsureAppError. destruct (as_app_error e) eqn:E.
  - exists e. split; [done|]. rewrite E. by eexists.
  - exists (AppError c t (Some e)). split; [done|].
    rewrite as_app_error_AppError. by eexists.
Qed.

Create Rewrite HintDb goerr.
#[export] Hint Rewrite as_app_error_AppError as_app_error_Errorf IsCode_AppError
  EnsureAppError_nil : goerr.
