(* ===== verification/Redis.v ===== *)
(** * Redis, as the program uses it

    Redis is a service outside the repository: it is a parameter, the class
    [Redis] below, whose operations are one typed command per command that a
    Lua script or a client call of the repository issues.  [RedisDoc] states
    the documented behaviour of those commands: the data a Redis holds is
    observed by [redis_view], and every command answers and changes the data
    as [doc_exec] says.  [rdata] itself, with [doc_exec], is an instance, so
    the class can be satisfied.

    A Lua script is a value of [script]: the sequence of its commands and
    the Lua code between them.  Redis runs a script atomically; an error
    raised by a command stops it and keeps the effects so far. *)

From S2P Require Import Prelude.
From stdpp Require Import base gmap sets list strings pretty sorting.
From Stdlib Require Import ZArith QArith Lia.

(** ** Data *)

(** A bulk string; numbers are kept as numbers, because Redis prints the
    numbers of a script with enough digits to read the same number back. *)
Inductive bulk : Type :=
| BStr (s : string)
| BInt (z : Z)
| BNum (q : Q).

(** Keys with a time to live carry their expiry, in microseconds. *)
Record rdata : Type := MkRData {
  r_now : Z;
  r_zsets : gmap string (gmap string Z);
  r_lists : gmap string (list string);
  r_sets : gmap string (gset string);
  r_hashes : gmap string (gmap string bulk * option Z);
  r_strs : gmap string (bulk * option Z);
  r_streams : gmap string (list (Z * string) * option Z);
}.

Definition rdata_empty : rdata := MkRData 0 ∅ ∅ ∅ ∅ ∅ ∅.

(** ** Commands *)

Inductive cmd : Type -> Type :=
| PING : cmd unit
| TIME : cmd (Z * Z)
| ZSCORE (k m : string) : cmd (option Z)
| ZADD (k : string) (score : Z) (m : string) : cmd unit
| ZADD_NX (k : string) (score : Z) (m : string) : cmd unit
| ZADD_XX (k : string) (score : Z) (m : string) : cmd unit
| ZREM (k m : string) : cmd Z
| ZCARD (k : string) : cmd Z
| ZRANGE (k : string) (start stop : nat) : cmd (list string)
| ZRANGEBYSCORE (k : string) (max : Z) (count : option Z) : cmd (list string)
| LPUSH (k v : string) : cmd Z
| RPOP (k : string) : cmd (option string)
| LLEN (k : string) : cmd Z
| LPOS (k v : string) : cmd (option nat)
| INCR (k : string) : cmd Z
| HGET (k f : string) : cmd (option bulk)
| HMGET (k : string) (fs : list string) : cmd (list (option bulk))
| HSET (k : string) (fvs : list (string * bulk)) : cmd unit
| HDEL (k f : string) : cmd Z
| GET (k : string) : cmd (option bulk)
| SET (k : string) (v : bulk) : cmd unit
| SET_PX (k : string) (v : bulk) (ttl_ms : Z) : cmd unit
| SET_NX_EX (k : string) (v : bulk) (ttl_s : Z) : cmd bool
| EXISTS (k : string) : cmd bool
| EXPIRE (k : string) (ttl_s : Z) : cmd unit
| EXPIRE_NX (k : string) (ttl_s : Z) : cmd unit
| TTL (k : string) : cmd Z
| DEL (k : string) : cmd unit
| SADD (k m : string) : cmd unit
| SREM (k m : string) : cmd unit
| SISMEMBER (k m : string) : cmd bool
| SMEMBERS (k : string) : cmd (list string)
| XADD (k payload : string) : cmd Z
| XREAD (k : string) (after : Z) (count : nat) : cmd (list (Z * string)).

(** ** Documented behaviour *)

(** Sorted sets are ranked by score, then by member. *)
Definition ranked_le (x y : Z * string) : Prop :=
  (x.1 < y.1)%Z \/ (x.1 = y.1 /\ String.leb x.2 y.2 = true).

#[global] Instance ranked_le_dec x y : Decision (ranked_le x y).
Proof. unfold ranked_le. apply _. Defined.

Definition ranked (z : gmap string Z) : list (Z * string) :=
  merge_sort ranked_le ((fun kv => (kv.2, kv.1)) <$> map_to_list z).

Definition zset (d : rdata) (k : string) : gmap string Z := default ∅ (r_zsets d !! k).
Definition klist (d : rdata) (k : string) : list string := default [] (r_lists d !! k).
Definition rset (d : rdata) (k : string) : gset string := default ∅ (r_sets d !! k).
Definition rhash (d : rdata) (k : string) : gmap string bulk :=
  default ∅ (fst <$> r_hashes d !! k).
Definition rhash_exp (d : rdata) (k : string) : option Z := r_hashes d !! k ≫= snd.
Definition rstr (d : rdata) (k : string) : option bulk := fst <$> r_strs d !! k.
Definition rstream (d : rdata) (k : string) : list (Z * string) :=
  default [] (fst <$> r_streams d !! k).

Definition set_now (t : Z) (d : rdata) : rdata :=
  MkRData t (r_zsets d) (r_lists d) (r_sets d) (r_hashes d) (r_strs d) (r_streams d).
Definition upd_zsets f (d : rdata) : rdata :=
  MkRData (r_now d) (f (r_zsets d)) (r_lists d) (r_sets d) (r_hashes d) (r_strs d) (r_streams d).
Definition upd_lists f (d : rdata) : rdata :=
  MkRData (r_now d) (r_zsets d) (f (r_lists d)) (r_sets d) (r_hashes d) (r_strs d) (r_streams d).
Definition upd_sets f (d : rdata) : rdata :=
  MkRData (r_now d) (r_zsets d) (r_lists d) (f (r_sets d)) (r_hashes d) (r_strs d) (r_streams d).
Definition upd_hashes f (d : rdata) : rdata :=
  MkRData (r_now d) (r_zsets d) (r_lists d) (r_sets d) (f (r_hashes d)) (r_strs d) (r_streams d).
Definition upd_strs f (d : rdata) : rdata :=
  MkRData (r_now d) (r_zsets d) (r_lists d) (r_sets d) (r_hashes d) (f (r_strs d)) (r_streams d).
Definition upd_streams f (d : rdata) : rdata :=
  MkRData (r_now d) (r_zsets d) (r_lists d) (r_sets d) (r_hashes d) (r_strs d) (f (r_streams d)).

(** A collection that becomes empty disappears. *)
Definition put_zset (k : string) (z : gmap string Z) : rdata -> rdata :=
  upd_zsets (if decide (z = ∅) then delete k else <[k := z]>).
Definition put_list (k : string) (l : list string) : rdata -> rdata :=
  upd_lists (if decide (l = []) then delete k else <[k := l]>).
Definition put_set (k : string) (s : gset string) : rdata -> rdata :=
  upd_sets (if decide (s = ∅) then delete k else <[k := s]>).
Definition put_hash (k : string) (h : gmap string bulk) (e : option Z) : rdata -> rdata :=
  upd_hashes (match map_to_list h with [] => delete k | _ => <[k := (h, e)]> end).

Definition key_exists (d : rdata) (k : string) : bool :=
  bool_decide (is_Some (r_zsets d !! k)) || bool_decide (is_Some (r_lists d !! k))
  || bool_decide (is_Some (r_sets d !! k)) || bool_decide (is_Some (r_hashes d !! k))
  || bool_decide (is_Some (r_strs d !! k)) || bool_decide (is_Some (r_streams d !! k)).

Definition del_key (k : string) (d : rdata) : rdata :=
  MkRData (r_now d) (delete k (r_zsets d)) (delete k (r_lists d)) (delete k (r_sets d))
    (delete k (r_hashes d)) (delete k (r_strs d)) (delete k (r_streams d)).

(** The expiry of the keys the program gives one: strings, hashes and
    streams. *)
Definition key_expiry (d : rdata) (k : string) : option Z :=
  match r_strs d !! k, r_hashes d !! k, r_streams d !! k with
  | Some (_, e), _, _ => e
  | None, Some (_, e), _ => e
  | None, None, Some (_, e) => e
  | None, None, None => None
  end.

Definition set_expiry (k : string) (e : Z) (d : rdata) : rdata :=
  MkRData (r_now d) (r_zsets d) (r_lists d) (r_sets d)
    (alter (fun v => (v.1, Some e)) k (r_hashes d))
    (alter (fun v => (v.1, Some e)) k (r_strs d))
    (alter (fun v => (v.1, Some e)) k (r_streams d)).

Definition do_expire (k : string) (ttl_s : Z) (d : rdata) : rdata :=
  if (ttl_s <=? 0)%Z then del_key k d else set_expiry k (r_now d + ttl_s * 10 ^ 6) d.

Definition next_id (d : rdata) (k : string) : Z :=
  Z.max (r_now d) (from_option (fun p => p.1 + 1) 1 (last (rstream d k)))%Z.

Definition index_of (v : string) (l : list string) : option nat :=
  fst <$> list_find (eq v) l.

Definition zrange_score (z : gmap string Z) (max : Z) (count : option Z) : list string :=
  let l := snd <$> filter (fun p => (p.1 <= max)%Z) (ranked z) in
  match count with
  | Some n => if (n <? 0)%Z then l else take (Z.to_nat n) l
  | None => l
  end.

(** What a command answers and does.  [Err] is an error reply. *)
Definition doc_exec {A : Type} (c : cmd A) (d : rdata) : res string A * rdata :=
  match c in cmd A return res string A * rdata with
  | PING => (Ok tt, d)
  | TIME => (Ok (r_now d / 10 ^ 6, r_now d mod 10 ^ 6)%Z, d)
  | ZSCORE k m => (Ok (zset d k !! m), d)
  | ZADD k s m => (Ok tt, put_zset k (<[m := s]> (zset d k)) d)
  | ZADD_NX k s m =>
      (Ok tt, if decide (is_Some (zset d k !! m)) then d
              else put_zset k (<[m := s]> (zset d k)) d)
  | ZADD_XX k s m =>
      (Ok tt, if decide (is_Some (zset d k !! m))
              then put_zset k (<[m := s]> (zset d k)) d else d)
  | ZREM k m =>
      if decide (is_Some (zset d k !! m))
      then (Ok 1%Z, put_zset k (delete m (zset d k)) d) else (Ok 0%Z, d)
  | ZCARD k => (Ok (Z.of_nat (size (zset d k))), d)
  | ZRANGE k i j => (Ok (snd <$> take (S j - i) (drop i (ranked (zset d k)))), d)
  | ZRANGEBYSCORE k mx count => (Ok (zrange_score (zset d k) mx count), d)
  | LPUSH k v =>
      (Ok (Z.of_nat (S (length (klist d k)))), put_list k (v :: klist d k) d)
  | RPOP k => (Ok (last (klist d k)), put_list k (removelast (klist d k)) d)
  | LLEN k => (Ok (Z.of_nat (length (klist d k))), d)
  | LPOS k v => (Ok (index_of v (klist d k)), d)
  | INCR k =>
      match r_strs d !! k with
      | None => (Ok 1%Z, upd_strs <[k := (BInt 1, None)]> d)
      | Some (BInt z, e) =>
          if (z <? int64_max)%Z
          then (Ok (z + 1)%Z, upd_strs <[k := (BInt (z + 1), e)]> d)
          else (Err "ERR increment or decrement would overflow", d)
      | Some _ => (Err "ERR value is not an integer or out of range", d)
      end
  | HGET k f => (Ok (rhash d k !! f), d)
  | HMGET k fs => (Ok ((fun f => rhash d k !! f) <$> fs), d)
  | HSET k fvs =>
      (Ok tt, put_hash k (foldl (fun h fv => <[fv.1 := fv.2]> h) (rhash d k) fvs)
                (rhash_exp d k) d)
  | HDEL k f =>
      if decide (is_Some (rhash d k !! f))
      then (Ok 1%Z, put_hash k (delete f (rhash d k)) (rhash_exp d k) d)
      else (Ok 0%Z, d)
  | GET k => (Ok (rstr d k), d)
  | SET k v => (Ok tt, upd_strs <[k := (v, None)]> d)
  | SET_PX k v ttl =>
      if (ttl <=? 0)%Z then (Err "ERR invalid expire time in 'set' command", d)
      else (Ok tt, upd_strs <[k := (v, Some (r_now d + ttl * 1000)%Z)]> d)
  | SET_NX_EX k v ttl =>
      if (ttl <=? 0)%Z then (Err "ERR invalid expire time in 'set' command", d)
      else if key_exists d k then (Ok false, d)
      else (Ok true, upd_strs <[k := (v, Some (r_now d + ttl * 10 ^ 6)%Z)]> d)
  | EXISTS k => (Ok (key_exists d k), d)
  | EXPIRE k ttl => (Ok tt, do_expire k ttl d)
  | EXPIRE_NX k ttl =>
      (Ok tt, match key_expiry d k with None => do_expire k ttl d | Some _ => d end)
  | TTL k =>
      (Ok (if key_exists d k then
             match key_expiry d k with
             | None => (-1)%Z
             | Some e => (((e - r_now d) / 1000 + 500) / 1000)%Z
             end
           else (-2)%Z), d)
  | DEL k => (Ok tt, del_key k d)
  | SADD k m => (Ok tt, put_set k ({[m]} ∪ rset d k) d)
  | SREM k m => (Ok tt, put_set k (rset d k ∖ {[m]}) d)
  | SISMEMBER k m => (Ok (bool_decide (m ∈ rset d k)), d)
  | SMEMBERS k => (Ok (elements (rset d k)), d)
  | XADD k p =>
      let i := next_id d k in
      (Ok i, upd_streams
               <[k := (rstream d k ++ [(i, p)], r_streams d !! k ≫= snd)]> d)
  | XREAD k after count =>
      (Ok (take count (filter (fun e => (after < e.1)%Z) (rstream d k))), d)
  end.

(** Time passes; the keys whose time to live is over disappear. *)
Definition live {V : Type} (t : Z) (v : V * option Z) : Prop :=
  match v.2 with None => True | Some e => (t < e)%Z end.

#[global] Instance live_dec {V : Type} t (v : V * option Z) : Decision (live t v).
Proof. unfold live. destruct v.2; apply _. Defined.

Definition doc_wait (dt : Z) (d : rdata) : rdata :=
  let t := (r_now d + Z.max 0 dt)%Z in
  MkRData t (r_zsets d) (r_lists d) (r_sets d)
    (filter (fun kv => live t kv.2) (r_hashes d))
    (filter (fun kv => live t kv.2) (r_strs d))
    (filter (fun kv => live t kv.2) (r_streams d)).

(** ** The service *)

Class Redis (R : Type) := {
  redis_call : forall {A : Type}, cmd A -> R -> res string A * R;
  redis_wait : Z -> R -> R;
  redis_view : R -> rdata;
}.

Class RedisDoc (R : Type) `{!Redis R} : Prop := {
  redis_call_doc : forall (A : Type) (c : cmd A) (r : R),
    doc_exec c (redis_view r) = ((redis_call c r).1, redis_view (redis_call c r).2);
  redis_wait_doc : forall dt (r : R),
    redis_view (redis_wait dt r) = doc_wait dt (redis_view r);
}.

#[global] Instance rdata_redis : Redis rdata := {|
  redis_call := fun A c d => doc_exec c d;
  redis_wait := doc_wait;
  redis_view := fun d => d;
|}.

#[global] Instance rdata_redis_doc : RedisDoc rdata.
Proof.
  split; [|done]. intros A c d. simpl. by destruct (doc_exec c d).
Qed.

(** ** Lua scripts *)

Inductive script (A : Type) : Type :=
| SRet (a : A)
| SCall {B : Type} (c : cmd B) (k : B -> script A)
| SError (msg : string).
Arguments SRet {A}.
Arguments SCall {A B}.
Arguments SError {A}.

Definition call {B : Type} (c : cmd B) : script B := SCall c SRet.

Fixpoint script_bind {A B : Type} (f : A -> script B) (s : script A) : script B :=
  match s with
  | SRet a => f a
  | SCall c k => SCall c (fun x => script_bind f (k x))
  | SError m => SError m
  end.

#[global] Instance script_mret : MRet script := @SRet.
#[global] Instance script_mbind : MBind script := fun A B f s => script_bind f s.

(** [redis.call] raises on an error reply, and the script ends there. *)
Fixpoint run_script {R : Type} `{!Redis R} {A : Type} (s : script A) (r : R)
  : res string A * R :=
  match s with
  | SRet a => (Ok a, r)
  | SCall c k =>
      let '(x, r') := redis_call c r in
      match x with
      | Ok b => run_script (k b) r'
      | Err e => (Err e, r')
      end
  | SError m => (Err m, r)
  end.

(** The documented behaviour of the commands determines that of a script. *)
Lemma run_script_doc {R : Type} `{!Redis R, !RedisDoc R} {A : Type} (s : script A) (r : R) :
  run_script s (redis_view r) = ((run_script s r).1, redis_view (run_script s r).2).
Proof.
  revert r. induction s as [a|B c k IH|m]; intros r; [done| |done].
  cbn [run_script]. change (redis_call c (redis_view r)) with (doc_exec c (redis_view r)).
  rewrite redis_call_doc.
  destruct (redis_call c r) as [[b|e] r']; cbn [fst snd]; [apply IH|done].
Qed.

Lemma run_script_view {R : Type} `{!Redis R, !RedisDoc R} {A : Type} (s : script A) (r : R) :
  redis_view (run_script s r).2 = (run_script s (redis_view r)).2.
Proof. by rewrite run_script_doc. Qed.

Lemma run_script_reply {R : Type} `{!Redis R, !RedisDoc R} {A : Type} (s : script A) (r : R) :
  (run_script s r).1 = (run_script s (redis_view r)).1.
Proof. by rewrite run_script_doc. Qed.

(** ** What Go receives *)

#[warnings="-register-all"]
Inductive resp : Type :=
| RNil
| RInt (z : Z)
| RStr (s : string)
| RArr (l : list resp).

(** A number read from a bulk string by Lua's [tonumber]. *)
Definition tonumber (b : bulk) : option Z :=
  match b with BInt z => Some z | _ => None end.

Definition tonumberQ (b : bulk) : option Q :=
  match b with BInt z => Some (inject_Z z) | BNum q => Some q | BStr _ => None end.

(** A bulk string as text.  What is read as text is written as text or as an
    integer; no script stores a fraction there. *)
Definition bulk_text (b : bulk) : string :=
  match b with BStr s => s | BInt z => pretty z | BNum _ => "" end.

(** The millisecond clock of the scripts:
    [tonumber(t[1]) * 1000 + math.floor(tonumber(t[2]) / 1000)]. *)
Definition lua_now : script Z :=
  t ← call TIME; mret (t.1 * 1000 + t.2 / 1000)%Z.

(** ** Lemmas about the documented data *)

Lemma ms_of_us t : (t / 10 ^ 6 * 1000 + t mod 10 ^ 6 / 1000)%Z = (t / 1000)%Z.
Proof.
  rewrite (Z.div_mod t (10 ^ 6)) at 3 by lia.
  replace (10 ^ 6 * (t / 10 ^ 6) + t mod 10 ^ 6)%Z
    with (t mod 10 ^ 6 + (t / 10 ^ 6 * 1000) * 1000)%Z by lia.
  rewrite Z.div_add by lia. lia.
Qed.

Lemma elem_of_ranked z s m : (s, m) ∈ ranked z <-> z !! m = Some s.
Proof.
  unfold ranked. rewrite (merge_sort_Permutation ranked_le).
  rewrite list_elem_of_fmap. split.
  - intros ([k v] & [= -> ->] & H). by apply elem_of_map_to_list in H.
  - intros H. exists (m, s). split; [done|]. by apply elem_of_map_to_list.
Qed.

Lemma ranked_nil z : ranked z = [] <-> z = ∅.
Proof.
  unfold ranked. split.
  - intros H. pose proof (merge_sort_Permutation ranked_le
      ((fun kv => (kv.2, kv.1)) <$> map_to_list z)) as Hp.
    rewrite H in Hp. apply Permutation_nil in Hp.
    apply fmap_nil_inv in Hp. by apply map_to_list_empty_iff.
  - intros ->. by rewrite map_to_list_empty.
Qed.

Lemma zset_put_eq k z d : zset (put_zset k z d) k = z.
Proof.
  unfold zset, put_zset. simpl. destruct (decide (z = ∅)) as [->|].
  - by rewrite lookup_delete_eq.
  - by rewrite lookup_insert_eq.
Qed.

Lemma zset_put_ne k k' z d : k <> k' -> zset (put_zset k z d) k' = zset d k'.
Proof.
  intros Hne. unfold zset, put_zset. simpl. destruct (decide (z = ∅)) as [->|].
  - by rewrite lookup_delete_ne.
  - by rewrite lookup_insert_ne.
Qed.

Lemma klist_put_eq k l d : klist (put_list k l d) k = l.
Proof.
  unfold klist, put_list. simpl. destruct (decide (l = [])) as [->|].
  - by rewrite lookup_delete_eq.
  - by rewrite lookup_insert_eq.
Qed.

Lemma klist_put_ne k k' l d : k <> k' -> klist (put_list k l d) k' = klist d k'.
Proof.
  intros Hne. unfold klist, put_list. simpl. destruct (decide (l = [])) as [->|].
  - by rewrite lookup_delete_ne.
  - by rewrite lookup_insert_ne.
Qed.

Lemma rset_put_eq k s d : rset (put_set k s d) k = s.
Proof.
  unfold rset, put_set. simpl. destruct (decide (s = ∅)) as [->|].
  - by rewrite lookup_delete_eq.
  - by rewrite lookup_insert_eq.
Qed.

Lemma rhash_put_eq k h e d : rhash (put_hash k h e d) k = h.
Proof.
  unfold rhash, put_hash. simpl. destruct (map_to_list h) eqn:E.
  - apply map_to_list_empty_iff in E as ->. by rewrite lookup_delete_eq.
  - by rewrite lookup_insert_eq.
Qed.

Lemma rhash_put_ne k k' h e d : k <> k' -> rhash (put_hash k h e d) k' = rhash d k'.
Proof.
  intros Hne. unfold rhash, put_hash. simpl. destruct (map_to_list h).
  - by rewrite lookup_delete_ne.
  - by rewrite lookup_insert_ne.
Qed.

Lemma rhash_set_expiry d k e k' : rhash (set_expiry k e d) k' = rhash d k'.
Proof.
  unfold rhash, set_expiry. simpl. destruct (decide (k = k')) as [->|Hne].
  - rewrite lookup_alter_eq. by destruct (r_hashes d !! k').
  - by rewrite lookup_alter_ne.
Qed.

(** ** Running scripts on the documented data *)

(** Execute the first command of a script. *)
Lemma run_call {A B : Type} (c : cmd B) (k : B -> script A) (d : rdata) :
  run_script (x ← call c; k x) d =
    match doc_exec c d with
    | (Ok b, d') => run_script (k b) d'
    | (Err e, d') => (Err e, d')
    end.
Proof. cbn. by destruct (doc_exec c d) as [[b|e] d']. Qed.

Lemma run_ret {A : Type} (a : A) (d : rdata) : run_script (mret a) d = (Ok a, d).
Proof. reflexivity. Qed.

Lemma run_bind {A B : Type} (s : script B) (k : B -> script A) (d : rdata) :
  run_script (x ← s; k x) d =
    match run_script s d with
    | (Ok b, d') => run_script (k b) d'
    | (Err e, d') => (Err e, d')
    end.
Proof.
  revert d. induction s as [b|C c k' IH|m]; intros d; cbn; [done| |done].
  destruct (doc_exec c d) as [[x|e] d']; [apply IH|done].
Qed.

Lemma run_tail {B : Type} (c : cmd B) (d : rdata) : run_script (call c) d = doc_exec c d.
Proof. cbn. by destruct (doc_exec c d) as [[b|e] d']. Qed.

(** One command, at the data of the goal. *)
Ltac lua1 := rewrite run_call; cbn [doc_exec].

(** The end of a script. *)
Ltac lua_ret := cbn [mret script_mret mbind script_mbind script_bind run_script fst snd].

Lemma rhash_del d k k' : rhash (del_key k d) k' = if decide (k = k') then ∅ else rhash d k'.
Proof.
  unfold rhash, del_key. cbn. case_decide as E; [subst; by rewrite lookup_delete_eq|].
  by rewrite lookup_delete_ne.
Qed.

(** Commands take no time. *)
Lemma doc_exec_now {A : Type} (c : cmd A) (d : rdata) : r_now (doc_exec c d).2 = r_now d.
Proof.
  assert (Hexp : forall k t d, r_now (do_expire k t d) = r_now d).
  { intros. unfold do_expire. by case_match. }
  destruct c; cbn [doc_exec]; try done; repeat case_match; try done; apply Hexp.
Qed.

Lemma run_script_now {A : Type} (s : script A) (d : rdata) :
  r_now (run_script s d).2 = r_now d.
Proof.
  revert d. induction s as [a|B c k IH|m]; intros d; [done| |done].
  cbn [run_script]. change (redis_call c d) with (doc_exec c d).
  pose proof (doc_exec_now c d) as Hn.
  destruct (doc_exec c d) as [[b|e] d']; cbn [fst snd] in *; [by rewrite IH|done].
Qed.

Create Rewrite HintDb redis.
#[export] Hint Rewrite zset_put_eq klist_put_eq rset_put_eq rhash_put_eq rhash_set_expiry
  @run_ret : redis.
