(* ===== verification/Env.v ===== *)
(** * What the Go code gets from its environment

    One class per service that the code calls and the repository does not
    implement: the request context, the clock, the formatter of the standard
    library, the connection to Redis.  The use cases are programs over any
    world [W] with these services. *)

From S2P Require Import Prelude GoErr Redis.
From stdpp Require Import base list strings.
From Stdlib Require Import ZArith.

(** [ctx.Err()], and a sleep that the context may cut short: [ctx_sleep d]
    is the [select] between [ctx.Done()] (an error) and a timer. *)
Class GoContext (W : Type) := {
  ctx_Err : M W (option goerr);
  ctx_sleep : Z -> M W (option goerr);
}.

(** [time.Now()] in nanoseconds since the epoch. *)
Class GoClock (W : Type) := { time_Now : M W Z }.

(** Parsing of the standard library: [fmt.Sscan] into an [int64],
    [strconv.ParseInt], and RFC 3339 times (seconds since the epoch). *)
Class GoFmt := {
  sscan_int64 : string -> option Z;
  parse_int64 : string -> option Z;
  format_rfc3339 : Z -> string;
  parse_rfc3339 : string -> option Z;
}.

(** [client.Do] and [script.Run]: the whole script is one request.  The
    connection may fail before the request reached Redis, or lose the reply
    after Redis ran it. *)
Class RedisClient (W : Type) := {
  rc_run : forall {A : Type}, script A -> M W (res goerr A);
}.

Section client.
Context {W : Type} `{!RedisClient W, !GoFmt}.

(** [.Result()]: a nil reply is the error [redis.Nil]. *)
Definition rc_Result (s : script resp) : M W (res goerr resp) :=
  r ← rc_run s;
  mret match r with
       | Ok RNil => Err redis_Nil
       | r => r
       end.

(** [.Int()] and [.Int64()]. *)
Definition resp_Int64 (v : resp) : res goerr Z :=
  match v with
  | RInt z => Ok z
  | RStr s => match parse_int64 s with
              | Some z => Ok z
              | None => Err (errors_New "strconv.ParseInt: invalid syntax")
              end
  | RNil => Err redis_Nil
  | RArr _ => Err (errors_New "redis: unexpected type=[]interface {} for Int64")
  end.

Definition rc_Int64 (s : script resp) : M W (res goerr Z) :=
  r ← rc_Result s;
  mret match r with
       | Ok v => resp_Int64 v
       | Err e => Err e
       end.
End client.

(** A world that is a Redis and nothing else: every request is delivered.
    An error reply comes back as an opaque error. *)
#[global] Instance direct_client {R : Type} `{!Redis R} : RedisClient R := {|
  rc_run := fun A s r =>
    let '(x, r') := run_script s r in
    (match x with Ok a => Ok a | Err m => Err (errors_New m) end, r');
|}.

Lemma rc_run_direct {R : Type} `{!Redis R} {A : Type} (s : script A) (r : R) :
  rc_run s r =
    (match (run_script s r).1 with Ok a => Ok a | Err m => Err (errors_New m) end,
     (run_script s r).2).
Proof. simpl. by destruct (run_script s r). Qed.

(** *** Clients of a Redis that delivers every request *)

Section direct.
Context {R : Type} `{!Redis R, !RedisDoc R, !GoFmt}.
Implicit Types r : R.

Definition result_of (x : res string resp) : res goerr resp :=
  match x with
  | Ok RNil => Err redis_Nil
  | Ok v => Ok v
  | Err m => Err (errors_New m)
  end.

Lemma rc_Result_direct (s : script resp) r :
  rc_Result s r = (result_of (run_script s (redis_view r)).1, (run_script s r).2).
Proof.
  unfold rc_Result. rewrite bind_unfold, rc_run_direct, ret_unfold. cbn [fst snd].
  rewrite run_script_reply. by destruct (run_script s (redis_view r)).1.
Qed.

Lemma rc_Int64_direct (s : script resp) r :
  rc_Int64 s r =
    (match result_of (run_script s (redis_view r)).1 with
     | Ok v => resp_Int64 v | Err e => Err e end, (run_script s r).2).
Proof. unfold rc_Int64. by rewrite bind_unfold, rc_Result_direct, ret_unfold. Qed.

Lemma rc_cmd_direct {A} (c : cmd A) r :
  rc_run (call c) r =
    (match (doc_exec c (redis_view r)).1 with Ok a => Ok a | Err m => Err (errors_New m) end,
     (run_script (call c) r).2) /\
  redis_view (run_script (call c) r).2 = (doc_exec c (redis_view r)).2.
Proof.
  rewrite rc_run_direct, run_script_reply, run_script_view, !run_tail. done.
Qed.
End direct.
