(* ===== verification/Retry.v ===== *)
(** * Retrying with exponential backoff (shared/retry/retry.go) *)

From S2P Require Import Prelude GoErr Redis Env.
From stdpp Require Import base list strings pretty.
From Stdlib Require Import ZArith Lia.

Record RetryEvent := MkRetryEvent {
  Attempt : nat;
  EvMaxAttempts : Z;
  EvErr : goerr;
  NextDelay : Z;
  WillRetry : bool;
}.

(** [MaxAttempts] is a Go [int]; the delays are nanoseconds.  The two
    callbacks may be [nil]. *)
Record RetryPolicy (W : Type) := MkRetryPolicy {
  MaxAttempts : Z;
  BaseDelay : Z;
  MaxDelay : Z;
  ShouldRetry : option (goerr -> bool);
  OnAttemptFailed : option (RetryEvent -> M W unit);
}.
Arguments MkRetryPolicy {W}.
Arguments MaxAttempts {W}.
Arguments BaseDelay {W}.
Arguments MaxDelay {W}.
Arguments ShouldRetry {W}.
Arguments OnAttemptFailed {W}.

(** The shift is that of [int64]: the bits that leave the word are lost, and
    a shift by 64 or more gives 0. *)
Definition retryDelay (baseDelay maxDelay : Z) (attempt : Z) : Z :=
  if (baseDelay <=? 0)%Z || (attempt <=? 0)%Z then 0%Z
  else
    let delay := wrap64 (Z.shiftl baseDelay (attempt - 1)) in
    if (0 <? maxDelay)%Z && (maxDelay <? delay)%Z then maxDelay else delay.

Section retry.
Context {W : Type} `{!GoContext W}.

Definition sleepWithContext (delay : Z) : M W (option goerr) :=
  if (delay <=? 0)%Z then mret None else ctx_sleep delay.

Definition give_up_error (policy : RetryPolicy W) (lastErr : option goerr) : goerr :=
  errorf_w ("operation failed after " +:+ pretty (MaxAttempts policy) +:+ " attempts: ")
    lastErr.

(** The loop from attempt [attempt] on; [left] attempts remain. *)
Fixpoint retry_loop {T : Type} (policy : RetryPolicy W) (fn : M W (res goerr T))
    (left : nat) (attempt : nat) (lastErr : option goerr) : M W (res goerr T) :=
  match left with
  | O => mret (Err (give_up_error policy lastErr))
  | S left' =>
      r ← fn;
      match r with
      | Ok v => mret (Ok v)
      | Err err =>
          c ← ctx_Err;
          match c with
          | Some e => mret (Err e)
          | None =>
              let shouldRetry :=
                match ShouldRetry policy with None => true | Some f => f err end in
              let willRetry :=
                shouldRetry && (Z.of_nat attempt <? MaxAttempts policy)%Z in
              let nextDelay :=
                if willRetry
                then retryDelay (BaseDelay policy) (MaxDelay policy) (Z.of_nat attempt)
                else 0%Z in
              _ ← match OnAttemptFailed policy with
                  | None => skip
                  | Some f =>
                      f (MkRetryEvent attempt (MaxAttempts policy) err nextDelay willRetry)
                  end;
              if negb willRetry then mret (Err (give_up_error policy (Some err)))
              else
                s ← sleepWithContext nextDelay;
                match s with
                | Some e => mret (Err (errorf_w "retry interrupted: " (Some e)))
                | None => retry_loop policy fn left' (S attempt) (Some err)
                end
          end
      end
  end.

Definition DoWithRetry {T : Type} (policy : RetryPolicy W) (fn : M W (res goerr T))
  : M W (res goerr T) :=
  if (MaxAttempts policy <=? 0)%Z
  then mret (Err (errors_New "retry policy: max attempts must be greater than zero"))
  else retry_loop policy fn (Z.to_nat (MaxAttempts policy)) 1 None.
End retry.

(** ** The delays *)

(** The delay the code means: doubled at each attempt, capped. *)
Definition ideal_delay (baseDelay maxDelay attempt : Z) : Z :=
  let delay := (baseDelay * 2 ^ (attempt - 1))%Z in
  if (0 <? maxDelay)%Z then Z.min maxDelay delay else delay.

Lemma retryDelay_ideal b m a :
  (0 < b)%Z -> (0 < a)%Z -> (b * 2 ^ (a - 1) <= int64_max)%Z ->
  retryDelay b m a = ideal_delay b m a.
Proof.
  intros Hb Ha Hmax. unfold retryDelay, ideal_delay.
  replace ((b <=? 0)%Z || (a <=? 0)%Z) with false by lia. simpl.
  rewrite Z.shiftl_mul_pow2 by lia.
  rewrite wrap64_small by (unfold in_int64, int64_min, int64_max in *; nia).
  destruct (0 <? m)%Z eqn:E; simpl; [|done].
  destruct (m <? b * 2 ^ (a - 1))%Z eqn:E'; lia.
Qed.

(** ** A world that counts the calls of [fn] *)

(** [calls] counts the invocations of [fn]; [answers n] is the [n]th answer;
    [slept] lists the sleeps, the latest first; [kept] is what the callback
    of the policy keeps of the failed attempts. *)
Record trial (T X : Type) := MkTrial {
  calls : nat;
  slept : list Z;
  kept : X;
}.
Arguments MkTrial {T X}.
Arguments calls {T X}.
Arguments slept {T X}.
Arguments kept {T X}.

Section trial.
Context {T X : Type} (answers : nat -> res goerr T).
#[local] Abbreviation W := (trial T X).

Definition trial_fn : M W (res goerr T) :=
  fun w => (answers (calls w), MkTrial (S (calls w)) (slept w) (kept w)).

(** A context that is never cancelled. *)
#[local] Instance trial_ctx : GoContext W := {|
  ctx_Err := mret None;
  ctx_sleep d := fun w => (None, MkTrial (calls w) (d :: slept w) (kept w));
|}.

(** A policy whose callback, if it has one, works on what is kept. *)
Definition trial_policy (maxAttempts baseDelay maxDelay : Z) (should : option (goerr -> bool))
    (onFailed : option (RetryEvent -> X -> X)) : RetryPolicy W :=
  MkRetryPolicy maxAttempts baseDelay maxDelay should
    ((fun f ev => modify_world (fun w => MkTrial (calls w) (slept w) (f ev (kept w)))) <$> onFailed).

Context (maxAttempts baseDelay maxDelay : Z) (should : option (goerr -> bool)).
Context (onFailed : option (RetryEvent -> X -> X)).
#[local] Abbreviation policy := (trial_policy maxAttempts baseDelay maxDelay should onFailed).

Definition trial_run (x : X) : res goerr T * W := DoWithRetry policy trial_fn (MkTrial 0 [] x).

(** Is the answer [e] to call [i] followed by another call? *)
Definition goes_on (i : nat) (e : goerr) : bool :=
  match should with None => true | Some f => f e end && (Z.of_nat (S i) <? maxAttempts)%Z.

(** Does the loop end after the answer to call [i]? *)
Definition stops (i : nat) : bool :=
  match answers i with Ok _ => true | Err e => negb (goes_on i e) end.

(** The sleeps before the calls [i + 1 .. n]. *)
Definition backoffs (i n : nat) : list Z :=
  filter (fun d => (0 < d)%Z)
    ((fun k => retryDelay baseDelay maxDelay (Z.of_nat k)) <$> seq (S i) (n - i)).

(** What the callback is told of call [i], if that failed. *)
Definition failure (i : nat) : option RetryEvent :=
  match answers i with
  | Ok _ => None
  | Err e => Some (MkRetryEvent (S i) maxAttempts e
      (if goes_on i e then retryDelay baseDelay maxDelay (Z.of_nat (S i)) else 0%Z) (goes_on i e))
  end.

(** What is kept of the calls [i .. n]. *)
Definition told (i n : nat) (x : X) : X :=
  match onFailed with
  | None => x
  | Some f => foldl (fun x ev => f ev x) x (omap failure (seq i (S n - i)))
  end.

Lemma told_cons i n x e :
  (i < n)%nat -> failure i = Some e ->
  told i n x = told (S i) n (match onFailed with None => x | Some f => f e x end).
Proof.
  intros Hn He. unfold told. destruct onFailed as [f|]; [|done].
  replace (S n - i)%nat with (S (S n - S i)) by lia. cbn [seq]. cbn [omap list_omap]. by rewrite He.
Qed.

Lemma told_one i x :
  told i i x = match failure i, onFailed with Some e, Some f => f e x | _, _ => x end.
Proof.
  unfold told. replace (S i - i)%nat with 1%nat by lia. cbn.
  destruct (failure i), onFailed; done.
Qed.

(** One call of the callback, and one sleep. *)
Lemma callback_keeps ev (w : W) :
  exists u, match OnAttemptFailed policy with None => skip | Some f => f ev end w
    = (u, MkTrial (calls w) (slept w)
            (match onFailed with None => kept w | Some f => f ev (kept w) end)).
Proof. destruct w. cbn. destruct onFailed; by eexists. Qed.

Lemma sleep_slept d (w : W) :
  exists w', sleepWithContext d w = (None, w') /\ calls w' = calls w /\ kept w' = kept w
    /\ slept w' = (if decide (0 < d)%Z then [d] else []) ++ slept w.
Proof.
  unfold sleepWithContext. case_decide; destruct (Z.leb_spec d 0); try lia; by eexists.
Qed.

Lemma retry_loop_trial left attempt lastErr w :
  attempt = S (calls w) -> (0 < left)%nat ->
  (Z.of_nat attempt + Z.of_nat left = maxAttempts + 1)%Z ->
  let '(r, w') := retry_loop policy trial_fn left attempt lastErr w in
  exists n, (calls w <= n < calls w + left)%nat /\ calls w' = S n
    /\ (forall i, (calls w <= i < n)%nat -> stops i = false) /\ stops n = true
    /\ r = match answers n with Ok v => Ok v | Err e => Err (give_up_error policy (Some e)) end
    /\ slept w' = rev (backoffs (calls w) n) ++ slept w
    /\ kept w' = told (calls w) n (kept w).
Proof.
  revert attempt lastErr w.
  induction left as [|left IH]; intros attempt lastErr w Hat Hpos Hsum; [lia|]. simpl.
  rewrite bind_unfold.
  change (trial_fn w) with (answers (calls w), MkTrial (T := T) (S (calls w)) (slept w) (kept w)).
  set (w1 := MkTrial _ _ _). cbn [fst snd].
  assert (Hnil : backoffs (calls w) (calls w) = []).
  { unfold backoffs. by rewrite Nat.sub_diag. }
  pose proof (told_one (calls w) (kept w)) as Htold. unfold failure in Htold.
  destruct (answers (calls w)) as [v|err] eqn:Ha.
  { simpl. exists (calls w). rewrite Hnil. unfold stops. rewrite Ha, Htold.
    repeat split; try lia; done. }
  rewrite bind_unfold. cbn [fst snd ctx_Err trial_ctx mret M_ret].
  assert (Hgo : match should with None => true | Some f => f err end
    && (Z.of_nat attempt <? maxAttempts)%Z = goes_on (calls w) err) by (by subst attempt).
  rewrite Hgo. set (d := retryDelay baseDelay maxDelay (Z.of_nat attempt)).
  set (go := goes_on (calls w) err) in *.
  set (ev := MkRetryEvent attempt maxAttempts err (if go then d else 0%Z) go).
  assert (Hev : failure (calls w) = Some ev).
  { unfold failure. rewrite Ha. fold go. unfold ev, d. by subst attempt. }
  rewrite bind_unfold.
  destruct (callback_keeps ev w1) as [u Hcb].
  cbn [OnAttemptFailed trial_policy] in Hcb. rewrite Hcb. cbn [fst snd].
  set (w2 := MkTrial _ _ _).
  destruct go eqn:Eg; cbn [negb].
  2:{ simpl. exists (calls w). rewrite Hnil. unfold stops. rewrite Ha.
      change (goes_on (calls w) err) with go. rewrite Eg, told_one, Hev.
      repeat split; try lia; done. }
  assert (Hlt : (Z.of_nat attempt < maxAttempts)%Z).
  { apply andb_true_iff in Hgo as [_ Hlt]. by apply Z.ltb_lt. }
  rewrite bind_unfold. destruct (sleep_slept d w2) as (w3 & -> & Hw3 & Hk3 & Hs3).
  cbn [fst snd w2 w1 calls slept kept] in Hw3, Hs3 |- *.
  specialize (IH (S attempt) (Some err) w3 ltac:(lia) ltac:(lia) ltac:(lia)).
  destruct (retry_loop _ _ _ _ _ w3) as [r w']. rewrite Hw3, Hk3 in IH.
  destruct IH as (n & Hn & Hc & Hno & Hstop & Hr & Hsl & Hk). exists n.
  split; [lia|]. split; [done|]. split.
  { intros i Hi. destruct (decide (i = calls w)) as [->|]; [|apply Hno; lia].
    unfold stops. rewrite Ha. change (goes_on (calls w) err) with go. by rewrite Eg. }
  split; [done|]. split; [done|]. split.
  - rewrite Hsl, Hs3. unfold backoffs.
    replace (n - calls w)%nat with (S (n - S (calls w))) by lia. cbn [seq fmap list_fmap].
    rewrite filter_cons. replace (S (calls w)) with attempt by lia. fold d.
    destruct (decide (0 < d)%Z); [|done].
    cbn [rev]. by rewrite <- app_assoc.
  - rewrite Hk, (told_cons (calls w) n _ ev) by (done || lia). done.
Qed.

(** C38: what [DoWithRetry] does, for a policy of at least one attempt and a
    context that is never cancelled.  It calls the operation until the first
    answer that is a success, an error the policy does not retry, or the
    answer to the last attempt; it returns that success, or wraps that error;
    it makes at most [MaxAttempts] calls, so it terminates; between two calls
    it slept the backoff of the attempt, unless that is not positive; and the
    callback of the policy, if there is one, was told of every failed call in
    order: its number, its error, whether another follows and after which
    delay. *)
Theorem retry_exact (x : X) :
  (0 < maxAttempts)%Z ->
  let '(r, w) := trial_run x in
  exists n, (Z.of_nat n < maxAttempts)%Z /\ calls w = S n
    /\ (forall i, (i < n)%nat -> stops i = false) /\ stops n = true
    /\ r = match answers n with Ok v => Ok v | Err e => Err (give_up_error policy (Some e)) end
    /\ slept w = rev (backoffs 0 n) /\ kept w = told 0 n x.
Proof.
  intros Hmax. unfold trial_run, DoWithRetry. cbn [MaxAttempts trial_policy].
  rewrite (proj2 (Z.leb_gt _ _)) by done.
  pose proof (retry_loop_trial (Z.to_nat maxAttempts) 1 None (MkTrial 0 [] x)
    eq_refl ltac:(lia) ltac:(lia)) as Hl.
  destruct (retry_loop _ _ _ _ _ _) as [r w].
  destruct Hl as (n & Hn & Hc & Hno & Hst & Hr & Hs & Hk).
  cbn [calls slept kept] in *. exists n. rewrite app_nil_r in Hs.
  split; [lia|]. split; [done|]. split; [intros i Hi; apply Hno; lia|]. done.
Qed.
End trial.

(** The backoff.  As long as the doubled base delay fits a
    [time.Duration], the delay before the next attempt is the base delay
    doubled at each attempt and capped by the maximum; it is positive and
    never decreases. *)
Theorem backoff_ideal b m a :
  (0 < b <= m)%Z -> (0 < a)%Z -> (b * 2 ^ a <= int64_max)%Z ->
  retryDelay b m a = Z.min m (b * 2 ^ (a - 1))
  /\ (0 < retryDelay b m a <= m)%Z /\ (retryDelay b m a <= retryDelay b m (a + 1))%Z.
Proof.
  intros Hb Ha Hmax. assert (Hp : (2 ^ a = 2 * 2 ^ (a - 1))%Z).
  { rewrite <- Z.pow_succ_r by lia. f_equal. lia. }
  assert (H1 : (0 < 2 ^ (a - 1))%Z) by (apply Z.pow_pos_nonneg; lia).
  rewrite !retryDelay_ideal by (rewrite ?Z.add_simpl_r; nia).
  unfold ideal_delay. rewrite Z.add_simpl_r, (proj2 (Z.ltb_lt 0 m)) by lia. nia.
Qed.

(** The backoff is lost.  The shift is not guarded against overflow: from
    attempt 65 on - a policy may have up to 255 attempts - there is no delay
    at all, and a base delay of one second with a cap of one minute already
    gives a negative delay, hence no sleep, after attempt 35. *)
Theorem backoff_overflow b m a :
  (0 < b)%Z -> (64 < a)%Z ->
  retryDelay b m a = 0%Z /\ (retryDelay second (60 * second) 35 < 0)%Z.
Proof.
  intros Hb Ha. split; [|vm_compute; reflexivity]. unfold retryDelay.
  rewrite (proj2 (Z.leb_gt b 0)), (proj2 (Z.leb_gt a 0)) by lia. cbn [orb].
  replace (wrap64 (Z.shiftl b (a - 1))) with 0%Z.
  - destruct (Z.ltb_spec 0 m), (Z.ltb_spec m 0); try lia; done.
  - rewrite Z.shiftl_mul_pow2 by lia. unfold wrap64.
    replace (b * 2 ^ (a - 1) + 2 ^ 63)%Z
      with (2 ^ 63 + (b * 2 ^ (a - 1 - 64)) * 2 ^ 64)%Z.
    + by rewrite Z.mod_add.
    + rewrite <- Z.mul_assoc, <- Z.pow_add_r by lia. replace (a - 1 - 64 + 64)%Z with (a - 1)%Z by lia.
      lia.
Qed.

(** ** Witnesses *)

(** Two failures, of which the callback keeps the numbers and the delays. *)
Definition flaky (n : nat) : res goerr nat :=
  if (n <? 2)%nat then Err (errors_New "timeout") else Ok n.
Definition note (ev : RetryEvent) (x : list (nat * Z)) : list (nat * Z) :=
  x ++ [(Attempt ev, NextDelay ev)].

Lemma retry_exact_witness :
  trial_run flaky 5 second (60 * second) None (Some note) []
    = (Ok 2%nat, MkTrial 3 [2 * second; second]%Z [(1%nat, second); (2%nat, (2 * second)%Z)])
  /\ exists n, stops flaky 5 None n = true /\ calls (trial_run flaky 5 second (60 * second) None
       (Some note) []).2 = S n.
Proof.
  split; [vm_compute; reflexivity|].
  pose proof (retry_exact flaky 5 second (60 * second) None (Some note) [] eq_refl) as H.
  destruct (trial_run flaky 5 second (60 * second) None (Some note) []) as [r w].
  destruct H as (n & _ & Hc & _ & Hn & _). exists n. split; [exact Hn|exact Hc].
Defined.

Lemma backoff_ideal_witness : retryDelay second (60 * second) 4 = Z.min (60 * second) (8 * second).
Proof.
  refine (proj1 (backoff_ideal second (60 * second) 4 _ _ _)).
  - split; [reflexivity | discriminate].
  - reflexivity.
  - discriminate.
Defined.

Lemma backoff_overflow_witness : retryDelay second (60 * second) 65 = 0%Z.
Proof. refine (proj1 (backoff_overflow second (60 * second) 65 _ _)); reflexivity. Defined.
