(* ===== verification/Scheduler.v ===== *)
(** * The scheduler (internal/scheduler)

    The Lua scripts of infrastructure/lua_scripts.go, the Redis repository
    that runs them, the queue and claim use cases above it, and the module's
    configuration checks. *)

From S2P Require Import Prelude GoErr Redis Env.
From stdpp Require Import base gmap sets list strings pretty.
From Stdlib Require Import ZArith Lia.

(** ** infrastructure/lua_scripts.go *)

Module Lua.
Definition extendLeaseScript (processing : string) (extension : Z) (job : string)
  : script resp :=
  score ← call (ZSCORE processing job);
  match score with
  | None => mret (RInt 0)
  | Some _ =>
      t ← call TIME;
      let now := (t.1 * 1000 + t.2 / 1000)%Z in
      _ ← call (ZADD_XX processing (now + extension) job);
      mret (RInt 1)
  end.

Definition removeExpiredScript (processing enqueuedAt : string) (job : string)
    (cutoff : Z) : script resp :=
  score ← call (ZSCORE processing job);
  match score with
  | None => mret (RInt 0)
  | Some score =>
      if (cutoff <? score)%Z then mret (RInt 0)
      else
        removed ← call (ZREM processing job);
        _ ← (if (removed =? 1)%Z then _ ← call (HDEL enqueuedAt job); mret tt
             else mret tt);
        mret (RInt removed)
  end.

Definition requeueExpiredScript (processing active queue rotation : string)
    (job user : string) (cutoff : Z) : script resp :=
  score ← call (ZSCORE processing job);
  match score with
  | None => mret (RInt 0)
  | Some score =>
      if (cutoff <? score)%Z then mret (RInt 0)
      else
        _ ← call (ZREM processing job);
        _ ← call (LPUSH queue job);
        n ← call (LLEN queue);
        _ ← (if (n =? 1)%Z then
               seq ← call (INCR rotation);
               call (ZADD_NX active seq user)
             else mret tt);
        mret (RInt 1)
  end.

Definition fairDequeueScript (active processing rotation enqueued : string)
    (lease : Z) : script resp :=
  n ← call (ZCARD active);
  if (n =? 0)%Z then mret RNil
  else
    first ← call (ZRANGE active 0 0);
    match first with
    | [] => SError "attempt to concatenate a nil value (local 'user')"
    | user :: _ =>
        job ← call (RPOP ("queue:user:" +:+ user));
        match job with
        | None => _ ← call (ZREM active user); mret RNil
        | Some job =>
            t ← call TIME;
            let now := (t.1 * 1000 + t.2 / 1000)%Z in
            stored ← call (HGET enqueued job);
            let enqueuedAt :=
              match stored with None => Some now | Some b => tonumber b end in
            _ ← call (HDEL enqueued job);
            remaining ← call (LLEN ("queue:user:" +:+ user));
            _ ← (if (0 <? remaining)%Z then
                   score ← call (INCR rotation);
                   call (ZADD active score user)
                 else _ ← call (ZREM active user); mret tt);
            let lease_deadline := (now + lease)%Z in
            _ ← call (ZADD processing lease_deadline job);
            match enqueuedAt with
            | None => SError "attempt to perform arithmetic on a nil value"
            | Some at_ =>
                mret (RArr [RStr user; RStr job; RInt (Z.max 0 (now - at_))])
            end
        end
    end.

Definition enqueueScript (idem queue active rotation enqueued : string)
    (job : string) (ttl max_length : Z) (user : string) : script resp :=
  queueLength ← call (LLEN queue);
  if (max_length <=? queueLength)%Z then mret (RArr [RInt 0])
  else
    created ← call (SET_NX_EX idem (BStr "1") ttl);
    if negb created then mret (RArr [RInt 1])
    else
      t ← call TIME;
      let now := (t.1 * 1000 + t.2 / 1000)%Z in
      _ ← call (LPUSH queue job);
      _ ← call (HSET enqueued [(job, BInt now)]);
      if (queueLength =? 0)%Z then
        score ← call (INCR rotation);
        _ ← call (ZADD_NX active score user);
        mret (RArr [RInt 2])
      else mret (RArr [RInt 3]).

Definition enqueueOrphanScript
    (completed processing queue active rotation enqueued : string)
    (job user : string) (capacity : Z) : script resp :=
  done_ ← call (SISMEMBER completed job);
  if (done_ : bool) then mret (RInt 0)
  else
    running ← call (ZSCORE processing job);
    if bool_decide (is_Some running) then mret (RInt 0)
    else
      queued ← call (LPOS queue job);
      if bool_decide (is_Some queued) then mret (RInt 0)
      else
        n ← call (LLEN queue);
        if (capacity <=? n)%Z then mret (RInt 2)
        else
          n' ← call (LLEN queue);
          let wasEmpty := (n' =? 0)%Z in
          _ ← call (LPUSH queue job);
          t ← call TIME;
          let now := (t.1 * 1000 + t.2 / 1000)%Z in
          _ ← call (HSET enqueued [(job, BInt now)]);
          _ ← (if wasEmpty then
                 seq ← call (INCR rotation);
                 call (ZADD_NX active seq user)
               else mret tt);
          mret (RInt 1).
End Lua.

(** ** domain *)

Record QueueEntry := MkQueueEntry {
  qe_JobID : string;
  qe_UserID : string;
  qe_CurrentAttempt : Z;
  qe_EnqueuedAt : Z;
}.

Record EnqueueResult := MkEnqueueResult { BecameActive : bool }.

Record FairDequeueResult := MkFairDequeueResult {
  fd_UserID : string;
  fd_JobID : string;
  fd_QueueWait : Z;
}.

Definition ErrDuplicateJob : goerr :=
  Leaf (Sentinel "scheduler.ErrDuplicateJob")
    "duplicate job: a job with this ID already exists in the queue".
Definition ErrQueueFull : goerr :=
  Leaf (Sentinel "scheduler.ErrQueueFull")
    "queue full: user has reached the maximum number of concurrent jobs allowed".
Definition ErrJobNotFound : goerr :=
  Leaf (Sentinel "scheduler.ErrJobNotFound")
    "job not found: the job with the specified ID does not exist in the queue".

(** The scheduler's outbound metrics port. *)
Class SchedulerMetrics (W : Type) := { ObserveQueueWaitDuration : Z -> M W unit }.

(** [JobQueue] and [RecoveryQueue], the interfaces between the use cases and
    the repository. *)
Class JobQueue (W : Type) := {
  jq_PushLeft : QueueEntry -> M W (res goerr EnqueueResult);
  jq_ClaimNextJob : Z -> M W (res goerr (option FairDequeueResult));
  jq_ReleaseProcessingJob : string -> M W (option goerr);
  jq_ExtendProcessingLease : string -> M W (option goerr);
  jq_MarkJobCompleted : string -> M W (option goerr);
}.

Class RecoveryQueue (W : Type) := {
  rq_ExpiredJobIDs : Z -> Z -> M W (res goerr (list string));
  rq_RemoveIfExpired : string -> Z -> M W (res goerr bool);
  rq_RequeueIfExpired : string -> string -> Z -> M W (res goerr bool);
  rq_CompletedJobIDs : M W (res goerr (list string));
  rq_RemoveCompletedJob : string -> M W (option goerr);
  rq_EnqueueIfAbsent : string -> string -> Z -> M W (res goerr bool);
}.

(** ** infrastructure/config, infrastructure/repository.go *)

Record SchedulerConfig := MkSchedulerConfig {
  QueueCapacity : Z;
  IdempotencyKeyTTL : Z;
  ActiveUsersInterval : Z;
}.

Definition queueKeyPrefix := "queue:user:".
Definition idempotencyKeyPrefix := "queue_idempotency_key:".
Definition activeUsersKey := "scheduler:active_users".
Definition processingJobsKey := "processing_jobs".
Definition completedJobsKey := "completed_jobs".
Definition rotationSequenceKey := "scheduler:rotation_seq".
Definition queueEnqueuedAtKey := "scheduler:queue_enqueued_at".

Definition buildQueuePerUserKey (userID : string) : string := queueKeyPrefix +:+ userID.

Definition buildJobIdempotencyKey (userID jobID : string) (attempt : Z) : string :=
  idempotencyKeyPrefix +:+ userID +:+ ":" +:+ jobID +:+ ":" +:+ pretty attempt.

Record RedisSchedulerRepository := NewRedisSchedulerRepository {
  repo_lease : Z;
  repo_config : SchedulerConfig;
}.

Section repository.
Context {W : Type} `{!RedisClient W, !GoFmt}.
Implicit Types r : RedisSchedulerRepository.

Definition redisInt64 (value : resp) : option Z :=
  match value with
  | RInt n => Some n
  | RStr s => sscan_int64 s
  | _ => None
  end.

(** The decoding of the claim script's reply. *)
Definition decode_claim (val : resp) : res goerr (option FairDequeueResult) :=
  match val with
  | RNil => Ok None
  | RArr [a0; a1; a2] =>
      match a0, a1, redisInt64 a2 with
      | RStr userID, RStr jobID, Some waitMillis =>
          if str_empty userID || str_empty jobID
          then Err (errors_New "fair dequeue: empty userID or jobID")
          else Ok (Some (MkFairDequeueResult userID jobID
                           (wrap64 (waitMillis * millisecond))))
      | _, _, _ => Err (errors_New "fair dequeue: non-string elements in result")
      end
  | _ => Err (errors_New "fair dequeue: unexpected result type")
  end.

Definition ClaimNextJob r (workerID : Z) : M W (res goerr (option FairDequeueResult)) :=
  val ← rc_Result
    (Lua.fairDequeueScript activeUsersKey processingJobsKey rotationSequenceKey
       queueEnqueuedAtKey (duration_milliseconds (repo_lease r)));
  mret match val with
       | Err err =>
           if errors_Is (Some err) redis_Nil then Ok None
           else Err (errorf_w "fair dequeue failed: " (Some err))
       | Ok val => decode_claim val
       end.

(** The decoding of the enqueue script's reply. *)
Definition decode_enqueue (result : resp) : res goerr EnqueueResult :=
  match result with
  | RArr [x] =>
      match redisInt64 x with
      | None =>
          Err (errors_New "unexpected success value type from redis enqueue script")
      | Some 0%Z => Err (errorf_w "" (Some ErrQueueFull))
      | Some 1%Z => Err (errorf_w "" (Some ErrDuplicateJob))
      | Some 2%Z => Ok (MkEnqueueResult true)
      | Some 3%Z => Ok (MkEnqueueResult false)
      | Some decision =>
          Err (errors_New ("unexpected result from redis enqueue script: "
                             +:+ pretty decision))
      end
  | _ => Err (errors_New "unexpected result format from redis enqueue script")
  end.

Definition PushLeft r (entry : QueueEntry) : M W (res goerr EnqueueResult) :=
  let userQueueKey := buildQueuePerUserKey (qe_UserID entry) in
  let idempotentKey :=
    buildJobIdempotencyKey (qe_UserID entry) (qe_JobID entry) (qe_CurrentAttempt entry) in
  result ← rc_Result
    (Lua.enqueueScript idempotentKey userQueueKey activeUsersKey rotationSequenceKey
       queueEnqueuedAtKey (qe_JobID entry)
       (duration_seconds (IdempotencyKeyTTL (repo_config r)))
       (QueueCapacity (repo_config r)) (qe_UserID entry));
  mret match result with
       | Err err => Err (errorf_w "redis enqueue script: " (Some err))
       | Ok result => decode_enqueue result
       end.

Definition ReleaseProcessingJob (jobID : string) : M W (option goerr) :=
  removed ← rc_run (call (ZREM processingJobsKey jobID));
  mret match removed with
       | Err err => Some (errorf_w "release processing job: " (Some err))
       | Ok removed =>
           if (removed =? 0)%Z then Some (errors_New "jobID not found") else None
       end.

Definition ExtendProcessingLease r (jobID : string) : M W (option goerr) :=
  updated ← rc_Int64
    (Lua.extendLeaseScript processingJobsKey (duration_milliseconds (repo_lease r)) jobID);
  mret match updated with
       | Err err => Some (errorf_w "extend processing lease: " (Some err))
       | Ok updated => if (updated =? 0)%Z then Some ErrJobNotFound else None
       end.

Definition MarkJobCompleted (jobID : string) : M W (option goerr) :=
  x ← rc_run (call (SADD completedJobsKey jobID));
  mret match x with
       | Err err => Some (errorf_w "mark completed job: " (Some err))
       | Ok _ => None
       end.

(** go-redis sends the [LIMIT] clause only when the count is not zero. *)
Definition ExpiredJobIDs (cutoffMs limit : Z) : M W (res goerr (list string)) :=
  ids ← rc_run (call (ZRANGEBYSCORE processingJobsKey cutoffMs
                        (if (limit =? 0)%Z then None else Some limit)));
  mret match ids with
       | Err err => Err (errorf_w "list expired processing jobs: " (Some err))
       | Ok ids => Ok ids
       end.

Definition RemoveIfExpired (jobID : string) (cutoffMs : Z) : M W (res goerr bool) :=
  n ← rc_Int64 (Lua.removeExpiredScript processingJobsKey queueEnqueuedAtKey jobID cutoffMs);
  mret match n with
       | Err err => Err (errorf_w "remove expired processing job: " (Some err))
       | Ok n => Ok (n =? 1)%Z
       end.

Definition RequeueIfExpired (jobID userID : string) (cutoffMs : Z) : M W (res goerr bool) :=
  n ← rc_Int64 (Lua.requeueExpiredScript processingJobsKey activeUsersKey
                  (buildQueuePerUserKey userID) rotationSequenceKey jobID userID cutoffMs);
  mret match n with
       | Err err => Err (errorf_w "requeue expired processing job: " (Some err))
       | Ok n => Ok (n =? 1)%Z
       end.

Definition CompletedJobIDs : M W (res goerr (list string)) :=
  ids ← rc_run (call (SMEMBERS completedJobsKey));
  mret match ids with
       | Err err => Err (errorf_w "list completed jobs: " (Some err))
       | Ok ids => Ok ids
       end.

Definition RemoveCompletedJob (jobID : string) : M W (option goerr) :=
  x ← rc_run (call (SREM completedJobsKey jobID));
  mret match x with
       | Err err => Some (errorf_w "remove completed job marker: " (Some err))
       | Ok _ => None
       end.

Definition EnqueueIfAbsent (jobID userID : string) (capacity : Z) : M W (res goerr bool) :=
  result ← rc_Int64
    (Lua.enqueueOrphanScript completedJobsKey processingJobsKey
       (buildQueuePerUserKey userID) activeUsersKey rotationSequenceKey
       queueEnqueuedAtKey jobID userID capacity);
  mret match result with
       | Err err => Err (errorf_w "enqueue orphan job: " (Some err))
       | Ok result => Ok (result =? 1)%Z
       end.

(** The repository implements both interfaces. *)
Definition redis_JobQueue r : JobQueue W := {|
  jq_PushLeft := PushLeft r;
  jq_ClaimNextJob := ClaimNextJob r;
  jq_ReleaseProcessingJob := ReleaseProcessingJob;
  jq_ExtendProcessingLease := ExtendProcessingLease r;
  jq_MarkJobCompleted := MarkJobCompleted;
|}.

Definition redis_RecoveryQueue : RecoveryQueue W := {|
  rq_ExpiredJobIDs := ExpiredJobIDs;
  rq_RemoveIfExpired := RemoveIfExpired;
  rq_RequeueIfExpired := RequeueIfExpired;
  rq_CompletedJobIDs := CompletedJobIDs;
  rq_RemoveCompletedJob := RemoveCompletedJob;
  rq_EnqueueIfAbsent := EnqueueIfAbsent;
|}.
End repository.

(** ** public, usecase *)

Definition ErrCodeJobClaimerFailed := "CLAIM_NEXT_JOB_FAILED".
Definition ErrCodeEnqueueFailed := "ENQUEUE_FAILED".
Definition ErrCodeQueueFull := "USER_QUEUE_IS_FULL".
Definition ErrCodeDuplicatedJob := "DUPLICATE_JOB".
Definition ErrCodeReleaseProcessingFailed := "RELEASE_PROCESSING_JOB_FAILED".
Definition ErrCodeReleaseExtendingFailed := "RELEASE_EXTENDING_FAILED".
Definition ErrCodeJobNotFound := "JOB_NOT_FOUND".
Definition ErrTypeScheduler := "SCHEDULER_FAILED".

Record PublicQueueEntry := MkPublicQueueEntry {
  pq_JobID : string;
  pq_UserID : string;
  pq_CurrentAttempt : Z;
}.

Record NextJobClaim := MkNextJobClaim { nj_JobID : string; nj_UserID : string }.

Section usecase.
Context {W : Type} `{!JobQueue W, !SchedulerMetrics W, !GoClock W}.

Definition NextJob (workerID : Z) : M W (res goerr (option NextJobClaim)) :=
  r ← jq_ClaimNextJob workerID;
  match r with
  | Err err =>
      mret match EnsureAppError (Some err) ErrCodeJobClaimerFailed ErrTypeScheduler with
           | Some e => Err e
           | None => Ok None
           end
  | Ok dequeueResult =>
      _ ← match dequeueResult with
          | Some d => when (negb (str_empty (fd_JobID d)))
                        (ObserveQueueWaitDuration (fd_QueueWait d))
          | None => skip
          end;
      mret match dequeueResult with
           | Some d =>
               if str_empty (fd_JobID d) then Ok None
               else Ok (Some (MkNextJobClaim (fd_JobID d) (fd_UserID d)))
           | None => Ok None
           end
  end.

(** The error code the use case gives a failed push. *)
Definition enqueue_code (err : goerr) : string :=
  if errors_Is (Some err) ErrQueueFull then ErrCodeQueueFull
  else if errors_Is (Some err) ErrDuplicateJob then ErrCodeDuplicatedJob
  else ErrCodeEnqueueFailed.

Definition Enqueue (entry : PublicQueueEntry) : M W (EnqueueResult * option goerr) :=
  now ← time_Now;
  let req := MkQueueEntry (pq_JobID entry) (pq_UserID entry)
               (pq_CurrentAttempt entry) now in
  result ← jq_PushLeft req;
  mret match result with
       | Err err =>
           (MkEnqueueResult false,
            EnsureAppError (Some err) (enqueue_code err) ErrTypeScheduler)
       | Ok result => (MkEnqueueResult (BecameActive result), None)
       end.

Definition QueueService_ReleaseProcessingJob (jobID : string) : M W (option goerr) :=
  err ← jq_ReleaseProcessingJob jobID;
  mret match err with
       | Some _ => EnsureAppError err ErrCodeReleaseProcessingFailed ErrTypeScheduler
       | None => None
       end.

Definition QueueService_ExtendProcessingLease (jobID : string) : M W (option goerr) :=
  err ← jq_ExtendProcessingLease jobID;
  mret match err with
       | Some _ =>
           if errors_Is err ErrJobNotFound
           then EnsureAppError err ErrCodeJobNotFound ErrTypeScheduler
           else EnsureAppError err ErrCodeReleaseExtendingFailed ErrTypeScheduler
       | None => None
       end.

Definition QueueService_MarkJobCompleted (jobID : string) : M W (option goerr) :=
  jq_MarkJobCompleted jobID.
End usecase.

(** ** module.go *)

(** The dependency and configuration checks of [NewSchedulerModule]; the
    booleans say whether a pointer argument is not nil. *)
Definition NewSchedulerModule (redisClient logger : bool) (LeaseTimeout : Z)
    (cfg : SchedulerConfig) : res goerr RedisSchedulerRepository :=
  if negb redisClient then
    Err (errors_New "scheduler dependencies: redis client must not be nil")
  else if (LeaseTimeout <=? 0)%Z then
    Err (errors_New "scheduler dependencies: lease timeout must be greater than zero")
  else if negb logger then Err (errors_New "scheduler logger must not be nil")
  else if (QueueCapacity cfg <=? 0)%Z then
    Err (errors_New "scheduler configuration: queue capacity must be greater than zero")
  else if (IdempotencyKeyTTL cfg <? second)%Z then
    Err (errors_New "scheduler configuration: idempotency key TTL must be at least one second")
  else Ok (NewRedisSchedulerRepository LeaseTimeout cfg).
