(* ===== verification/SchedulerSpec.v ===== *)
(** * What the scheduler promises

    The round robin specification of the queue, the invariant of the data in
    Redis, and the effect of every repository method on them. *)

From S2P Require Import Prelude GoErr Redis Env Scheduler.
From stdpp Require Import base gmap sets list strings pretty sorting.
From Stdlib Require Import ZArith Lia.

(** ** The scheduler's part of Redis *)

Definition active (d : rdata) : gmap string Z := zset d activeUsersKey.
Definition processing (d : rdata) : gmap string Z := zset d processingJobsKey.
Definition queue (d : rdata) (u : string) : list string := klist d (buildQueuePerUserKey u).
Definition enq (d : rdata) : gmap string bulk := rhash d queueEnqueuedAtKey.
Definition completed (d : rdata) : gset string := rset d completedJobsKey.
Definition rotseq (d : rdata) : Z :=
  match rstr d rotationSequenceKey with Some (BInt z) => z | _ => 0 end.
Definition seq_ok (d : rdata) : Prop :=
  match r_strs d !! rotationSequenceKey with
  | None => True
  | Some (BInt z, None) => (0 <= z)%Z
  | Some _ => False
  end.

Definition now_ms (d : rdata) : Z := (r_now d / 1000)%Z.

(** Same scheduler data, the clock and the other services' keys apart. *)
Record same_sched (d d' : rdata) : Prop := {
  ss_active : active d' = active d;
  ss_processing : processing d' = processing d;
  ss_queue : forall u, queue d' u = queue d u;
  ss_enq : enq d' = enq d;
  ss_completed : completed d' = completed d;
  ss_seq : r_strs d' !! rotationSequenceKey = r_strs d !! rotationSequenceKey;
}.

(** ** Specification: a round robin of FIFO queues *)

(** Active users in the order they will be served, each with its jobs, the
    oldest first. *)
Definition rr : Type := list (string * list string).

Fixpoint rr_push (u j : string) (q : rr) : rr :=
  match q with
  | [] => [(u, [j])]
  | (u', js) :: q' =>
      if decide (u' = u) then (u', js ++ [j]) :: q' else (u', js) :: rr_push u j q'
  end.

Definition rr_claim (q : rr) : option (string * string) * rr :=
  match q with
  | [] => (None, [])
  | (_, []) :: q' => (None, q')
  | (u, j :: js) :: q' => (Some (u, j), if decide (js = []) then q' else q' ++ [(u, js)])
  end.

(** The queue a Redis holds. *)
Definition rr_of (d : rdata) : rr :=
  (fun p => (p.2, reverse (queue d p.2))) <$> ranked (active d).

(** ** Invariants *)

(** The rotation: a user is active exactly when it has queued jobs, the
    scores are distinct and at most the rotation sequence. *)
Record wf (d : rdata) : Prop := {
  wf_active : forall u, is_Some (active d !! u) <-> queue d u <> [];
  wf_scores : forall u s, active d !! u = Some s -> (s <= rotseq d)%Z;
  wf_inj : forall u u' s, active d !! u = Some s -> active d !! u' = Some s -> u = u';
  wf_seq : seq_ok d;
  wf_enq : forall j b, enq d !! j = Some b -> exists z, b = BInt z;
}.

(** The jobs: a job is queued by its owner, and, if [once] - the submissions
    push new jobs only -, at most once and not while it is being processed. *)
Record jobs_ok (owner : string -> string) (once : Prop) (d : rdata) : Prop := {
  jo_nodup : once -> forall u, NoDup (queue d u);
  jo_owner : forall u j, j ∈ queue d u -> owner j = u;
  jo_excl : once -> forall u j, j ∈ queue d u -> processing d !! j = None;
  jo_names : forall u j, j ∈ queue d u -> j <> "" /\ u <> "";
}.

(** ** Ranks *)

Lemma ascii_compare_N a b :
  Ascii.compare a b = N.compare (Ascii.N_of_ascii a) (Ascii.N_of_ascii b).
Proof. reflexivity. Qed.

Lemma leb_trans s t r :
  String.leb s t = true -> String.leb t r = true -> String.leb s r = true.
Proof.
  unfold String.leb. revert t r.
  induction s as [|a s IH]; intros [|b t] [|c r]; simpl; try done.
  rewrite !ascii_compare_N.
  destruct (N.compare_spec (Ascii.N_of_ascii a) (Ascii.N_of_ascii b)),
    (N.compare_spec (Ascii.N_of_ascii b) (Ascii.N_of_ascii c)),
    (N.compare_spec (Ascii.N_of_ascii a) (Ascii.N_of_ascii c));
    try lia; try done; apply IH.
Qed.

#[global] Instance ranked_le_trans : Transitive ranked_le.
Proof.
  intros [a s] [b t] [c r]; unfold ranked_le; simpl. intros [H|[-> H]] [H'|[-> H']];
    eauto using leb_trans with lia.
Qed.

#[global] Instance ranked_le_antisymm : AntiSymm eq ranked_le.
Proof.
  intros [a s] [b t]; unfold ranked_le; simpl. intros [H|[-> H]] [H'|[H1 H']]; try lia.
  f_equal. by apply String.leb_antisym.
Qed.

#[global] Instance ranked_le_total : Total ranked_le.
Proof.
  intros [a s] [b t]. unfold ranked_le. simpl.
  destruct (String.leb_total s t); destruct (Ztrichotomy a b) as [?|[?|?]];
    subst; auto with lia.
Qed.

Definition swap_list (z : gmap string Z) : list (Z * string) :=
  (fun kv => (kv.2, kv.1)) <$> map_to_list z.

Lemma ranked_sorted z : StronglySorted ranked_le (ranked z).
Proof. apply StronglySorted_merge_sort; apply _. Qed.

Lemma ranked_perm z : ranked z ≡ₚ swap_list z.
Proof. apply merge_sort_Permutation. Qed.

(** The ranking is the only sorted listing of the set. *)
Lemma ranked_unique z l : StronglySorted ranked_le l -> l ≡ₚ swap_list z -> ranked z = l.
Proof.
  intros Hs Hp. apply (StronglySorted_unique ranked_le);
    [apply ranked_sorted|done|by rewrite ranked_perm].
Qed.

Lemma swap_list_insert z u s :
  z !! u = None -> swap_list (<[u := s]> z) ≡ₚ (s, u) :: swap_list z.
Proof. intros H. unfold swap_list. by rewrite (map_to_list_insert z u s H). Qed.

Lemma swap_list_delete z u s :
  z !! u = Some s -> (s, u) :: swap_list (delete u z) ≡ₚ swap_list z.
Proof. intros H. unfold swap_list. by rewrite <- (map_to_list_delete z u s H). Qed.

(** A new member with the largest score goes to the end. *)
Lemma ranked_insert_last z u s :
  z !! u = None -> (forall v t, z !! v = Some t -> (t < s)%Z) ->
  ranked (<[u := s]> z) = ranked z ++ [(s, u)].
Proof.
  intros Hu Hmax. apply ranked_unique.
  - apply StronglySorted_app_2; [|apply ranked_sorted|repeat constructor].
    intros [t v] ? Hin ->%list_elem_of_singleton. left. simpl.
    apply (Hmax v t). by apply elem_of_ranked.
  - rewrite swap_list_insert by done. rewrite ranked_perm.
    symmetry. apply Permutation_cons_append.
Qed.

(** Removing the first member leaves the others in order. *)
Lemma ranked_delete_head z u s l :
  ranked z = (s, u) :: l -> z !! u = Some s /\ ranked (delete u z) = l.
Proof.
  intros H. assert (z !! u = Some s) as Hu.
  { apply elem_of_ranked. rewrite H. left. }
  split; [done|]. apply ranked_unique.
  - pose proof (ranked_sorted z) as Hs. rewrite H in Hs. by inversion Hs.
  - apply (Permutation_cons_inv (a := (s, u))). rewrite swap_list_delete by done.
    by rewrite <- ranked_perm, H.
Qed.

(** Moving the first member to the largest score rotates the order. *)
Lemma ranked_rotate z u s l s' :
  ranked z = (s, u) :: l -> (forall v t, z !! v = Some t -> (t < s')%Z) ->
  ranked (<[u := s']> z) = l ++ [(s', u)].
Proof.
  intros H Hmax. destruct (ranked_delete_head _ _ _ _ H) as [Hu Hl].
  rewrite <- Hl, <- insert_delete_eq.
  apply ranked_insert_last; [apply lookup_delete_eq|].
  intros v t Ht. apply lookup_delete_Some in Ht as [_ Ht]. by apply (Hmax v).
Qed.

(** ** Frames: what each update of the data leaves alone *)

Lemma buildQueuePerUserKey_inj u u' :
  buildQueuePerUserKey u = buildQueuePerUserKey u' -> u = u'.
Proof. unfold buildQueuePerUserKey, queueKeyPrefix. by intros [= ?]. Qed.

Section frames.
Context (d : rdata).

Lemma active_put_active z : active (put_zset activeUsersKey z d) = z.
Proof. apply zset_put_eq. Qed.
Lemma active_put_processing z : active (put_zset processingJobsKey z d) = active d.
Proof. by apply zset_put_ne. Qed.
Lemma processing_put_processing z : processing (put_zset processingJobsKey z d) = z.
Proof. apply zset_put_eq. Qed.
Lemma processing_put_active z : processing (put_zset activeUsersKey z d) = processing d.
Proof. by apply zset_put_ne. Qed.
Lemma queue_put_list u l v :
  queue (put_list (buildQueuePerUserKey u) l d) v = if decide (u = v) then l else queue d v.
Proof.
  unfold queue. destruct (decide (u = v)) as [->|Hne].
  - apply klist_put_eq.
  - apply klist_put_ne. intros H. by apply buildQueuePerUserKey_inj in H.
Qed.
Lemma enq_put_hash h e : enq (put_hash queueEnqueuedAtKey h e d) = h.
Proof. apply rhash_put_eq. Qed.
Lemma completed_put_set s : completed (put_set completedJobsKey s d) = s.
Proof. apply rset_put_eq. Qed.
Lemma seq_upd_strs z e : rotseq (upd_strs <[rotationSequenceKey := (BInt z, e)]> d) = z.
Proof. unfold rotseq, rstr. simpl. by rewrite lookup_insert_eq. Qed.
End frames.

Create Rewrite HintDb sched.
#[export] Hint Rewrite active_put_active active_put_processing processing_put_processing
  processing_put_active queue_put_list enq_put_hash completed_put_set seq_upd_strs : sched.

(** [INCR] of the rotation sequence. *)
Lemma incr_rotation d :
  seq_ok d -> (rotseq d < int64_max)%Z ->
  exists e, doc_exec (INCR rotationSequenceKey) d =
    (Ok (rotseq d + 1)%Z, upd_strs <[rotationSequenceKey := (BInt (rotseq d + 1), e)]> d)
    /\ seq_ok (upd_strs <[rotationSequenceKey := (BInt (rotseq d + 1), e)]> d).
Proof.
  intros Hok Hlt. unfold seq_ok, rotseq, rstr in *. cbn [doc_exec].
  destruct (r_strs d !! rotationSequenceKey) as [[[?|z|?] [?|]]|] eqn:E; try done; simpl in *.
  - rewrite (proj2 (Z.ltb_lt z int64_max)) by lia. exists None. split; [done|].
    rewrite lookup_insert_eq. lia.
  - exists None. split; [done|]. by rewrite lookup_insert_eq.
Qed.

(** ** Pushes *)

(** [u]'s queue grows by [j]; if it was empty, [u] enters the rotation last. *)
Record pushed (d : rdata) (u j : string) (d' : rdata) : Prop := {
  pu_queue : forall v, queue d' v = if decide (u = v) then j :: queue d u else queue d v;
  pu_active : active d' =
    if decide (queue d u = []) then <[u := (rotseq d + 1)%Z]> (active d) else active d;
  pu_seq : rotseq d' = if decide (queue d u = []) then (rotseq d + 1)%Z else rotseq d;
  pu_seq_ok : seq_ok d';
  pu_completed : completed d' = completed d;
}.

Lemma wf_pushed d u j d' :
  wf d -> pushed d u j d' -> (forall i b, enq d' !! i = Some b -> exists z, b = BInt z) ->
  wf d'.
Proof.
  intros [Ha Hs Hi Hk _] [Hq Hac Hsq Hok _] He.
  destruct (decide (queue d u = [])) as [E|E].
  - assert (active d !! u = None) as Hu.
    { apply eq_None_not_Some. intros H. by apply Ha in H. }
    split; try done; intros *; rewrite ?Hac, ?Hsq, ?Hq.
    + destruct (decide (u = u0)) as [->|].
      * rewrite lookup_insert_eq. split; [done|by eexists].
      * rewrite lookup_insert_ne by done. apply Ha.
    + rewrite lookup_insert_Some. intros [[_ <-]|[_ H]]; [lia|].
      specialize (Hs _ _ H). lia.
    + rewrite !lookup_insert_Some. intros [[<- <-]|[Hn H]] [[<- He2]|[Hn' H']]; try done.
      * specialize (Hs _ _ H'). lia.
      * specialize (Hs _ _ H). lia.
      * by apply (Hi _ _ s).
  - split; try done; intros *; rewrite ?Hac, ?Hsq, ?Hq; eauto.
    rewrite Ha. destruct (decide (u = u0)) as [->|]; [|done]. done.
Qed.

Lemma jobs_ok_pushed owner once d u j d' :
  jobs_ok owner once d -> pushed d u j d' ->
  owner j = u -> j <> "" -> u <> "" ->
  (once -> j ∉ queue d u /\ processing d' !! j = None) ->
  (forall i, i <> j -> processing d' !! i = processing d !! i) ->
  jobs_ok owner once d'.
Proof.
  intros [Hn Ho Hx Hm] [Hq _ _ _ _] Hj Hj0 Hu0 Hnew Hp.
  split.
  - intros Honce v. rewrite Hq. destruct (decide (u = v)) as [<-|Hv]; [|by apply Hn].
    destruct (Hnew Honce). constructor; [done|by apply Hn].
  - intros v i. rewrite Hq. destruct (decide (u = v)) as [<-|Hv]; [|by apply Ho].
    intros [->|Hi]%elem_of_cons; [done|by apply Ho].
  - intros Honce v i. rewrite Hq. destruct (Hnew Honce) as [_ Hjp].
    destruct (decide (i = j)) as [->|Hij]; [done|]. rewrite Hp by done.
    destruct (decide (u = v)) as [<-|Hv]; [|by apply (Hx Honce)].
    intros [?|Hi]%elem_of_cons; [done|by apply (Hx Honce u)].
  - intros v i. rewrite Hq. destruct (decide (u = v)) as [<-|Hv]; [|by apply Hm].
    intros [->|Hi]%elem_of_cons; [done|by apply Hm].
Qed.

(** ** The rotation as a list *)

Lemma rr_push_app_new u j q :
  u ∉ q.*1 -> rr_push u j q = q ++ [(u, [j])].
Proof.
  induction q as [|[v js] q IH]; [done|]. cbn. intros Hn.
  rewrite decide_False by (intros ->; apply Hn; left).
  by rewrite IH by (intros H; apply Hn; by right).
Qed.

Lemma rr_push_old (f g : string -> list string) u j (l : list (Z * string)) :
  NoDup l.*2 -> u ∈ l.*2 ->
  (forall v, g v = if decide (u = v) then f u ++ [j] else f v) ->
  (fun p => (p.2, g p.2)) <$> l = rr_push u j ((fun p => (p.2, f p.2)) <$> l).
Proof.
  intros Hn Hu Hg. induction l as [|[s v] l IH]; [by apply elem_of_nil in Hu|].
  cbn in *. apply NoDup_cons in Hn as [Hv Hn]. rewrite Hg.
  destruct (decide (u = v)) as [->|Hne].
  - rewrite decide_True by done. f_equal. apply list_fmap_ext. intros i [t w] Hw. simpl.
    rewrite Hg, decide_False; [done|]. intros <-. apply Hv.
    apply list_elem_of_fmap. exists (t, v). split; [done|].
    by eapply list_elem_of_lookup_2.
  - rewrite decide_False by done. f_equal. apply IH; [done|].
    by apply elem_of_cons in Hu as [?|?].
Qed.

Lemma ranked_NoDup_users d : wf d -> NoDup (ranked (active d)).*2.
Proof.
  intros _. rewrite ranked_perm. unfold swap_list.
  rewrite <- list_fmap_compose. apply NoDup_fst_map_to_list.
Qed.

Lemma elem_of_ranked_users d u :
  u ∈ (ranked (active d)).*2 <-> is_Some (active d !! u).
Proof.
  rewrite list_elem_of_fmap. split.
  - intros ([s v] & -> & H). apply elem_of_ranked in H. by eexists.
  - intros [s H]. exists (s, u). split; [done|]. by apply elem_of_ranked.
Qed.

(** A push on Redis is a push on the specification. *)
Lemma rr_of_pushed d u j d' :
  wf d -> pushed d u j d' -> rr_of d' = rr_push u j (rr_of d).
Proof.
  intros Hwf [Hq Hac _ _ _]. unfold rr_of. rewrite Hac.
  destruct (decide (queue d u = [])) as [E|E].
  - assert (active d !! u = None) as Hu.
    { apply eq_None_not_Some. intros H. by apply (wf_active _ Hwf) in H. }
    rewrite ranked_insert_last; [|done|].
    2:{ intros v t Ht. apply (wf_scores _ Hwf) in Ht. lia. }
    rewrite fmap_app. cbn. rewrite Hq, decide_True, E by done.
    rewrite rr_push_app_new.
    + f_equal. apply list_fmap_ext. intros i [t v] Hv. simpl. rewrite Hq, decide_False; [done|].
      intros <-. apply list_elem_of_lookup_2, elem_of_ranked in Hv. congruence.
    + rewrite <- list_fmap_compose. intros H.
      apply (elem_of_ranked_users d) in H. rewrite Hu in H. by apply is_Some_None in H.
  - apply (rr_push_old (fun v => reverse (queue d v)) (fun v => reverse (queue d' v)));
      [by apply ranked_NoDup_users| |].
    + by apply elem_of_ranked_users, (wf_active _ Hwf).
    + intros v. rewrite Hq. destruct (decide (u = v)) as [->|]; [|done].
      by rewrite reverse_cons.
Qed.

(** ** Claims *)

(** The first user [u] of the rotation gives up its oldest job [j], which is
    leased until [lease] milliseconds from now; [u] goes to the end of the
    rotation, or leaves it when it has no more jobs. *)
Record claimed (lease : Z) (d : rdata) (u j : string) (d' : rdata) : Prop := {
  cl_head : exists s l, ranked (active d) = (s, u) :: l;
  cl_last : queue d u = queue d' u ++ [j];
  cl_queue : forall v, v <> u -> queue d' v = queue d v;
  cl_active : active d' =
    if decide (queue d' u = []) then delete u (active d)
    else <[u := (rotseq d + 1)%Z]> (active d);
  cl_seq : rotseq d' = if decide (queue d' u = []) then rotseq d else (rotseq d + 1)%Z;
  cl_seq_ok : seq_ok d';
  cl_processing : processing d' = <[j := (now_ms d + lease)%Z]> (processing d);
  cl_enq : enq d' = delete j (enq d);
  cl_completed : completed d' = completed d;
}.

Lemma wf_claimed lease d u j d' : wf d -> claimed lease d u j d' -> wf d'.
Proof.
  intros [Ha Hs Hi Hk He] [(s & l & Hh) Hl Hq Hac Hsq Hok _ Hen _].
  assert (Hin : active d !! u = Some s) by (apply elem_of_ranked; rewrite Hh; left).
  destruct (decide (queue d' u = [])) as [E|E].
  - split; try done; intros *; rewrite ?Hac, ?Hsq, ?Hen.
    + destruct (decide (u = u0)) as [<-|].
      * rewrite lookup_delete_eq, E. split; [by intros []|done].
      * rewrite lookup_delete_ne, Hq by done. apply Ha.
    + rewrite lookup_delete_Some. intros [_ H]. by apply (Hs _ _ H).
    + rewrite !lookup_delete_Some. intros [_ H] [_ H']. by apply (Hi _ _ s0).
    + rewrite lookup_delete_Some. intros [_ H]. by apply (He j0).
  - split; try done; intros *; rewrite ?Hac, ?Hsq, ?Hen.
    + destruct (decide (u = u0)) as [<-|].
      * rewrite lookup_insert_eq. split; [done|by eexists].
      * rewrite lookup_insert_ne, Hq by done. apply Ha.
    + rewrite lookup_insert_Some. intros [[_ <-]|[_ H]]; [lia|].
      specialize (Hs _ _ H). lia.
    + rewrite !lookup_insert_Some. intros [[<- <-]|[Hn H]] [[<- He2]|[Hn' H']]; try done.
      * specialize (Hs _ _ H'). lia.
      * specialize (Hs _ _ H). lia.
      * by apply (Hi _ _ s0).
    + rewrite lookup_delete_Some. intros [_ H]. by apply (He j0).
Qed.

Lemma jobs_ok_claimed owner once lease d u j d' :
  jobs_ok owner once d -> claimed lease d u j d' -> jobs_ok owner once d'.
Proof.
  intros [Hn Ho Hx Hm] [_ Hl Hq _ _ _ Hp _ _].
  assert (Hsub : forall v i, i ∈ queue d' v -> i ∈ queue d v).
  { intros v i Hi. destruct (decide (v = u)) as [->|].
    - rewrite Hl. apply elem_of_app. by left.
    - by rewrite <- Hq. }
  assert (Hju : j ∈ queue d u) by (rewrite Hl; apply elem_of_app; right; left).
  assert (Hnj : once -> forall v, j ∉ queue d' v).
  { intros Honce v Hj. destruct (decide (v = u)) as [->|Hv].
    - pose proof (Hn Honce u) as Hnd. rewrite Hl in Hnd.
      apply NoDup_app in Hnd as (_ & Hd & _). apply (Hd j); [done|left].
    - apply Hsub, Ho in Hj. apply Ho in Hju. congruence. }
  split.
  - intros Honce v. destruct (decide (v = u)) as [->|]; [|rewrite Hq by done; by apply Hn].
    pose proof (Hn Honce u) as Hnd. rewrite Hl in Hnd. by apply NoDup_app in Hnd as (? & _).
  - intros v i Hi. by apply Ho, Hsub.
  - intros Honce v i Hi. rewrite Hp, lookup_insert_ne; [by apply (Hx Honce v), Hsub|].
    intros <-. by apply (Hnj Honce v).
  - intros v i Hi. by apply Hm, Hsub.
Qed.

(** A claim on Redis is a claim on the specification. *)
Lemma rr_of_claimed lease d u j d' :
  wf d -> claimed lease d u j d' -> rr_claim (rr_of d) = (Some (u, j), rr_of d').
Proof.
  intros Hwf [(s & l & Hh) Hl Hq Hac _ _ _ _ _].
  pose proof (ranked_NoDup_users d Hwf) as Hnd. rewrite Hh in Hnd. cbn in Hnd.
  apply NoDup_cons in Hnd as [Hul _].
  unfold rr_of at 1. rewrite Hh. cbn.
  rewrite Hl, reverse_snoc. cbn.
  assert (Hrest : (fun p : Z * string => (p.2, reverse (queue d p.2))) <$> l =
                  (fun p => (p.2, reverse (queue d' p.2))) <$> l).
  { apply list_fmap_ext. intros i [t v] Hv. simpl. rewrite Hq; [done|]. intros ->.
    apply Hul. apply list_elem_of_fmap. exists (t, u). split; [done|].
    by eapply list_elem_of_lookup_2. }
  unfold rr_of. rewrite Hac, Hrest. destruct (decide (queue d' u = [])) as [E|E].
  - rewrite E, decide_True by done. by destruct (ranked_delete_head _ _ _ _ Hh) as [_ ->].
  - rewrite decide_False.
    2:{ intros H. apply E. by rewrite <- (reverse_involutive (queue d' u)), H. }
    rewrite (ranked_rotate _ _ _ _ (rotseq d + 1)%Z Hh).
    2:{ intros v t Ht. apply (wf_scores _ Hwf) in Ht. lia. }
    by rewrite fmap_app.
Qed.

(** ** The scripts *)

Lemma fairDequeue_empty lease d :
  active d = ∅ ->
  run_script (Lua.fairDequeueScript activeUsersKey processingJobsKey rotationSequenceKey
                queueEnqueuedAtKey lease) d = (Ok RNil, d).
Proof.
  intros H. unfold Lua.fairDequeueScript. lua1.
  change (zset d activeUsersKey) with (active d). by rewrite H.
Qed.

Lemma now_ms_lua d :
  (r_now d / 10 ^ 6 * 1000 + r_now d mod 10 ^ 6 / 1000)%Z = now_ms d.
Proof. apply ms_of_us. Qed.

Lemma last_removelast {A} (l : list A) x : last l = Some x -> l = removelast l ++ [x].
Proof.
  intros H. destruct l as [|a l] using rev_ind; [done|].
  rewrite last_snoc in H. simplify_eq. by rewrite removelast_snoc.
Qed.

(** Two data that differ in their hashes only. *)
Record same_but_hashes (d d' : rdata) : Prop := {
  sh_zsets : r_zsets d' = r_zsets d;
  sh_lists : r_lists d' = r_lists d;
  sh_sets : r_sets d' = r_sets d;
  sh_strs : r_strs d' = r_strs d;
  sh_now : r_now d' = r_now d;
}.

Lemma hdel_enq d j :
  exists n d', doc_exec (HDEL queueEnqueuedAtKey j) d = (Ok n, d')
    /\ enq d' = delete j (enq d) /\ same_but_hashes d d'.
Proof.
  cbn [doc_exec]. case_decide as E.
  - eexists _, _. split; [done|]. split; [apply enq_put_hash|done].
  - exists 0%Z, d. split; [done|]. split; [|done].
    apply eq_None_not_Some in E. by rewrite delete_id.
Qed.

Lemma enq_hset d j t d' :
  d' = put_hash queueEnqueuedAtKey (<[j := t]> (rhash d queueEnqueuedAtKey))
         (rhash_exp d queueEnqueuedAtKey) d ->
  enq d' = <[j := t]> (enq d) /\ same_but_hashes d d'.
Proof. intros ->. split; [apply enq_put_hash|done]. Qed.

(** The claim script's update of the rotation. *)
Definition claim_rotate (u : string) (remaining : Z) : script unit :=
  if (0 <? remaining)%Z then
    score ← call (INCR rotationSequenceKey);
    call (ZADD activeUsersKey score u)
  else _ ← call (ZREM activeUsersKey u); mret tt.

Lemma claim_rotate_spec u d :
  seq_ok d -> (rotseq d < int64_max)%Z -> is_Some (active d !! u) ->
  exists d', run_script (claim_rotate u (Z.of_nat (length (queue d u)))) d = (Ok tt, d')
    /\ active d' = (if decide (queue d u = []) then delete u (active d)
                    else <[u := (rotseq d + 1)%Z]> (active d))
    /\ rotseq d' = (if decide (queue d u = []) then rotseq d else (rotseq d + 1)%Z)
    /\ seq_ok d' /\ processing d' = processing d /\ (forall v, queue d' v = queue d v)
    /\ enq d' = enq d /\ completed d' = completed d /\ r_now d' = r_now d.
Proof.
  intros Hok Hlt Hu. unfold claim_rotate.
  destruct (decide (queue d u = [])) as [Hq|Hq].
  - rewrite Hq. change (0 <? Z.of_nat (length []))%Z with false. cbv iota.
    lua1. change (zset d activeUsersKey) with (active d). rewrite decide_True by done.
    rewrite run_ret. eexists. split; [done|]. repeat split; autorewrite with sched; done.
  - rewrite (proj2 (Z.ltb_lt 0 (Z.of_nat (length (queue d u)))))
      by (destruct (queue d u); [done|cbn; lia]).
    destruct (incr_rotation d Hok Hlt) as (e & Hincr & Hok').
    rewrite run_call, Hincr, run_tail. cbn [doc_exec].
    eexists. split; [done|].
    repeat split; autorewrite with sched; try done.
    change (rotseq (upd_strs <[rotationSequenceKey:=(BInt (rotseq d + 1), e)]> d) = (rotseq d + 1)%Z).
    apply seq_upd_strs.
Qed.

Lemma fairDequeue_claim lease d :
  wf d -> (rotseq d < int64_max)%Z -> active d <> ∅ ->
  exists u j w d',
    run_script (Lua.fairDequeueScript activeUsersKey processingJobsKey rotationSequenceKey
                  queueEnqueuedAtKey lease) d = (Ok (RArr [RStr u; RStr j; RInt w]), d')
    /\ claimed lease d u j d' /\ (0 <= w)%Z
    /\ w = match enq d !! j with Some (BInt t) => Z.max 0 (now_ms d - t) | _ => 0%Z end
    /\ r_now d' = r_now d.
Proof.
  intros Hwf Hseq Hne. unfold Lua.fairDequeueScript. lua1.
  change (zset d activeUsersKey) with (active d).
  destruct (ranked (active d)) as [|[s u] l] eqn:Hr; [by apply ranked_nil in Hr|].
  assert (Hsz : (Z.of_nat (size (active d)) =? 0)%Z = false).
  { apply Z.eqb_neq. intros H. apply Hne. apply map_size_empty_iff. lia. }
  rewrite Hsz. lua1. change (zset d activeUsersKey) with (active d). rewrite Hr.
  cbn [take drop Nat.sub fmap list_fmap snd].
  assert (Hu : active d !! u = Some s) by (apply elem_of_ranked; rewrite Hr; left).
  lua1. change ("queue:user:" +:+ u) with (buildQueuePerUserKey u).
  change (klist d (buildQueuePerUserKey u)) with (queue d u).
  destruct (last (queue d u)) as [j|] eqn:Hl.
  2:{ apply last_None in Hl. by destruct (proj1 (wf_active _ Hwf u) ltac:(by eexists)). }
  set (d1 := put_list _ _ d).
  assert (Hq1 : forall v, queue d1 v = if decide (u = v) then removelast (queue d u) else queue d v)
    by apply queue_put_list.
  lua1. cbn [fst snd]. change (r_now d1) with (r_now d). rewrite now_ms_lua.
  lua1. change (rhash d1 queueEnqueuedAtKey) with (enq d). rewrite run_call.
  destruct (hdel_enq d1 j) as (n & d2 & -> & He2 & [Hz Hls Hst Hss Hnow]).
  lua1. change (klist d2 (buildQueuePerUserKey u)) with (queue d2 u).
  rewrite run_bind. change (if (0 <? ?n)%Z then _ else _) with (claim_rotate u n).
  assert (Hq2 : forall v, queue d2 v = queue d1 v).
  { intros v. unfold queue, klist. by rewrite Hls. }
  assert (Hs2 : rotseq d2 = rotseq d /\ seq_ok d2 /\ active d2 = active d /\ processing d2 = processing d
    /\ completed d2 = completed d).
  { unfold rotseq, seq_ok, rstr, active, processing, zset, completed, rset.
    rewrite Hss, Hz, Hst. repeat split. apply (wf_seq _ Hwf). }
  destruct Hs2 as (Hs2 & Hok2 & Ha2 & Hp2 & Hc2).
  destruct (claim_rotate_spec u d2) as (d3 & -> & Ha3 & Hs3 & Hok3 & Hp3 & Hq3 & He3 & Hc3 & Hn3);
    [done|lia|rewrite Ha2; by eexists|].
  lua1.
  assert (Hat : exists at_, (match enq d !! j with Some b => tonumber b | None => Some (now_ms d) end)
      = Some at_ /\ Z.max 0 (now_ms d - at_) =
        match enq d !! j with Some (BInt t) => Z.max 0 (now_ms d - t) | _ => 0%Z end).
  { destruct (enq d !! j) as [b|] eqn:Eb.
    - destruct (wf_enq _ Hwf _ _ Eb) as [z ->]. by exists z.
    - exists (now_ms d). split; [done|lia]. }
  destruct Hat as (at_ & -> & Hw). rewrite run_ret.
  set (d4 := put_zset processingJobsKey _ d3).
  exists u, j, (Z.max 0 (now_ms d - at_)), d4.
  split; [done|]. split; [|split; [lia|split; [done|]]].
  2:{ change (r_now d4) with (r_now d3). by rewrite Hn3, Hnow. }
  assert (Hq4 : forall v, queue d4 v = queue d1 v).
  { intros v. change (queue d4 v) with (queue d3 v). by rewrite Hq3, Hq2. }
  assert (Hqu : queue d4 u = removelast (queue d u)) by (by rewrite Hq4, Hq1, decide_True).
  rewrite Hq2, Ha2, Hs2, <- Hq4 in Ha3. rewrite Hq2, Hs2, <- Hq4 in Hs3.
  split; try done.
  - by eexists _, _.
  - rewrite Hqu. by apply last_removelast.
  - intros v Hv. rewrite Hq4, Hq1, decide_False; done.
  - unfold d4. by rewrite active_put_processing.
  - unfold d4. rewrite processing_put_processing.
    change (zset d3 processingJobsKey) with (processing d3). by rewrite Hp3, Hp2.
  - change (enq d4) with (enq d3). by rewrite He3, He2.
  - change (completed d4) with (completed d3). by rewrite Hc3, Hc2.
Qed.

(** A user enters the rotation at the end. *)
Definition activate (u : string) : script unit :=
  rotseq ← call (INCR rotationSequenceKey); call (ZADD_NX activeUsersKey rotseq u).

Lemma activate_spec u d :
  seq_ok d -> (rotseq d < int64_max)%Z -> active d !! u = None ->
  exists d', run_script (activate u) d = (Ok tt, d')
    /\ active d' = <[u := (rotseq d + 1)%Z]> (active d) /\ rotseq d' = (rotseq d + 1)%Z
    /\ seq_ok d' /\ processing d' = processing d /\ (forall v, queue d' v = queue d v)
    /\ enq d' = enq d /\ completed d' = completed d /\ r_now d' = r_now d.
Proof.
  intros Hok Hlt Hu. unfold activate.
  destruct (incr_rotation d Hok Hlt) as (e & Hincr & Hok').
  rewrite run_call, Hincr, run_tail. cbn [doc_exec].
  set (d1 := upd_strs _ d). change (zset d1 activeUsersKey) with (active d).
  rewrite decide_False by (rewrite Hu; by intros [? [=]]).
  eexists. split; [done|]. repeat split; autorewrite with sched; try done.
  change (rotseq d1 = (rotseq d + 1)%Z). apply seq_upd_strs.
Qed.

(** Push [j] on [u]'s queue, then activate [u] if the queue was empty. *)
Lemma push_activate_spec u j d (e : bool) (t : bulk) (stamp : bool) :
  wf d -> (rotseq d < int64_max)%Z -> e = bool_decide (queue d u = []) ->
  let d1 := put_list (buildQueuePerUserKey u) (j :: queue d u) d in
  let d2 := if stamp then put_hash queueEnqueuedAtKey (<[j := t]> (rhash d1 queueEnqueuedAtKey))
                            (rhash_exp d1 queueEnqueuedAtKey) d1 else d1 in
  exists d', run_script (if e then activate u else mret tt) d2 = (Ok tt, d')
    /\ pushed d u j d' /\ processing d' = processing d /\ r_now d' = r_now d
    /\ enq d' = if stamp then <[j := t]> (enq d) else enq d.
Proof.
  intros Hwf Hlt He d1 d2.
  assert (Hq2 : forall v, queue d2 v = if decide (u = v) then j :: queue d u else queue d v).
  { intros v. transitivity (queue d1 v); [by destruct stamp|]. apply queue_put_list. }
  assert (He2 : enq d2 = if stamp then <[j := t]> (enq d) else enq d).
  { destruct stamp; [apply enq_put_hash|done]. }
  assert (Hs2 : rotseq d2 = rotseq d /\ seq_ok d2 /\ active d2 = active d /\ processing d2 = processing d
    /\ completed d2 = completed d /\ r_now d2 = r_now d).
  { pose proof (wf_seq _ Hwf). by destruct stamp. }
  destruct Hs2 as (Hs2 & Hok2 & Ha2 & Hp2 & Hc2 & Hn2).
  destruct (decide (queue d u = [])) as [E|E].
  - rewrite bool_decide_true in He by done. subst e.
    assert (Hu : active d !! u = None).
    { apply eq_None_not_Some. intros H. by apply (wf_active _ Hwf) in H. }
    destruct (activate_spec u d2) as (d3 & -> & Ha3 & Hs3 & Hok3 & Hp3 & Hq3 & He3 & Hc3 & Hn3);
      [done|lia|by rewrite Ha2|].
    exists d3. split; [done|]. split; [|by rewrite Hp3, Hn3, He3, Hp2, Hn2, He2].
    rewrite Hs2, Ha2 in Ha3. rewrite Hs2 in Hs3.
    split; try done.
    + intros v. by rewrite Hq3, Hq2.
    + by rewrite decide_True.
    + by rewrite decide_True.
    + by rewrite Hc3, Hc2.
  - rewrite bool_decide_false in He by done. subst e. rewrite run_ret.
    exists d2. split; [done|]. split; [|by rewrite Hp2, Hn2, He2].
    split; try done; by rewrite decide_False.
Qed.

Lemma length_zero_eqb {A} (l : list A) : (Z.of_nat (length l) =? 0)%Z = bool_decide (l = []).
Proof. destruct l; [done|]. rewrite bool_decide_false by done. by apply Z.eqb_neq. Qed.

(** *** The enqueue script *)

Definition sched_enqueueScript (idem job : string) (ttl cap : Z) (user : string) : script resp :=
  Lua.enqueueScript idem (buildQueuePerUserKey user) activeUsersKey rotationSequenceKey
    queueEnqueuedAtKey job ttl cap user.

Definition claim_key (idem : string) (ttl : Z) (d : rdata) : rdata :=
  upd_strs <[idem := (BStr "1", Some (r_now d + ttl * 10 ^ 6)%Z)]> d.

Lemma same_sched_claim_key idem ttl d :
  idem <> rotationSequenceKey -> same_sched d (claim_key idem ttl d).
Proof. intros Hne. split; try done. simpl. by rewrite lookup_insert_ne. Qed.

Lemma wf_same d d' : same_sched d d' -> wf d -> wf d'.
Proof.
  intros [Ha Hp Hq He Hc Hs] [H1 H2 H3 H4 H5].
  assert (rotseq d' = rotseq d) as Hseq by (unfold rotseq, rstr; by rewrite Hs).
  split.
  - intros u. by rewrite Ha, Hq.
  - intros u s. rewrite Ha, Hseq. apply H2.
  - intros u u' s. rewrite Ha. apply H3.
  - unfold seq_ok. rewrite Hs. apply H4.
  - intros j b. rewrite He. apply H5.
Qed.

Lemma jobs_ok_same owner once d d' :
  same_sched d d' -> jobs_ok owner once d -> jobs_ok owner once d'.
Proof.
  intros [Ha Hp Hq He Hc Hs] [H1 H2 H3 H4].
  split.
  - intros Ho u. rewrite Hq. by apply H1.
  - intros u j. rewrite Hq. apply H2.
  - intros Ho u j. rewrite Hq, Hp. by apply H3.
  - intros u j. rewrite Hq. apply H4.
Qed.

Lemma rr_of_same d d' : same_sched d d' -> rr_of d' = rr_of d.
Proof.
  intros [Ha Hp Hq He Hc Hs]. unfold rr_of. rewrite Ha.
  apply list_fmap_ext. intros i [s u] _. simpl. by rewrite Hq.
Qed.

Lemma seq_same d d' : same_sched d d' -> rotseq d' = rotseq d.
Proof. intros H. unfold rotseq, rstr. by rewrite (ss_seq _ _ H). Qed.

Lemma enqueue_full idem job ttl cap user d :
  (cap <= Z.of_nat (length (queue d user)))%Z ->
  run_script (sched_enqueueScript idem job ttl cap user) d = (Ok (RArr [RInt 0]), d).
Proof.
  intros H. unfold sched_enqueueScript, Lua.enqueueScript. lua1.
  change (klist d (buildQueuePerUserKey user)) with (queue d user).
  by rewrite (proj2 (Z.leb_le _ _) H).
Qed.

Lemma enqueue_duplicate idem job ttl cap user d :
  (Z.of_nat (length (queue d user)) < cap)%Z -> (0 < ttl)%Z -> key_exists d idem = true ->
  run_script (sched_enqueueScript idem job ttl cap user) d = (Ok (RArr [RInt 1]), d).
Proof.
  intros H Ht Hk. unfold sched_enqueueScript, Lua.enqueueScript. lua1.
  change (klist d (buildQueuePerUserKey user)) with (queue d user).
  rewrite (proj2 (Z.leb_gt _ _) H). lua1.
  by rewrite (proj2 (Z.leb_gt _ _) Ht), Hk.
Qed.

Lemma enqueue_ok idem job ttl cap user d :
  wf d -> (rotseq d < int64_max)%Z -> idem <> rotationSequenceKey ->
  (Z.of_nat (length (queue d user)) < cap)%Z -> (0 < ttl)%Z -> key_exists d idem = false ->
  exists d', run_script (sched_enqueueScript idem job ttl cap user) d =
      (Ok (RArr [RInt (if bool_decide (queue d user = []) then 2 else 3)]), d')
    /\ pushed d user job d' /\ processing d' = processing d
    /\ enq d' = <[job := BInt (now_ms d)]> (enq d) /\ r_now d' = r_now d.
Proof.
  intros Hwf Hs Hne H Ht Hk. unfold sched_enqueueScript, Lua.enqueueScript. lua1.
  change (klist d (buildQueuePerUserKey user)) with (queue d user).
  rewrite (proj2 (Z.leb_gt _ _) H). lua1.
  rewrite (proj2 (Z.leb_gt _ _) Ht), Hk. cbn [negb].
  set (d0 := upd_strs _ d). pose proof (same_sched_claim_key idem ttl d Hne) as Hd0.
  change (claim_key idem ttl d) with d0 in Hd0.
  lua1. cbn [fst snd]. rewrite now_ms_lua. lua1.
  change (klist d0 (buildQueuePerUserKey user)) with (queue d0 user). lua1.
  cbn [foldl fst snd]. rewrite length_zero_eqb.
  destruct (push_activate_spec user job d0 (bool_decide (queue d user = []))
              (BInt (now_ms d0)) true) as (d' & Hrun & Hpu & Hpr & Hn & He).
  { by apply (wf_same d). } { by rewrite (seq_same d d0). } { by rewrite (ss_queue _ _ Hd0). }
  exists d'. split; [|split].
  - change (now_ms d) with (now_ms d0). cbv zeta in Hrun.
    case_bool_decide.
    + match goal with |- run_script (score ← call ?A; _ ← call (@?B score); ?k) ?dd = _ =>
        change (run_script (_ ← activate user; k) dd = (Ok (RArr [RInt 2]), d')) end.
      by rewrite run_bind, Hrun.
    + by injection Hrun as <-.
  - assert (Hs0 : rotseq d0 = rotseq d) by by apply seq_same.
    destruct Hpu as [P1 P2 P3 P4 P5].
    rewrite Hs0, (ss_queue _ _ Hd0), (ss_active _ _ Hd0) in P2.
    rewrite Hs0, (ss_queue _ _ Hd0) in P3.
    by split.
  - by rewrite Hpr, He, Hn.
Qed.

(** *** The recovery scripts *)

Definition sched_requeueScript (job user : string) (cutoff : Z) : script resp :=
  Lua.requeueExpiredScript processingJobsKey activeUsersKey (buildQueuePerUserKey user)
    rotationSequenceKey job user cutoff.

Definition sched_removeScript (job : string) (cutoff : Z) : script resp :=
  Lua.removeExpiredScript processingJobsKey queueEnqueuedAtKey job cutoff.

Definition sched_orphanScript (job user : string) (cap : Z) : script resp :=
  Lua.enqueueOrphanScript completedJobsKey processingJobsKey (buildQueuePerUserKey user)
    activeUsersKey rotationSequenceKey queueEnqueuedAtKey job user cap.

Definition sched_extendScript (lease : Z) (job : string) : script resp :=
  Lua.extendLeaseScript processingJobsKey lease job.

(** A lease on [job] that ended at or before [cutoff]. *)
Definition lease_expired (d : rdata) (job : string) (cutoff : Z) : bool :=
  match processing d !! job with Some s => (s <=? cutoff)%Z | None => false end.

Lemma requeue_noop job user cutoff d :
  lease_expired d job cutoff = false ->
  run_script (sched_requeueScript job user cutoff) d = (Ok (RInt 0), d).
Proof.
  unfold lease_expired, sched_requeueScript, Lua.requeueExpiredScript. intros H. lua1.
  change (zset d processingJobsKey) with (processing d).
  destruct (processing d !! job) as [s|]; [|done].
  by rewrite (proj2 (Z.ltb_lt cutoff s)) by lia.
Qed.

Lemma wf_zrem job d :
  let d1 := put_zset processingJobsKey (delete job (processing d)) d in
  wf d -> wf d1.
Proof.
  intros d1 Hwf. destruct Hwf as [H1 H2 H3 H4 H5].
  split; try done; intros *; unfold d1; rewrite ?active_put_processing; eauto.
Qed.

Lemma requeue_ok job user cutoff d :
  wf d -> (rotseq d < int64_max)%Z -> lease_expired d job cutoff = true ->
  exists d', run_script (sched_requeueScript job user cutoff) d = (Ok (RInt 1), d')
    /\ pushed d user job d' /\ processing d' = delete job (processing d)
    /\ enq d' = enq d /\ r_now d' = r_now d.
Proof.
  unfold lease_expired, sched_requeueScript, Lua.requeueExpiredScript. intros Hwf Hs H. lua1.
  change (zset d processingJobsKey) with (processing d).
  destruct (processing d !! job) as [s|] eqn:Hp; [|done].
  rewrite (proj2 (Z.ltb_ge cutoff s)) by lia.
  lua1. change (zset d processingJobsKey) with (processing d).
  rewrite decide_True by (rewrite Hp; by eexists).
  pose proof (wf_zrem job d Hwf) as Hwf1. cbv zeta in Hwf1.
  set (d1 := put_zset _ _ d) in *.
  lua1. change (klist d1 (buildQueuePerUserKey user)) with (queue d user).
  lua1. rewrite klist_put_eq.
  destruct (push_activate_spec user job d1 (bool_decide (queue d user = [])) (BInt 0) false)
    as (d' & Hrun & Hpu & Hpr & Hn & He); [done|done|done|].
  exists d'. split.
  - replace (Z.of_nat (length (job :: queue d user)) =? 1)%Z with (bool_decide (queue d user = [])).
    2:{ destruct (queue d user); [done|]. rewrite bool_decide_false by done. symmetry.
        apply Z.eqb_neq. cbn [length]. lia. }
    change (rotseq ← call (INCR rotationSequenceKey); call (ZADD_NX activeUsersKey rotseq user))
      with (activate user).
    rewrite run_bind.
    change (run_script (if bool_decide (queue d user = []) then activate user else mret ())
              (put_list (buildQueuePerUserKey user) (job :: queue d user) d1)
            = (Ok tt, d')) in Hrun.
    by rewrite Hrun.
  - destruct Hpu as [P1 P2 P3 P4 P5].
    assert (Ha : active d1 = active d) by apply active_put_processing.
    rewrite Ha in P2. split; [done|].
    rewrite Hpr, He, Hn. split; [|done]. unfold d1. by rewrite processing_put_processing.
Qed.

Lemma remove_noop job cutoff d :
  lease_expired d job cutoff = false ->
  run_script (sched_removeScript job cutoff) d = (Ok (RInt 0), d).
Proof.
  unfold lease_expired, sched_removeScript, Lua.removeExpiredScript. intros H. lua1.
  change (zset d processingJobsKey) with (processing d).
  destruct (processing d !! job) as [s|]; [|done].
  by rewrite (proj2 (Z.ltb_lt cutoff s)) by lia.
Qed.

Lemma remove_ok job cutoff d :
  lease_expired d job cutoff = true ->
  exists d', run_script (sched_removeScript job cutoff) d = (Ok (RInt 1), d')
    /\ processing d' = delete job (processing d) /\ active d' = active d
    /\ (forall u, queue d' u = queue d u) /\ enq d' = delete job (enq d)
    /\ completed d' = completed d /\ r_now d' = r_now d
    /\ r_strs d' !! rotationSequenceKey = r_strs d !! rotationSequenceKey.
Proof.
  unfold lease_expired, sched_removeScript, Lua.removeExpiredScript. intros H. lua1.
  change (zset d processingJobsKey) with (processing d).
  destruct (processing d !! job) as [s|] eqn:Hp; [|done].
  rewrite (proj2 (Z.ltb_ge cutoff s)) by lia.
  lua1. change (zset d processingJobsKey) with (processing d).
  rewrite decide_True by (rewrite Hp; by eexists). cbv iota.
  set (d1 := put_zset _ _ d). change (1 =? 1)%Z with true. cbv iota.
  rewrite run_bind, run_call.
  destruct (hdel_enq d1 job) as (n & d2 & -> & He2 & [Hz Hls Hst Hss Hnow]).
  rewrite !run_ret. exists d2. split; [done|].
  unfold processing, active, queue, klist, zset, completed, rset in *.
  rewrite Hz, Hls, Hst, Hss, Hnow, He2.
  split; [apply processing_put_processing|].
  split; [apply active_put_processing|]. done.
Qed.

Lemma extend_spec lease job d :
  run_script (sched_extendScript lease job) d =
    match processing d !! job with
    | None => (Ok (RInt 0), d)
    | Some _ => (Ok (RInt 1),
                 put_zset processingJobsKey (<[job := (now_ms d + lease)%Z]> (processing d)) d)
    end.
Proof.
  unfold sched_extendScript, Lua.extendLeaseScript. lua1.
  change (zset d processingJobsKey) with (processing d).
  destruct (processing d !! job) as [s|] eqn:Hp; [|done].
  lua1. cbn [fst snd]. rewrite now_ms_lua. lua1.
  change (zset d processingJobsKey) with (processing d).
  by rewrite decide_True by (rewrite Hp; by eexists).
Qed.

Lemma orphan_noop job user cap d :
  job ∈ completed d \/ is_Some (processing d !! job) \/ job ∈ queue d user ->
  run_script (sched_orphanScript job user cap) d = (Ok (RInt 0), d).
Proof.
  intros H. unfold sched_orphanScript, Lua.enqueueOrphanScript. lua1.
  change (rset d completedJobsKey) with (completed d).
  case_bool_decide as Hc; [done|]. lua1.
  change (zset d processingJobsKey) with (processing d).
  case_bool_decide as Hp; [done|]. lua1.
  change (klist d (buildQueuePerUserKey user)) with (queue d user).
  case_bool_decide as Hq; [done|]. exfalso. destruct H as [?|[?|Hj]]; try done.
  apply Hq. unfold index_of. apply fmap_is_Some. by apply (list_find_elem_of _ _ job).
Qed.

Lemma index_of_None job l : job ∉ l -> index_of job l = None.
Proof.
  intros H. unfold index_of. destruct (list_find (eq job) l) as [[i x]|] eqn:E; [|done].
  apply list_find_Some in E as (E & -> & _). exfalso. apply H.
  by eapply list_elem_of_lookup_2.
Qed.

Lemma orphan_full job user cap d :
  job ∉ completed d -> processing d !! job = None -> job ∉ queue d user ->
  (cap <= Z.of_nat (length (queue d user)))%Z ->
  run_script (sched_orphanScript job user cap) d = (Ok (RInt 2), d).
Proof.
  intros H1 H2 H3 H4. unfold sched_orphanScript, Lua.enqueueOrphanScript. lua1.
  change (rset d completedJobsKey) with (completed d).
  rewrite bool_decide_false by done. lua1.
  change (zset d processingJobsKey) with (processing d). rewrite H2.
  rewrite bool_decide_false by (by intros []). lua1.
  change (klist d (buildQueuePerUserKey user)) with (queue d user).
  rewrite index_of_None by done. rewrite bool_decide_false by (by intros []). lua1.
  change (klist d (buildQueuePerUserKey user)) with (queue d user).
  by rewrite (proj2 (Z.leb_le _ _) H4).
Qed.

Lemma orphan_ok job user cap d :
  wf d -> (rotseq d < int64_max)%Z ->
  job ∉ completed d -> processing d !! job = None -> job ∉ queue d user ->
  (Z.of_nat (length (queue d user)) < cap)%Z ->
  exists d', run_script (sched_orphanScript job user cap) d = (Ok (RInt 1), d')
    /\ pushed d user job d' /\ processing d' = processing d
    /\ enq d' = <[job := BInt (now_ms d)]> (enq d) /\ r_now d' = r_now d.
Proof.
  intros Hwf Hs H1 H2 H3 H4. unfold sched_orphanScript, Lua.enqueueOrphanScript. lua1.
  change (rset d completedJobsKey) with (completed d).
  rewrite bool_decide_false by done. lua1.
  change (zset d processingJobsKey) with (processing d). rewrite H2.
  rewrite bool_decide_false by (by intros []). lua1.
  change (klist d (buildQueuePerUserKey user)) with (queue d user).
  rewrite index_of_None by done. rewrite bool_decide_false by (by intros []). lua1.
  change (klist d (buildQueuePerUserKey user)) with (queue d user).
  rewrite (proj2 (Z.leb_gt _ _) H4). lua1.
  change (klist d (buildQueuePerUserKey user)) with (queue d user). lua1.
  change (klist d (buildQueuePerUserKey user)) with (queue d user). lua1.
  cbn [fst snd]. set (d1 := put_list _ _ d). change (r_now d1) with (r_now d).
  rewrite now_ms_lua. lua1. cbn [foldl fst snd]. rewrite length_zero_eqb.
  destruct (push_activate_spec user job d (bool_decide (queue d user = []))
              (BInt (now_ms d)) true) as (d' & Hrun & Hpu & Hpr & Hn & He); [done|done|done|].
  exists d'. split; [|done].
  change (rotseq ← call (INCR rotationSequenceKey); call (ZADD_NX activeUsersKey rotseq user))
    with (activate user).
  rewrite run_bind. cbv zeta in Hrun. fold d1 in Hrun. by rewrite Hrun.
Qed.
