(* ===== verification/SchedulerSteps.v ===== *)
(** * The scheduler as a transition system

    The effect of every repository method on any Redis, the step relation
    over all of them, and the invariant of the reachable states. *)

From S2P Require Import Prelude GoErr Redis Env Scheduler SchedulerSpec.
From stdpp Require Import base gmap sets list strings pretty sorting.
From Stdlib Require Import ZArith Lia.

(** What a step does to the queues. *)
Inductive label : Type :=
| LPush (u j : string)
| LClaim (served : option (string * string))
| LTau.

Definition rr_apply (l : label) (q : rr) : rr :=
  match l with
  | LPush u j => rr_push u j q
  | LClaim _ => (rr_claim q).2
  | LTau => q
  end.

Section steps.
Context {R : Type} `{!Redis R, !RedisDoc R, !GoFmt}.
Implicit Types r : R.

(** *** The methods of the repository *)

Context (repo : RedisSchedulerRepository).

Definition lease_ms : Z := duration_milliseconds (repo_lease repo).
Definition entry_key (e : QueueEntry) : string :=
  buildJobIdempotencyKey (qe_UserID e) (qe_JobID e) (qe_CurrentAttempt e).

Lemma entry_key_ne e : entry_key e <> rotationSequenceKey.
Proof. by unfold entry_key, buildJobIdempotencyKey, idempotencyKeyPrefix. Qed.

Lemma PushLeft_effect e r :
  wf (redis_view r) -> (rotseq (redis_view r) < int64_max)%Z ->
  (second <= IdempotencyKeyTTL (repo_config repo))%Z ->
  let d := redis_view r in let d' := redis_view (PushLeft repo e r).2 in
  let len := Z.of_nat (length (queue d (qe_UserID e))) in
  let cap := QueueCapacity (repo_config repo) in
  match (PushLeft repo e r).1 with
  | Ok b =>
      (len < cap)%Z /\ key_exists d (entry_key e) = false
      /\ pushed d (qe_UserID e) (qe_JobID e) d' /\ processing d' = processing d
      /\ enq d' = <[qe_JobID e := BInt (now_ms d)]> (enq d)
      /\ BecameActive b = bool_decide (queue d (qe_UserID e) = [])
  | Err x =>
      d' = d /\
      ((cap <= len)%Z /\ x = Errorf "" ErrQueueFull "" \/
       (len < cap)%Z /\ key_exists d (entry_key e) = true /\ x = Errorf "" ErrDuplicateJob "")
  end.
Proof.
  intros Hwf Hs Httl. cbv zeta. unfold PushLeft.
  rewrite bind_unfold, rc_Result_direct, ret_unfold. cbn [fst snd].
  rewrite run_script_view.
  set (d := redis_view r) in *. set (ttl := duration_seconds _). set (cap := QueueCapacity _).
  assert (Ht : (0 < ttl)%Z).
  { unfold ttl, duration_seconds, second in *. rewrite Z.quot_div_nonneg by lia.
    apply Z.div_str_pos. lia. }
  change (buildJobIdempotencyKey _ _ _) with (entry_key e).
  change (Lua.enqueueScript _ _ _ _ _ _ _ _ _)
    with (sched_enqueueScript (entry_key e) (qe_JobID e) ttl cap (qe_UserID e)).
  destruct (decide (cap <= Z.of_nat (length (queue d (qe_UserID e))))%Z) as [Hfull|Hroom].
  { rewrite enqueue_full by done. cbn. split; [done|]. by left. }
  destruct (key_exists d (entry_key e)) eqn:Hk.
  { rewrite enqueue_duplicate by (done || lia). cbn. split; [done|]. right.
    split; [lia|done]. }
  destruct (enqueue_ok (entry_key e) (qe_JobID e) ttl cap (qe_UserID e) d)
    as (d' & -> & Hp & Hpr & He & Hn); [done|done|apply entry_key_ne|lia|done|done|].
  cbn [fst snd result_of].
  destruct (bool_decide (queue d (qe_UserID e) = [])) eqn:Hb; cbn;
    (split; [lia|]); repeat split; try done; apply Hp.
Qed.

Lemma ClaimNextJob_effect w r :
  wf (redis_view r) -> (rotseq (redis_view r) < int64_max)%Z ->
  (forall u j, j ∈ queue (redis_view r) u -> j <> "" /\ u <> "") ->
  let d := redis_view r in let d' := redis_view (ClaimNextJob repo w r).2 in
  active d = ∅ /\ (ClaimNextJob repo w r).1 = Ok None /\ d' = d \/
  exists u j wait, (ClaimNextJob repo w r).1 = Ok (Some (MkFairDequeueResult u j wait))
    /\ claimed lease_ms d u j d' /\ r_now d' = r_now d
    /\ wait = wrap64 (match enq d !! j with
                      | Some (BInt t) => Z.max 0 (now_ms d - t) | _ => 0%Z end * millisecond).
Proof.
  intros Hwf Hs Hnames. cbv zeta. unfold ClaimNextJob.
  rewrite bind_unfold, rc_Result_direct, ret_unfold. cbn [fst snd].
  rewrite run_script_view. set (d := redis_view r) in *.
  destruct (decide (active d = ∅)) as [E|E].
  { left. rewrite fairDequeue_empty by done. done. }
  right. destruct (fairDequeue_claim lease_ms d Hwf Hs E)
    as (u & j & x & d' & Hrun & Hc & Hx & Hw & Hn).
  change (duration_milliseconds (repo_lease repo)) with lease_ms. rewrite Hrun.
  cbn [fst snd result_of decode_claim redisInt64].
  destruct (Hnames u j) as [Hj Hu].
  { rewrite (cl_last _ _ _ _ _ Hc). apply elem_of_app. right. left. }
  unfold str_empty. rewrite (proj2 (String.eqb_neq u "") Hu), (proj2 (String.eqb_neq j "") Hj).
  cbn [orb]. exists u, j, (wrap64 (x * millisecond)). repeat split; try done; try apply Hc.
  by rewrite Hw.
Qed.

Lemma ExtendProcessingLease_effect job r :
  let d := redis_view r in let d' := redis_view (ExtendProcessingLease repo job r).2 in
  match processing d !! job with
  | None => (ExtendProcessingLease repo job r).1 = Some ErrJobNotFound /\ d' = d
  | Some _ => (ExtendProcessingLease repo job r).1 = None /\
      d' = put_zset processingJobsKey (<[job := (now_ms d + lease_ms)%Z]> (processing d)) d
  end.
Proof.
  cbv zeta. unfold ExtendProcessingLease.
  rewrite bind_unfold, rc_Int64_direct, ret_unfold. cbn [fst snd]. rewrite run_script_view.
  change (Lua.extendLeaseScript _ _ _) with (sched_extendScript lease_ms job).
  rewrite extend_spec. by destruct (processing (redis_view r) !! job).
Qed.

Lemma RequeueIfExpired_effect job user cutoff r :
  wf (redis_view r) -> (rotseq (redis_view r) < int64_max)%Z ->
  let d := redis_view r in let d' := redis_view (RequeueIfExpired job user cutoff r).2 in
  (RequeueIfExpired job user cutoff r).1 = Ok (lease_expired d job cutoff) /\
  if lease_expired d job cutoff
  then pushed d user job d' /\ processing d' = delete job (processing d)
       /\ enq d' = enq d /\ r_now d' = r_now d
  else d' = d.
Proof.
  intros Hwf Hs. cbv zeta. unfold RequeueIfExpired.
  rewrite bind_unfold, rc_Int64_direct, ret_unfold. cbn [fst snd]. rewrite run_script_view.
  change (Lua.requeueExpiredScript _ _ _ _ _ _ _) with (sched_requeueScript job user cutoff).
  destruct (lease_expired (redis_view r) job cutoff) eqn:E.
  - destruct (requeue_ok job user cutoff _ Hwf Hs E) as (d' & -> & Heff). done.
  - by rewrite requeue_noop.
Qed.

Lemma RemoveIfExpired_effect job cutoff r :
  let d := redis_view r in let d' := redis_view (RemoveIfExpired job cutoff r).2 in
  (RemoveIfExpired job cutoff r).1 = Ok (lease_expired d job cutoff) /\
  if lease_expired d job cutoff
  then processing d' = delete job (processing d) /\ active d' = active d
    /\ (forall u, queue d' u = queue d u) /\ enq d' = delete job (enq d)
    /\ completed d' = completed d /\ r_now d' = r_now d
    /\ r_strs d' !! rotationSequenceKey = r_strs d !! rotationSequenceKey
  else d' = d.
Proof.
  cbv zeta. unfold RemoveIfExpired.
  rewrite bind_unfold, rc_Int64_direct, ret_unfold. cbn [fst snd]. rewrite run_script_view.
  change (Lua.removeExpiredScript _ _ _ _) with (sched_removeScript job cutoff).
  destruct (lease_expired (redis_view r) job cutoff) eqn:E.
  - destruct (remove_ok job cutoff _ E) as (d' & -> & Heff). done.
  - by rewrite remove_noop.
Qed.

(** An orphan is a job that is neither complete, nor leased, nor queued. *)
Definition is_orphan (d : rdata) (job user : string) : bool :=
  bool_decide (job ∉ completed d) && bool_decide (processing d !! job = None)
  && bool_decide (job ∉ queue d user).

Lemma EnqueueIfAbsent_effect job user cap r :
  wf (redis_view r) -> (rotseq (redis_view r) < int64_max)%Z ->
  let d := redis_view r in let d' := redis_view (EnqueueIfAbsent job user cap r).2 in
  let b := is_orphan d job user && bool_decide (Z.of_nat (length (queue d user)) < cap)%Z in
  (EnqueueIfAbsent job user cap r).1 = Ok b /\
  if b then pushed d user job d' /\ processing d' = processing d
            /\ enq d' = <[job := BInt (now_ms d)]> (enq d) /\ r_now d' = r_now d
  else d' = d.
Proof.
  intros Hwf Hs. cbv zeta. unfold EnqueueIfAbsent, is_orphan.
  rewrite bind_unfold, rc_Int64_direct, ret_unfold. cbn [fst snd]. rewrite run_script_view.
  change (Lua.enqueueOrphanScript _ _ _ _ _ _ _ _ _) with (sched_orphanScript job user cap).
  set (d := redis_view r) in *.
  destruct (decide (job ∈ completed d)) as [H1|H1].
  { rewrite bool_decide_false by tauto. rewrite orphan_noop; [done|by left]. }
  destruct (processing d !! job) as [s|] eqn:H2.
  { rewrite (bool_decide_false (Some s = None)), andb_false_r by done.
    rewrite orphan_noop; [done|]. right; left. by eexists. }
  destruct (decide (job ∈ queue d user)) as [H3|H3].
  { rewrite (bool_decide_false (job ∉ queue d user)), andb_false_r by tauto.
    rewrite orphan_noop; [done|]. by right; right. }
  rewrite !bool_decide_true by done. cbn [andb].
  case_bool_decide as H4; [|rewrite orphan_full; [done|done|done|done|lia]].
  destruct (orphan_ok job user cap d) as (d' & -> & Heff); done.
Qed.

Lemma ReleaseProcessingJob_effect job r :
  let d := redis_view r in let d' := redis_view (ReleaseProcessingJob job r).2 in
  match processing d !! job with
  | None => (ReleaseProcessingJob job r).1 = Some (errors_New "jobID not found") /\ d' = d
  | Some _ => (ReleaseProcessingJob job r).1 = None /\
      d' = put_zset processingJobsKey (delete job (processing d)) d
  end.
Proof.
  cbv zeta. unfold ReleaseProcessingJob. rewrite bind_unfold, ret_unfold. cbn [fst snd].
  destruct (rc_cmd_direct (ZREM processingJobsKey job) r) as [-> Hv].
  cbn [fst snd]. rewrite Hv. cbn [doc_exec].
  change (zset (redis_view r) processingJobsKey) with (processing (redis_view r)).
  destruct (processing (redis_view r) !! job) eqn:E.
  - by rewrite decide_True by by eexists.
  - by rewrite decide_False by by intros [].
Qed.

Lemma MarkJobCompleted_effect job r :
  (MarkJobCompleted job r).1 = None /\
  redis_view (MarkJobCompleted job r).2 =
    put_set completedJobsKey ({[job]} ∪ completed (redis_view r)) (redis_view r).
Proof.
  unfold MarkJobCompleted. rewrite bind_unfold, ret_unfold. cbn [fst snd].
  destruct (rc_cmd_direct (SADD completedJobsKey job) r) as [-> Hv].
  cbn [fst snd]. by rewrite Hv.
Qed.

Lemma RemoveCompletedJob_effect job r :
  (RemoveCompletedJob job r).1 = None /\
  redis_view (RemoveCompletedJob job r).2 =
    put_set completedJobsKey (completed (redis_view r) ∖ {[job]}) (redis_view r).
Proof.
  unfold RemoveCompletedJob. rewrite bind_unfold, ret_unfold. cbn [fst snd].
  destruct (rc_cmd_direct (SREM completedJobsKey job) r) as [-> Hv].
  cbn [fst snd]. by rewrite Hv.
Qed.

(** *** The step relation *)

(** Which user a job belongs to; it never changes. *)
Context (owner : string -> string).

(** Whether the submissions push new jobs only, as [Submit] does: it creates
    the job it enqueues.  The repository does not check this: [PushLeft] looks
    for an earlier push of the same attempt only, while its key lives. *)
Context (once : Prop).

(** A job that is neither queued nor leased. *)
Definition job_fresh (d : rdata) (job : string) : Prop :=
  (forall u, job ∉ queue d u) /\ processing d !! job = None.

Definition named (job : string) : Prop := job <> "" /\ owner job <> "".

(** One call of a method of the repository by any process, the passage of
    time, or a change of the other services' keys.  A job is pushed for its
    owner - any attempt, at any time, or, if [once], a new job. *)
Inductive sched_step (r : R) : label -> R -> Prop :=
| step_push e : named (qe_JobID e) -> qe_UserID e = owner (qe_JobID e) ->
    (once -> job_fresh (redis_view r) (qe_JobID e)) ->
    sched_step r (if is_ok (PushLeft repo e r).1
                  then LPush (qe_UserID e) (qe_JobID e) else LTau) (PushLeft repo e r).2
| step_claim w :
    sched_step r (LClaim (match (ClaimNextJob repo w r).1 with
                          | Ok (Some c) => Some (fd_UserID c, fd_JobID c)
                          | _ => None end)) (ClaimNextJob repo w r).2
| step_release job : sched_step r LTau (ReleaseProcessingJob job r).2
| step_extend job : sched_step r LTau (ExtendProcessingLease repo job r).2
| step_complete job : sched_step r LTau (MarkJobCompleted job r).2
| step_uncomplete job : sched_step r LTau (RemoveCompletedJob job r).2
| step_remove job cutoff : sched_step r LTau (RemoveIfExpired job cutoff r).2
| step_requeue job cutoff : named job ->
    sched_step r (match (RequeueIfExpired job (owner job) cutoff r).1 with
                  | Ok true => LPush (owner job) job | _ => LTau end)
      (RequeueIfExpired job (owner job) cutoff r).2
| step_orphan job cap : named job ->
    sched_step r (match (EnqueueIfAbsent job (owner job) cap r).1 with
                  | Ok true => LPush (owner job) job | _ => LTau end)
      (EnqueueIfAbsent job (owner job) cap r).2
| step_wait dt : sched_step r LTau (redis_wait dt r)
| step_other r' : same_sched (redis_view r) (redis_view r') -> sched_step r LTau r'.

Inductive sched_trace (r : R) : list label -> R -> Prop :=
| trace_nil : sched_trace r [] r
| trace_cons l r1 ls r2 : sched_step r l r1 -> sched_trace r1 ls r2 ->
    sched_trace r (l :: ls) r2.

(** No scheduler data yet. *)
Record sched_init (r : R) : Prop := {
  si_active : active (redis_view r) = ∅;
  si_queue : forall u, queue (redis_view r) u = [];
  si_processing : processing (redis_view r) = ∅;
  si_enq : enq (redis_view r) = ∅;
  si_seq : r_strs (redis_view r) !! rotationSequenceKey = None;
}.

(** [n] steps were enough to get there. *)
Definition sched_reachable (n : nat) (r : R) : Prop :=
  exists r0 ls, sched_init r0 /\ sched_trace r0 ls r /\ length ls = n.

(** *** What a label says about the queues *)

Definition label_effect (l : label) (d d' : rdata) : Prop :=
  match l with
  | LPush u j => pushed d u j d'
      /\ (forall i, is_Some (processing d' !! i) -> is_Some (processing d !! i))
  | LClaim (Some (u, j)) => claimed lease_ms d u j d'
  | LClaim None => active d = ∅ /\ same_sched d d'
  | LTau => active d' = active d /\ (forall u, queue d' u = queue d u)
            /\ (forall j, is_Some (processing d' !! j) -> is_Some (processing d !! j))
            /\ (forall j b, enq d' !! j = Some b -> enq d !! j = Some b)
            /\ r_strs d' !! rotationSequenceKey = r_strs d !! rotationSequenceKey
  end.

Record inv (d : rdata) : Prop := { inv_wf : wf d; inv_jobs : jobs_ok owner once d }.

Lemma same_tau d d' : same_sched d d' -> label_effect LTau d d'.
Proof. intros [Ha Hp Hq He Hc Hs]. cbn. by rewrite Ha, Hp, He. Qed.

Lemma tau_refl d : label_effect LTau d d.
Proof. by apply same_tau. Qed.

Lemma inv_tau d d' : label_effect LTau d d' -> inv d -> inv d'.
Proof.
  intros (Ha & Hq & Hp & He & Hs) [[H1 H2 H3 H4 H5] [J1 J2 J3 J4]].
  assert (rotseq d' = rotseq d) as Hseq by (unfold rotseq, rstr; by rewrite Hs).
  split; split.
  - intros u. by rewrite Ha, Hq.
  - intros u s. rewrite Ha, Hseq. apply H2.
  - intros u u' s. rewrite Ha. apply H3.
  - unfold seq_ok. rewrite Hs. apply H4.
  - intros j b ?%He. by eapply H5.
  - intros Ho u. rewrite Hq. by apply J1.
  - intros u j. rewrite Hq. apply J2.
  - intros Ho u j. rewrite Hq. intros Hj. apply (J3 Ho) in Hj.
    destruct (processing d' !! j) eqn:E; [|done].
    destruct (Hp j) as [? ?]; [by eexists|congruence].
  - intros u j. rewrite Hq. apply J4.
Qed.

Lemma wait_tau dt d : inv d -> label_effect LTau d (doc_wait dt d).
Proof.
  intros [Hwf _]. cbn. repeat split; try done.
  - intros j b. unfold enq, rhash. simpl. intros Hb.
    destruct (r_hashes d !! queueEnqueuedAtKey) as [h|] eqn:E.
    + destruct (filter _ (r_hashes d) !! queueEnqueuedAtKey) as [h'|] eqn:E'; [|done].
      apply map_lookup_filter_Some in E' as [E' _]. rewrite E in E'. by simplify_eq.
    + rewrite map_lookup_filter_None_2 in Hb; [done|by left].
  - pose proof (wf_seq _ Hwf) as Hs. unfold seq_ok in Hs. simpl.
    destruct (r_strs d !! rotationSequenceKey) as [[[?|z|?] [?|]]|] eqn:E; try done.
    + apply map_lookup_filter_Some. done.
    + apply map_lookup_filter_None. by left.
Qed.
End steps.

(** ** Soundness of the step relation *)

Section sound.
Context {R : Type} `{!Redis R, !RedisDoc R, !GoFmt}.
Context (repo : RedisSchedulerRepository) (owner : string -> string) (once : Prop).
Context (Httl : (second <= IdempotencyKeyTTL (repo_config repo))%Z).
Implicit Types r : R.

(** A job that is leased is not queued. *)
Lemma leased_fresh d job :
  once -> jobs_ok owner once d -> is_Some (processing d !! job) -> forall u, job ∉ queue d u.
Proof. intros Ho Hj [s Hs] u Hin. apply (jo_excl _ _ _ Hj Ho) in Hin. congruence. Qed.

Lemma inv_pushed d j d' :
  inv owner once d -> named owner j -> pushed d (owner j) j d' ->
  (once -> j ∉ queue d (owner j) /\ processing d' !! j = None) ->
  (forall i, i <> j -> processing d' !! i = processing d !! i) ->
  (forall i b, enq d' !! i = Some b -> exists z, b = BInt z) ->
  inv owner once d'.
Proof.
  intros [Hwf Hj] [Hn1 Hn2] Hp Hq Hpr' He. split.
  - by eapply wf_pushed.
  - by eapply jobs_ok_pushed.
Qed.

Lemma enq_insert_BInt d d' j t :
  wf d -> enq d' = <[j := BInt t]> (enq d) ->
  forall i b, enq d' !! i = Some b -> exists z, b = BInt z.
Proof.
  intros Hwf -> i b. rewrite lookup_insert_Some. intros [[_ <-]|[_ Hb]]; [by eexists|].
  by apply (wf_enq _ Hwf i).
Qed.

(** Every step has the effect its label says and keeps the invariant. *)
Lemma step_sound r l r' :
  inv owner once (redis_view r) -> (rotseq (redis_view r) < int64_max)%Z ->
  sched_step repo owner once r l r' ->
  label_effect repo l (redis_view r) (redis_view r') /\ inv owner once (redis_view r').
Proof.
  intros Hinv Hs Hstep. pose proof Hinv as [Hwf Hj].
  assert (Htau : forall d', label_effect repo LTau (redis_view r) d' ->
    label_effect repo LTau (redis_view r) d' /\ inv owner once d').
  { intros d' Hd. split; [done|]. by eapply inv_tau. }
  assert (Hnoop : forall d', d' = redis_view r ->
    label_effect repo LTau (redis_view r) d' /\ inv owner once d').
  { intros d' ->. apply Htau, tau_refl. }
  destruct Hstep as [e Hn Hu Hf|w|job|job|job|job|job cutoff|job cutoff Hn|job cap Hn|dt|r' Hsame].
  - pose proof (PushLeft_effect repo e r Hwf Hs Httl) as He. cbv zeta in He.
    destruct (PushLeft repo e r).1 as [b|x]; cbn [is_ok].
    + destruct He as (_ & _ & Hp & Hpr & Hen & _). split; [split; [done|by rewrite Hpr]|].
      rewrite Hu in Hp.
      eapply inv_pushed; try done.
      * intros Ho. rewrite Hpr. destruct (Hf Ho). auto.
      * by rewrite Hpr.
      * by eapply enq_insert_BInt.
    + apply Hnoop, He.
  - destruct (ClaimNextJob_effect repo w r Hwf Hs (jo_names _ _ _ Hj))
      as [(He & -> & Hd)|(u & j & wait & -> & Hc & _)].
    + cbn [label_effect]. rewrite Hd. done.
    + cbn [label_effect fd_UserID fd_JobID]. split; [done|]. split; [by eapply wf_claimed|by eapply jobs_ok_claimed].
  - pose proof (ReleaseProcessingJob_effect job r) as He. cbv zeta in He.
    destruct (processing (redis_view r) !! job); destruct He as [_ He]; [|by apply Hnoop].
    apply Htau. rewrite He. cbn [label_effect]. rewrite active_put_processing, processing_put_processing.
    repeat split; try done. intros i [s' [_ Hi]%lookup_delete_Some]. by eexists.
  - pose proof (ExtendProcessingLease_effect repo job r) as He. cbv zeta in He.
    destruct (processing (redis_view r) !! job) eqn:E; destruct He as [_ He]; [|by apply Hnoop].
    apply Htau. rewrite He. cbn [label_effect]. rewrite active_put_processing, processing_put_processing.
    repeat split; try done. intros i. rewrite lookup_insert_is_Some.
    intros [<-|[_ Hi]]; [rewrite E; by eexists|done].
  - apply Htau. rewrite (proj2 (MarkJobCompleted_effect job r)). done.
  - apply Htau. rewrite (proj2 (RemoveCompletedJob_effect job r)). done.
  - pose proof (RemoveIfExpired_effect job cutoff r) as [_ He].
    destruct (lease_expired (redis_view r) job cutoff); [|by apply Hnoop].
    destruct He as (Hp & Ha & Hq & Hen & _ & _ & Hst). apply Htau. cbn [label_effect].
    rewrite Ha, Hp, Hen. repeat split; try done.
    + intros i [s' [_ Hi]%lookup_delete_Some]. by eexists.
    + by intros i b [_ Hi]%lookup_delete_Some.
  - pose proof (RequeueIfExpired_effect job (owner job) cutoff r Hwf Hs) as [He1 He].
    rewrite He1. destruct (lease_expired (redis_view r) job cutoff) eqn:E; [|by apply Hnoop].
    destruct He as (Hp & Hpr & Hen & _). split.
    { split; [done|]. rewrite Hpr. intros i [s' [_ Hi]%lookup_delete_Some]. by eexists. }
    assert (is_Some (processing (redis_view r) !! job)).
    { unfold lease_expired in E. by destruct (_ !! job). }
    eapply inv_pushed; try done.
    + intros Ho. split; [by apply leased_fresh|]. rewrite Hpr. apply lookup_delete_eq.
    + intros i Hi. rewrite Hpr. by apply lookup_delete_ne.
    + rewrite Hen. apply Hwf.
  - pose proof (EnqueueIfAbsent_effect job (owner job) cap r Hwf Hs) as [He1 He].
    rewrite He1. unfold is_orphan in *.
    destruct (_ && bool_decide (_ < cap)%Z) eqn:E; [|by apply Hnoop].
    destruct He as (Hp & Hpr & Hen & _). split; [split; [done|by rewrite Hpr]|].
    rewrite !andb_true_iff, !bool_decide_eq_true in E. destruct E as [[[E1 E2] E3] E4].
    eapply inv_pushed; try done.
    + intros _. by rewrite Hpr.
    + by rewrite Hpr.
    + by eapply enq_insert_BInt.
  - apply Htau. rewrite redis_wait_doc. by apply (wait_tau repo owner once).
  - apply Htau, same_tau. done.
Qed.

Lemma rotseq_effect l d d' :
  label_effect repo l d d' -> (rotseq d' <= rotseq d + 1)%Z.
Proof.
  destruct l as [u j|[[u j]|]|]; cbn.
  - intros [[_ _ -> _ _] _]. case_decide; lia.
  - intros [_ _ _ _ -> _ _ _ _]. case_decide; lia.
  - intros [_ ->%seq_same]. lia.
  - intros (_ & _ & _ & _ & He). unfold rotseq, rstr. rewrite He. lia.
Qed.

Lemma rr_effect l d d' :
  wf d -> label_effect repo l d d' ->
  rr_of d' = rr_apply l (rr_of d) /\
  (forall s, l = LClaim s -> (rr_claim (rr_of d)).1 = s).
Proof.
  intros Hwf. destruct l as [u j|[[u j]|]|]; cbn.
  - intros [Hp _]. split; [by apply rr_of_pushed|done].
  - intros Hc. rewrite (rr_of_claimed _ _ _ _ _ Hwf Hc). split; [done|]. by intros s [= <-].
  - intros [Ha Hs]. rewrite (rr_of_same _ _ Hs).
    unfold rr_of. rewrite Ha, (proj2 (ranked_nil ∅)) by done. split; [done|]. by intros s [= <-].
  - intros (Ha & Hq & _). split; [|done]. unfold rr_of. rewrite Ha.
    apply list_fmap_ext. intros i [s u] _. simpl. by rewrite Hq.
Qed.

(** The same for a trace: the invariant holds throughout, and the labels
    drive the specification from the first queue to the last. *)
Lemma trace_sound r ls r' :
  inv owner once (redis_view r) -> (rotseq (redis_view r) + Z.of_nat (length ls) <= int64_max)%Z ->
  sched_trace repo owner once r ls r' ->
  inv owner once (redis_view r')
  /\ (rotseq (redis_view r') <= rotseq (redis_view r) + Z.of_nat (length ls))%Z
  /\ rr_of (redis_view r') = foldl (flip rr_apply) (rr_of (redis_view r)) ls.
Proof.
  intros Hinv Hs Ht. induction Ht as [r|r l r1 ls r2 Hstep Ht IH]; [split; [done|split; [cbn [length]; lia|done]]|].
  cbn [length] in Hs.
  destruct (step_sound _ _ _ Hinv ltac:(lia) Hstep) as [He Hinv1].
  pose proof (rotseq_effect _ _ _ He). destruct (rr_effect _ _ _ (inv_wf _ _ _ Hinv) He) as [Hr _].
  destruct IH as (I1 & I2 & I3); [done|lia|]. cbn [foldl flip].
  split; [done|]. split; [cbn [length]; lia|]. by rewrite I3, Hr.
Qed.

Lemma init_inv r : sched_init r -> inv owner once (redis_view r) /\ rotseq (redis_view r) = 0%Z.
Proof.
  intros [Ha Hq Hp He Hs]. split.
  - split; split.
    + intros u. rewrite Ha, Hq, lookup_empty. split; [by intros []|done].
    + intros u s. by rewrite Ha, lookup_empty.
    + intros u u' s. by rewrite Ha, lookup_empty.
    + unfold seq_ok. by rewrite Hs.
    + intros j b. by rewrite He, lookup_empty.
    + intros _ u. rewrite Hq. constructor.
    + intros u j. rewrite Hq. by intros ?%elem_of_nil.
    + intros _ u j. rewrite Hq. by intros ?%elem_of_nil.
    + intros u j. rewrite Hq. by intros ?%elem_of_nil.
  - unfold rotseq, rstr. by rewrite Hs.
Qed.

Lemma reachable_inv n r :
  sched_reachable repo owner once n r -> (Z.of_nat n <= int64_max)%Z ->
  inv owner once (redis_view r) /\ (rotseq (redis_view r) <= Z.of_nat n)%Z.
Proof.
  intros (r0 & ls & Hi & Ht & <-) Hn. destruct (init_inv _ Hi) as [Hinv Hz].
  destruct (trace_sound r0 ls r Hinv ltac:(lia) Ht) as (H1 & H2 & _). split; [done|lia].
Qed.
End sound.
