(* ===== verification/SchedulerProps.v ===== *)
(** * Theorems about the scheduler

    Round robin, FIFO order, bounded waiting, leases and recovery, for every
    Redis that behaves as documented and every interleaving of the
    repository's methods. *)

From S2P Require Import Prelude GoErr Redis Env Scheduler SchedulerSpec SchedulerSteps.
From stdpp Require Import base gmap sets list strings pretty sorting.
From Stdlib Require Import ZArith Lia.

(** ** The trace of claims and pushes *)

Definition claims (ls : list label) : list (option (string * string)) :=
  omap (fun l => match l with LClaim s => Some s | _ => None end) ls.

(** The jobs of [u] claimed and pushed in a trace, in order. *)
Definition claimed_of (u : string) (ls : list label) : list string :=
  omap (fun l => match l with
                 | LClaim (Some (v, j)) => if decide (v = u) then Some j else None
                 | _ => None end) ls.

Definition pushed_of (u : string) (ls : list label) : list string :=
  omap (fun l => match l with
                 | LPush v j => if decide (v = u) then Some j else None
                 | _ => None end) ls.

Lemma claimed_of_elem u j ls : LClaim (Some (u, j)) ∈ ls <-> j ∈ claimed_of u ls.
Proof.
  unfold claimed_of. rewrite list_elem_of_omap. split.
  - intros Hin. eexists. split; [exact Hin|]. cbn. by rewrite decide_True.
  - intros ([v k|[[v k]|]|] & Hin & He); try done. case_decide; [|done]. by simplify_eq.
Qed.

Lemma pushed_of_elem u j ls : LPush u j ∈ ls <-> j ∈ pushed_of u ls.
Proof.
  unfold pushed_of. rewrite list_elem_of_omap. split.
  - intros Hin. eexists. split; [exact Hin|]. cbn. by rewrite decide_True.
  - intros ([v k|[[v k]|]|] & Hin & He); try done. case_decide; [|done]. by simplify_eq.
Qed.

(** How often [j] occurs. *)
Definition copies (j : string) (l : list string) : nat := length (filter (eq j) l).

Lemma copies_app j l1 l2 : copies j (l1 ++ l2) = (copies j l1 + copies j l2)%nat.
Proof. unfold copies. by rewrite filter_app, length_app. Qed.

Lemma copies_one j : copies j [j] = 1%nat.
Proof. unfold copies. by rewrite filter_cons_True. Qed.

Lemma copies_reverse j l : copies j (reverse l) = copies j l.
Proof. unfold copies. by rewrite (reverse_Permutation l). Qed.

Lemma copies_zero j l : copies j l = 0%nat <-> j ∉ l.
Proof.
  unfold copies. rewrite length_zero_iff_nil. split.
  - intros Hf Hin. assert (Hj : j ∈ filter (eq j) l) by by apply list_elem_of_filter.
    rewrite Hf in Hj. by apply elem_of_nil in Hj.
  - intros Hn. apply elem_of_nil_inv. intros i [<- Hin]%list_elem_of_filter. done.
Qed.

(** ** The specification alone *)

Lemma rr_push_lookup u j q i v js :
  q !! i = Some (v, js) ->
  rr_push u j q !! i = Some (v, js) \/ rr_push u j q !! i = Some (v, js ++ [j]).
Proof.
  revert i. induction q as [|[w ks] q IH]; intros [|i]; cbn; try done.
  - intros [= -> ->]. case_decide; cbn; auto.
  - intros H. case_decide; cbn; auto.
Qed.

Lemma rr_claim_lookup q i p :
  q !! S i = Some p -> (rr_claim q).2 !! i = Some p.
Proof.
  destruct q as [|[w [|k ks]] q]; cbn; try done. intros H.
  case_decide; [done|]. apply lookup_app_l_Some. done.
Qed.

(** Whatever is pushed meanwhile, the user at rank [i] is served by the
    [i]th claim that follows, with its oldest job. *)
Lemma rr_bounded_wait (srv : rr -> list label -> Prop) ls q i u j js :
  (forall q l ls, srv q (l :: ls) ->
     (forall s, l = LClaim s -> s = (rr_claim q).1) /\ srv (rr_apply l q) ls) ->
  srv q ls -> q !! i = Some (u, j :: js) -> (i < length (claims ls))%nat ->
  claims ls !! i = Some (Some (u, j)).
Proof.
  intros Hsrv. revert q i js. induction ls as [|l ls IH]; intros q i js Hq Hi Hlen; [cbn in *; lia|].
  destruct (Hsrv _ _ _ Hq) as [Hl Hrest].
  destruct l as [v k|s|].
  - change (claims (LPush v k :: ls)) with (claims ls) in *.
    destruct (rr_push_lookup v k q i u (j :: js) Hi) as [H'|H'];
      [eapply IH; [exact Hrest|exact H'|done]|].
    eapply (IH _ i (js ++ [k])); [exact Hrest|exact H'|done].
  - change (claims (LClaim s :: ls)) with (s :: claims ls) in *.
    rewrite (Hl s eq_refl) in *.
    destruct i as [|i].
    + destruct q as [|[w ks] q]; [done|]. cbn in Hi. by simplify_eq.
    + cbn in Hlen. cbn. eapply IH; [exact Hrest|by apply rr_claim_lookup|lia].
  - change (claims (LTau :: ls)) with (claims ls) in *. by eapply IH.
Qed.

Section props.
Context {R : Type} `{!Redis R, !RedisDoc R, !GoFmt}.
Context (repo : RedisSchedulerRepository) (owner : string -> string) (once : Prop).
Implicit Types r : R.

Definition ttl_ok : Prop := (second <= IdempotencyKeyTTL (repo_config repo))%Z.

(** States reached in less than [2^63] steps, with room for [k] more. *)
Definition reached (k : nat) (r : R) : Prop :=
  exists n, sched_reachable repo owner once n r /\ (Z.of_nat (n + k) <= int64_max)%Z.

Lemma reached_inv k r :
  ttl_ok -> reached k r ->
  inv owner once (redis_view r) /\ (rotseq (redis_view r) + Z.of_nat k <= int64_max)%Z.
Proof.
  intros Httl (n & Hr & Hn).
  destruct (reachable_inv repo owner once Httl n r Hr) as [Hi Hs]; [lia|]. split; [done|lia].
Qed.

(** The trace drives the specification: the labels of the claims are what
    the specification answers. *)
Definition drives (d : rdata) (q : rr) (ls : list label) : Prop :=
  exists r r', redis_view r = d /\ rr_of d = q /\ inv owner once d
    /\ (rotseq d + Z.of_nat (length ls) <= int64_max)%Z /\ sched_trace repo owner once r ls r'.

Lemma drives_step q l ls :
  ttl_ok -> (exists d, drives d q (l :: ls)) ->
  (forall s, l = LClaim s -> s = (rr_claim q).1) /\ (exists d, drives d (rr_apply l q) ls).
Proof.
  intros Httl (d & r & r' & Hd & Hq & Hinv & Hs & Ht).
  inversion Ht as [|l0 r1 ls0 r2 Hstep Ht']; subst. cbn [length] in Hs.
  destruct (step_sound repo owner once Httl r l r1 Hinv ltac:(lia) Hstep) as [He Hinv1].
  destruct (rr_effect repo l _ _ (inv_wf _ _ _ Hinv) He) as [Hr Hc].
  split; [intros s Hl; symmetry; by apply Hc|].
  exists (redis_view r1), r1, r'. pose proof (rotseq_effect repo l _ _ He).
  repeat (split; [done || lia|]). done.
Qed.

(** A property of the data that every step keeps, unless its label is [bad]. *)
Lemma trace_keeps (P : rdata -> Prop) (bad : label -> Prop) r ls r' :
  ttl_ok -> inv owner once (redis_view r) ->
  (rotseq (redis_view r) + Z.of_nat (length ls) <= int64_max)%Z ->
  (forall l d d', inv owner once d -> label_effect repo l d d' -> ~ bad l -> P d -> P d') ->
  sched_trace repo owner once r ls r' -> (forall l, l ∈ ls -> ~ bad l) ->
  P (redis_view r) -> P (redis_view r').
Proof.
  intros Httl Hinv Hs Hkeep Ht. revert Hinv Hs.
  induction Ht as [r|r l r1 ls r2 Hstep Ht IH]; intros Hinv Hs Hbad HP; [done|].
  cbn [length] in Hs.
  destruct (step_sound repo owner once Httl r l r1 Hinv ltac:(lia) Hstep) as [He Hinv1].
  pose proof (rotseq_effect repo l _ _ He).
  apply IH; [done|lia| |].
  - intros l' Hl'. apply Hbad. by right.
  - eapply Hkeep; [exact Hinv|exact He|apply Hbad; left|done].
Qed.

Lemma queue_effect l d d' u :
  label_effect repo l d d' ->
  match l with
  | LPush v j => reverse (queue d' u) =
      reverse (queue d u) ++ (if decide (v = u) then [j] else [])
  | LClaim (Some (v, j)) =>
      (if decide (v = u) then [j] else []) ++ reverse (queue d' u) = reverse (queue d u)
  | _ => queue d' u = queue d u
  end.
Proof.
  destruct l as [v j|[[v j]|]|]; cbn.
  - intros [[Hq _ _ _ _] _]. rewrite Hq. case_decide; subst; [by rewrite reverse_cons|].
    by rewrite app_nil_r.
  - intros [_ Hl Hq _ _ _ _ _ _]. case_decide as E; subst; [by rewrite Hl, reverse_snoc|].
    cbn. by rewrite Hq.
  - intros [_ Hs]. apply (ss_queue _ _ Hs).
  - intros (_ & Hq & _). apply Hq.
Qed.

Lemma fifo_trace u r ls r' :
  ttl_ok -> inv owner once (redis_view r) ->
  (rotseq (redis_view r) + Z.of_nat (length ls) <= int64_max)%Z ->
  sched_trace repo owner once r ls r' ->
  claimed_of u ls ++ reverse (queue (redis_view r') u)
    = reverse (queue (redis_view r) u) ++ pushed_of u ls.
Proof.
  intros Httl Hinv Hs Ht. revert Hinv Hs.
  induction Ht as [r|r l r1 ls r2 Hstep Ht IH]; intros Hinv Hs; [by rewrite app_nil_r|].
  cbn [length] in Hs.
  destruct (step_sound repo owner once Httl r l r1 Hinv ltac:(lia) Hstep) as [He Hinv1].
  pose proof (rotseq_effect repo l _ _ He).
  specialize (IH Hinv1 ltac:(lia)). apply (queue_effect l _ _ u) in He.
  destruct l as [v j|[[v j]|]|].
  - change (claimed_of u (LPush v j :: ls)) with (claimed_of u ls).
    rewrite IH, He, <- app_assoc. f_equal. unfold pushed_of. cbn. by case_decide.
  - change (pushed_of u (LClaim (Some (v, j)) :: ls)) with (pushed_of u ls).
    rewrite <- He, <- app_assoc, <- IH, app_assoc. f_equal.
    unfold claimed_of. cbn. by case_decide.
  - rewrite He in IH. exact IH.
  - rewrite He in IH. exact IH.
Qed.

(** A job is claimed for its owner. *)
Lemma claims_owner r ls r' v j :
  ttl_ok -> inv owner once (redis_view r) ->
  (rotseq (redis_view r) + Z.of_nat (length ls) <= int64_max)%Z ->
  sched_trace repo owner once r ls r' -> LClaim (Some (v, j)) ∈ ls -> owner j = v.
Proof.
  intros Httl Hinv Hs Ht. revert Hinv Hs.
  induction Ht as [r|r l r1 ls r2 Hstep Ht IH]; intros Hinv Hs Hin; [by apply elem_of_nil in Hin|].
  cbn [length] in Hs.
  destruct (step_sound repo owner once Httl r l r1 Hinv ltac:(lia) Hstep) as [He Hinv1].
  pose proof (rotseq_effect repo l _ _ He).
  apply elem_of_cons in Hin as [<-|Hin]; [|by apply IH; [|lia|]].
  apply (jo_owner _ _ _ (inv_jobs _ _ _ Hinv) v). cbn in He.
  rewrite (cl_last _ _ _ _ _ He). apply elem_of_app. right. left.
Qed.

(** A job that is not queued stays so until it is pushed; one that is not
    leased stays so until it is claimed. *)
Lemma not_queued_kept j l d d' :
  label_effect repo l d d' -> (forall v, l <> LPush v j) ->
  (forall v, j ∉ queue d v) -> forall v, j ∉ queue d' v.
Proof.
  intros He Hl Hq v. apply (queue_effect l _ _ v) in He. specialize (Hq v).
  rewrite <- elem_of_reverse in Hq |- *.
  destruct l as [w k|[[w k]|]|].
  - rewrite He. case_decide; [|by rewrite app_nil_r].
    rewrite elem_of_app, list_elem_of_singleton. intros [?| ->]; [done|]. by apply (Hl w).
  - rewrite <- He in Hq. intros Hin. apply Hq. apply elem_of_app. by right.
  - by rewrite He.
  - by rewrite He.
Qed.

Lemma not_leased_kept j l d d' :
  label_effect repo l d d' -> (forall v, l <> LClaim (Some (v, j))) ->
  processing d !! j = None -> processing d' !! j = None.
Proof.
  intros He Hl Hp. apply eq_None_not_Some. intros Hs.
  destruct l as [w k|[[w k]|]|]; cbn in He.
  - destruct He as [_ He]. apply He in Hs. rewrite Hp in Hs. by apply is_Some_None in Hs.
  - destruct He as [_ _ _ _ _ _ He _ _]. rewrite He, lookup_insert_ne, Hp in Hs.
    + by apply is_Some_None in Hs.
    + intros ->. by apply (Hl w).
  - destruct He as [_ He]. rewrite (ss_processing _ _ He), Hp in Hs. by apply is_Some_None in Hs.
  - destruct He as (_ & _ & He & _). apply He in Hs. rewrite Hp in Hs. by apply is_Some_None in Hs.
Qed.

(** A job that was never pushed is new. *)
Lemma never_pushed_fresh r0 ls r j :
  ttl_ok -> sched_init r0 -> sched_trace repo owner once r0 ls r ->
  (Z.of_nat (length ls) <= int64_max)%Z -> (forall v, LPush v j ∉ ls) ->
  job_fresh (redis_view r) j.
Proof.
  intros Httl Hi Ht Hlen Hno. destruct (init_inv owner once r0 Hi) as [Hinv Hz].
  assert (Hall : forall u, j ∉ claimed_of u ls ++ reverse (queue (redis_view r) u)).
  { intros u. rewrite (fifo_trace u r0 ls r Httl Hinv ltac:(lia) Ht), (si_queue _ Hi).
    cbn. rewrite <- pushed_of_elem. apply Hno. }
  split.
  - intros u Hin. apply (Hall u), elem_of_app. right. by apply elem_of_reverse.
  - apply (trace_keeps (fun d => processing d !! j = None)
      (fun l => exists v, l = LClaim (Some (v, j))) r0 ls r); try done; [lia| | |].
    + intros l d d' _ He' Hl. apply (not_leased_kept j l); [done|].
      intros v ->. apply Hl. by exists v.
    + intros l Hl [v ->]. apply (Hall v), elem_of_app. left. by apply claimed_of_elem.
    + by rewrite (si_processing _ Hi), lookup_empty.
Qed.
End props.
