(* ===== verification/SchedulerThms.v ===== *)
(** * The scheduler's correctness theorems

    The properties proper, with a concrete run of the scheduler that their
    witnesses instantiate. *)

From S2P Require Import Prelude GoErr Redis Env Scheduler SchedulerSpec SchedulerSteps SchedulerProps.
From stdpp Require Import base gmap sets list strings pretty sorting.
From Stdlib Require Import ZArith Lia.

(** ** A concrete run *)

Module Demo.
#[export] Instance fmt : GoFmt := {|
  sscan_int64 := fun _ => None;
  parse_int64 := fun _ => None;
  format_rfc3339 := fun z => pretty z;
  parse_rfc3339 := fun _ => None;
|}.

Definition repo : RedisSchedulerRepository :=
  NewRedisSchedulerRepository (30 * second) (MkSchedulerConfig 2 (3600 * second) 0).

(** Jobs are named after their owner. *)
Definition owner (j : string) : string := String.substring 0 1 j.

Definition entry (j : string) : QueueEntry := MkQueueEntry j (owner j) 0 0.

Definition d0 : rdata := rdata_empty.
Definition d1 : rdata := (PushLeft repo (entry "a1") d0).2.
Definition d2 : rdata := (PushLeft repo (entry "a2") d1).2.
Definition d3 : rdata := (PushLeft repo (entry "b1") d2).2.
Definition d4 : rdata := (ClaimNextJob repo 1 d3).2.
Definition d5 : rdata := redis_wait (60 * 10 ^ 6) d4.

#[export] Instance metrics : SchedulerMetrics rdata := {|
  ObserveQueueWaitDuration := fun _ => skip |}.
#[export] Instance clock : GoClock rdata := {| time_Now := mret 0%Z |}.

Lemma ttl : ttl_ok repo.
Proof. by vm_compute. Qed.

Lemma init : sched_init d0.
Proof. by split. Qed.

Lemma fresh_of (d : rdata) (j : string) :
  map_Forall (fun _ l => j ∉ l) (r_lists d) -> processing d !! j = None -> job_fresh d j.
Proof.
  intros Hl Hp. split; [|done]. intros u. unfold queue, klist.
  destruct (r_lists d !! buildQueuePerUserKey u) eqn:E; [by apply (Hl _ _ E)|].
  by apply not_elem_of_nil.
Qed.

Lemma push_ok (d : rdata) (e : QueueEntry) :
  named owner (qe_JobID e) -> qe_UserID e = owner (qe_JobID e) ->
  map_Forall (fun _ l => qe_JobID e ∉ l) (r_lists d) ->
  processing d !! qe_JobID e = None -> is_ok (PushLeft repo e d).1 = true ->
  sched_step repo owner True d (LPush (qe_UserID e) (qe_JobID e)) (PushLeft repo e d).2.
Proof.
  intros Hn Hu Hl Hp Hok.
  pose proof (step_push repo owner True d e Hn Hu (fun _ => fresh_of _ _ Hl Hp)) as Hs.
  by rewrite Hok in Hs.
Qed.

Lemma step1 : sched_step repo owner True d0 (LPush "a" "a1") d1.
Proof. apply (push_ok d0 (entry "a1")); [by split|done|by vm_compute|done|by vm_compute]. Qed.
Lemma step2 : sched_step repo owner True d1 (LPush "a" "a2") d2.
Proof.
  apply (push_ok d1 (entry "a2"));
    [by split|done|by apply (bool_decide_unpack _); vm_compute|done|by vm_compute].
Qed.
Lemma step3 : sched_step repo owner True d2 (LPush "b" "b1") d3.
Proof.
  apply (push_ok d2 (entry "b1"));
    [by split|done|by apply (bool_decide_unpack _); vm_compute|done|by vm_compute].
Qed.
Lemma step4 : sched_step repo owner True d3 (LClaim (Some ("a", "a1"))) d4.
Proof.
  pose proof (step_claim repo owner True d3 1) as Hs.
  assert ((ClaimNextJob repo 1 d3).1 = Ok (Some (MkFairDequeueResult "a" "a1" 0))) as E
    by by vm_compute.
  by rewrite E in Hs.
Qed.
Lemma step5 : sched_step repo owner True d4 LTau d5.
Proof. apply (step_wait repo owner True d4 (60 * 10 ^ 6)). Qed.

Definition ls3 : list label := [LPush "a" "a1"; LPush "a" "a2"; LPush "b" "b1"].

Lemma trace3 : sched_trace repo owner True d0 ls3 d3.
Proof.
  eapply trace_cons; [apply step1|]. eapply trace_cons; [apply step2|].
  eapply trace_cons; [apply step3|]. constructor.
Qed.

Lemma trace5 : sched_trace repo owner True d3 [LClaim (Some ("a", "a1")); LTau] d5.
Proof.
  eapply trace_cons; [apply step4|]. eapply trace_cons; [apply step5|]. constructor.
Qed.

Lemma reached3 k : (Z.of_nat (3 + k) <= int64_max)%Z -> reached repo owner True k d3.
Proof. intros Hk. exists 3%nat. split; [|done].
  exists d0, ls3. split; [exact init|]. split; [exact trace3|done].
Qed.
End Demo.

(** ** Theorems *)

Section theorems.
Context {R : Type} `{!Redis R, !RedisDoc R, !GoFmt}.
(** The traces below are any interleaving of the repository's methods, for any
    attempts: with [once] at [True] the submissions push new jobs only. *)
Context (repo : RedisSchedulerRepository) (owner : string -> string) (once : Prop).
Context (Httl : ttl_ok repo).
Implicit Types r : R.

(** C1: in every state that any interleaving of the repository's methods
    reaches, in fewer than 2^63 steps, a user is in the rotation exactly when
    it has queued jobs, no two users share a score, every score is at most the
    rotation sequence, and a queued job is queued for its owner, whatever
    attempts are pushed and when.  If moreover the submissions push new jobs
    only - as [Submit] does, and as [PushLeft], which looks for the same
    attempt only, does not enforce -, a job is queued at most once, and never
    while it is leased. *)
Theorem sched_invariant r :
  reached repo owner once 0 r ->
  let d := redis_view r in
  (forall u, is_Some (active d !! u) <-> queue d u <> [])
  /\ (forall u v s, active d !! u = Some s -> active d !! v = Some s -> u = v)
  /\ (forall u s, active d !! u = Some s -> (s <= rotseq d)%Z)
  /\ (forall u j, j ∈ queue d u -> owner j = u)
  /\ (once -> (forall u, NoDup (queue d u))
               /\ forall u j, j ∈ queue d u -> processing d !! j = None).
Proof.
  intros Hr. destruct (reached_inv repo owner once 0 r Httl Hr) as [[Hwf Hj] _].
  split; [apply Hwf|]. split; [apply Hwf|]. split; [apply Hwf|]. split; [apply Hj|].
  intros Ho. split; [by apply Hj|by apply Hj].
Qed.

(** The use cases over the Redis repository, as [NewSchedulerModule] wires
    them. *)
#[local] Instance wired_queue : JobQueue R := redis_JobQueue repo.

(** C2: the claim use case implements the round robin: it serves the
    oldest job of the first user of the rotation, moves that user to the
    end (or out, when it has no more jobs), leases the job until [lease]
    from now, and answers nothing exactly when no job is queued.  The job was
    not leased yet if the submissions push new jobs only. *)
Theorem next_job_round_robin `{!SchedulerMetrics R} r w :
  (forall dt r, redis_view (ObserveQueueWaitDuration dt r).2 = redis_view r) ->
  reached repo owner once 1 r ->
  let d := redis_view r in
  let d' := redis_view (NextJob w r).2 in
  (NextJob w r).1 = Ok ((fun uj => MkNextJobClaim uj.2 uj.1) <$> (rr_claim (rr_of d)).1)
  /\ rr_of d' = (rr_claim (rr_of d)).2
  /\ match (rr_claim (rr_of d)).1 with
     | Some (u, j) => (once -> processing d !! j = None)
         /\ processing d' = <[j := (now_ms d + lease_ms repo)%Z]> (processing d)
     | None => processing d' = processing d /\ forall u, queue d u = []
     end.
Proof.
  intros Hm Hr. cbv zeta.
  destruct (reached_inv repo owner once 1 r Httl Hr) as [[Hwf Hj] Hs].
  unfold NextJob. rewrite bind_unfold. cbn [jq_ClaimNextJob wired_queue redis_JobQueue].
  destruct (ClaimNextJob_effect repo w r Hwf ltac:(lia) (jo_names _ _ _ Hj))
    as [(He & -> & Hd)|(u & j & wait & -> & Hc & _)].
  - rewrite bind_unfold, ret_unfold. cbn [fst snd]. unfold skip. rewrite ret_unfold. cbn [fst snd].
    rewrite Hd. unfold rr_of. rewrite He, (proj2 (ranked_nil ∅)) by done.
    repeat split; try done. intros u.
    destruct (queue (redis_view r) u) eqn:E; [done|].
    destruct (proj2 (wf_active _ Hwf u)) as [z Hz]; [by rewrite E|].
    by rewrite He, lookup_empty in Hz.
  - assert (Hin : j ∈ queue (redis_view r) u).
    { rewrite (cl_last _ _ _ _ _ Hc). apply elem_of_app. right. left. }
    destruct (jo_names _ _ _ Hj u j Hin) as [Hj0 _].
    assert (str_empty j = false) as Hje by by apply String.eqb_neq.
    cbn [fd_JobID]. rewrite Hje. cbn [negb when].
    rewrite bind_unfold, ret_unfold. cbn [fst snd fd_QueueWait fd_UserID]. rewrite Hm.
    rewrite (rr_of_claimed _ _ _ _ _ Hwf Hc). cbn. repeat split; try done.
    + intros Ho. by apply (jo_excl _ _ _ Hj Ho u).
    + apply Hc.
Qed.

(** C12: the enqueue use case has exactly three outcomes.  The job goes to
    the end of its user's queue (and the user to the end of the rotation if
    it was idle); or the queue is full, the error is [USER_QUEUE_IS_FULL];
    or the same attempt was pushed before, the error is [DUPLICATE_JOB].
    In the last two Redis is unchanged, so a queue never grows beyond its
    capacity by an enqueue. *)
Theorem enqueue_outcomes `{!GoClock R} r e :
  (forall r, redis_view (time_Now r).2 = redis_view r) ->
  reached repo owner once 1 r ->
  let d := redis_view r in
  let u := pq_UserID e in
  let key := buildJobIdempotencyKey u (pq_JobID e) (pq_CurrentAttempt e) in
  let len := Z.of_nat (length (queue d u)) in
  let '((b, err), r') := Enqueue e r in
  let d' := redis_view r' in
  ( err = None /\ (len < QueueCapacity (repo_config repo))%Z /\ key_exists d key = false
    /\ rr_of d' = rr_push u (pq_JobID e) (rr_of d)
    /\ Z.of_nat (length (queue d' u)) = (len + 1)%Z
    /\ BecameActive b = bool_decide (queue d u = []) )
  \/ ( Code err = ErrCodeQueueFull /\ (QueueCapacity (repo_config repo) <= len)%Z
       /\ d' = d /\ BecameActive b = false )
  \/ ( Code err = ErrCodeDuplicatedJob /\ (len < QueueCapacity (repo_config repo))%Z
       /\ key_exists d key = true /\ d' = d /\ BecameActive b = false ).
Proof.
  intros Hclock Hr. cbv zeta.
  destruct (reached_inv repo owner once 1 r Httl Hr) as [[Hwf Hj] Hs].
  unfold Enqueue. rewrite bind_unfold. cbn [jq_PushLeft wired_queue redis_JobQueue].
  rewrite bind_unfold, ret_unfold. cbn [fst snd].
  set (q := MkQueueEntry _ _ _ _). set (r1 := (time_Now r).2).
  pose proof (PushLeft_effect repo q r1) as He. cbv zeta in He.
  assert (Hv : redis_view r1 = redis_view r) by apply Hclock.
  rewrite Hv in He. specialize (He Hwf ltac:(lia) Httl).
  destruct (PushLeft repo q r1) as [[b|x] r'] eqn:E; cbn [fst snd] in He |- *.
  - left. destruct He as (H1 & H2 & H3 & H4 & H5 & H6).
    split; [done|]. split; [exact H1|]. split; [exact H2|].
    split; [by apply (rr_of_pushed _ (qe_UserID q) (qe_JobID q))|].
    split; [|exact H6]. change (pq_UserID e) with (qe_UserID q).
    rewrite (pu_queue _ _ _ _ H3), decide_True by done. cbn [length]. lia.
  - right. destruct He as [Hd [[Hc ->]|(Hc & Hk & ->)]].
    + left. split; [done|]. split; [exact Hc|done].
    + right. split; [done|]. split; [exact Hc|]. done.
Qed.

(** C30: bounded waiting.  Whatever users push, release, recover or complete
    meanwhile, a user at rank [i] of the rotation is served by the [i]th
    claim from now on (counting from 0), with its oldest job. *)
Theorem bounded_wait r ls r' i u j js :
  reached repo owner once (length ls) r -> sched_trace repo owner once r ls r' ->
  rr_of (redis_view r) !! i = Some (u, j :: js) -> (i < length (claims ls))%nat ->
  claims ls !! i = Some (Some (u, j)).
Proof.
  intros Hr Ht Hi Hlen.
  destruct (reached_inv repo owner once (length ls) r Httl Hr) as [Hinv Hs].
  apply (rr_bounded_wait (fun q ls => exists d, drives (R := R) repo owner once d q ls)
           ls (rr_of (redis_view r)) i u j js); [|by exists (redis_view r), r, r'|done|done].
  intros q l ls' Hd. by apply drives_step.
Qed.

(** C18: FIFO per user.  From the empty scheduler, the jobs of a user that
    were claimed, followed by those still queued, are the jobs pushed for
    it (by submission or recovery), in the same order: no job is lost,
    invented, duplicated or overtaken. *)
Theorem fifo_per_user r0 ls r u :
  sched_init r0 -> sched_trace repo owner once r0 ls r ->
  (Z.of_nat (length ls) <= int64_max)%Z ->
  claimed_of u ls ++ reverse (queue (redis_view r) u) = pushed_of u ls.
Proof.
  intros Hi Ht Hlen. destruct (init_inv owner once r0 Hi) as [Hinv Hz].
  rewrite (fifo_trace repo owner once u r0 ls r Httl Hinv ltac:(lia) Ht).
  by rewrite (si_queue _ Hi).
Qed.

(** C31: a job is claimed once for each time it was pushed.  After a claim of
    [j], whatever happens: the later claims of [j] are of its owner, and they
    and the copies still queued are as many as the copies that were queued
    besides the claimed one and the pushes of [j] since.  If the submissions
    push new jobs only, [j] was queued once, so that no claim answers it again
    before a recovery pushes it.  (Two attempts of one job pushed before the
    first is claimed would be claimed twice: [attempts_queued_twice].) *)
Theorem claimed_once r u j r1 ls r2 :
  reached repo owner once (S (length ls)) r ->
  sched_step repo owner once r (LClaim (Some (u, j))) r1 -> sched_trace repo owner once r1 ls r2 ->
  (forall v, LClaim (Some (v, j)) ∈ ls -> v = u)
  /\ S (copies j (claimed_of u ls) + copies j (queue (redis_view r2) u))
     = (copies j (queue (redis_view r) u) + copies j (pushed_of u ls))%nat
  /\ (once -> copies j (queue (redis_view r) u) = 1%nat
       /\ ((forall v, LPush v j ∉ ls) -> forall v, LClaim (Some (v, j)) ∉ ls)).
Proof.
  intros Hr Hstep Ht.
  destruct (reached_inv repo owner once _ r Httl Hr) as [Hinv Hs].
  destruct (step_sound repo owner once Httl r _ r1 Hinv ltac:(lia) Hstep) as [He Hinv1].
  pose proof (rotseq_effect repo _ _ _ He) as Hseq. cbn in He.
  pose proof (cl_last _ _ _ _ _ He) as Hl.
  assert (Hu : owner j = u).
  { apply (jo_owner _ _ _ (inv_jobs _ _ _ Hinv)). rewrite Hl. apply elem_of_app. right. left. }
  assert (Hown : forall v, LClaim (Some (v, j)) ∈ ls -> v = u).
  { intros v Hv. subst u. symmetry. eapply claims_owner; [done|exact Hinv1| |exact Ht|exact Hv]. lia. }
  pose proof (fifo_trace repo owner once u r1 ls r2 Httl Hinv1 ltac:(lia) Ht) as Hf.
  apply (f_equal (copies j)) in Hf. rewrite !copies_app, !copies_reverse in Hf.
  assert (Hc : S (copies j (claimed_of u ls) + copies j (queue (redis_view r2) u))
    = (copies j (queue (redis_view r) u) + copies j (pushed_of u ls))%nat).
  { rewrite Hl, copies_app, copies_one. lia. }
  split; [exact Hown|]. split; [exact Hc|]. intros Ho.
  assert (H1 : copies j (queue (redis_view r) u) = 1%nat).
  { pose proof (jo_nodup _ _ _ (inv_jobs _ _ _ Hinv) Ho u) as Hnd. rewrite Hl in Hnd |- *.
    apply NoDup_app in Hnd as (_ & Hd & _).
    rewrite copies_app, copies_one, (proj2 (copies_zero j _)); [done|].
    intros Hin. apply (Hd j Hin). left. }
  split; [exact H1|]. intros Hno v Hv. pose proof (Hown v Hv) as ->.
  assert (H0 : copies j (pushed_of u ls) = 0%nat).
  { apply copies_zero. rewrite <- pushed_of_elem. apply Hno. }
  assert (Hz : copies j (claimed_of u ls) = 0%nat) by lia.
  apply copies_zero in Hz. by apply Hz, claimed_of_elem.
Qed.

(** C33: a live lease protects its job.  While the deadline of [j] is later
    than the cutoff, recovery neither removes nor requeues it, the orphan
    scan does not push it, and none of them changes Redis. *)
Theorem lease_protects r j s cutoff cap :
  reached repo owner once 1 r ->
  processing (redis_view r) !! j = Some s -> (cutoff < s)%Z ->
  ((RemoveIfExpired j cutoff r).1 = Ok false
     /\ redis_view (RemoveIfExpired j cutoff r).2 = redis_view r)
  /\ ((RequeueIfExpired j (owner j) cutoff r).1 = Ok false
     /\ redis_view (RequeueIfExpired j (owner j) cutoff r).2 = redis_view r)
  /\ ((EnqueueIfAbsent j (owner j) cap r).1 = Ok false
     /\ redis_view (EnqueueIfAbsent j (owner j) cap r).2 = redis_view r).
Proof.
  intros Hr Hp Hcut.
  destruct (reached_inv repo owner once 1 r Httl Hr) as [[Hwf _] Hs].
  assert (He : lease_expired (redis_view r) j cutoff = false).
  { unfold lease_expired. rewrite Hp. lia. }
  assert (Ho : is_orphan (redis_view r) j (owner j) = false).
  { unfold is_orphan. rewrite Hp, (bool_decide_false (Some s = None)) by done.
    by rewrite andb_false_r. }
  pose proof (RemoveIfExpired_effect j cutoff r) as H1.
  pose proof (RequeueIfExpired_effect j (owner j) cutoff r Hwf ltac:(lia)) as H2.
  pose proof (EnqueueIfAbsent_effect j (owner j) cap r Hwf ltac:(lia)) as H3.
  cbv zeta in H1, H2, H3. rewrite Ho in H3. rewrite He in H1, H2. done.
Qed.

(** C32: only one recovery of a lease wins.  After a requeue of [j]
    succeeded, every later requeue or removal of [j], at any cutoff,
    answers false until [j] is claimed again. *)
Theorem recovery_exclusive r j cutoff ls r2 cutoff2 :
  reached repo owner once (2 + length ls) r -> named owner j ->
  (RequeueIfExpired j (owner j) cutoff r).1 = Ok true ->
  sched_trace repo owner once (RequeueIfExpired j (owner j) cutoff r).2 ls r2 ->
  (forall v, LClaim (Some (v, j)) ∉ ls) ->
  (RequeueIfExpired j (owner j) cutoff2 r2).1 = Ok false
  /\ (RemoveIfExpired j cutoff2 r2).1 = Ok false.
Proof.
  intros Hr Hn Hok Ht Hno.
  destruct (reached_inv repo owner once _ r Httl Hr) as [Hinv Hs].
  pose proof (step_requeue repo owner once r j cutoff Hn) as Hstep. rewrite Hok in Hstep.
  destruct (step_sound repo owner once Httl r _ _ Hinv ltac:(lia) Hstep) as [He Hinv1].
  pose proof (rotseq_effect repo _ _ _ He) as Hseq.
  pose proof (RequeueIfExpired_effect j (owner j) cutoff r (inv_wf _ _ _ Hinv) ltac:(lia))
    as [Hb Heff]. cbv zeta in Hb, Heff.
  rewrite Hok in Hb. injection Hb as Hb. rewrite <- Hb in Heff. destruct Heff as (_ & Hp & _).
  set (r1 := (RequeueIfExpired j (owner j) cutoff r).2) in *.
  assert (Hnone : processing (redis_view r2) !! j = None).
  { apply (trace_keeps repo owner once (fun d => processing d !! j = None)
             (fun l => exists v, l = LClaim (Some (v, j))) r1 ls r2); try done; [lia| | |].
    - intros l d d' _ He' Hl. apply (not_leased_kept repo j l); [done|].
      intros v ->. apply Hl. by exists v.
    - intros l Hl [v ->]. by apply (Hno v).
    - rewrite Hp. apply lookup_delete_eq. }
  destruct (trace_sound repo owner once Httl r1 ls r2 Hinv1 ltac:(lia) Ht) as (Hinv2 & Hs2 & _).
  assert (Hex : lease_expired (redis_view r2) j cutoff2 = false).
  { unfold lease_expired. by rewrite Hnone. }
  pose proof (RequeueIfExpired_effect j (owner j) cutoff2 r2 (inv_wf _ _ _ Hinv2) ltac:(lia)) as [H1 _].
  pose proof (RemoveIfExpired_effect j cutoff2 r2) as [H2 _].
  cbv zeta in H1, H2. rewrite Hex in H1, H2. done.
Qed.

(** Renewing a lease moves the deadline of a leased job to [lease] from
    now and answers [JOB_NOT_FOUND], changing nothing, for a job that is not
    leased: a renewal never brings back a lease that recovery took. *)
Theorem extend_lease r j :
  let d := redis_view r in
  let err := (QueueService_ExtendProcessingLease j r).1 in
  let d' := redis_view (QueueService_ExtendProcessingLease j r).2 in
  match processing d !! j with
  | Some _ => err = None
      /\ processing d' = <[j := (now_ms d + lease_ms repo)%Z]> (processing d)
      /\ active d' = active d /\ (forall u, queue d' u = queue d u)
  | None => Code err = ErrCodeJobNotFound /\ d' = d
  end.
Proof.
  cbv zeta. unfold QueueService_ExtendProcessingLease.
  rewrite !bind_unfold. cbn [jq_ExtendProcessingLease wired_queue redis_JobQueue].
  rewrite !ret_unfold. cbn [fst snd].
  pose proof (ExtendProcessingLease_effect repo j r) as He. cbv zeta in He.
  destruct (processing (redis_view r) !! j) as [s|]; destruct He as [-> Hd]; cbn [fst snd].
  - split; [done|]. rewrite Hd, processing_put_processing, active_put_processing. done.
  - split; [done|]. exact Hd.
Qed.

(** The sweep ignores the completion marker: a job that is marked
    complete and whose lease ran out is put back in its owner's queue. *)
Theorem completed_job_requeued r j cutoff :
  reached repo owner once 1 r -> j ∈ completed (redis_view r) ->
  lease_expired (redis_view r) j cutoff = true ->
  (RequeueIfExpired j (owner j) cutoff r).1 = Ok true
  /\ let d' := redis_view (RequeueIfExpired j (owner j) cutoff r).2 in
     j ∈ queue d' (owner j) /\ j ∈ completed d'.
Proof.
  intros Hr Hc He.
  destruct (reached_inv repo owner once 1 r Httl Hr) as [[Hwf _] Hs].
  destruct (RequeueIfExpired_effect j (owner j) cutoff r Hwf ltac:(lia)) as [H1 H2].
  cbv zeta in H1, H2. rewrite He in H1, H2. destruct H2 as ([Hq _ _ _ Hcm] & _).
  split; [done|]. cbv zeta. rewrite Hq, decide_True, Hcm by done. split; [left|done].
Qed.
End theorems.

(** ** Witnesses *)

Module DemoRequeue.
Import Demo.
(** [a1] is claimed, [a3] fills the queue again, the lease of [a1] runs out. *)
Definition e4 : rdata := (PushLeft repo (entry "a3") d4).2.
Definition e5 : rdata := (MarkJobCompleted "a1" e4).2.
Definition e6 : rdata := redis_wait (60 * 10 ^ 6) e5.
Definition e7 : rdata := (RequeueIfExpired "a1" "a" 40000 e6).2.

Lemma trace6 : sched_trace repo owner True d3
  [LClaim (Some ("a", "a1")); LPush "a" "a3"; LTau; LTau] e6.
Proof.
  eapply trace_cons; [apply step4|]. eapply trace_cons.
  { apply (push_ok d4 (entry "a3"));
      [by split|done|by apply (bool_decide_unpack _); vm_compute|done|by vm_compute]. }
  eapply trace_cons; [apply (step_complete repo owner True _ "a1")|].
  eapply trace_cons; [apply (step_wait repo owner True _ (60 * 10 ^ 6))|]. constructor.
Qed.

Lemma trace_app r ls r1 ls' r2 :
  sched_trace (R := rdata) repo owner True r ls r1 -> sched_trace repo owner True r1 ls' r2 ->
  sched_trace repo owner True r (ls ++ ls') r2.
Proof. induction 1; intros Ht; [done|]. econstructor; [done|]. auto. Qed.

Lemma reachable6 : sched_reachable repo owner True 7 e6.
Proof.
  exists d0, (ls3 ++ [LClaim (Some ("a", "a1")); LPush "a" "a3"; LTau; LTau]).
  split; [exact init|]. split; [|done]. eapply trace_app; [exact trace3|exact trace6].
Qed.

Lemma reached6 : reached repo owner True 1 e6.
Proof. exists 7%nat. split; [exact reachable6|by vm_compute]. Qed.

Lemma requeued : (RequeueIfExpired "a1" "a" 40000 e6).1 = Ok true.
Proof. by vm_compute. Qed.
End DemoRequeue.

#[local] Existing Instances Demo.fmt Demo.metrics Demo.clock.

(** A requeue is not bounded by the queue capacity: with a capacity of 2
    there is a reachable state in which a user has 3 queued jobs. *)
Theorem requeue_over_capacity :
  exists n (r : rdata), sched_reachable Demo.repo Demo.owner True n r
    /\ (QueueCapacity (repo_config Demo.repo) < Z.of_nat (length (queue r "a")))%Z.
Proof.
  exists 8%nat, DemoRequeue.e7. split; [|by vm_compute].
  destruct DemoRequeue.reachable6 as (r0 & ls & Hi & Ht & Hl).
  exists r0, (ls ++ [LPush "a" "a1"]). split; [done|]. split.
  - eapply DemoRequeue.trace_app; [exact Ht|]. eapply trace_cons; [|constructor].
    pose proof (step_requeue Demo.repo Demo.owner True DemoRequeue.e6 "a1" 40000) as Hs.
    change (Demo.owner "a1") with "a" in Hs. rewrite DemoRequeue.requeued in Hs.
    apply Hs. by split.
  - rewrite length_app, Hl. done.
Qed.

Lemma sched_invariant_witness : NoDup (queue Demo.d3 "a").
Proof.
  destruct (sched_invariant (R := rdata) Demo.repo Demo.owner True Demo.ttl Demo.d3
    (Demo.reached3 0 ltac:(by vm_compute))) as (_ & _ & _ & _ & Hn).
  exact (proj1 (Hn I) "a").
Defined.

(** Two attempts of one job, which the key of the attempt does not tell apart:
    both are queued. *)
Theorem attempts_queued_twice :
  exists r : rdata, sched_reachable Demo.repo Demo.owner False 2 r /\ queue r "a" = ["a1"; "a1"].
Proof.
  pose (e n := MkQueueEntry "a1" "a" n 0).
  exists (PushLeft Demo.repo (e 2%Z) (PushLeft Demo.repo (e 1%Z) Demo.d0).2).2.
  split; [|by vm_compute]. exists Demo.d0, [LPush "a" "a1"; LPush "a" "a1"].
  split; [exact Demo.init|]. split; [|done].
  assert (Hpush : forall d n, is_ok (PushLeft Demo.repo (e n) d).1 = true ->
    sched_step Demo.repo Demo.owner False d (LPush "a" "a1") (PushLeft Demo.repo (e n) d).2).
  { intros d n Hok. pose proof (step_push Demo.repo Demo.owner False d (e n)) as Hs.
    rewrite Hok in Hs. by apply Hs. }
  eapply trace_cons; [apply (Hpush Demo.d0 1%Z); by vm_compute|].
  eapply trace_cons; [|constructor]. apply (Hpush (PushLeft Demo.repo (e 1%Z) Demo.d0).2 2%Z).
  by vm_compute.
Qed.

Lemma next_job_round_robin_witness :
  (NextJob (JobQueue0 := redis_JobQueue Demo.repo) 1 Demo.d3).1 = Ok (Some (MkNextJobClaim "a1" "a")).
Proof.
  pose proof (next_job_round_robin (R := rdata) Demo.repo Demo.owner True Demo.ttl Demo.d3 1
    (fun _ _ => eq_refl) (Demo.reached3 1 ltac:(by vm_compute))) as [H _].
  refine (eq_trans H _). by vm_compute.
Defined.

Lemma enqueue_outcomes_witness :
  let e := MkPublicQueueEntry "b2" "b" 0 in
  let '((_, err), _) := Enqueue (JobQueue0 := redis_JobQueue Demo.repo) e Demo.d3 in
  err = None \/ Code err = ErrCodeQueueFull \/ Code err = ErrCodeDuplicatedJob.
Proof.
  pose proof (enqueue_outcomes (R := rdata) Demo.repo Demo.owner True Demo.ttl Demo.d3
    (MkPublicQueueEntry "b2" "b" 0) (fun _ => eq_refl)
    (Demo.reached3 1 ltac:(by vm_compute))) as H.
  cbv zeta in *. destruct (Enqueue _ _) as [[b err] r']. tauto.
Defined.

Lemma bounded_wait_witness :
  claims [LClaim (Some ("a", "a1")); LTau] !! 0%nat = Some (Some ("a", "a1")).
Proof.
  apply (bounded_wait (R := rdata) Demo.repo Demo.owner True Demo.ttl Demo.d3
    [LClaim (Some ("a", "a1")); LTau] Demo.d5 0 "a" "a1" ["a2"]).
  - apply Demo.reached3. by vm_compute.
  - exact Demo.trace5.
  - by vm_compute.
  - by apply Nat.lt_0_1.
Defined.

Lemma fifo_per_user_witness :
  claimed_of "a" Demo.ls3 ++ reverse (queue (redis_view Demo.d3) "a") = pushed_of "a" Demo.ls3.
Proof.
  apply (fifo_per_user (R := rdata) Demo.repo Demo.owner True Demo.ttl Demo.d0 Demo.ls3 Demo.d3 "a").
  - exact Demo.init.
  - exact Demo.trace3.
  - by vm_compute.
Defined.

Lemma claimed_once_witness :
  copies "a1" (queue (redis_view Demo.d3) "a") = 1%nat
  /\ S (copies "a1" (claimed_of "a" [LTau]) + copies "a1" (queue (redis_view Demo.d5) "a")) = 1%nat
  /\ ~ LClaim (Some ("a", "a1")) ∈ [LTau].
Proof.
  destruct (claimed_once (R := rdata) Demo.repo Demo.owner True Demo.ttl Demo.d3 "a" "a1" Demo.d4
    [LTau] Demo.d5) as (_ & Hcount & Hc).
  - apply Demo.reached3. by vm_compute.
  - exact Demo.step4.
  - eapply trace_cons; [exact Demo.step5|constructor].
  - destruct (Hc I) as [Hone Hno]. split; [exact Hone|]. split.
    + refine (eq_trans Hcount _). rewrite Hone. by vm_compute.
    + apply Hno. intros v. by rewrite list_elem_of_singleton.
Defined.

Lemma lease_protects_witness :
  (RemoveIfExpired "a1" 20000 Demo.d4).1 = Ok false.
Proof.
  refine (proj1 (proj1 (lease_protects (R := rdata) Demo.repo Demo.owner True Demo.ttl Demo.d4
    "a1" 30000 20000 5 _ _ _))).
  - exists 4%nat. split; [|by vm_compute].
    exists Demo.d0, (Demo.ls3 ++ [LClaim (Some ("a", "a1"))]). split; [exact Demo.init|].
    split; [|done]. eapply DemoRequeue.trace_app; [exact Demo.trace3|].
    eapply trace_cons; [exact Demo.step4|constructor].
  - by vm_compute.
  - by vm_compute.
Defined.

Lemma recovery_exclusive_witness :
  (RequeueIfExpired "a1" "a" 50000 DemoRequeue.e7).1 = Ok false.
Proof.
  refine (proj1 (recovery_exclusive (R := rdata) Demo.repo Demo.owner True Demo.ttl DemoRequeue.e6
    "a1" 40000 [] DemoRequeue.e7 50000 _ _ _ _ _)).
  - exists 7%nat. split; [exact DemoRequeue.reachable6|by vm_compute].
  - by split.
  - exact DemoRequeue.requeued.
  - constructor.
  - intros v. by apply not_elem_of_nil.
Defined.

Lemma completed_job_requeued_witness :
  (RequeueIfExpired "a1" "a" 40000 DemoRequeue.e6).1 = Ok true.
Proof.
  refine (proj1 (completed_job_requeued (R := rdata) Demo.repo Demo.owner True Demo.ttl
    DemoRequeue.e6 "a1" 40000 _ _ _)).
  - exact DemoRequeue.reached6.
  - apply (bool_decide_unpack _). by vm_compute.
  - by vm_compute.
Defined.

Lemma extend_lease_witness :
  processing Demo.d0 !! "a1" = None /\
  Code (QueueService_ExtendProcessingLease (JobQueue0 := wired_queue Demo.repo) "a1" Demo.d0).1
    = ErrCodeJobNotFound.
Proof.
  split; [reflexivity|].
  exact (proj1 (extend_lease (R := rdata) Demo.repo Demo.d0 "a1")).
Defined.
