(* ===== verification/Admission.v ===== *)
(** * Admission control (internal/admission)

    The token bucket script, the limiter that runs it, the three policies,
    the use case, and the module's wiring and configuration checks. *)

From S2P Require Import Prelude GoText GoErr Redis Env.
From stdpp Require Import base gmap sets list strings pretty.
From Stdlib Require Import ZArith QArith Qminmax Lia Lqa.

(** ** Lua numbers *)

(** Lua computes in binary64: every operation rounds.  [rnd] is that
    rounding. *)
Class LuaFloat := { rnd : Q -> Q }.

(** What the script relies on: rounding is monotone and keeps the integers
    of at most 53 bits. *)
Class LuaFloatLaws `{!LuaFloat} : Prop := {
  rnd_mono : forall x y, (x <= y -> rnd x <= rnd y)%Q;
  rnd_int : forall z, (Z.abs z <= 2 ^ 53)%Z -> (rnd (inject_Z z) == inject_Z z)%Q;
}.

(** ** domain *)

Definition ErrRateLimited : goerr :=
  Leaf (Sentinel "admission.ErrRateLimited") "request rate limited".
Definition ErrCostExceedsCapacity : goerr :=
  Leaf (Sentinel "admission.ErrCostExceedsCapacity")
    "request cost (input tokens + max output tokens) exceeded the maximum allowed tokens for the user's tier".
Definition ErrModelNotAllowed : goerr :=
  Leaf (Sentinel "admission.ErrModelNotAllowed") "model not allowed for the user's current tier".
Definition ErrInputTooLarge : goerr :=
  Leaf (Sentinel "admission.ErrInputTooLarge")
    "input exceeds the maximum allowed token count for the user's tier".
Definition ErrContextLengthExceeded : goerr :=
  Leaf (Sentinel "admission.ErrContextLengthExceeded")
    "input tokens + max output tokens exceed the model's context window".

Inductive RejectionReason : Type :=
| RejectionTokenLimit
| RejectionModelNotAllowed
| RejectionRateLimited
| RejectionOther.

Record TierPolicy := MkTierPolicy {
  MaxInputTokens : Z;
  MaxOutputTokens : Z;
  AllowedModels : gset string;
  ModelContextLengths : gmap string Z;
}.

(** The zero value a Go map answers for a missing tier. *)
Definition zero_TierPolicy : TierPolicy := MkTierPolicy 0 0 ∅ ∅.

Definition AdmissionPolicyConfig : Type := gmap string TierPolicy.

Record AdmissionRequest := MkAdmissionRequest {
  ar_UserID : string; ar_Prompt : string; ar_Model : string }.

Record RequestMetadata := MkRequestMetadata {
  md_InputTokens : Z; md_MaxOutputTokens : Z }.

Record UserPolicy := MkUserPolicy { up_Tier : string }.

Record PolicyEvaluationContext := MkPolicyContext {
  pc_Request : AdmissionRequest;
  pc_Metadata : RequestMetadata;
  pc_User : UserPolicy;
}.

Class UserPolicyReader (W : Type) := {
  GetUserPolicy : string -> M W (res goerr UserPolicy) }.
Class Limiter (W : Type) := {
  Limiter_Allow : string -> string -> Z -> Z -> M W (option goerr) }.
Class AdmissionMetrics (W : Type) := {
  RequestRejected : RejectionReason -> M W unit;
  RequestFinished : Z -> M W unit }.

(** ** infrastructure/ratelimit/token_aware.go *)

Record TierRateLimit := MkTierRateLimit { Capacity : Z; FillRate : Z; rl_TTL : Z }.
Definition RateLimitTiers : Type := gmap string TierRateLimit.

Definition ratelimit_key (userID tier : string) : string :=
  "llm:rate-limit:user:" +:+ userID +:+ ":tier:" +:+ tier.

Section limiter.
Context `{!LuaFloat}.

(** The refill: [tokens + math.max(0, now - last) / 1000 * fillRate], at most
    the capacity. *)
Definition refill (capacity fillRate : Z) (tokens last now : Q) : Q :=
  let elapsed := rnd (Qmax 0 (rnd (now - last)) / 1000) in
  Qmin (inject_Z capacity) (rnd (tokens + rnd (elapsed * inject_Z fillRate))).

Definition allowScript (key : string) (capacity fillRate now ttl cost : Z) : script resp :=
  if (capacity <? cost)%Z then mret (RInt (-1))
  else
    data ← call (HMGET key ["tokens"; "last"]);
    let tokens := nth 0 data None in
    let last := nth 1 data None in
    match (match tokens with
           | None => Some (inject_Z capacity)
           | Some b =>
               t ← tonumberQ b; l ← last ≫= tonumberQ;
               Some (refill capacity fillRate t l (inject_Z now))
           end) with
    | None => SError "attempt to perform arithmetic on a nil value"
    | Some tokens =>
        let allowed := Qle_bool (inject_Z cost) tokens in
        let tokens := if allowed then rnd (tokens - inject_Z cost) else tokens in
        _ ← call (HSET key [("tokens", BNum tokens); ("last", BInt now)]);
        _ ← call (EXPIRE key ttl);
        mret (RInt (if allowed then 1 else 0))
    end.

Context {W : Type} `{!RedisClient W, !GoFmt, !GoClock W}.

Definition Allow (cfg : RateLimitTiers) (userID tier : string)
    (inputTokens maxOutputTokens : Z) : M W (option goerr) :=
  match (match cfg !! tier with Some c => Some c | None => cfg !! "free" end) with
  | None =>
      mret (Some (errors_New ("no rate limit configuration for tier " +:+ tier
                                +:+ " and no fallback")))
  | Some tierCfg =>
      t ← time_Now;
      let now := (t / 10 ^ 6)%Z in
      let key := ratelimit_key userID tier in
      let cost := wrap64 (inputTokens + maxOutputTokens) in
      r ← rc_Int64 (allowScript key (Capacity tierCfg) (FillRate tierCfg) now
                      (duration_seconds (rl_TTL tierCfg)) cost);
      mret match r with
           | Err err => Some (errorf_w "rate limiter redis: " (Some err))
           | Ok (-1)%Z => Some ErrCostExceedsCapacity
           | Ok 1%Z => None
           | Ok _ => Some ErrRateLimited
           end
  end.
End limiter.

(** ** domain/policy *)

Definition TokenLimitPolicy_Evaluate (policy : AdmissionPolicyConfig)
    (policyCtx : PolicyEvaluationContext) : option goerr * PolicyEvaluationContext :=
  let estimatedTokens := (RuneCountInString (ar_Prompt (pc_Request policyCtx)) / 4)%Z in
  let userTier := up_Tier (pc_User policyCtx) in
  let pl := default zero_TierPolicy (policy !! userTier) in
  if (MaxInputTokens pl <? estimatedTokens)%Z then (Some ErrInputTooLarge, policyCtx)
  else
    match ModelContextLengths pl !! ar_Model (pc_Request policyCtx) with
    | Some contextLength =>
        if (contextLength <? wrap64 (estimatedTokens + MaxOutputTokens pl))%Z
        then (Some ErrContextLengthExceeded, policyCtx)
        else (None, MkPolicyContext (pc_Request policyCtx)
                      (MkRequestMetadata estimatedTokens (MaxOutputTokens pl))
                      (pc_User policyCtx))
    | None => (None, MkPolicyContext (pc_Request policyCtx)
                       (MkRequestMetadata estimatedTokens (MaxOutputTokens pl))
                       (pc_User policyCtx))
    end.

Definition ModelAccessPolicy_Evaluate (policy : AdmissionPolicyConfig)
    (policyCtx : PolicyEvaluationContext) : option goerr :=
  let tierCfg := default zero_TierPolicy (policy !! up_Tier (pc_User policyCtx)) in
  if bool_decide (ar_Model (pc_Request policyCtx) ∈ AllowedModels tierCfg)
  then None else Some ErrModelNotAllowed.

Definition RateLimitPolicy_Evaluate {W : Type} `{!Limiter W}
    (policyCtx : PolicyEvaluationContext) : M W (option goerr) :=
  Limiter_Allow (ar_UserID (pc_Request policyCtx)) (up_Tier (pc_User policyCtx))
    (md_InputTokens (pc_Metadata policyCtx)) (md_MaxOutputTokens (pc_Metadata policyCtx)).

(** ** public, usecase *)

Definition ErrCodeInputToken := "INPUT_TOKEN_EXCEEDS_TIER_LIMIT".
Definition ErrCodeModelNotAllowed := "MODEL_NOT_ALLOWED_FOR_TIER".
Definition ErrCodeRateLimited := "RATE_LIMIT_EXCEEDED".
Definition ErrCodeCostExceeded := "REQUEST_COST_EXCEEDS_TIER_LIMIT".
Definition ErrCodePolicyFetchFailed := "POLICY_FETCH_FAILED".
Definition ErrTypeAdmission := "ADMISSION_FAILED".

Record AdmitInput := MkAdmitInput { ai_UserID : string; ai_Prompt : string; ai_Model : string }.

Record AdmitOutput := MkAdmitOutput {
  ao_Admitted : bool;
  ao_UserID : string;
  ao_Prompt : string;
  ao_Model : string;
  ao_MaxOutputTokens : Z;
}.

Definition zero_AdmitOutput : AdmitOutput := MkAdmitOutput false "" "" "" 0.

Section usecase.
Context {W : Type} `{!UserPolicyReader W, !Limiter W, !AdmissionMetrics W, !GoClock W}.
Context (policy : AdmissionPolicyConfig).

Definition reject (reason : RejectionReason) (err : option goerr)
  : M W (AdmitOutput * option goerr) :=
  _ ← RequestRejected reason;
  mret (zero_AdmitOutput, err).

(** The reason and the error code of a failed token policy. *)
Definition token_rejection (err : goerr) : RejectionReason * string :=
  if errors_Is (Some err) ErrInputTooLarge then (RejectionTokenLimit, ErrCodeInputToken)
  else if errors_Is (Some err) ErrContextLengthExceeded
  then (RejectionTokenLimit, ErrCodeCostExceeded)
  else (RejectionOther, ErrCodeInternal).

(** The reason and the error code of a failed rate limit policy. *)
Definition rate_rejection (err : goerr) : RejectionReason * string :=
  if errors_Is (Some err) ErrRateLimited then (RejectionRateLimited, ErrCodeRateLimited)
  else if errors_Is (Some err) ErrCostExceedsCapacity
  then (RejectionRateLimited, ErrCodeCostExceeded)
  else (RejectionOther, ErrCodeInternal).

(** The body of [Admit], without its deferred call. *)
Definition admit_body (req : AdmitInput) : M W (AdmitOutput * option goerr) :=
  let admissionRequest := MkAdmissionRequest (ai_UserID req) (ai_Prompt req) (ai_Model req) in
  p ← GetUserPolicy (ai_UserID req);
  match p with
  | Err err =>
      reject RejectionOther
        (Some (NewAppError ErrCodePolicyFetchFailed ErrTypeAdmission (Some err)))
  | Ok userPolicy =>
      let policyCtx := MkPolicyContext admissionRequest (MkRequestMetadata 0 0) userPolicy in
      match ModelAccessPolicy_Evaluate policy policyCtx with
      | Some err =>
          reject RejectionModelNotAllowed
            (EnsureAppError (Some err) ErrCodeModelNotAllowed ErrTypeAdmission)
      | None =>
          match TokenLimitPolicy_Evaluate policy policyCtx with
          | (Some err, _) =>
              reject (token_rejection err).1
                (EnsureAppError (Some err) (token_rejection err).2 ErrTypeAdmission)
          | (None, policyCtx) =>
              e ← RateLimitPolicy_Evaluate policyCtx;
              match e with
              | Some err =>
                  reject (rate_rejection err).1
                    (EnsureAppError (Some err) (rate_rejection err).2 ErrTypeAdmission)
              | None =>
                  mret (MkAdmitOutput true (ar_UserID admissionRequest)
                          (ar_Prompt admissionRequest) (ar_Model admissionRequest)
                          (md_MaxOutputTokens (pc_Metadata policyCtx)), None)
              end
          end
      end
  end.

Definition Admit (req : AdmitInput) : M W (AdmitOutput * option goerr) :=
  started ← time_Now;
  out ← admit_body req;
  finished ← time_Now;
  _ ← RequestFinished (finished - started);
  mret out.
End usecase.

(** ** adapters *)

Class UserTierService (W : Type) := { UserService_Tier : string -> M W (res goerr string) }.

#[global] Instance UserPolicyAdapter {W} `{!UserTierService W} : UserPolicyReader W := {|
  GetUserPolicy := fun userID =>
    r ← UserService_Tier userID;
    mret (res_map MkUserPolicy r);
|}.

(** The metrics service's admission counters; the adapter's recorder may be
    [nil]. *)
Record AdmissionMetricsRecorder (W : Type) := MkAdmissionRecorder {
  ObserveAdmissionTokenLimitRejection : M W unit;
  ObserveAdmissionModelNotAllowedRejection : M W unit;
  ObserveAdmissionRateLimitedRejection : M W unit;
  ObserveAdmissionOtherRejection : M W unit;
  Recorder_RequestFinished : Z -> M W unit;
}.

Definition MetricsAdapter_RequestRejected {W : Type}
    (recorder : option (AdmissionMetricsRecorder W)) (reason : RejectionReason) : M W unit :=
  match recorder with
  | None => skip
  | Some a =>
      match reason with
      | RejectionTokenLimit => ObserveAdmissionTokenLimitRejection W a
      | RejectionModelNotAllowed => ObserveAdmissionModelNotAllowedRejection W a
      | RejectionRateLimited => ObserveAdmissionRateLimitedRejection W a
      | RejectionOther => ObserveAdmissionOtherRejection W a
      end
  end.

Definition MetricsAdapter_RequestFinished {W : Type}
    (recorder : option (AdmissionMetricsRecorder W)) (d : Z) : M W unit :=
  match recorder with
  | None => skip
  | Some a => Recorder_RequestFinished W a d
  end.

(** ** infrastructure/config, module.go *)

Record RateLimit := MkRateLimit { cfg_Capacity : Z; cfg_RefillRate : Z; cfg_Ttl : Z }.
Record RateLimitConfig := MkRateLimitConfig { Free : RateLimit; Premium : RateLimit }.
Record ModelInfo := MkModelInfo { mi_Name : string; mi_ContextLength : Z }.
Record TierConfig := MkTierConfig {
  tc_MaxInputTokens : Z; tc_MaxOutputTokens : Z; tc_Models : list ModelInfo }.

(** [Tiers] is a Go map; [AdmissionConfig] lists it in the order of one
    iteration. *)
Record AdmissionConfig := MkAdmissionConfig {
  cfg_RateLimit : RateLimitConfig;
  cfg_Tiers : gmap string TierConfig;
}.

Definition build_tier (tierCfg : TierConfig) : TierPolicy :=
  MkTierPolicy (tc_MaxInputTokens tierCfg) (tc_MaxOutputTokens tierCfg)
    (list_to_set (mi_Name <$> tc_Models tierCfg))
    (foldl (fun m i => <[mi_Name i := mi_ContextLength i]> m) ∅ (tc_Models tierCfg)).

Definition BuildAdmissionPolicyConfig (cfg : AdmissionConfig) : AdmissionPolicyConfig :=
  build_tier <$> cfg_Tiers cfg.

Definition build_rate_limit (l : RateLimit) : TierRateLimit :=
  MkTierRateLimit (cfg_Capacity l) (cfg_RefillRate l) (cfg_Ttl l).

(** The limits of [buildAdmissionDeps]. *)
Definition tierRateLimits (cfg : AdmissionConfig) : RateLimitTiers :=
  <["free" := build_rate_limit (Free (cfg_RateLimit cfg))]>
  (<["premium" := build_rate_limit (Premium (cfg_RateLimit cfg))]> ∅).

Definition validateRateLimit (name : string) (limit : RateLimit) : option goerr :=
  if (cfg_Capacity limit <=? 0)%Z || (cfg_RefillRate limit <=? 0)%Z || (cfg_Ttl limit <=? 0)%Z
  then Some (errors_New ("admission configuration: " +:+ name
                           +:+ " rate limit capacity, refill rate, and TTL must be positive"))
  else None.

Fixpoint validate_models (models : list ModelInfo) : option goerr :=
  match models with
  | [] => None
  | model :: rest =>
      if str_empty (mi_Name model)
      then Some (errors_New "admission configuration: tier contains an empty model name")
      else if (mi_ContextLength model <=? 0)%Z
      then Some (errors_New "admission configuration: model context length must be positive")
      else validate_models rest
  end.

Definition validate_tier (tierName : string) (tier : TierConfig) : option goerr :=
  if str_empty tierName
  then Some (errors_New "admission configuration: tier name must not be empty")
  else if (tc_MaxInputTokens tier <=? 0)%Z || (tc_MaxOutputTokens tier <=? 0)%Z
  then Some (errors_New "admission configuration: tier token limits must be positive")
  else match tc_Models tier with
       | [] => Some (errors_New "admission configuration: tier must define at least one model")
       | models => validate_models models
       end.

(** The loop over the tiers, in some order of the map. *)
Fixpoint validate_tiers (tiers : list (string * TierConfig)) : option goerr :=
  match tiers with
  | [] => None
  | (name, tier) :: rest =>
      match validate_tier name tier with
      | Some e => Some e
      | None => validate_tiers rest
      end
  end.

Definition validateAdmissionConfig (cfg : AdmissionConfig) : option goerr :=
  match validateRateLimit "free" (Free (cfg_RateLimit cfg)) with
  | Some e => Some e
  | None =>
      match validateRateLimit "premium" (Premium (cfg_RateLimit cfg)) with
      | Some e => Some e
      | None =>
          match map_to_list (cfg_Tiers cfg) with
          | [] => Some (errors_New "admission configuration: at least one user tier is required")
          | tiers => validate_tiers tiers
          end
      end
  end.

(** [NewAdmissionModule]: the limits and policies the use case is built
    with; the booleans say whether a dependency is not nil. *)
Definition NewAdmissionModule (redisClient users metrics logger : bool)
    (cfg : AdmissionConfig) : res goerr (RateLimitTiers * AdmissionPolicyConfig) :=
  if negb redisClient then
    Err (errors_New "admission dependencies: redis client must not be nil")
  else if negb users then
    Err (errors_New "admission dependencies: user policy reader must not be nil")
  else if negb metrics then
    Err (errors_New "admission dependencies: metrics recorder must not be nil")
  else if negb logger then Err (errors_New "admission logger must not be nil")
  else match validateAdmissionConfig cfg with
       | Some e => Err e
       | None => Ok (tierRateLimits cfg, BuildAdmissionPolicyConfig cfg)
       end.
