(* ===== verification/AdmissionThms.v ===== *)
(** * Theorems about admission control *)

From S2P Require Import Prelude GoText GoErr Redis Env Admission.
From stdpp Require Import base gmap sets list strings pretty.
From Stdlib Require Import ZArith QArith Qminmax Lia Lqa.

(** ** The bucket *)

(** The bucket of a key: its tokens and the time of its last update; [None]
    when the key does not exist. *)
Definition bucket_of (d : rdata) (key : string) : option (Q * Z) :=
  match rhash d key !! "tokens", rhash d key !! "last" with
  | Some (BNum t), Some (BInt l) => Some (t, l)
  | _, _ => None
  end.

(** The key is absent or holds what the script writes. *)
Definition bucket_wf (d : rdata) (key : string) : Prop :=
  rhash d key !! "tokens" = None
  \/ exists t l, rhash d key !! "tokens" = Some (BNum t) /\ rhash d key !! "last" = Some (BInt l).

Section bucket.
Context `{!LuaFloat}.

(** The tokens available to a request at [now]. *)
Definition available (cap fill : Z) (b : option (Q * Z)) (now : Z) : Q :=
  match b with
  | None => inject_Z cap
  | Some (t, l) => refill cap fill t (inject_Z l) (inject_Z now)
  end.

Definition bucket_bounds (cap : Z) (b : option (Q * Z)) : Prop :=
  match b with None => True | Some (t, _) => (0 <= t <= inject_Z cap)%Q end.

Lemma bucket_wf_of d key :
  bucket_wf d key ->
  (rhash d key !! "tokens" = None /\ bucket_of d key = None) \/
  exists t l, rhash d key !! "tokens" = Some (BNum t)
    /\ rhash d key !! "last" = Some (BInt l) /\ bucket_of d key = Some (t, l).
Proof.
  unfold bucket_of. intros [Hn|(t & l & Ht & Hl)].
  - left. by rewrite Hn.
  - right. exists t, l. by rewrite Ht, Hl.
Qed.

(** The script on a well formed bucket. *)
Lemma allowScript_spec key cap fill now ttl cost d :
  (cost <= cap)%Z -> (0 < ttl)%Z -> bucket_wf d key ->
  let tokens := available cap fill (bucket_of d key) now in
  let ok := Qle_bool (inject_Z cost) tokens in
  exists d', run_script (allowScript key cap fill now ttl cost) d
      = (Ok (RInt (if ok then 1 else 0)), d')
    /\ bucket_wf d' key
    /\ bucket_of d' key = Some (if ok then rnd (tokens - inject_Z cost) else tokens, now).
Proof.
  intros Hc Httl Hwf tokens ok. unfold allowScript.
  rewrite (proj2 (Z.ltb_ge cap cost)) by lia. lua1. cbn [nth fmap list_fmap].
  set (put := fun t : Q => set_expiry key (r_now d + ttl * 10 ^ 6)
    (put_hash key (<["last" := BInt now]> (<["tokens" := BNum t]> (rhash d key)))
       (rhash_exp d key) d)).
  assert (Hput : forall t, bucket_wf (put t) key /\ bucket_of (put t) key = Some (t, now)).
  { intros t. assert (Hh : rhash (put t) key =
      <["last" := BInt now]> (<["tokens" := BNum t]> (rhash d key))).
    { unfold put. by rewrite rhash_set_expiry, rhash_put_eq. }
    assert (H1 : rhash (put t) key !! "tokens" = Some (BNum t)).
    { by rewrite Hh, lookup_insert_ne, lookup_insert_eq. }
    assert (H2 : rhash (put t) key !! "last" = Some (BInt now)).
    { by rewrite Hh, lookup_insert_eq. }
    split; [right; by exists t, now|]. unfold bucket_of. by rewrite H1, H2. }
  set (t' := if ok then rnd (tokens - inject_Z cost) else tokens).
  exists (put t'). split; [|exact (Hput t')].
  assert (Htail : forall A (k : script A),
    run_script (_ ← call (HSET key [("tokens", BNum t'); ("last", BInt now)]);
                _ ← call (EXPIRE key ttl); k) d = run_script k (put t')).
  { intros A k. lua1. lua1. unfold do_expire.
    by rewrite (proj2 (Z.leb_gt ttl 0)) by lia. }
  destruct (bucket_wf_of d key Hwf) as [[Hn Hb]|(t & l & Ht & Hl & Hb)].
  - assert (Htk : tokens = inject_Z cap) by (unfold tokens; by rewrite Hb).
    rewrite Hn, <- Htk. exact (Htail _ (mret (RInt (if ok then 1 else 0)))).
  - assert (Htk : tokens = refill cap fill t (inject_Z l) (inject_Z now))
      by (unfold tokens; by rewrite Hb).
    rewrite Ht, Hl. cbn [tonumberQ mbind option_bind]. rewrite <- Htk.
    exact (Htail _ (mret (RInt (if ok then 1 else 0)))).
Qed.

Context `{!LuaFloatLaws}.

Lemma refill_bounds cap fill t l now :
  (0 <= cap <= 2 ^ 53)%Z -> (0 <= fill)%Z -> (0 <= t)%Q ->
  (0 <= refill cap fill t l now <= inject_Z cap)%Q.
Proof.
  intros Hcap Hfill Ht. unfold refill.
  assert (Hr0 : (rnd 0 == 0)%Q) by (apply (rnd_int 0); lia).
  assert (Hpos : forall x, (0 <= x -> 0 <= rnd x)%Q).
  { intros x Hx. rewrite <- Hr0. by apply rnd_mono. }
  set (e := rnd (Qmax 0 (rnd (now - l)) / 1000)).
  assert (He : (0 <= e)%Q).
  { apply Hpos. apply Qle_shift_div_l; [reflexivity|]. rewrite Qmult_0_l. apply Q.le_max_l. }
  split; [|apply Q.le_min_l].
  apply Q.min_glb.
  - change 0%Q with (inject_Z 0). rewrite <- Zle_Qle. lia.
  - apply Hpos. assert (0 <= rnd (e * inject_Z fill))%Q; [|lra].
    apply Hpos, Qmult_le_0_compat; [done|]. change 0%Q with (inject_Z 0).
    rewrite <- Zle_Qle. lia.
Qed.

Lemma available_bounds cap fill b now :
  (0 <= cap <= 2 ^ 53)%Z -> (0 <= fill)%Z -> bucket_bounds cap b ->
  (0 <= available cap fill b now <= inject_Z cap)%Q.
Proof.
  intros Hcap Hfill Hb. destruct b as [[t l]|]; cbn.
  - apply refill_bounds; [done|done|apply Hb].
  - split; [|apply Qle_refl]. change 0%Q with (inject_Z 0). rewrite <- Zle_Qle. lia.
Qed.

Lemma spend_bounds cap cost tokens :
  (0 <= cap <= 2 ^ 53)%Z -> (0 <= cost)%Z -> (inject_Z cost <= tokens <= inject_Z cap)%Q ->
  (0 <= rnd (tokens - inject_Z cost) <= inject_Z cap)%Q.
Proof.
  intros Hcap Hc [H1 H2].
  assert (Hc' : (0 <= inject_Z cost)%Q) by (change 0%Q with (inject_Z 0); by rewrite <- Zle_Qle).
  assert (Hr0 : (rnd 0 == 0)%Q) by (apply (rnd_int 0); lia).
  assert (Hcp : (rnd (inject_Z cap) == inject_Z cap)%Q) by (apply rnd_int; lia).
  split.
  - rewrite <- Hr0. apply rnd_mono. lra.
  - eapply Qle_trans; [apply (rnd_mono _ (inject_Z cap)); lra|]. rewrite Hcp. apply Qle_refl.
Qed.
End bucket.

(** ** Conservation, in exact arithmetic *)

(** The total cost that a sequence of requests [(now, cost)] to one bucket is
    granted, the key staying alive. *)
Fixpoint granted `{!LuaFloat} (key : string) (cap fill ttl : Z) (reqs : list (Z * Z))
    (d : rdata) : Q :=
  match reqs with
  | [] => 0
  | (now, cost) :: rest =>
      let '(x, d') := run_script (allowScript key cap fill now ttl cost) d in
      (match x with Ok (RInt 1) => inject_Z cost | _ => 0 end
       + granted key cap fill ttl rest d')%Q
  end.

(** The times of the requests do not decrease, from [t] to [tmax]. *)
Fixpoint ordered (t tmax : Z) (reqs : list (Z * Z)) : Prop :=
  match reqs with
  | [] => (t <= tmax)%Z
  | (now, _) :: rest => (t <= now)%Z /\ ordered now tmax rest
  end.

Section exact.
Context `{!LuaFloat}.
Context (exact : forall q, (rnd q == q)%Q).

Lemma refill_exact cap fill t l now :
  (l <= now)%Z ->
  (refill cap fill t (inject_Z l) (inject_Z now)
     <= t + (inject_Z now - inject_Z l) * inject_Z fill / 1000)%Q.
Proof.
  intros Hl. unfold refill.
  eapply Qle_trans; [apply Q.le_min_r|]. rewrite !exact.
  assert (Hd : (0 <= inject_Z now - inject_Z l)%Q).
  { rewrite Zle_Qle in Hl. lra. }
  rewrite Q.max_r by done. apply Qle_lteq. right. field.
Qed.

Lemma ordered_le t tmax reqs : ordered t tmax reqs -> (t <= tmax)%Z.
Proof.
  revert t. induction reqs as [|[now cost] reqs IH]; intros t; cbn; [done|].
  intros [H1 H2]. apply IH in H2. lia.
Qed.

Lemma elapsed_mono fill a b c :
  (0 <= fill)%Z -> (a <= b)%Z -> (b <= c)%Z ->
  (0 <= (inject_Z b - inject_Z a) * inject_Z fill / 1000)%Q /\
  ((inject_Z b - inject_Z a) * inject_Z fill / 1000
   + (inject_Z c - inject_Z b) * inject_Z fill / 1000
   == (inject_Z c - inject_Z a) * inject_Z fill / 1000)%Q.
Proof.
  intros Hf Hab Hbc. split; [|field].
  apply Qle_shift_div_l; [reflexivity|]. rewrite Qmult_0_l.
  rewrite Zle_Qle in Hab, Hf. apply Qmult_le_0_compat; [lra|done].
Qed.

Lemma granted_from_bucket key cap fill ttl reqs d t l tmax :
  (0 <= fill)%Z -> (0 < ttl)%Z -> Forall (fun r => (0 <= r.2)%Z) reqs ->
  bucket_wf d key -> bucket_of d key = Some (t, l) -> (0 <= t)%Q -> ordered l tmax reqs ->
  (granted key cap fill ttl reqs d
     <= t + (inject_Z tmax - inject_Z l) * inject_Z fill / 1000)%Q.
Proof.
  intros Hf Httl Hcost. revert d t l.
  induction reqs as [|[now cost] reqs IH]; intros d t l Hwf Hb Ht Ho; cbn [granted ordered] in *.
  { destruct (elapsed_mono fill l l tmax Hf ltac:(lia) Ho) as [_ _].
    destruct (elapsed_mono fill l tmax tmax Hf Ho ltac:(lia)) as [H1 _]. lra. }
  destruct Ho as [Hl Ho]. apply Forall_cons in Hcost as [Hc Hcost]. cbn in Hc.
  pose proof (ordered_le _ _ _ Ho) as Hmax.
  destruct (elapsed_mono fill l now tmax Hf Hl Hmax) as [E1 E2].
  destruct (elapsed_mono fill now tmax tmax Hf Hmax ltac:(lia)) as [E3 _].
  destruct (decide (cost <= cap)%Z) as [Hcap|Hcap].
  - destruct (allowScript_spec key cap fill now ttl cost d Hcap Httl Hwf)
      as (d' & Hrun & Hwf' & Hb'). cbv zeta in Hrun, Hb'. rewrite Hrun.
    rewrite Hb in Hb'. cbn [available] in Hb'.
    rewrite Hb. cbn [available].
    pose proof (refill_exact cap fill t l now Hl) as Hr.
    set (tok := refill cap fill t (inject_Z l) (inject_Z now)) in *.
    assert (Htok0 : (0 <= tok)%Q \/ (tok < 0)%Q) by (destruct (Qlt_le_dec tok 0); auto).
    destruct (Qle_bool (inject_Z cost) tok) eqn:Hok.
    + apply Qle_bool_iff in Hok.
      specialize (IH Hcost d' _ now Hwf' Hb' ltac:(rewrite exact; lra) Ho).
      rewrite exact in IH. lra.
    + assert (Htok : (0 <= tok)%Q \/ (cap < 0)%Z).
      { destruct (Z_lt_le_dec cap 0) as [?|Hcp]; [by right|left].
        unfold tok, refill. apply Q.min_glb.
        - change 0%Q with (inject_Z 0). by rewrite <- Zle_Qle.
        - rewrite !exact.
          assert (Hd : (0 <= inject_Z now - inject_Z l)%Q) by (rewrite Zle_Qle in Hl; lra).
          rewrite Q.max_r by done.
          assert ((inject_Z now - inject_Z l) / 1000 * inject_Z fill ==
                  (inject_Z now - inject_Z l) * inject_Z fill / 1000)%Q as -> by field. lra. }
      destruct Htok as [Htok|Hneg]; [|lia].
      specialize (IH Hcost d' _ now Hwf' Hb' Htok Ho). lra.
  - unfold allowScript. rewrite (proj2 (Z.ltb_lt cap cost)) by lia. rewrite run_ret.
    specialize (IH Hcost d t l Hwf Hb Ht).
    assert (Ho' : ordered l tmax reqs).
    { clear -Ho Hl. destruct reqs as [|[n c] reqs]; cbn in *; [lia|]. destruct Ho. split; [lia|done]. }
    specialize (IH Ho'). lra.
Qed.
End exact.

(** ** The limiter on Redis *)

Section limiter.
Context {R : Type} `{!Redis R, !RedisDoc R, !GoFmt, !GoClock R, !LuaFloat, !LuaFloatLaws}.
Context (Hclock : forall r : R, redis_view (time_Now r).2 = redis_view r).

(** What [Allow] makes of the script's answer. *)
Definition limiter_verdict (x : res string resp) : option goerr :=
  match (match result_of x with Ok v => resp_Int64 v | Err e => Err e end) with
  | Err err => Some (errorf_w "rate limiter redis: " (Some err))
  | Ok (-1)%Z => Some ErrCostExceedsCapacity
  | Ok 1%Z => None
  | Ok _ => Some ErrRateLimited
  end.

Lemma Allow_direct cfg u tier lim (inp out : Z) (r : R) :
  cfg !! tier = Some lim ->
  let now := ((time_Now r).1 / 10 ^ 6)%Z in
  let s := allowScript (ratelimit_key u tier) (Capacity lim) (FillRate lim) now
             (duration_seconds (rl_TTL lim)) (wrap64 (inp + out)) in
  (Allow cfg u tier inp out r).1 = limiter_verdict (run_script s (redis_view r)).1
  /\ redis_view (Allow cfg u tier inp out r).2 = (run_script s (redis_view r)).2.
Proof.
  intros Hcfg. cbv zeta. unfold Allow. rewrite Hcfg. rewrite !bind_unfold. cbv zeta beta.
  rewrite ?bind_unfold, !rc_Int64_direct, !ret_unfold. cbn [fst snd].
  by rewrite run_script_view, Hclock.
Qed.

(** C13: a rate limit decision.  With a capacity of at most [2^53] tokens, a
    time to live of at least a second and a well formed bucket within its
    bounds, [Allow] admits exactly the requests whose cost is at most the
    tokens available now; it then leaves the bucket with the cost taken out,
    and leaves it within [0 .. capacity] in every case; a request whose cost
    exceeds the capacity changes nothing.  Lua's rounding is included. *)
Theorem allow_bucket cfg u tier lim inp out (r : R) :
  cfg !! tier = Some lim ->
  (0 <= Capacity lim <= 2 ^ 53)%Z -> (0 <= FillRate lim)%Z -> (second <= rl_TTL lim)%Z ->
  (0 <= inp)%Z -> (0 <= out)%Z -> (inp + out <= int64_max)%Z ->
  let key := ratelimit_key u tier in
  let d := redis_view r in
  bucket_wf d key -> bucket_bounds (Capacity lim) (bucket_of d key) ->
  let now := ((time_Now r).1 / 10 ^ 6)%Z in
  let tokens := available (Capacity lim) (FillRate lim) (bucket_of d key) now in
  let cost := inject_Z (inp + out) in
  let err := (Allow cfg u tier inp out r).1 in
  let d' := redis_view (Allow cfg u tier inp out r).2 in
  bucket_wf d' key /\ bucket_bounds (Capacity lim) (bucket_of d' key) /\
  if (Capacity lim <? inp + out)%Z then err = Some ErrCostExceedsCapacity /\ d' = d
  else if Qle_bool cost tokens
  then err = None /\ bucket_of d' key = Some (rnd (tokens - cost), now)
  else err = Some ErrRateLimited /\ bucket_of d' key = Some (tokens, now).
Proof.
  intros Hcfg Hcap Hfill Httl Hi Ho Hsum key d Hwf Hb now tokens cost. cbv zeta.
  destruct (Allow_direct cfg u tier lim inp out r Hcfg) as [Ha Hd]. cbv zeta in Ha, Hd.
  rewrite Hd. revert Ha. fold key now d.
  rewrite wrap64_small by (unfold in_int64, int64_min; lia).
  assert (Ht : (0 < duration_seconds (rl_TTL lim))%Z).
  { unfold duration_seconds, second in *. rewrite Z.quot_div_nonneg by lia.
    apply Z.div_str_pos. lia. }
  destruct (Z.ltb_spec (Capacity lim) (inp + out)) as [Hc|Hc].
  - unfold allowScript. rewrite (proj2 (Z.ltb_lt _ _) Hc), run_ret. cbn [fst snd].
    intros ->. done.
  - destruct (allowScript_spec key (Capacity lim) (FillRate lim) now _ (inp + out) d Hc Ht Hwf)
      as (d' & -> & Hwf' & Hb'). cbv zeta in Hb'. cbn [fst snd].
    fold tokens cost in Hb' |- *.
    pose proof (available_bounds (Capacity lim) (FillRate lim) _ now Hcap Hfill Hb) as Hav.
    fold tokens in Hav. intros Ha. split; [done|]. rewrite Hb'.
    destruct (Qle_bool cost tokens) eqn:Hok; rewrite Ha.
    + split; [|done]. apply Qle_bool_iff in Hok. cbn. apply spend_bounds; [done|lia|].
      split; [done|apply Hav].
    + split; [exact Hav|done].
Qed.
End limiter.

Section conservation.
Context `{!LuaFloat}.
Context (exact : forall q, (rnd q == q)%Q).

(** C14: conservation of tokens.  In exact arithmetic, whatever requests are
    made to a fresh bucket between [t0] and [tmax], at times that do not
    decrease and while the key lives, the total cost granted is at most the
    capacity plus the refill of that time. *)
Theorem rate_limit_conservation key cap fill ttl t0 tmax reqs d :
  (0 <= cap)%Z -> (0 <= fill)%Z -> (0 < ttl)%Z ->
  Forall (fun r => (0 <= r.2)%Z) reqs ->
  rhash d key !! "tokens" = None -> ordered t0 tmax reqs ->
  (granted key cap fill ttl reqs d
     <= inject_Z cap + (inject_Z tmax - inject_Z t0) * inject_Z fill / 1000)%Q.
Proof.
  intros Hcap Hfill Httl Hcost Hd Ho.
  assert (Hwf : bucket_wf d key) by by left.
  assert (Hnone : bucket_of d key = None) by (unfold bucket_of; by rewrite Hd).
  assert (Hq : (0 <= inject_Z cap)%Q) by (change 0%Q with (inject_Z 0); by rewrite <- Zle_Qle).
  revert t0 Ho. induction reqs as [|[t1 c1] reqs IH]; intros t0 Ho; cbn [granted ordered] in *.
  { destruct (elapsed_mono fill t0 tmax tmax Hfill Ho ltac:(lia)) as [He _]. lra. }
  destruct Ho as [Ht Ho]. apply Forall_cons in Hcost as [Hc1 Hcost]. cbn in Hc1.
  pose proof (ordered_le _ _ _ Ho) as Hm.
  destruct (elapsed_mono fill t0 t1 tmax Hfill Ht Hm) as [E1 E2].
  destruct (decide (c1 <= cap)%Z) as [Hle|Hgt].
  - destruct (allowScript_spec key cap fill t1 ttl c1 d Hle Httl Hwf) as (d' & -> & Hwf' & Hb').
    cbv zeta in Hb'. rewrite Hnone in *. cbn [available] in *.
    rewrite (proj2 (Qle_bool_iff _ _)) in Hb' |- * by by rewrite <- Zle_Qle.
    rewrite Zle_Qle in Hle.
    pose proof (granted_from_bucket exact key cap fill ttl reqs d' _ t1 tmax Hfill Httl Hcost
      Hwf' Hb' ltac:(rewrite exact; lra) Ho) as Hg. rewrite exact in Hg. lra.
  - unfold allowScript. rewrite (proj2 (Z.ltb_lt cap c1)) by lia. rewrite run_ret.
    specialize (IH Hcost t1 Ho). lra.
Qed.
End conservation.

(** ** The use case *)

Section admission.
Context {W : Type} `{!UserPolicyReader W, !Limiter W, !AdmissionMetrics W, !GoClock W}.
Context (policy : AdmissionPolicyConfig).

Definition tier_policy (pol : UserPolicy) : TierPolicy :=
  default zero_TierPolicy (policy !! up_Tier pol).

Definition estimated (req : AdmitInput) : Z := (RuneCountInString (ai_Prompt req) / 4)%Z.

(** The checks that need no rate limiter. *)
Definition static_ok (pol : UserPolicy) (req : AdmitInput) : Prop :=
  ai_Model req ∈ AllowedModels (tier_policy pol)
  /\ (estimated req <= MaxInputTokens (tier_policy pol))%Z
  /\ (forall c, ModelContextLengths (tier_policy pol) !! ai_Model req = Some c ->
        (wrap64 (estimated req + MaxOutputTokens (tier_policy pol)) <= c)%Z).

Definition context_of (pol : UserPolicy) (req : AdmitInput) : PolicyEvaluationContext :=
  MkPolicyContext (MkAdmissionRequest (ai_UserID req) (ai_Prompt req) (ai_Model req))
    (MkRequestMetadata 0 0) pol.

(** The policies that run first decide [static_ok]. *)
Lemma static_policies pol req :
  match ModelAccessPolicy_Evaluate policy (context_of pol req),
        TokenLimitPolicy_Evaluate policy (context_of pol req) with
  | None, (None, ctx) =>
      static_ok pol req /\
      ctx = MkPolicyContext (pc_Request (context_of pol req))
              (MkRequestMetadata (estimated req) (MaxOutputTokens (tier_policy pol))) pol
  | _, _ => ~ static_ok pol req
  end.
Proof.
  unfold ModelAccessPolicy_Evaluate, TokenLimitPolicy_Evaluate, static_ok, estimated.
  cbn [pc_Request pc_User ar_Model ar_Prompt context_of].
  change (default zero_TierPolicy (policy !! up_Tier pol)) with (tier_policy pol).
  case_bool_decide as Hm; [|tauto].
  case (Z.ltb_spec (MaxInputTokens (tier_policy pol))); intros Hin; [lia|].
  destruct (ModelContextLengths (tier_policy pol) !! ai_Model req) as [c|].
  - case (Z.ltb_spec c); intros Hc.
    + intros (_ & _ & H3). specialize (H3 c eq_refl). lia.
    + split; [|done]. split; [done|]. split; [done|]. by intros ? [= <-].
  - by split.
Qed.

(** C34: the use case admits a request if and only if the user's policy is
    found, the tier allows the model, the estimated input (a quarter of the
    prompt's runes) is within the tier's limit and, with the tier's output
    limit, within the model's context, and the rate limiter grants exactly
    that cost.  It then answers the tier's output limit; otherwise it answers
    the zero output and an error. *)
Theorem admit_iff req w :
  let w1 := (time_Now w).2 in
  let '(out, err) := (Admit policy req w).1 in
  (ao_Admitted out = true <->
   exists pol, (GetUserPolicy (ai_UserID req) w1).1 = Ok pol /\ static_ok pol req
     /\ (Limiter_Allow (ai_UserID req) (up_Tier pol) (estimated req)
           (MaxOutputTokens (tier_policy pol)) (GetUserPolicy (ai_UserID req) w1).2).1 = None)
  /\ (ao_Admitted out = true -> err = None /\ exists pol,
        (GetUserPolicy (ai_UserID req) w1).1 = Ok pol
        /\ out = MkAdmitOutput true (ai_UserID req) (ai_Prompt req) (ai_Model req)
                   (MaxOutputTokens (tier_policy pol)))
  /\ (ao_Admitted out = false -> out = zero_AdmitOutput /\ err <> None).
Proof.
  cbv zeta. unfold Admit, admit_body, reject. rewrite !bind_unfold, ret_unfold. cbn [fst snd].
  set (w1 := (time_Now w).2). destruct (GetUserPolicy (ai_UserID req) w1) as [[pol|e] w2];
    cbn [fst snd].
  2:{ rewrite bind_unfold, ret_unfold. cbn. split; [|done]. split; [done|]. by intros (? & ? & _). }
  pose proof (static_policies pol req) as Hs. unfold context_of in Hs.
  assert (Hsome : forall e' c t, EnsureAppError (Some e') c t <> None).
  { intros e' c t. destruct (EnsureAppError_some e' c t) as (x & -> & _). done. }
  destruct (ModelAccessPolicy_Evaluate _ _) as [e|].
  { rewrite bind_unfold, ret_unfold. cbn.
    split; [split; [done|]|split; [done|split; [done|apply Hsome]]].
    intros (p & [= <-] & Hok & _). by destruct (Hs Hok). }
  destruct (TokenLimitPolicy_Evaluate _ _) as [[e|] ctx].
  { rewrite bind_unfold, ret_unfold. cbn.
    split; [split; [done|]|split; [done|split; [done|apply Hsome]]].
    intros (p & [= <-] & Hok & _). by destruct (Hs Hok). }
  destruct Hs as [Hok ->]. rewrite bind_unfold. unfold RateLimitPolicy_Evaluate.
  cbn [pc_Request pc_Metadata pc_User ar_UserID md_InputTokens md_MaxOutputTokens context_of].
  destruct (Limiter_Allow _ _ _ _ w2) as [[e|] w3] eqn:El; cbn [fst snd].
  - rewrite bind_unfold, ret_unfold. cbn.
    split; [split; [done|]|split; [done|split; [done|apply Hsome]]].
    intros (p & [= <-] & _ & Hl). by rewrite El in Hl.
  - rewrite ret_unfold. cbn. split; [|split; [|done]].
    + split; [|done]. intros _. exists pol. by rewrite El.
    + intros _. split; [done|]. by exists pol.
Qed.

(** C35: a request that the tier forbids or that is too large never reaches
    the rate limiter: whatever property of the world the user lookup, the
    metrics and the clock keep, the use case keeps too, without any
    assumption on the limiter (so no tokens are taken). *)
Theorem admit_no_charge (I : W -> Prop) req w :
  (forall u, Preserves I (GetUserPolicy u)) -> (forall x, Preserves I (RequestRejected x)) ->
  (forall x, Preserves I (RequestFinished x)) -> Preserves I time_Now ->
  (forall pol, (GetUserPolicy (ai_UserID req) (time_Now w).2).1 = Ok pol -> ~ static_ok pol req) ->
  I w -> I (Admit policy req w).2.
Proof.
  intros HG HR HF HT Hno HI. unfold Admit, admit_body, reject.
  rewrite !bind_unfold, ret_unfold. cbn [snd].
  apply HF, HT. pose proof (HG (ai_UserID req) _ (HT _ HI)) as H2.
  destruct (GetUserPolicy (ai_UserID req) (time_Now w).2) as [[pol|e] w2]; cbn [fst snd] in *.
  2:{ rewrite bind_unfold, ret_unfold. by apply HR. }
  pose proof (static_policies pol req) as Hs. unfold context_of in Hs.
  specialize (Hno pol eq_refl).
  destruct (ModelAccessPolicy_Evaluate _ _) as [e|].
  { rewrite bind_unfold, ret_unfold. by apply HR. }
  destruct (TokenLimitPolicy_Evaluate _ _) as [[e|] ctx].
  { rewrite bind_unfold, ret_unfold. by apply HR. }
  by destruct Hs.
Qed.
End admission.

(** ** A time to live below one second *)

(** The configuration check accepts a time to live of less than one
    second, which the limiter sends to Redis as 0 seconds: Redis then deletes
    the bucket after every request, and every request that fits the capacity
    is granted, whatever was granted before. *)
Theorem subsecond_ttl_never_limits `{!LuaFloat} name lim key reqs d :
  (0 < cfg_Capacity lim)%Z -> (0 < cfg_RefillRate lim)%Z -> (0 < cfg_Ttl lim < second)%Z ->
  rhash d key !! "tokens" = None ->
  Forall (fun r => (r.2 <= cfg_Capacity lim)%Z) reqs ->
  validateRateLimit name lim = None /\
  granted key (cfg_Capacity lim) (cfg_RefillRate lim) (duration_seconds (cfg_Ttl lim)) reqs d
    = foldr (fun r acc => inject_Z r.2 + acc)%Q 0%Q reqs.
Proof.
  intros Hc Hr Ht Hd Hall. split.
  { unfold validateRateLimit. by replace (_ || _ || _) with false by lia. }
  assert (duration_seconds (cfg_Ttl lim) = 0)%Z as ->.
  { unfold duration_seconds, second in *. apply Z.quot_small. lia. }
  revert d Hd. induction reqs as [|[now cost] reqs IH]; intros d Hd; [done|].
  apply Forall_cons in Hall as [Hcost Hall]. cbn in Hcost. cbn [granted foldr snd].
  unfold allowScript. rewrite (proj2 (Z.ltb_ge _ cost)) by lia. lua1. cbn [nth fmap list_fmap].
  rewrite Hd, (proj2 (Qle_bool_iff _ _)) by by rewrite <- Zle_Qle.
  lua1. lua1. rewrite run_ret. f_equal. apply (IH Hall).
  unfold do_expire. cbn [Z.leb Z.compare]. unfold rhash, del_key. cbn [r_hashes].
  by rewrite lookup_delete_eq.
Qed.

(** ** Witnesses *)

Module AdmissionDemo.
#[export] Instance float : LuaFloat := {| rnd := fun q => q |}.
#[export] Instance float_laws : LuaFloatLaws.
Proof. by split. Qed.
#[export] Instance clock : GoClock rdata := {| time_Now := mret (5 * 10 ^ 9)%Z |}.
#[export] Instance fmt : GoFmt := {|
  sscan_int64 := fun _ => None; parse_int64 := fun _ => None;
  format_rfc3339 := pretty; parse_rfc3339 := fun _ => None |}.
#[export] Instance users : UserPolicyReader rdata := {|
  GetUserPolicy := fun _ => mret (Ok (MkUserPolicy "free")) |}.
#[export] Instance metrics : AdmissionMetrics rdata := {|
  RequestRejected := fun _ => skip; RequestFinished := fun _ => skip |}.

Definition lim : TierRateLimit := MkTierRateLimit 100 10 (60 * second).
Definition cfg : RateLimitTiers := {[ "free" := lim ]}.
Definition policy : AdmissionPolicyConfig :=
  {[ "free" := MkTierPolicy 50 20 {[ "m" ]} {[ "m" := 64%Z ]} ]}.

#[export] Instance limiter : Limiter rdata := {| Limiter_Allow := Allow cfg |}.
End AdmissionDemo.

#[local] Existing Instances AdmissionDemo.float AdmissionDemo.float_laws AdmissionDemo.clock
  AdmissionDemo.fmt AdmissionDemo.users AdmissionDemo.metrics AdmissionDemo.limiter.

Lemma allow_bucket_witness :
  bucket_bounds 100
    (bucket_of (Allow AdmissionDemo.cfg "u" "free" 30 20 rdata_empty).2 (ratelimit_key "u" "free")).
Proof.
  refine (proj1 (proj2 (allow_bucket (R := rdata) (fun _ => eq_refl) AdmissionDemo.cfg "u" "free"
    AdmissionDemo.lim 30 20 rdata_empty eq_refl _ _ _ _ _ _ _ _))).
  - split; discriminate.
  - discriminate.
  - discriminate.
  - discriminate.
  - discriminate.
  - discriminate.
  - left. reflexivity.
  - exact I.
Defined.

Lemma rate_limit_conservation_witness :
  (granted "k" 100 10 60 [(0, 80); (1000, 80); (6000, 70)]%Z rdata_empty
     <= inject_Z 100 + (inject_Z 6000 - inject_Z 0) * inject_Z 10 / 1000)%Q.
Proof.
  apply (rate_limit_conservation (H := AdmissionDemo.float) (fun q => Qeq_refl q)).
  - discriminate.
  - discriminate.
  - reflexivity.
  - repeat constructor; discriminate.
  - reflexivity.
  - repeat split; discriminate.
Defined.

Lemma admit_no_charge_witness :
  let req := MkAdmitInput "u" "hello" "forbidden-model" in
  r_hashes (Admit AdmissionDemo.policy req rdata_empty).2 = ∅.
Proof.
  apply (admit_no_charge AdmissionDemo.policy (fun w => r_hashes w = ∅)).
  - intros u w Hw. exact Hw.
  - intros x w Hw. exact Hw.
  - intros x w Hw. exact Hw.
  - intros w Hw. exact Hw.
  - intros pol Hp (Hm & _). injection Hp as <-. revert Hm. vm_compute. discriminate.
  - reflexivity.
Defined.

Lemma subsecond_ttl_never_limits_witness :
  granted "k" 10 1 0 [(0, 10); (0, 10); (0, 10)]%Z rdata_empty = (10 + (10 + (10 + 0)))%Q.
Proof.
  refine (proj2 (subsecond_ttl_never_limits "free" (MkRateLimit 10 1 (5 * 10 ^ 8)) "k"
    [(0, 10); (0, 10); (0, 10)]%Z rdata_empty _ _ _ _ _)).
  - reflexivity.
  - reflexivity.
  - split; reflexivity.
  - reflexivity.
  - repeat constructor; discriminate.
Defined.
