(* ===== verification/Idempotency.v ===== *)
(** * Idempotency keys, request coalescing and request hashing
    (internal/inference/infrastructure, internal/inference/domain) *)

From S2P Require Import Prelude GoText GoErr Redis Env.
From stdpp Require Import base gmap sets list strings pretty.
From Stdlib Require Import ZArith Lia.

(** ** domain *)

Record InferenceInput := MkInferenceInput { in_Prompt : string; in_Model : string }.

Record InferenceRequest := MkInferenceRequest {
  ir_UserID : string;
  ir_Prompt : string;
  ir_Model : string;
  ir_MaxOutputTokens : Z;
}.

Record InferenceJob := MkInferenceJob {
  ij_JobID : string;
  ij_UserID : string;
  ij_CurrentAttempt : Z;
}.

Definition GenerateKey (v : InferenceRequest) : string :=
  ir_UserID v +:+ ":" +:+ ir_Prompt v +:+ ":" +:+ ir_Model v.

Definition ErrEmptyPrompt : goerr :=
  Leaf (Sentinel "inference.ErrEmptyPrompt") "prompt can not be empty".
Definition ErrModelNotSet : goerr :=
  Leaf (Sentinel "inference.ErrModelNotSet") "model must be set".
Definition ErrQueueFull : goerr :=
  Leaf (Sentinel "inference.ErrQueueFull") "queue is full".

Definition NormalizeRequest (task : InferenceInput) : InferenceInput :=
  MkInferenceInput (TrimSpace (in_Prompt task)) (TrimSpace (in_Model task)).

Definition ValidateInferenceInput (inferenceInput : InferenceInput)
  : res goerr InferenceRequest :=
  let n := NormalizeRequest inferenceInput in
  if str_empty (in_Prompt n) then Err ErrEmptyPrompt
  else if str_empty (in_Model n) then Err ErrModelNotSet
  else Ok (MkInferenceRequest "" (in_Prompt n) (in_Model n) 0).

Inductive IdempotencyAction : Type :=
| ActionNew | ActionDuplicateInFlight | ActionReplay | ActionUnknown | ActionFailed.

Record IdempotencyResult := MkIdempotencyResult {
  id_Action : IdempotencyAction;
  id_Status : string;
  id_JobID : string;
  id_CreatedAt : Z;
  id_ExpiresAt : Z;
  id_Err : option goerr;
}.

Inductive CoalescingAction : Type := PROCEED | REJECTED | UNKNOWN.

Record CoalescingDecision := MkCoalescingDecision {
  cd_Action : CoalescingAction;
  cd_Error : option goerr;
}.

(** ** infrastructure/hash/hash.go: 64-bit FNV-1a *)

Definition fnv_offset : Z := 14695981039346656037.
Definition fnv_prime : Z := 1099511628211.

Definition fnv_step (h : Z) (b : Ascii.ascii) : Z :=
  (Z.lxor h (Z.of_N (Ascii.N_of_ascii b)) * fnv_prime) mod 2 ^ 64.

Definition HashRequest (key : string) : Z :=
  foldl fnv_step fnv_offset (String.list_ascii_of_string key).

(** ** infrastructure/config *)

Record InferenceConfig := MkInferenceConfig {
  CoalescingTTL : Z;
  IdempotencyTTL : Z;
  CompletedIdempotencyTTL : Z;
}.

(** ** The scripts of infrastructure/idempotency/idempotency.go *)

Definition hget_text (key field : string) : script (option string) :=
  v ← call (HGET key field); mret (option_map bulk_text v).

Definition idempotencyScript (key : string) (ttl : Z) (now : string) : script resp :=
  e ← call (EXISTS key);
  if negb e then
    _ ← call (HSET key [("status", BStr "in_flight"); ("created_at", BStr now)]);
    _ ← call (EXPIRE key ttl);
    mret (RArr [RStr "NEW"; RStr "in_flight"; RStr now; RStr ""])
  else
    status ← hget_text key "status";
    created ← hget_text key "created_at";
    job ← hget_text key "job_id";
    let created_at := default "" created in
    let job_id := default "" job in
    let reply (action status : string) :=
      mret (RArr [RStr action; RStr status; RStr created_at; RStr job_id]) in
    let status_or_missing := default "missing" status in
    if bool_decide (status = Some "in_flight") then
      reply "DUPLICATE_IN_FLIGHT" status_or_missing
    else if bool_decide (status = Some "completed") then reply "REPLAY" status_or_missing
    else if bool_decide (status = Some "failed") then reply "FAILED" status_or_missing
    else reply "UNKNOWN_STATE" status_or_missing.

Definition setJobIDScript (idem_key reverse_key job_id : string) : script resp :=
  e ← call (EXISTS idem_key);
  if negb e then mret (RInt 0)
  else
    _ ← call (HSET idem_key [("job_id", BStr job_id)]);
    _ ← call (SET reverse_key (BStr idem_key));
    ttl ← call (TTL idem_key);
    _ ← (if (0 <? ttl)%Z then call (EXPIRE reverse_key ttl) else mret tt);
    mret (RInt 1).

Definition idempotencyTransitionStatusScript (reverse_key new_status timestamp : string)
    (ttl : Z) : script resp :=
  g ← call (GET reverse_key);
  match g with
  | None => mret (RStr "missing")
  | Some b =>
      let idem_key := bulk_text b in
      current ← hget_text idem_key "status";
      match current with
      | None => mret (RStr "missing")
      | Some current_status =>
          if String.eqb current_status "in_flight" then
            _ ← call (HSET idem_key [("status", BStr new_status);
                                     ("completed_at", BStr timestamp)]);
            _ ← call (EXPIRE idem_key ttl);
            _ ← call (EXPIRE reverse_key ttl);
            mret (RStr "ok")
          else mret (RStr "invalid")
      end
  end.

(** ** The store *)

Definition buildIdempotencyKey (userID idempotencyHeader : string) : string :=
  "idempotent:" +:+ userID +:+ ":inference:" +:+ idempotencyHeader.

Definition jobIDtoIdempotencyKey (jobID : string) : string :=
  "jobID:" +:+ jobID +:+ ":IdempotencyKey".

Definition toString (v : resp) : string :=
  match v with RStr s => s | _ => "" end.

Section store.
Context {W : Type} `{!RedisClient W, !GoFmt, !GoClock W}.
Context (config : InferenceConfig).

(** [time.Now().UTC().Format(time.RFC3339)]. *)
Definition now_rfc3339 : M W string :=
  t ← time_Now; mret (format_rfc3339 (t / second)%Z).

(** The result for the action the script answered. *)
Definition idempotency_action (action : string)
  : option (IdempotencyAction * option goerr) :=
  if String.eqb action "NEW" then Some (ActionNew, None)
  else if String.eqb action "DUPLICATE_IN_FLIGHT" then
    Some (ActionDuplicateInFlight, Some (errors_New "duplicated idempotency key"))
  else if String.eqb action "REPLAY" then
    Some (ActionReplay, Some (errors_New "already processed idempotency key"))
  else if String.eqb action "UNKNOWN_STATE" then
    Some (ActionUnknown, Some (errors_New "unknown state for idempotency key"))
  else if String.eqb action "FAILED" then
    Some (ActionFailed, Some (errors_New "job has failed"))
  else None.

Definition decode_idempotency (ttl : Z) (raw : resp) : res goerr IdempotencyResult :=
  match raw with
  | RArr [a0; a1; a2; a3] =>
      let action := toString a0 in
      match parse_rfc3339 (toString a2) with
      | None => Err (errorf_w "parse created_at: " (Some (errors_New "parsing time")))
      | Some secs =>
          let createdAt := (secs * second)%Z in
          match idempotency_action action with
          | Some (act, err) =>
              Ok (MkIdempotencyResult act (toString a1) (toString a3) createdAt
                    (createdAt + ttl)%Z err)
          | None => Err (errors_New ("unrecognized idempotency action: " +:+ action))
          end
      end
  | _ => Err (errors_New "unexpected lua result")
  end.

Definition ClaimOrGet (userID idempotencyHeader : string) (ttl : Z)
  : M W (res goerr IdempotencyResult) :=
  let idempotentKey := buildIdempotencyKey userID idempotencyHeader in
  now ← now_rfc3339;
  raw ← rc_Result (idempotencyScript idempotentKey (duration_seconds ttl) now);
  mret match raw with
       | Err err => Err (errorf_w "claim or get idempotency record: " (Some err))
       | Ok raw => decode_idempotency ttl raw
       end.

Definition SetJobID (userID idempotencyHeader jobID : string) : M W (option goerr) :=
  let idempotentKey := buildIdempotencyKey userID idempotencyHeader in
  result ← rc_Int64 (setJobIDScript idempotentKey (jobIDtoIdempotencyKey jobID) jobID);
  mret match result with
       | Err err => Some (errorf_w "set idempotency job id: " (Some err))
       | Ok 1%Z => None
       | Ok _ =>
           Some (errors_New ("idempotency record not found for key=" +:+ idempotentKey))
       end.

Definition Idempotency_Delete (userID idempotencyHeader : string) : M W (option goerr) :=
  x ← rc_run (call (DEL (buildIdempotencyKey userID idempotencyHeader)));
  mret match x with
       | Err err => Some (errorf_w "delete idempotency key: " (Some err))
       | Ok _ => None
       end.

Definition run_transition (jobID status : string) : M W (res goerr resp) :=
  now ← now_rfc3339;
  rc_Result (idempotencyTransitionStatusScript (jobIDtoIdempotencyKey jobID) status now
               (duration_seconds (CompletedIdempotencyTTL config))).

Definition TransitionStatus (jobID status : string) : M W (option goerr) :=
  result ← run_transition jobID status;
  mret match result with
       | Err err => Some (errorf_w "transition idempotency status: " (Some err))
       | Ok r =>
           if String.eqb (toString r) "ok" then None else
           Some (errors_New ("cannot transition idempotency status for job=" +:+ jobID
                               +:+ ": " +:+ toString r))
       end.

Definition TransitionStatusIfInFlight (jobID status : string) : M W (res goerr bool) :=
  result ← run_transition jobID status;
  mret match result with
       | Err err => Err (errorf_w "transition idempotency status if in-flight: " (Some err))
       | Ok r =>
           if String.eqb (toString r) "ok" then Ok true
           else if String.eqb (toString r) "missing" || String.eqb (toString r) "invalid"
           then Ok false
           else Err (errors_New ("unexpected transition result for job=" +:+ jobID
                                    +:+ ": " +:+ toString r))
       end.

(** ** infrastructure/coalescing/coalescing.go *)

Definition buildCoalescingKey (userID : string) (hashRequest : Z) : string :=
  "coalescing:" +:+ userID +:+ ":inference:" +:+ pretty hashRequest.

Definition coalescingScript (key : string) (ttl : Z) (now : string) : script resp :=
  created ← call (SET_NX_EX key (BStr now) ttl);
  mret (RStr (if (created : bool) then "PROCEED" else "REJECTED")).

Definition TryCoalesce (userID : string) (hashRequest ttl : Z)
  : M W (res goerr CoalescingDecision) :=
  now ← now_rfc3339;
  result ← rc_Result
    (coalescingScript (buildCoalescingKey userID hashRequest) (duration_seconds ttl) now);
  mret match result with
       | Err err => Err (errorf_w "coalescing failed: " (Some err))
       | Ok (RStr s) =>
           Ok (if String.eqb s "PROCEED" then MkCoalescingDecision PROCEED None
               else if String.eqb s "REJECTED" then
                 MkCoalescingDecision REJECTED
                   (Some (errors_New ("coalescing rejected: " +:+ s)))
               else MkCoalescingDecision UNKNOWN
                      (Some (errors_New ("unexpected lua action: " +:+ s))))
       | Ok _ => Err (errors_New "invalid lua response")
       end.

Definition Coalescing_Delete (userID : string) (hashRequest : Z) : M W (option goerr) :=
  x ← rc_run (call (DEL (buildCoalescingKey userID hashRequest)));
  mret match x with
       | Err err => Some (errorf_w "delete coalescing key: " (Some err))
       | Ok _ => None
       end.
End store.
