(* ===== verification/Postgres.v ===== *)
(** * PostgreSQL, as the program uses it

    PostgreSQL is a service outside the repository: the class [Postgres],
    one typed statement per SQL statement of the repositories.
    [PostgresDoc] states what those statements do under the schema of
    migrations/: [pg_view] is the content of the tables and [doc_sql] the
    documented effect of a statement.  [pgdata] itself is an instance.

    [PgClient] is the connection the Go code sees, with transactions;
    [pgworld] is a connection that may fail at any request. *)

From S2P Require Import Prelude GoErr.
From stdpp Require Import base gmap sets list strings pretty sorting.
From Stdlib Require Import ZArith Lia.

(** ** Tables *)

Record user_row := MkUserRow { u_role : string; u_tier : string }.

Record job_row := MkJobRow {
  j_user : string;
  j_status : string;
  j_retry : Z;
  j_created : Z;
}.

Record request_row := MkRequestRow { q_model : string; q_prompt : string; q_max : Z }.

Record pgdata := MkPgData {
  pg_now : Z;
  pg_users : gmap string user_row;
  pg_jobs : gmap string job_row;
  pg_requests : gmap string request_row;
  pg_oauth : gmap (string * string) string;
}.

Definition pgdata_empty : pgdata := MkPgData 0 ∅ ∅ ∅ ∅.

(** ** Statements *)

Inductive sql : Type -> Type :=
| INSERT_USER (user : string) : sql unit
| UPSERT_ADMIN (user : string) : sql unit
| UPDATE_TIER (user tier : string) : sql Z
| SELECT_USER (user : string) : sql (option user_row)
| INSERT_JOB (job user status : string) (retry : Z) : sql unit
| INSERT_REQUEST (job model prompt : string) (max : Z) : sql unit
| SELECT_REQUEST (job : string) : sql (option request_row)
| SELECT_JOB (job : string) : sql (option job_row)
| SELECT_ORPHANS (before : Z) (limit : Z) : sql (list (string * job_row))
| UPDATE_JOB (job status : string) (retry : Z) : sql Z
| UPDATE_JOB_IF (job status : string) (retry : Z) (expected : string) : sql Z
| INSERT_OAUTH (user provider puid : string) : sql unit
| SELECT_OAUTH (provider puid : string) : sql (option string).

(** ** Types and constraints *)

(** Characters of a UTF-8 string: the bytes that do not continue one. *)
Definition char_length (s : string) : nat :=
  length (filter (fun b => let n := Ascii.N_of_ascii b in
                           ((n <? 128)%N || (191 <? n)%N) = true)
            (String.list_ascii_of_string s)).

Definition varchar (n : nat) (s : string) : bool := (char_length s <=? n)%nat.
Definition int4 (z : Z) : bool := ((- 2 ^ 31 <=? z) && (z <? 2 ^ 31))%Z.
Definition job_status (s : string) : bool :=
  bool_decide (s ∈ ["created"; "completed"; "failed"]).
Definition user_tier (s : string) : bool := bool_decide (s ∈ ["free"; "premium"]).

Definition upd_jobs f (d : pgdata) : pgdata :=
  MkPgData (pg_now d) (pg_users d) (f (pg_jobs d)) (pg_requests d) (pg_oauth d).
Definition upd_users f (d : pgdata) : pgdata :=
  MkPgData (pg_now d) (f (pg_users d)) (pg_jobs d) (pg_requests d) (pg_oauth d).
Definition upd_requests f (d : pgdata) : pgdata :=
  MkPgData (pg_now d) (pg_users d) (pg_jobs d) (f (pg_requests d)) (pg_oauth d).
Definition upd_oauth f (d : pgdata) : pgdata :=
  MkPgData (pg_now d) (pg_users d) (pg_jobs d) (pg_requests d) (f (pg_oauth d)).

Definition set_status (status : string) (retry : Z) (r : job_row) : job_row :=
  MkJobRow (j_user r) status retry (j_created r).

(** The rows of the orphan query, the oldest first. *)
Definition older (x y : Z * string) : Prop :=
  (x.1 < y.1)%Z \/ (x.1 = y.1 /\ String.leb x.2 y.2 = true).
#[global] Instance older_dec x y : Decision (older x y).
Proof. unfold older. apply _. Defined.

Definition orphan_rows (jobs : gmap string job_row) (before limit : Z)
  : list (string * job_row) :=
  let rows := filter (fun kv => j_status kv.2 = "created" /\ (j_created kv.2 < before)%Z)
                (map_to_list jobs) in
  let ids := merge_sort older ((fun kv => (j_created kv.2, kv.1)) <$> rows) in
  take (Z.to_nat limit) (omap (fun p => (fun r => (p.2, r)) <$> jobs !! p.2) ids).

Definition doc_sql {A : Type} (c : sql A) (d : pgdata) : res string A * pgdata :=
  match c in sql A return res string A * pgdata with
  | INSERT_USER u =>
      if varchar 36 u && bool_decide (pg_users d !! u = None)
      then (Ok tt, upd_users <[u := MkUserRow "user" "free"]> d)
      else (Err "constraint violation on users", d)
  | UPSERT_ADMIN u =>
      if varchar 36 u then (Ok tt, upd_users <[u := MkUserRow "admin" "premium"]> d)
      else (Err "value too long for type character varying(36)", d)
  | UPDATE_TIER u t =>
      if user_tier t then
        match pg_users d !! u with
        | Some r => (Ok 1%Z, upd_users <[u := MkUserRow (u_role r) t]> d)
        | None => (Ok 0%Z, d)
        end
      else (Err "invalid input value for enum user_tier", d)
  | SELECT_USER u => (Ok (pg_users d !! u), d)
  | INSERT_JOB j u s n =>
      if varchar 36 j && varchar 36 u && job_status s && int4 n
         && bool_decide (is_Some (pg_users d !! u)) && bool_decide (pg_jobs d !! j = None)
      then (Ok tt, upd_jobs <[j := MkJobRow u s n (pg_now d)]> d)
      else (Err "constraint violation on jobs", d)
  | INSERT_REQUEST j m p n =>
      if varchar 36 j && varchar 36 m && int4 n
         && bool_decide (is_Some (pg_jobs d !! j)) && bool_decide (pg_requests d !! j = None)
      then (Ok tt, upd_requests <[j := MkRequestRow m p n]> d)
      else (Err "constraint violation on job_requests", d)
  | SELECT_REQUEST j => (Ok (pg_requests d !! j), d)
  | SELECT_JOB j => (Ok (pg_jobs d !! j), d)
  | SELECT_ORPHANS before limit =>
      if (limit <? 0)%Z then (Err "LIMIT must not be negative", d)
      else (Ok (orphan_rows (pg_jobs d) before limit), d)
  | UPDATE_JOB j s n =>
      if job_status s && int4 n then
        match pg_jobs d !! j with
        | Some r => (Ok 1%Z, upd_jobs <[j := set_status s n r]> d)
        | None => (Ok 0%Z, d)
        end
      else (Err "invalid input value", d)
  | UPDATE_JOB_IF j s n e =>
      if job_status s && int4 n && job_status e then
        match pg_jobs d !! j with
        | Some r =>
            if String.eqb (j_status r) e
            then (Ok 1%Z, upd_jobs <[j := set_status s n r]> d) else (Ok 0%Z, d)
        | None => (Ok 0%Z, d)
        end
      else (Err "invalid input value", d)
  | INSERT_OAUTH u p i =>
      if varchar 36 u && varchar 64 p && varchar 256 i
         && bool_decide (is_Some (pg_users d !! u)) && bool_decide (pg_oauth d !! (p, i) = None)
         && bool_decide (map_Forall (fun _ u' => u' <> u) (pg_oauth d))
      then (Ok tt, upd_oauth <[(p, i) := u]> d)
      else (Err "constraint violation on oauth_accounts", d)
  | SELECT_OAUTH p i => (Ok (pg_oauth d !! (p, i)), d)
  end.

(** ** The service *)

Class Postgres (D : Type) := {
  pg_call : forall {A : Type}, sql A -> D -> res string A * D;
  pg_view : D -> pgdata;
}.

Class PostgresDoc (D : Type) `{!Postgres D} : Prop := {
  pg_call_doc : forall (A : Type) (c : sql A) (d : D),
    doc_sql c (pg_view d) = ((pg_call c d).1, pg_view (pg_call c d).2);
}.

#[global] Instance pgdata_pg : Postgres pgdata := {|
  pg_call := fun A c d => doc_sql c d;
  pg_view := fun d => d;
|}.

#[global] Instance pgdata_pg_doc : PostgresDoc pgdata.
Proof. split. intros A c d. simpl. by destruct (doc_sql c d). Qed.

(** ** The connection *)

(** [tx] says whether the context carries the open transaction
    ([ExtractDB]). *)
Class PgClient (W : Type) := {
  pg_run : forall {A : Type}, bool -> sql A -> M W (res goerr A);
  pg_Begin : M W (option goerr);
  pg_Commit : M W (option goerr);
  pg_Rollback : M W (option goerr);
}.

(** ** A connection that may fail *)

(** What happens to a request: delivered; lost before it reached the server;
    or its reply lost after the server ran it. *)
Inductive outcome : Type :=
| Delivered
| Refused (e : goerr)
| ReplyLost (e : goerr).

(** The committed database, the open transaction with its failed flag, and
    what will happen to the next requests; an empty list means that
    everything is delivered. *)
Record pgworld (D : Type) := MkPgWorld {
  pw_db : D;
  pw_tx : option (D * bool);
  pw_faults : list outcome;
}.
Arguments MkPgWorld {D}.
Arguments pw_db {D}.
Arguments pw_tx {D}.
Arguments pw_faults {D}.

Definition next_outcome {D} (w : pgworld D) : outcome * pgworld D :=
  match pw_faults w with
  | [] => (Delivered, w)
  | o :: os => (o, MkPgWorld (pw_db w) (pw_tx w) os)
  end.

Definition ErrTxCommitRollback : goerr :=
  Leaf (Sentinel "pgx.ErrTxCommitRollback") "commit unexpectedly resulted in rollback".
Definition ErrTxClosed : goerr :=
  Leaf (Sentinel "pgx.ErrTxClosed") "tx is closed".

Definition lift_res {A} (r : res string A) : res goerr A :=
  match r with Ok a => Ok a | Err m => Err (errors_New m) end.

Section pgworld.
Context {D : Type} `{!Postgres D}.

(** A statement on the database or on the open transaction; a failed
    statement dooms the transaction. *)
Definition pw_exec {A} (tx : bool) (c : sql A) (w : pgworld D) : res goerr A * pgworld D :=
  match tx, pw_tx w with
  | true, Some (d, true) =>
      (Err (errors_New "current transaction is aborted"), w)
  | true, Some (d, false) =>
      let '(r, d') := pg_call c d in
      match r with
      | Ok a => (Ok a, MkPgWorld (pw_db w) (Some (d', false)) (pw_faults w))
      | Err m => (Err (errors_New m), MkPgWorld (pw_db w) (Some (d', true)) (pw_faults w))
      end
  | true, None => (Err ErrTxClosed, w)
  | false, _ =>
      let '(r, d') := pg_call c (pw_db w) in
      (lift_res r, MkPgWorld d' (pw_tx w) (pw_faults w))
  end.

(** A request under an outcome. *)
Definition pw_request {A} (fail : goerr -> A) (m : M (pgworld D) A) : M (pgworld D) A :=
  fun w =>
    let '(o, w1) := next_outcome w in
    match o with
    | Delivered => m w1
    | Refused e => (fail e, w1)
    | ReplyLost e => let '(_, w2) := m w1 in (fail e, w2)
    end.

Definition pw_begin : M (pgworld D) (option goerr) :=
  fun w => (None, MkPgWorld (pw_db w) (Some (pw_db w, false)) (pw_faults w)).

Definition pw_commit : M (pgworld D) (option goerr) :=
  fun w =>
    match pw_tx w with
    | None => (Some ErrTxClosed, w)
    | Some (d, true) => (Some ErrTxCommitRollback, MkPgWorld (pw_db w) None (pw_faults w))
    | Some (d, false) => (None, MkPgWorld d None (pw_faults w))
    end.

Definition pw_rollback : M (pgworld D) (option goerr) :=
  fun w =>
    match pw_tx w with
    | None => (Some ErrTxClosed, w)
    | Some _ => (None, MkPgWorld (pw_db w) None (pw_faults w))
    end.

#[global] Instance pgworld_client : PgClient (pgworld D) := {|
  pg_run := fun A tx c => pw_request Err (pw_exec tx c);
  pg_Begin := pw_request Some pw_begin;
  pg_Commit := pw_request Some pw_commit;
  pg_Rollback := pw_request Some pw_rollback;
|}.

(** A connection that delivers every request, outside transactions. *)
Definition direct_pg : PgClient D := {|
  pg_run := fun A _ c d => let '(r, d') := pg_call c d in (lift_res r, d');
  pg_Begin := mret None;
  pg_Commit := mret None;
  pg_Rollback := mret None;
|}.
End pgworld.

Lemma pg_call_reply {D} `{!Postgres D, !PostgresDoc D} {A} (c : sql A) (d : D) :
  (pg_call c d).1 = (doc_sql c (pg_view d)).1.
Proof. by rewrite pg_call_doc. Qed.

Lemma pg_call_view {D} `{!Postgres D, !PostgresDoc D} {A} (c : sql A) (d : D) :
  pg_view (pg_call c d).2 = (doc_sql c (pg_view d)).2.
Proof. by rewrite pg_call_doc. Qed.
