(* ===== verification/Job.v ===== *)
(** * Jobs (internal/job, internal/shared/tx/postgres)

    The durable job record: its states, the PostgreSQL repository, the unit
    of work, the use case and the retry configuration. *)

From S2P Require Import Prelude GoErr Postgres.
From stdpp Require Import base gmap sets list strings pretty.
From Stdlib Require Import ZArith Lia.

(** ** domain *)

Record UserPolicy := MkUserPolicy { Tier : string }.

Record RetryPolicy := MkRetryPolicy {
  MaxAttempts : Z;
  BaseDelay : Z;
  MaxDelay : Z;
}.

Record JobPayload := MkJobPayload {
  jp_JobID : string;
  jp_Model : string;
  jp_Prompt : string;
  jp_MaxOutputTokens : Z;
}.

(** [Status] is a Go string type; a row may hold any of the enum's values. *)
Definition Status : Type := string.
Definition StatusCreated : Status := "created".
Definition StatusCompleted : Status := "completed".
Definition StatusFailed : Status := "failed".

Record Job := MkJob {
  JobID : string;
  UserID : string;
  JobStatus : Status;
  CurrentAttempt : Z;
  CreatedAt : Z;
  RetryAttempt : RetryPolicy;
}.

Definition zero_RetryPolicy : RetryPolicy := MkRetryPolicy 0 0 0.

Definition ErrJobNotFound : goerr := Leaf (Sentinel "job.ErrJobNotFound") "job not found".
Definition ErrInvalidTransition : goerr :=
  Leaf (Sentinel "job.ErrInvalidTransition") "invalid job transition".

Definition set_job_status (j : Job) (s : Status) : Job :=
  MkJob (JobID j) (UserID j) s (CurrentAttempt j) (CreatedAt j) (RetryAttempt j).

(** [(j *Job) Complete()] and [Fail()]: the job after the call. *)
Definition Complete (j : Job) : option goerr * Job :=
  if String.eqb (JobStatus j) StatusCreated
  then (None, set_job_status j StatusCompleted) else (Some ErrInvalidTransition, j).

Definition Fail (j : Job) : option goerr * Job :=
  if String.eqb (JobStatus j) StatusCreated
  then (None, set_job_status j StatusFailed) else (Some ErrInvalidTransition, j).

Class UserPolicyReader (W : Type) := {
  GetUserPolicy : string -> M W (res goerr UserPolicy) }.

Definition JobPolicyConfig : Type := gmap string RetryPolicy.

(** ** shared/tx/postgres/uow.go *)

Section uow.
Context {W : Type} `{!PgClient W}.

(** [Execute]: begin, the function, commit; the deferred rollback runs on
    every path after a successful begin. *)
Definition Execute (fn : M W (res goerr string)) : M W (res goerr string) :=
  b ← pg_Begin;
  match b with
  | Some err => mret (Err (errorf_w "start transaction: " (Some err)))
  | None =>
      r ← (result ← fn;
           match result with
           | Err err => mret (Err err)
           | Ok result =>
               c ← pg_Commit;
               mret match c with
                    | Some err =>
                        if errors_Is (Some err) ErrTxCommitRollback
                        then Err (errorf_w "transaction already rolled back: " (Some err))
                        else Err (errorf_w "commit transaction: " (Some err))
                    | None => Ok result
                    end
           end);
      _ ← pg_Rollback;
      mret r
  end.
End uow.

(** ** infrastructure/persistence/postgres.go *)

Section repository.
Context {W : Type} `{!PgClient W}.

Definition Save (tx : bool) (job : Job) : M W (option goerr) :=
  r ← pg_run tx (INSERT_JOB (JobID job) (UserID job) (JobStatus job) (CurrentAttempt job));
  mret match r with
       | Err err => Some (errorf_w "create job: " (Some err))
       | Ok _ => None
       end.

Definition SaveRequest (tx : bool) (jobReq : JobPayload) : M W (option goerr) :=
  r ← pg_run tx (INSERT_REQUEST (jp_JobID jobReq) (jp_Model jobReq) (jp_Prompt jobReq)
                   (jp_MaxOutputTokens jobReq));
  mret match r with
       | Err err => Some (errorf_w "save job request: " (Some err))
       | Ok _ => None
       end.

Definition repo_PayloadByID (jobID : string) : M W (res goerr JobPayload) :=
  r ← pg_run false (SELECT_REQUEST jobID);
  mret match r with
       | Err err => Err (errorf_w "get job by id: " (Some err))
       | Ok None => Err ErrJobNotFound
       | Ok (Some q) => Ok (MkJobPayload jobID (q_model q) (q_prompt q) (q_max q))
       end.

(** Scanning a row into a [Job]; [CurrentAttempt] is a [uint8]. *)
Definition scan_job (jobID : string) (r : job_row) : option Job :=
  if (0 <=? j_retry r)%Z && (j_retry r <? 256)%Z
  then Some (MkJob jobID (j_user r) (j_status r) (j_retry r) (j_created r) zero_RetryPolicy)
  else None.

Definition scan_error : goerr := errors_New "can't scan into dest[3]: value out of range for uint8".

Definition JobByID (jobID : string) : M W (res goerr Job) :=
  r ← pg_run false (SELECT_JOB jobID);
  mret match r with
       | Err err => Err (errorf_w "find job by id: " (Some err))
       | Ok None => Err ErrJobNotFound
       | Ok (Some row) =>
           match scan_job jobID row with
           | Some job => Ok job
           | None => Err (errorf_w "find job by id: " (Some scan_error))
           end
       end.

Fixpoint scan_jobs (rows : list (string * job_row)) : option (list Job) :=
  match rows with
  | [] => Some []
  | (id, row) :: rest =>
      job ← scan_job id row; jobs ← scan_jobs rest; Some (job :: jobs)
  end.

Definition repo_PendingOrphans (before limit : Z) : M W (res goerr (list Job)) :=
  r ← pg_run false (SELECT_ORPHANS before limit);
  mret match r with
       | Err err => Err (errorf_w "list pending orphan jobs: " (Some err))
       | Ok rows =>
           match scan_jobs rows with
           | Some jobs => Ok jobs
           | None => Err (errorf_w "scan pending orphan job: " (Some scan_error))
           end
       end.

Definition repo_UpdateStatus (jobID : string) (status : Status) (retryCount : Z)
  : M W (option goerr) :=
  tag ← pg_run false (UPDATE_JOB jobID status retryCount);
  mret match tag with
       | Err err => Some (errorf_w "update job status: " (Some err))
       | Ok n => if (n =? 0)%Z then Some ErrJobNotFound else None
       end.

Definition repo_UpdateStatusIfStatus (jobID : string) (retryCount : Z)
    (status expectedStatus : Status) : M W (res goerr bool) :=
  tag ← pg_run false (UPDATE_JOB_IF jobID status retryCount expectedStatus);
  mret match tag with
       | Err err => Err (errorf_w "update job status: " (Some err))
       | Ok n => Ok (n =? 1)%Z
       end.
End repository.

(** The interface of the repository, and its implementation. *)
Class JobRepository (W : Type) := {
  jr_Save : bool -> Job -> M W (option goerr);
  jr_SaveRequest : bool -> JobPayload -> M W (option goerr);
  jr_PayloadByID : string -> M W (res goerr JobPayload);
  jr_JobByID : string -> M W (res goerr Job);
  jr_PendingOrphans : Z -> Z -> M W (res goerr (list Job));
  jr_UpdateStatus : string -> Status -> Z -> M W (option goerr);
  jr_UpdateStatusIfStatus : string -> Z -> Status -> Status -> M W (res goerr bool);
}.

#[global] Instance pg_JobRepository {W} `{!PgClient W} : JobRepository W := {|
  jr_Save := Save;
  jr_SaveRequest := SaveRequest;
  jr_PayloadByID := repo_PayloadByID;
  jr_JobByID := JobByID;
  jr_PendingOrphans := repo_PendingOrphans;
  jr_UpdateStatus := repo_UpdateStatus;
  jr_UpdateStatusIfStatus := repo_UpdateStatusIfStatus;
|}.

(** ** public *)

Definition ErrCodePolicyFetchFailed := "JOB_POLICY_FETCH_FAILED".
Definition ErrCodeJobNotFound := "JOB_NOT_FOUND".
Definition ErrCodeJobCreationFailed := "JOB_CREATION_FAILED".
Definition ErrCodeJobStatusUpdateFailed := "JOB_STATUS_UPDATE_FAILED".

Record CreateJobRequest := MkCreateJobRequest {
  cj_UserID : string; cj_Prompt : string; cj_Model : string; cj_MaxOutputTokens : Z }.
Record JobPayloadRequest := MkJobPayloadRequest { pr_JobID : string; pr_UserID : string }.
Record JobPayloadResponse := MkJobPayloadResponse {
  pl_JobID : string; pl_UserID : string; pl_Prompt : string; pl_Model : string;
  pl_MaxOutputTokens : Z }.
Record JobSnapshot := MkJobSnapshot {
  js_JobID : string; js_UserID : string; js_Status : string; js_RetryCount : Z;
  js_CreatedAt : Z }.

(** ** usecase/job_usecase.go *)

Definition ErrTypeJob := "JOB_FAILED".

(** [uuid.New().String()]. *)
Class Uuid (W : Type) := { uuid_New : M W string }.

Section usecase.
Context {W : Type} `{!JobRepository W, !PgClient W, !UserPolicyReader W, !Uuid W}.
Context (tierPolicy : JobPolicyConfig).

Definition no_tier_error (tier : string) : goerr :=
  NewAppError ErrCodePolicyFetchFailed ErrTypeJob
    (Some (errors_New ("no retry policy configured for tier: " +:+ tier))).

(** [EnsureAppError] of an error that is not nil. *)
Definition ensured (err : goerr) (code : string) : goerr :=
  default err (EnsureAppError (Some err) code ErrTypeJob).

Definition GetRetryPolicy (userID : string) : M W (res goerr RetryPolicy) :=
  p ← GetUserPolicy userID;
  mret match p with
       | Err err => Err (ensured err ErrCodePolicyFetchFailed)
       | Ok userPolicy =>
           match tierPolicy !! Tier userPolicy with
           | None => Err (no_tier_error (Tier userPolicy))
           | Some p => Ok (MkRetryPolicy (MaxAttempts p) (BaseDelay p) (MaxDelay p))
           end
       end.

Definition Create (req : CreateJobRequest) : M W (res goerr string) :=
  p ← GetUserPolicy (cj_UserID req);
  match p with
  | Err err => mret (Err (ensured err ErrCodePolicyFetchFailed))
  | Ok userPolicy =>
      match tierPolicy !! Tier userPolicy with
      | None => mret (Err (no_tier_error (Tier userPolicy)))
      | Some policy =>
          let userRetryPolicy :=
            MkRetryPolicy (MaxAttempts policy) (BaseDelay policy) (MaxDelay policy) in
          jobID ← uuid_New;
          let job := MkJob jobID (cj_UserID req) StatusCreated 1 0 userRetryPolicy in
          let jobReq := MkJobPayload jobID (cj_Model req) (cj_Prompt req)
                          (cj_MaxOutputTokens req) in
          result ← Execute
            (e ← jr_Save true job;
             match e with
             | Some err => mret (Err err)
             | None =>
                 e ← jr_SaveRequest true jobReq;
                 mret match e with
                      | Some err => Err err
                      | None => Ok jobID
                      end
             end);
          mret match result with
               | Err err => Err (ensured err ErrCodeDBTransactionFailed)
               | Ok result => Ok result
               end
      end
  end.

Definition PayloadByID (payloadReq : JobPayloadRequest) : M W (res goerr JobPayloadResponse) :=
  r ← jr_PayloadByID (pr_JobID payloadReq);
  mret match r with
       | Err err =>
           if errors_Is (Some err) ErrJobNotFound then Err (ensured err ErrCodeJobNotFound)
           else Err (ensured err ErrCodeDBQueryFailed)
       | Ok p => Ok (MkJobPayloadResponse (jp_JobID p) (pr_UserID payloadReq) (jp_Prompt p)
                       (jp_Model p) (jp_MaxOutputTokens p))
       end.

(** [MarkCompleted] and [MarkFailed]: read the job, step its state, write.
    [mark_rest] is what follows the read. *)
Definition mark_rest (step : Job -> option goerr * Job) (jobID : string) (retryCount : Z)
    (r : res goerr Job) : M W (option goerr) :=
  match r with
  | Err err =>
      mret (Some (if errors_Is (Some err) ErrJobNotFound then ensured err ErrCodeJobNotFound
                  else ensured err ErrCodeDBQueryFailed))
  | Ok job =>
      match step job with
      | (Some err, _) => mret (Some (ensured err ErrCodeJobStatusUpdateFailed))
      | (None, job) =>
          e ← jr_UpdateStatus jobID (JobStatus job) retryCount;
          mret match e with
               | Some err => Some (ensured err ErrCodeJobStatusUpdateFailed)
               | None => None
               end
      end
  end.

Definition mark (step : Job -> option goerr * Job) (jobID : string) (retryCount : Z)
  : M W (option goerr) :=
  r ← jr_JobByID jobID; mark_rest step jobID retryCount r.

Definition MarkCompleted : string -> Z -> M W (option goerr) := mark Complete.
Definition MarkFailed : string -> Z -> M W (option goerr) := mark Fail.

Definition snapshot (job : Job) : JobSnapshot :=
  MkJobSnapshot (JobID job) (UserID job) (JobStatus job) (CurrentAttempt job) (CreatedAt job).

Definition GetByID (jobID : string) : M W (res goerr JobSnapshot) :=
  r ← jr_JobByID jobID;
  mret match r with
       | Err err => Err err
       | Ok job => Ok (snapshot job)
       end.

Definition PendingOrphans (before limit : Z) : M W (res goerr (list JobSnapshot)) :=
  r ← jr_PendingOrphans before limit;
  mret match r with
       | Err err => Err err
       | Ok jobs => Ok (snapshot <$> jobs)
       end.

Definition UpdateStatus (jobID status : string) (retryCount : Z) : M W (option goerr) :=
  jr_UpdateStatus jobID status retryCount.

Definition UpdateStatusIfStatus (jobID : string) (retryCount : Z) (status expected : string)
  : M W (res goerr bool) :=
  jr_UpdateStatusIfStatus jobID retryCount status expected.
End usecase.

(** ** infrastructure/config, module.go *)

Record RetryConfig := MkRetryConfig { MaxAttempt : Z; rc_BaseDelay : Z; rc_MaxDelay : Z }.

Definition JobConfig : Type := gmap string RetryConfig.

Definition check_tier (tierName : string) (c : RetryConfig) : option goerr :=
  if str_empty tierName
  then Some (errors_New "job configuration: user tier name must not be empty")
  else if (MaxAttempt c <=? 0)%Z
  then Some (errors_New "job configuration: max_attempt must be greater than zero for tier")
  else if (255 <? MaxAttempt c)%Z
  then Some (errors_New "job configuration: max_attempt must be <= 255 for tier")
  else if (rc_BaseDelay c <=? 0)%Z
  then Some (errors_New "job configuration: base_delay must be greater than zero for tier")
  else if (rc_MaxDelay c <? rc_BaseDelay c)%Z
  then Some (errors_New "job configuration: max_delay must be greater than or equal to base_delay for tier")
  else None.

(** The loop over the tiers, in some order of the map. *)
Fixpoint build_tiers (cfg : list (string * RetryConfig)) (tiers : JobPolicyConfig)
  : res goerr JobPolicyConfig :=
  match cfg with
  | [] => Ok tiers
  | (tierName, c) :: rest =>
      match check_tier tierName c with
      | Some e => Err e
      | None =>
          build_tiers rest
            (<[tierName := MkRetryPolicy (MaxAttempt c) (rc_BaseDelay c) (rc_MaxDelay c)]> tiers)
      end
  end.

Definition BuildJobPolicyConfig (cfg : gmap string RetryConfig) : res goerr JobPolicyConfig :=
  match map_to_list cfg with
  | [] => Err (errors_New "job configuration: at least one user tier must be configured")
  | tiers => build_tiers tiers ∅
  end.

Definition NewJobModule (pool users logger : bool) (cfg : JobConfig) : res goerr JobPolicyConfig :=
  if negb pool then Err (errors_New "job dependencies: postgres pool must not be nil")
  else if negb users then
    Err (errors_New "job dependencies: user policy reader must not be nil")
  else if negb logger then Err (errors_New "job logger must not be nil")
  else BuildJobPolicyConfig cfg.
