(* ===== verification/JobThms.v ===== *)
(** * Theorems about jobs *)

From S2P Require Import Prelude GoErr Postgres Job.
From stdpp Require Import base gmap sets list strings pretty.
From Stdlib Require Import ZArith Lia.

(** ** Creation under faults *)

Section create.
Context {D : Type} `{!Postgres D, !PostgresDoc D}.
#[local] Abbreviation W := (pgworld D).

(** The committed tables and the open transaction are those of [w]. *)
Definition same_pg (w w' : W) : Prop := pw_db w' = pw_db w /\ pw_tx w' = pw_tx w.

Context `{!UserPolicyReader W, !Uuid W}.
Context (Husers : forall u w, same_pg w (GetUserPolicy u w).2).
Context (Huuid : forall w, same_pg w (uuid_New w).2).
Context (tierPolicy : JobPolicyConfig).

(** The two rows of a new job. *)
Definition created_rows (req : CreateJobRequest) (id : string) (d d' : pgdata) : Prop :=
  pg_jobs d !! id = None /\ pg_requests d !! id = None
  /\ pg_jobs d' = <[id := MkJobRow (cj_UserID req) "created" 1 (pg_now d)]> (pg_jobs d)
  /\ pg_requests d' =
       <[id := MkRequestRow (cj_Model req) (cj_Prompt req) (cj_MaxOutputTokens req)]>
         (pg_requests d)
  /\ pg_users d' = pg_users d /\ pg_oauth d' = pg_oauth d.

Lemma next_outcome_same (w : W) : same_pg w (next_outcome w).2.
Proof. unfold next_outcome, same_pg. by destruct (pw_faults w). Qed.

(** A statement in a transaction leaves the committed tables alone; if it
    answers [Ok], the transaction was open and has advanced. *)
Lemma pg_run_tx {A} (c : sql A) (w : W) :
  pw_db (pg_run true c w).2 = pw_db w /\
  match (pg_run true c w).1 with
  | Ok a => exists t, pw_tx w = Some (t, false) /\ (pg_call c t).1 = Ok a
              /\ pw_tx (pg_run true c w).2 = Some ((pg_call c t).2, false)
  | Err _ => True
  end.
Proof.
  cbn. unfold pw_request, next_outcome.
  assert (Hx : forall w : W, pw_db (pw_exec true c w).2 = pw_db w /\
    match (pw_exec true c w).1 with
    | Ok a => exists t, pw_tx w = Some (t, false) /\ (pg_call c t).1 = Ok a
              /\ pw_tx (pw_exec true c w).2 = Some ((pg_call c t).2, false)
    | Err _ => True
    end).
  { clear. intros w. unfold pw_exec. destruct (pw_tx w) as [[t [|]]|] eqn:E; [done| |done].
    destruct (pg_call c t) as [[a|m] t'] eqn:Ec; cbn; [|done].
    split; [done|]. exists t. by rewrite Ec. }
  destruct (pw_faults w) as [|[|e|e] fs];
    [apply Hx|apply (Hx (MkPgWorld (pw_db w) (pw_tx w) fs))|done|].
  destruct (Hx (MkPgWorld (pw_db w) (pw_tx w) fs)) as [H1 _].
  destruct (pw_exec true c _) as [r w2]. done.
Qed.

Lemma insert_job_ok j u s n d a :
  (doc_sql (INSERT_JOB j u s n) d).1 = Ok a ->
  pg_jobs d !! j = None /\
  (doc_sql (INSERT_JOB j u s n) d).2 = upd_jobs <[j := MkJobRow u s n (pg_now d)]> d.
Proof.
  cbn [doc_sql]. intros H. case_match eqn:E; [|done].
  apply andb_true_iff in E as [_ E%bool_decide_eq_true]. done.
Qed.

Lemma insert_request_ok j m q n d a :
  (doc_sql (INSERT_REQUEST j m q n) d).1 = Ok a ->
  pg_requests d !! j = None /\
  (doc_sql (INSERT_REQUEST j m q n) d).2 = upd_requests <[j := MkRequestRow m q n]> d.
Proof.
  cbn [doc_sql]. intros H. case_match eqn:E; [|done].
  apply andb_true_iff in E as [_ E%bool_decide_eq_true]. done.
Qed.

(** The two inserts of [Create], in a transaction that just began. *)
Lemma inserts_spec (req : CreateJobRequest) id pol (w : W) :
  let job := MkJob id (cj_UserID req) StatusCreated 1 0 pol in
  let q := MkJobPayload id (cj_Model req) (cj_Prompt req) (cj_MaxOutputTokens req) in
  let m : M W (res goerr string) :=
    (e ← jr_Save true job;
     match e with
     | Some err => mret (Err err)
     | None => e ← jr_SaveRequest true q;
               mret match e with Some err => Err err | None => Ok id end
     end) in
  pw_db (m w).2 = pw_db w /\
  forall t a, pw_tx w = Some (t, false) -> (m w).1 = Ok a ->
    a = id /\ exists t', pw_tx (m w).2 = Some (t', false)
      /\ created_rows req id (pg_view t) (pg_view t').
Proof.
  cbv zeta. cbn [jr_Save jr_SaveRequest pg_JobRepository]. unfold Save, SaveRequest.
  rewrite !bind_unfold, !ret_unfold. cbn [fst snd JobID UserID JobStatus CurrentAttempt].
  set (c1 := INSERT_JOB _ _ _ _).
  destruct (pg_run_tx c1 w) as [Hdb1 Hr1].
  destruct (pg_run true c1 w) as [[[]|e] w1]; cbn [fst snd] in *; [|by rewrite ret_unfold].
  destruct Hr1 as (t & Htx & Hok1 & Htx1).
  rewrite !bind_unfold, !ret_unfold. cbn [fst snd jp_JobID jp_Model jp_Prompt jp_MaxOutputTokens].
  set (c2 := INSERT_REQUEST _ _ _ _).
  destruct (pg_run_tx c2 w1) as [Hdb2 Hr2].
  destruct (pg_run true c2 w1) as [[[]|e] w2]; cbn [fst snd] in *; [|by rewrite Hdb2].
  destruct Hr2 as (t1 & Htx1' & Hok2 & Htx2). rewrite Htx1 in Htx1'. simplify_eq.
  split; [by rewrite Hdb2|]. intros t0 a Ht [= <-]. rewrite Htx in Ht. simplify_eq.
  split; [done|]. exists (pg_call c2 (pg_call c1 t0).2).2. split; [done|].
  rewrite pg_call_reply, pg_call_view in Hok2. rewrite !pg_call_view.
  rewrite pg_call_reply in Hok1. subst c1 c2.
  apply insert_job_ok in Hok1 as [Hj Hd1]. apply insert_request_ok in Hok2 as [Hq Hd2].
  rewrite Hd2, Hd1. rewrite Hd1 in Hq. done.
Qed.

(** A unit of work, whatever requests are lost: when its function, run in an
    open transaction, has the effect [Q] there and none elsewhere, then
    afterwards the committed tables are unchanged or have that effect; and
    they have it when the unit of work succeeds. *)
Lemma execute_atomic (fn : M W (res goerr string)) (Q : string -> pgdata -> pgdata -> Prop)
    (w : W) :
  (forall w2, pw_db w2 = pw_db w -> pw_tx w2 = Some (pw_db w, false) ->
    pw_db (fn w2).2 = pw_db w2 /\
    forall a, (fn w2).1 = Ok a ->
      exists t', pw_tx (fn w2).2 = Some (t', false) /\ Q a (pg_view (pw_db w)) (pg_view t')) ->
  let d := pg_view (pw_db w) in
  let d' := pg_view (pw_db (Execute fn w).2) in
  match (Execute fn w).1 with
  | Ok a => Q a d d'
  | Err _ => d' = d \/ exists a, Q a d d'
  end.
Proof.
  cbv zeta. intros Hfn. unfold Execute. rewrite !bind_unfold.
  assert (Hbegin : pw_db (pg_Begin w).2 = pw_db w /\
    ((pg_Begin w).1 = None -> pw_tx (pg_Begin w).2 = Some (pw_db w, false))).
  { cbn. unfold pw_request, next_outcome, pw_begin. by destruct (pw_faults w) as [|[]]. }
  destruct (pg_Begin w) as [[e|] w2]; cbn [fst snd] in *.
  { left. exact (f_equal pg_view (proj1 Hbegin)). }
  destruct Hbegin as [Hb1 Hb2]. specialize (Hb2 eq_refl).
  rewrite !bind_unfold, !ret_unfold. cbn [fst snd].
  assert (Hrb : forall w : W, pw_db (pg_Rollback w).2 = pw_db w).
  { intros w'. cbn. unfold pw_request, next_outcome, pw_rollback.
    destruct (pw_faults w') as [|[|e|e] fs]; cbn; try done; by destruct (pw_tx w'). }
  destruct (Hfn w2 Hb1 Hb2) as [Hdb Hok].
  destruct (fn w2) as [[a|e] w3]; cbn [fst snd] in *.
  2:{ left. rewrite ret_unfold. cbn [snd]. by rewrite Hrb, Hdb, Hb1. }
  destruct (Hok a eq_refl) as (t' & Htx & HQ).
  rewrite bind_unfold, ret_unfold. cbn [fst snd].
  assert (Hc : (pw_db (pg_Commit w3).2 = pw_db w3 \/ pw_db (pg_Commit w3).2 = t') /\
    ((pg_Commit w3).1 = None -> pw_db (pg_Commit w3).2 = t')).
  { cbn. unfold pw_request, next_outcome, pw_commit.
    destruct (pw_faults w3) as [|[|e|e] fs]; cbn; rewrite ?Htx; cbn;
      (split; [first [by left | by right]|done]). }
  destruct (pg_Commit w3) as [[e|] w4]; cbn [fst snd] in *.
  - assert (Hd : pw_db w4 = pw_db w \/ pw_db w4 = t').
    { destruct Hc as [[-> | ->] _]; [left; by rewrite Hdb, Hb1|by right]. }
    destruct (errors_Is _ _); rewrite Hrb;
      (destruct Hd as [-> | ->]; [by left|right; by exists a]).
  - destruct Hc as [_ Hc]. by rewrite Hrb, (Hc eq_refl).
Qed.

(** C16: a job is created atomically, whatever requests to PostgreSQL are lost
    and whatever constraints fail: afterwards the tables are unchanged or
    have gained both the job's row (in state created, attempt 1) and its
    request's row; and when [Create] answers a job id, they have. *)
Theorem create_atomic req (w : W) :
  let d := pg_view (pw_db w) in
  let d' := pg_view (pw_db (Create tierPolicy req w).2) in
  match (Create tierPolicy req w).1 with
  | Ok id => created_rows req id d d'
  | Err _ => d' = d \/ exists id, created_rows req id d d'
  end.
Proof.
  cbv zeta. unfold Create. rewrite bind_unfold.
  destruct (Husers (cj_UserID req) w) as [Hu1 Hu2].
  destruct (GetUserPolicy (cj_UserID req) w) as [[pol|e] w0]; cbn [fst snd] in *;
    [|left; exact (f_equal pg_view Hu1)].
  destruct (tierPolicy !! Tier pol) as [p|]; [|left; exact (f_equal pg_view Hu1)].
  rewrite bind_unfold. destruct (Huuid w0) as [Hi1 Hi2].
  destruct (uuid_New w0) as [id w1]; cbn [fst snd] in *.
  rewrite bind_unfold, ret_unfold. cbn [fst snd]. rewrite <- Hu1, <- Hi1.
  set (body := mbind _ (jr_Save true _)).
  pose proof (execute_atomic body
    (fun a d d' => a = id /\ created_rows req id d d') w1) as He.
  cbv zeta in He.
  destruct (Execute body w1) as [[a|e] w']; cbn [fst snd] in *.
  all: lapply He; [clear He; intros He|].
  all: try (intros w2 Hb1 Hb2;
    destruct (inserts_spec req id (MkRetryPolicy (MaxAttempts p) (BaseDelay p) (MaxDelay p)) w2)
      as [Hdb Hok]; split; [exact Hdb|];
    intros b Hb; destruct (Hok _ b Hb2 Hb) as [-> (t' & Htx & Hrows)]; eauto).
  - by destruct He as [-> He].
  - destruct He as [He|(a & _ & He)]; eauto.
Qed.
End create.

(** ** The state machine of a job *)

Section states.
Context {D : Type} `{!Postgres D, !PostgresDoc D}.
#[local] Existing Instance direct_pg.
Implicit Types d : D.

Lemma pg_run_direct {A} tx (c : sql A) d :
  pg_run tx c d = (lift_res (doc_sql c (pg_view d)).1, (pg_call c d).2).
Proof. cbn. rewrite <- pg_call_reply. by destruct (pg_call c d). Qed.

Lemma JobByID_direct j d :
  JobByID j d =
    (match pg_jobs (pg_view d) !! j with
     | None => Err ErrJobNotFound
     | Some row => match scan_job j row with
                   | Some job => Ok job
                   | None => Err (errorf_w "find job by id: " (Some scan_error))
                   end
     end, (pg_call (SELECT_JOB j) d).2)
  /\ pg_view (pg_call (SELECT_JOB j) d).2 = pg_view d.
Proof.
  unfold JobByID. rewrite bind_unfold, pg_run_direct, ret_unfold. cbn [fst snd doc_sql lift_res].
  split; [|by rewrite pg_call_view]. by destruct (pg_jobs (pg_view d) !! j).
Qed.

Lemma UpdateStatus_direct j s n d row :
  job_status s = true -> int4 n = true -> pg_jobs (pg_view d) !! j = Some row ->
  (repo_UpdateStatus j s n d).1 = None /\
  pg_view (repo_UpdateStatus j s n d).2 = upd_jobs <[j := set_status s n row]> (pg_view d).
Proof.
  intros Hs Hn Hj. unfold repo_UpdateStatus.
  rewrite bind_unfold, pg_run_direct, ret_unfold. cbn [fst snd].
  rewrite pg_call_view. cbn [doc_sql]. by rewrite Hs, Hn, Hj.
Qed.

(** The write of a mark, after a read that saw a created job. *)
Lemma mark_rest_ok step final j n job d row :
  step job = (None, set_job_status job final) ->
  job_status final = true -> int4 n = true -> pg_jobs (pg_view d) !! j = Some row ->
  exists d', mark_rest step j n (Ok job) d = (None, d')
    /\ pg_view d' = upd_jobs <[j := set_status final n row]> (pg_view d).
Proof.
  intros Hstep Hf Hn Hj. unfold mark_rest. rewrite Hstep.
  destruct (UpdateStatus_direct j final n d row Hf Hn Hj) as [H1 H2].
  exists (repo_UpdateStatus j final n d).2. split; [|done].
  rewrite bind_unfold, ret_unfold. cbn [jr_UpdateStatus pg_JobRepository JobStatus set_job_status].
  by rewrite H1.
Qed.

(** A retry count that does not fit the column is refused. *)
Lemma UpdateStatus_overflow j s n d :
  int4 n = false ->
  (repo_UpdateStatus j s n d).1
    = Some (errorf_w "update job status: " (Some (errors_New "invalid input value")))
  /\ pg_view (repo_UpdateStatus j s n d).2 = pg_view d.
Proof.
  intros Hn. unfold repo_UpdateStatus.
  rewrite bind_unfold, pg_run_direct, ret_unfold. cbn [fst snd].
  rewrite pg_call_view. cbn [doc_sql]. rewrite Hn, andb_false_r.
  done.
Qed.

(** What a mark does, for a transition that allows created jobs only. *)
Definition mark_spec (final : Status) j n (t : pgdata) (err : option goerr) (t' : pgdata) : Prop :=
  match pg_jobs t !! j with
  | None => Code err = ErrCodeJobNotFound /\ t' = t
  | Some row =>
      if negb ((0 <=? j_retry row) && (j_retry row <? 256))%Z
      then Code err = ErrCodeDBQueryFailed /\ t' = t
      else if negb (String.eqb (j_status row) StatusCreated && int4 n)
      then Code err = ErrCodeJobStatusUpdateFailed /\ t' = t
      else err = None /\ t' = upd_jobs <[j := set_status final n row]> t
  end.

Lemma mark_meets_spec step final j n d :
  (forall job, step job = if String.eqb (JobStatus job) StatusCreated
     then (None, set_job_status job final) else (Some ErrInvalidTransition, job)) ->
  job_status final = true ->
  mark_spec final j n (pg_view d) (mark step j n d).1 (pg_view (mark step j n d).2).
Proof.
  intros Hstep Hfinal. unfold mark, mark_spec. rewrite !bind_unfold.
  cbn [jr_JobByID pg_JobRepository].
  destruct (JobByID_direct j d) as [-> Hd]. cbn [fst snd].
  destruct (pg_jobs (pg_view d) !! j) as [row|] eqn:Ej; [|done].
  unfold scan_job. destruct ((0 <=? j_retry row) && (j_retry row <? 256))%Z; [|done].
  cbn [negb]. unfold mark_rest. rewrite Hstep. cbn [JobStatus].
  destruct (String.eqb (j_status row) StatusCreated); [|done].
  rewrite !bind_unfold, !ret_unfold.
  cbn [fst snd JobStatus set_job_status jr_UpdateStatus pg_JobRepository andb].
  rewrite <- Hd in Ej |- *. destruct (int4 n) eqn:Hn; cbn [negb].
  - by destruct (UpdateStatus_direct j final n _ row Hfinal Hn Ej) as [-> ->].
  - by destruct (UpdateStatus_overflow j final n (pg_call (SELECT_JOB j) d).2 Hn) as [-> ->].
Qed.

(** C36: the life of a job, while PostgreSQL answers.  [MarkCompleted] and
    [MarkFailed] succeed exactly on a recorded job in state created whose
    stored retry count fits a byte and with a new count that fits the column:
    they move it to their state, with the count they are given.  A stored
    count that does not fit a byte cannot be read: [DB_QUERY_FAILED].  On a job
    in a terminal state, or with a new count out of range, they answer
    [JOB_STATUS_UPDATE_FAILED], and on an unknown one [JOB_NOT_FOUND].  Whenever
    they fail they change nothing: alone, no call leaves a terminal state. *)
Theorem mark_terminal_once j n d :
  Forall (fun '(mark, final) =>
    mark_spec final j n (pg_view d) (mark j n d).1 (pg_view (mark j n d).2))
    [(MarkCompleted (W := D), StatusCompleted); (MarkFailed, StatusFailed)].
Proof. repeat constructor; by apply mark_meets_spec. Qed.

(** The read and the write of a mark are not one transaction: when a
    completion and a failure of the same created job both read it before
    either writes, both succeed and the second write wins, so a completed job
    ends up failed. *)
Theorem mark_race j n m d row :
  int4 n = true -> int4 m = true ->
  pg_jobs (pg_view d) !! j = Some row -> j_status row = StatusCreated ->
  (0 <= j_retry row < 256)%Z ->
  let '(r1, d1) := JobByID j d in            (* the completing call reads *)
  let '(r2, d2) := JobByID j d1 in           (* the failing call reads *)
  let '(e1, d3) := mark_rest Complete j n r1 d2 in
  let '(e2, d4) := mark_rest Fail j m r2 d3 in
  e1 = None /\ e2 = None
  /\ j_status <$> pg_jobs (pg_view d3) !! j = Some StatusCompleted
  /\ j_status <$> pg_jobs (pg_view d4) !! j = Some StatusFailed.
Proof.
  intros Hn Hm Hj Hst Hr.
  destruct (JobByID_direct j d) as [-> Hd1]. rewrite Hj. unfold scan_job at 1.
  replace ((0 <=? j_retry row)%Z && (j_retry row <? 256)%Z) with true by lia.
  set (d1 := (pg_call _ d).2) in *.
  destruct (JobByID_direct j d1) as [-> Hd2]. rewrite Hd1, Hj. unfold scan_job at 1.
  replace ((0 <=? j_retry row)%Z && (j_retry row <? 256)%Z) with true by lia.
  set (d2 := (pg_call _ d1).2) in *.
  assert (Hj2 : pg_jobs (pg_view d2) !! j = Some row) by (by rewrite Hd2, Hd1).
  set (job := MkJob _ _ _ _ _ _).
  destruct (mark_rest_ok Complete StatusCompleted j n job d2 row) as (d3 & -> & H3);
    [unfold Complete; cbn; by rewrite Hst|done|done|done|].
  assert (Hj3 : pg_jobs (pg_view d3) !! j = Some (set_status StatusCompleted n row))
    by (rewrite H3; apply lookup_insert_eq).
  destruct (mark_rest_ok Fail StatusFailed j m job d3 (set_status StatusCompleted n row)) as (d4 & -> & H4);
    [unfold Fail; cbn; by rewrite Hst|done|done|exact Hj3|].
  split; [done|]. split; [done|]. rewrite Hj3, H4. split; [done|]. cbn.
  by rewrite lookup_insert_eq.
Qed.

(** The conditional update is a compare and set: it answers true exactly
    when the job is in the expected state, and only then writes. *)
Theorem update_if_status_cas j n s expected d :
  job_status s = true -> job_status expected = true -> int4 n = true ->
  let b := match pg_jobs (pg_view d) !! j with
           | Some row => String.eqb (j_status row) expected
           | None => false
           end in
  (UpdateStatusIfStatus j n s expected d).1 = Ok b /\
  pg_view (UpdateStatusIfStatus j n s expected d).2 =
    match pg_jobs (pg_view d) !! j with
    | Some row => if b then upd_jobs <[j := set_status s n row]> (pg_view d) else pg_view d
    | None => pg_view d
    end.
Proof.
  intros Hs He Hn. cbv zeta.
  unfold UpdateStatusIfStatus. cbn [jr_UpdateStatusIfStatus pg_JobRepository].
  unfold repo_UpdateStatusIfStatus.
  rewrite bind_unfold, pg_run_direct, ret_unfold. cbn [fst snd].
  rewrite pg_call_view. cbn [doc_sql]. rewrite Hs, He, Hn. cbn [andb].
  destruct (pg_jobs (pg_view d) !! j) as [row|]; [|done].
  by destruct (String.eqb (j_status row) expected).
Qed.
End states.

(** ** The retry configuration *)

Definition tier_ok (name : string) (c : RetryConfig) : Prop :=
  name <> "" /\ (0 < MaxAttempt c <= 255)%Z /\ (0 < rc_BaseDelay c <= rc_MaxDelay c)%Z.

Lemma check_tier_ok name c : check_tier name c = None <-> tier_ok name c.
Proof.
  unfold check_tier, tier_ok, str_empty.
  destruct (String.eqb_spec name ""); [by split; [|intros []]|].
  repeat (case_match; [split; [done|lia]|]). split; [|done]. intros _. split; [done|]. lia.
Qed.

Lemma build_tiers_spec cfg m :
  match build_tiers cfg m with
  | Ok m' => Forall (fun kv => tier_ok kv.1 kv.2) cfg /\
      m' = foldl (fun m kv =>
        <[kv.1 := MkRetryPolicy (MaxAttempt kv.2) (rc_BaseDelay kv.2) (rc_MaxDelay kv.2)]> m) m cfg
  | Err _ => ~ Forall (fun kv => tier_ok kv.1 kv.2) cfg
  end.
Proof.
  revert m. induction cfg as [|[name c] cfg IH]; intros m; [by split|].
  cbn [build_tiers foldl fst snd]. pose proof (check_tier_ok name c) as Hc.
  destruct (check_tier name c) as [e|].
  - intros Hall. inversion Hall as [|? ? Hh _]; subst. by apply Hc in Hh.
  - specialize (IH (<[name := MkRetryPolicy (MaxAttempt c) (rc_BaseDelay c) (rc_MaxDelay c)]> m)).
    destruct (build_tiers cfg _) as [m'|e].
    + destruct IH as [IH1 IH2]. split; [|done]. constructor; [by apply Hc|done].
    + intros Hall. by inversion Hall.
Qed.

(** The job configuration is accepted if and only if there is a tier and
    every tier has a name, 1 to 255 attempts and delays with
    [0 < base_delay <= max_delay]; the policy of a tier is then the one
    configured for it, whatever the order in which Go walks the map. *)
Theorem job_config_exact (cfg : gmap string RetryConfig) :
  match BuildJobPolicyConfig cfg with
  | Ok tiers => cfg <> ∅ /\ map_Forall tier_ok cfg /\
      forall name, tiers !! name =
        (fun c => MkRetryPolicy (MaxAttempt c) (rc_BaseDelay c) (rc_MaxDelay c)) <$> cfg !! name
  | Err _ => cfg = ∅ \/ ~ map_Forall tier_ok cfg
  end.
Proof.
  unfold BuildJobPolicyConfig.
  destruct (map_to_list cfg) as [|kv l] eqn:El; [left; by apply map_to_list_empty_iff|].
  rewrite <- El. pose proof (build_tiers_spec (map_to_list cfg) ∅) as Hb.
  assert (Hall : Forall (fun kv => tier_ok kv.1 kv.2) (map_to_list cfg) <-> map_Forall tier_ok cfg).
  { rewrite (map_Forall_to_list (M := gmap string) tier_ok cfg).
    apply Forall_iff. by intros [? ?]. }
  destruct (build_tiers _ ∅) as [m|e]; [|right; by rewrite <- Hall].
  destruct Hb as [H1 ->]. split; [intros ->; by rewrite map_to_list_empty in El|].
  split; [by apply Hall|]. intros name. clear El H1 Hall.
  assert (Hg : forall (l : list (string * RetryConfig)) (m : gmap string RetryPolicy),
    NoDup l.*1 ->
    foldl (fun m kv => <[kv.1 := MkRetryPolicy (MaxAttempt kv.2) (rc_BaseDelay kv.2)
      (rc_MaxDelay kv.2)]> m) m l !! name =
    match (list_to_map l : gmap string RetryConfig) !! name with
    | Some c => Some (MkRetryPolicy (MaxAttempt c) (rc_BaseDelay c) (rc_MaxDelay c))
    | None => m !! name
    end).
  { induction l0 as [|[k c] l0 IH]; intros m Hnd; [done|].
    cbn in Hnd |- *. apply NoDup_cons in Hnd as [Hk Hnd]. rewrite IH by done.
    destruct (decide (k = name)) as [->|Hne].
    - rewrite lookup_insert_eq. rewrite not_elem_of_list_to_map_1 by done.
      by rewrite lookup_insert_eq.
    - rewrite !lookup_insert_ne by done. by destruct ((list_to_map l0 : gmap string RetryConfig) !! name). }
  rewrite Hg by apply NoDup_fst_map_to_list. rewrite list_to_map_to_list.
  by destruct (cfg !! name).
Qed.

(** ** Witnesses *)

Module JobDemo.
#[export] Instance users : UserPolicyReader (pgworld pgdata) := {|
  GetUserPolicy := fun _ => mret (Ok (MkUserPolicy "free")) |}.
#[export] Instance uuid : Uuid (pgworld pgdata) := {| uuid_New := mret "job-1" |}.
Definition tiers : JobPolicyConfig := {[ "free" := MkRetryPolicy 3 second (10 * second) ]}.
Definition d : pgdata :=
  MkPgData 5 {[ "u" := MkUserRow "user" "free" ]}
    {[ "j" := MkJobRow "u" "created" 1 0 ]} ∅ ∅.
Definition req : CreateJobRequest := MkCreateJobRequest "u" "hi" "m" 10.
End JobDemo.

#[local] Existing Instances JobDemo.users JobDemo.uuid direct_pg.

(** A lost commit reply: the call fails, both rows are there. *)
Lemma create_atomic_witness :
  let w := MkPgWorld JobDemo.d None [Delivered; Delivered; Delivered; ReplyLost Canceled] in
  let d' := pg_view (pw_db (Create JobDemo.tiers JobDemo.req w).2) in
  is_ok (Create JobDemo.tiers JobDemo.req w).1 = false
  /\ (d' = JobDemo.d \/ exists id, created_rows JobDemo.req id JobDemo.d d').
Proof.
  split; [reflexivity|].
  exact (create_atomic (D := pgdata) (fun u w => conj eq_refl eq_refl)
    (fun w => conj eq_refl eq_refl) JobDemo.tiers JobDemo.req
    (MkPgWorld JobDemo.d None [Delivered; Delivered; Delivered; ReplyLost Canceled])).
Defined.

(** The created job is completed, and cannot be failed afterwards. *)
Lemma mark_terminal_once_witness :
  let d1 := (MarkCompleted "j" 2 JobDemo.d).2 in
  (MarkCompleted "j" 2 JobDemo.d).1 = None
  /\ pg_jobs d1 !! "j" = Some (MkJobRow "u" "completed" 2 0)
  /\ Code (MarkFailed "j" 3 d1).1 = ErrCodeJobStatusUpdateFailed
  /\ (MarkFailed "j" 3 d1).2 = d1.
Proof.
  cbv zeta.
  pose proof (mark_terminal_once (D := pgdata) "j" 2 JobDemo.d) as H1.
  pose proof (mark_terminal_once (D := pgdata) "j" 3 (MarkCompleted "j" 2 JobDemo.d).2) as H2.
  apply Forall_cons in H1 as [H1 _]. apply Forall_cons in H2 as [_ H2].
  apply Forall_cons in H2 as [H2 _]. vm_compute in H1, H2.
  destruct H2 as [E2 T2].
  split; [vm_compute; exact (proj1 H1)|]. split; [vm_compute; reflexivity|].
  split; [vm_compute; exact E2|vm_compute; exact T2].
Defined.

Lemma mark_race_witness :
  let '(r1, d1) := JobByID "j" JobDemo.d in
  let '(r2, d2) := JobByID "j" d1 in
  let '(e1, d3) := mark_rest Complete "j" 1 r1 d2 in
  let '(e2, d4) := mark_rest Fail "j" 1 r2 d3 in
  e1 = None /\ e2 = None
  /\ j_status <$> pg_jobs (pg_view d3) !! "j" = Some StatusCompleted
  /\ j_status <$> pg_jobs (pg_view d4) !! "j" = Some StatusFailed.
Proof.
  apply (mark_race (D := pgdata) "j" 1 1 JobDemo.d (MkJobRow "u" "created" 1 0)).
  - reflexivity.
  - reflexivity.
  - reflexivity.
  - reflexivity.
  - split; [discriminate|reflexivity].
Defined.

Lemma update_if_status_cas_witness :
  (UpdateStatusIfStatus "j" 2 "created" "created"
     JobDemo.d).1 = Ok true.
Proof.
  refine (eq_trans (proj1 (update_if_status_cas (D := pgdata) "j" 2 "created" "created" JobDemo.d
    eq_refl eq_refl eq_refl)) _).
  reflexivity.
Defined.
