(* ===== verification/IdempotencyThms.v ===== *)
(** * Theorems about idempotency keys and coalescing

    The record of an idempotency key as a state machine, on any Redis with
    the documented behaviour, and under any interleaving of the operations of
    the two stores. *)

From S2P Require Import Prelude GoErr Redis Env Idempotency.
From stdpp Require Import base gmap sets list strings pretty.
From Stdlib Require Import ZArith Lia.

(** ** The record of a key *)

Inductive claim : Type :=
| Unclaimed
| Claimed (status created : string) (job : option string).

Definition claim_of (d : rdata) (k : string) : claim :=
  match rhash d k !! "status" with
  | Some st => Claimed (bulk_text st) (default "" (bulk_text <$> rhash d k !! "created_at"))
                 (bulk_text <$> rhash d k !! "job_id")
  | None => Unclaimed
  end.

(** The key is absent, or it is a record of the store. *)
Definition claim_wf (d : rdata) (k : string) : Prop :=
  key_exists d k = bool_decide (is_Some (rhash d k !! "status")).

(** What is stored at a key, under every type. *)
Definition slot (d : rdata) (k : string) :=
  (r_zsets d !! k, r_lists d !! k, r_sets d !! k, r_hashes d !! k, r_strs d !! k,
   r_streams d !! k).

(** The record is claimed and does not expire before [e]. *)
Definition held (d : rdata) (k : string) (e : Z) : Prop :=
  is_Some (rhash d k !! "status")
  /\ r_strs d !! k = None
  /\ match rhash_exp d k with Some e' => (e <= e')%Z | None => True end.

Lemma slot_rhash d d' k : slot d k = slot d' k -> rhash d k = rhash d' k.
Proof. intros [= _ _ _ E _ _]. unfold rhash. by rewrite E. Qed.

Lemma slot_claim d d' k : slot d k = slot d' k -> claim_of d k = claim_of d' k.
Proof. intros E. unfold claim_of. by rewrite (slot_rhash _ _ _ E). Qed.

Lemma slot_held d d' k e : slot d k = slot d' k -> held d k e -> held d' k e.
Proof.
  intros E. unfold held, rhash_exp. rewrite (slot_rhash _ _ _ E).
  injection E as _ _ _ -> -> _. done.
Qed.

Lemma slot_put_hash k k' h e d : k' <> k -> slot (put_hash k' h e d) k = slot d k.
Proof.
  intros Hne. unfold slot, put_hash. cbn. destruct (map_to_list h).
  - by rewrite lookup_delete_ne.
  - by rewrite lookup_insert_ne.
Qed.

Lemma slot_set_expiry k k' e d : k' <> k -> slot (set_expiry k' e d) k = slot d k.
Proof. intros Hne. unfold slot, set_expiry. cbn. by rewrite !lookup_alter_ne. Qed.

Lemma slot_del_key k k' d : k' <> k -> slot (del_key k' d) k = slot d k.
Proof. intros Hne. unfold slot, del_key. cbn. by rewrite !lookup_delete_ne. Qed.

Lemma slot_do_expire k k' t d : k' <> k -> slot (do_expire k' t d) k = slot d k.
Proof. intros. unfold do_expire. case_match; [by apply slot_del_key|by apply slot_set_expiry]. Qed.

Lemma slot_set_str k k' v d : k' <> k -> slot (upd_strs <[k' := v]> d) k = slot d k.
Proof. intros Hne. unfold slot, upd_strs. cbn. by rewrite lookup_insert_ne. Qed.

Lemma now_do_expire k t d : r_now (do_expire k t d) = r_now d.
Proof. unfold do_expire. by case_match. Qed.

(** *** Writing fields of a held record *)

Lemma rhash_exp_put k h e d : h <> ∅ -> rhash_exp (put_hash k h e d) k = e.
Proof.
  intros Hh. unfold rhash_exp, put_hash. cbn. destruct (map_to_list h) eqn:E.
  - by apply map_to_list_empty_iff in E.
  - by rewrite lookup_insert_eq.
Qed.

Lemma held_put d k h e :
  held d k e -> is_Some (h !! "status") -> held (put_hash k h (rhash_exp d k) d) k e.
Proof.
  intros (_ & Hs & He) Hst. split; [by rewrite rhash_put_eq|]. split; [exact Hs|].
  rewrite rhash_exp_put; [done|]. intros ->. by destruct Hst.
Qed.

Lemma rhash_exp_set_expiry d k e :
  is_Some (r_hashes d !! k) -> rhash_exp (set_expiry k e d) k = Some e.
Proof.
  intros [[h o] E]. unfold rhash_exp, set_expiry. cbn. by rewrite lookup_alter_eq, E.
Qed.

Lemma rhash_some d k f v : rhash d k !! f = Some v -> is_Some (r_hashes d !! k).
Proof. unfold rhash. destruct (r_hashes d !! k); [by eexists|]. done. Qed.

Lemma held_expire d k t e e' :
  held d k e -> (0 < t)%Z -> (e' <= r_now d + t * 10 ^ 6)%Z -> held (do_expire k t d) k e'.
Proof.
  intros ([v Hv] & Hs & _) Ht He. unfold do_expire. rewrite (proj2 (Z.leb_gt t 0)) by lia.
  split; [rewrite rhash_set_expiry; by eexists|]. split.
  - unfold set_expiry. cbn. by rewrite lookup_alter_eq, Hs.
  - rewrite rhash_exp_set_expiry; [done|by eapply rhash_some].
Qed.

Lemma held_weaken d k e e' : (e' <= e)%Z -> held d k e -> held d k e'.
Proof.
  intros Hle (H1 & H2 & H3). split; [done|]. split; [done|]. case_match; [lia|done].
Qed.

(** *** The scripts on the record of a key *)

Definition claim_action (status : string) : string :=
  if decide (status = "in_flight") then "DUPLICATE_IN_FLIGHT"
  else if decide (status = "completed") then "REPLAY"
  else if decide (status = "failed") then "FAILED"
  else "UNKNOWN_STATE".

Definition claim_answer (c : claim) (now : string) : resp :=
  match c with
  | Unclaimed => RArr [RStr "NEW"; RStr "in_flight"; RStr now; RStr ""]
  | Claimed status created job =>
      RArr [RStr (claim_action status); RStr status; RStr created; RStr (default "" job)]
  end.

Lemma hget_text_run k f d :
  run_script (hget_text k f) d = (Ok (bulk_text <$> rhash d k !! f), d).
Proof. unfold hget_text. by rewrite run_call. Qed.

Lemma claim_taken k ttl now d :
  claim_wf d k -> claim_of d k <> Unclaimed ->
  run_script (idempotencyScript k ttl now) d = (Ok (claim_answer (claim_of d k) now), d).
Proof.
  unfold claim_wf, claim_of. destruct (rhash d k !! "status") as [st|] eqn:E; [|done].
  intros Hwf _. unfold idempotencyScript. lua1. rewrite Hwf, bool_decide_true by by eexists.
  cbn [negb]. rewrite run_bind, hget_text_run, E, run_bind, hget_text_run, run_bind, hget_text_run.
  cbn [claim_answer option_fmap option_map fmap default]. unfold claim_action.
  set (s := bulk_text st).
  assert (Hb : forall x, bool_decide (Some s = Some x) = bool_decide (s = x)).
  { intros x. apply bool_decide_ext. split; [by intros [= ->]|by intros ->]. }
  rewrite !Hb, !bool_decide_decide. repeat case_decide; done.
Qed.

Lemma claim_new k ttl now d :
  claim_wf d k -> (0 < ttl)%Z -> claim_of d k = Unclaimed ->
  exists d', run_script (idempotencyScript k ttl now) d
      = (Ok (claim_answer Unclaimed now), d')
    /\ claim_wf d' k /\ claim_of d' k = Claimed "in_flight" now None
    /\ held d' k (r_now d + ttl * 10 ^ 6) /\ r_now d' = r_now d
    /\ forall k', k' <> k -> slot d' k' = slot d k'.
Proof.
  unfold claim_wf, claim_of. destruct (rhash d k !! "status") as [st|] eqn:E; [done|].
  intros Hwf Ht _. rewrite bool_decide_false in Hwf by (by intros []).
  assert (Hs : r_strs d !! k = None /\ r_hashes d !! k = None).
  { revert Hwf. unfold key_exists. rewrite !orb_false_iff, !bool_decide_eq_false.
    intros [[[[[_ _] _] Hh] Hs] _]. by rewrite !eq_None_not_Some. }
  destruct Hs as [Hs Hh].
  assert (Hrh : rhash d k = ∅) by (unfold rhash; by rewrite Hh).
  assert (Hre : rhash_exp d k = None) by (unfold rhash_exp; by rewrite Hh).
  unfold idempotencyScript. lua1. rewrite Hwf. cbn [negb]. lua1. lua1.
  cbn [foldl fst snd]. rewrite Hrh, Hre.
  set (h := <["created_at" := BStr now]> (<["status" := BStr "in_flight"]> ∅)).
  set (d1 := put_hash k h None d). exists (do_expire k ttl d1).
  assert (Hd1 : rhash d1 k = h) by apply rhash_put_eq.
  assert (Hd : rhash (do_expire k ttl d1) k = h).
  { unfold do_expire. rewrite (proj2 (Z.leb_gt ttl 0)) by lia. by rewrite rhash_set_expiry. }
  assert (Hheld : held (do_expire k ttl d1) k (r_now d + ttl * 10 ^ 6)).
  { apply (held_expire _ _ _ 0%Z); [|done|done]. split; [rewrite Hd1; by eexists|].
    split; [done|]. unfold d1. by rewrite rhash_exp_put. }
  split; [done|]. rewrite Hd. split.
  { rewrite bool_decide_true by by eexists. unfold key_exists.
    destruct Hheld as [[v Hv] _]. apply rhash_some in Hv.
    rewrite (bool_decide_true (is_Some (r_hashes _ !! k))) by done.
    by rewrite !orb_true_r. }
  split; [done|]. split; [done|]. split; [by rewrite now_do_expire|].
  intros k' Hne. rewrite slot_do_expire by done. by apply slot_put_hash.
Qed.

(** Writing the fields of a record changes the status only if it writes one,
    and the job only if it writes one. *)
Lemma claim_of_put d k h e :
  claim_of (put_hash k h e d) k =
    match h !! "status" with
    | Some st => Claimed (bulk_text st) (default "" (bulk_text <$> h !! "created_at"))
                   (bulk_text <$> h !! "job_id")
    | None => Unclaimed
    end.
Proof. unfold claim_of. by rewrite rhash_put_eq. Qed.

Lemma claim_of_expire d k t :
  (0 < t)%Z -> forall k', claim_of (do_expire k t d) k' = claim_of d k'.
Proof.
  intros Ht k'. unfold do_expire. rewrite (proj2 (Z.leb_gt t 0)) by lia.
  unfold claim_of. by rewrite rhash_set_expiry.
Qed.

(** The reverse mapping of a job: it points to the key, and it does not
    expire a second before the record does. *)
Definition mirrors (d d' : rdata) (k rk : string) : Prop :=
  exists o, r_strs d' !! rk = Some (BStr k, o)
    /\ match o with
       | Some w => exists t, rhash_exp d k = Some t /\ (t - 10 ^ 6 <= w)%Z
       | None => True
       end.

Lemma held_exists d k e : held d k e -> key_exists d k = true.
Proof.
  intros [[v Hv] _]. apply rhash_some in Hv. unfold key_exists.
  rewrite (bool_decide_true (is_Some (r_hashes _ !! k))) by done. by rewrite !orb_true_r.
Qed.

Lemma held_expiry d k e : held d k e -> key_expiry d k = rhash_exp d k.
Proof.
  intros ([v Hv] & Hs & _). apply rhash_some in Hv as [[h o] Hv].
  unfold key_expiry, rhash_exp. by rewrite Hs, Hv.
Qed.

(** The tail of [setJobIDScript]: the reverse key takes the remaining time to
    live of the record, in whole seconds. *)
Lemma mirror_ttl k rk d2 e (r : resp) :
  rk <> k -> held d2 k e -> r_strs d2 !! rk = Some (BStr k, None) ->
  exists d', run_script (ttl ← call (TTL k);
               _ ← (if (0 <? ttl)%Z then call (EXPIRE rk ttl) else mret tt); mret r) d2
      = (Ok r, d')
    /\ mirrors d2 d' k rk /\ r_now d' = r_now d2
    /\ forall k', k' <> rk -> slot d' k' = slot d2 k'.
Proof.
  intros Hne Hh Hs. lua1. rewrite (held_exists _ _ _ Hh), (held_expiry _ _ _ Hh).
  set (ttl := match rhash_exp d2 k with Some e0 => _ | None => _ end).
  destruct (Z.ltb_spec 0 ttl) as [Ht|Ht].
  - exists (do_expire rk ttl d2). lua1. split; [done|].
    split; [|split; [apply now_do_expire|intros; by apply slot_do_expire]].
    exists (Some (r_now d2 + ttl * 10 ^ 6)%Z). unfold do_expire.
    rewrite (proj2 (Z.leb_gt ttl 0)) by lia. cbn. rewrite lookup_alter_eq, Hs. split; [done|].
    revert Ht. unfold ttl. destruct (rhash_exp d2 k) as [t|]; [|lia]. intros Ht.
    exists t. split; [done|].
    pose proof (Z.div_mod (t - r_now d2) 1000). pose proof (Z.mod_pos_bound (t - r_now d2) 1000).
    set (q := ((t - r_now d2) / 1000)%Z) in *. pose proof (Z.div_mod (q + 500) 1000).
    pose proof (Z.mod_pos_bound (q + 500) 1000). lia.
  - exists d2. split; [done|]. split; [|done]. by exists None.
Qed.

(** [setJobIDScript] binds a claimed record to the job. *)
Lemma set_job_claimed k rk j d e :
  rk <> k -> held d k e ->
  exists d', run_script (setJobIDScript k rk j) d = (Ok (RInt 1), d')
    /\ held d' k e /\ r_now d' = r_now d /\ mirrors d d' k rk
    /\ claim_of d' k = match claim_of d k with
                       | Claimed st c _ => Claimed st c (Some j) | Unclaimed => Unclaimed end
    /\ forall k', k' <> k -> k' <> rk -> slot d' k' = slot d k'.
Proof.
  intros Hne Hh. unfold setJobIDScript. lua1. rewrite (held_exists _ _ _ Hh). cbn [negb].
  lua1. lua1. cbn [foldl fst snd]. set (h := <["job_id" := BStr j]> (rhash d k)).
  set (d1 := put_hash k h (rhash_exp d k) d).
  set (d2 := upd_strs <[rk := (BStr k, None)]> d1).
  assert (Hst : is_Some (h !! "status")) by (unfold h; rewrite lookup_insert_ne by done; apply Hh).
  assert (Hn : slot d1 k = slot d2 k) by (symmetry; by apply slot_set_str).
  assert (H2 : held d2 k e) by (apply (slot_held _ _ _ _ Hn); by apply held_put).
  assert (Hx : rhash_exp d2 k = rhash_exp d k).
  { unfold rhash_exp at 1, d2. cbn. apply (rhash_exp_put k h). intros E. rewrite E in Hst.
    by destruct Hst. }
  destruct (mirror_ttl k rk d2 e (RInt 1) Hne H2) as (d' & -> & Hm & Hnow & Hsl).
  { unfold d2. cbn. by rewrite lookup_insert_eq. }
  exists d'. split; [done|]. assert (Hk : slot d2 k = slot d' k) by by rewrite Hsl.
  split; [by apply (slot_held _ _ _ _ Hk)|]. split; [by rewrite Hnow|].
  split; [unfold mirrors in *; by rewrite Hx in Hm|].
  split; [|intros k' Hk1 Hk2; rewrite Hsl by done; unfold d2; rewrite slot_set_str by done;
           by apply slot_put_hash].
  rewrite <- (slot_claim _ _ _ Hk), <- (slot_claim _ _ _ Hn). unfold d1. rewrite claim_of_put.
  unfold claim_of, h. rewrite !lookup_insert_ne, lookup_insert_eq by done.
  by destruct Hh as [[st ->] _].
Qed.

(** [idempotencyTransitionStatusScript] ends a record that is in flight, and
    only that. *)
Definition transition_answer (c : claim) : string :=
  match c with
  | Unclaimed => "missing"
  | Claimed s _ _ => if decide (s = "in_flight") then "ok" else "invalid"
  end.

Definition transitioned (st : string) (c : claim) : claim :=
  match c with
  | Claimed s created j => if decide (s = "in_flight") then Claimed st created j else c
  | Unclaimed => Unclaimed
  end.

Lemma transition_claimed rk k b st t ttl d e :
  rk <> k -> rstr d rk = Some b -> bulk_text b = k -> held d k e -> (0 < ttl)%Z ->
  (e <= r_now d + ttl * 10 ^ 6)%Z ->
  exists d', run_script (idempotencyTransitionStatusScript rk st t ttl) d
      = (Ok (RStr (transition_answer (claim_of d k))), d')
    /\ claim_of d' k = transitioned st (claim_of d k)
    /\ held d' k e /\ r_now d' = r_now d
    /\ (transition_answer (claim_of d k) = "ok" -> held d' k (r_now d + ttl * 10 ^ 6))
    /\ forall k', k' <> k -> k' <> rk -> slot d' k' = slot d k'.
Proof.
  intros Hne Hr Hb Hh Ht He. unfold idempotencyTransitionStatusScript. lua1. rewrite Hr, Hb.
  rewrite run_bind, hget_text_run.
  destruct Hh as [[s Hs] Hh']. unfold claim_of at 1 3 4. rewrite Hs.
  assert (Hh : held d k e) by (split; [by eexists|done]).
  cbn [option_fmap option_map fmap transition_answer transitioned].
  destruct (String.eqb_spec (bulk_text s) "in_flight") as [E|Hn].
  2:{ exists d. rewrite !decide_False by done. split; [done|].
      split; [unfold claim_of; by rewrite Hs|done]. }
  rewrite !decide_True by done. lua1. cbn [foldl fst snd]. lua1. lua1.
  set (h := <["completed_at" := BStr t]> (<["status" := BStr st]> (rhash d k))).
  set (d1 := put_hash k h (rhash_exp d k) d). set (d2 := do_expire k ttl d1).
  assert (H1 : held d1 k e) by (apply held_put; [done|]; unfold h;
    rewrite lookup_insert_ne, lookup_insert_eq by done; by eexists).
  assert (H2 : forall e', (e' <= r_now d + ttl * 10 ^ 6)%Z -> held d2 k e')
    by (intros; by apply (held_expire _ _ _ e)).
  assert (Hk : slot d2 k = slot (do_expire rk ttl d2) k) by (symmetry; by apply slot_do_expire).
  eexists. split; [done|]. split.
  - rewrite !claim_of_expire by done. unfold d2. rewrite claim_of_expire by done. unfold d1.
    rewrite claim_of_put. unfold h. by simplify_map_eq.
  - split; [apply (slot_held _ _ _ _ Hk), H2; lia|].
    split; [by unfold d2; rewrite !now_do_expire|].
    split; [intros _; by apply (slot_held _ _ _ _ Hk), H2|].
    intros k' Hk1 Hk2. rewrite !slot_do_expire by done. unfold d2.
    rewrite slot_do_expire by done. by apply slot_put_hash.
Qed.

(** A transition through a reverse key that does not lead to [k] leaves [k]
    alone. *)
Lemma transition_frame rk k st t ttl d :
  rk <> k -> (forall b, rstr d rk = Some b -> bulk_text b <> k) ->
  slot (run_script (idempotencyTransitionStatusScript rk st t ttl) d).2 k = slot d k
  /\ r_now (run_script (idempotencyTransitionStatusScript rk st t ttl) d).2 = r_now d.
Proof.
  intros Hne Hr. unfold idempotencyTransitionStatusScript. lua1.
  destruct (rstr d rk) as [b|]; [|done]. specialize (Hr b eq_refl).
  rewrite run_bind, hget_text_run. destruct (rhash d (bulk_text b) !! "status"); [|done].
  cbn [option_fmap option_map fmap]. case_match; [|done].
  lua1. lua1. lua1. rewrite run_ret. cbn [snd]. rewrite !slot_do_expire, slot_put_hash by done.
  by rewrite !now_do_expire.
Qed.

(** A transition writes no string: a string key keeps its value or goes. *)
Lemma rstr_do_expire k k' t d b : rstr (do_expire k' t d) k = Some b -> rstr d k = Some b.
Proof.
  unfold rstr, do_expire. case_match; cbn; destruct (decide (k' = k)) as [->|Hne];
    rewrite ?lookup_delete_eq, ?lookup_alter_eq, ?lookup_delete_ne, ?lookup_alter_ne by done; try done.
  by destruct (r_strs d !! k).
Qed.

Lemma transition_strings rk st t ttl d k b :
  rstr (run_script (idempotencyTransitionStatusScript rk st t ttl) d).2 k = Some b ->
  rstr d k = Some b.
Proof.
  unfold idempotencyTransitionStatusScript. lua1.
  destruct (rstr d rk) as [b0|]; [|done].
  rewrite run_bind, hget_text_run. destruct (rhash d (bulk_text b0) !! "status"); [|done].
  cbn [option_fmap option_map fmap]. case_match; [|done].
  lua1. lua1. lua1. rewrite run_ret. cbn [snd]. intros H0%rstr_do_expire%rstr_do_expire. done.
Qed.

(** ** The operations of the two stores, in any order *)

Inductive idem_op : Type :=
| OClaim (u h : string) (ttl : Z)
| OSetJob (u h j : string)
| ODelete (u h : string)
| OTransition (j st : string)
| OTransitionIf (j st : string)
| OCoalesce (u : string) (hash ttl : Z)
| OCoalesceDelete (u : string) (hash : Z)
| OWait (dt : Z).

Section stores.
Context {R : Type} `{!Redis R, !RedisDoc R, !GoFmt, !GoClock R}.
Context (Hclock : forall r : R, redis_view (time_Now r).2 = redis_view r).
Context (config : InferenceConfig).
Implicit Types r : R.

Definition idem_run (o : idem_op) : M R unit :=
  match o with
  | OClaim u h ttl => _ ← ClaimOrGet u h ttl; mret tt
  | OSetJob u h j => _ ← SetJobID u h j; mret tt
  | ODelete u h => _ ← Idempotency_Delete u h; mret tt
  | OTransition j st => _ ← TransitionStatus config j st; mret tt
  | OTransitionIf j st => _ ← TransitionStatusIfInFlight config j st; mret tt
  | OCoalesce u hash ttl => _ ← TryCoalesce u hash ttl; mret tt
  | OCoalesceDelete u hash => _ ← Coalescing_Delete u hash; mret tt
  | OWait dt => modify_world (redis_wait dt)
  end.

Definition idem_trace (ops : list idem_op) : M R unit := for_each idem_run ops.

Definition completed_ttl : Z := duration_seconds (CompletedIdempotencyTTL config).

Lemma now_rfc3339_run r :
  (now_rfc3339 r).1 = format_rfc3339 ((time_Now r).1 / second)
  /\ redis_view (now_rfc3339 r).2 = redis_view r.
Proof. unfold now_rfc3339. rewrite bind_unfold, ret_unfold. split; [done|]. apply Hclock. Qed.

(** What each operation answers and leaves in Redis. *)
Lemma ClaimOrGet_run u h ttl r :
  let now := format_rfc3339 ((time_Now r).1 / second)%Z in
  let x := run_script (idempotencyScript (buildIdempotencyKey u h) (duration_seconds ttl) now)
             (redis_view r) in
  (ClaimOrGet u h ttl r).1 = match result_of x.1 with
      | Err err => Err (errorf_w "claim or get idempotency record: " (Some err))
      | Ok raw => decode_idempotency ttl raw
      end
  /\ redis_view (ClaimOrGet u h ttl r).2 = x.2.
Proof.
  cbv zeta. unfold ClaimOrGet. rewrite !bind_unfold, ret_unfold.
  destruct (now_rfc3339_run r) as [-> Hv]. rewrite rc_Result_direct, Hv. cbn [fst snd].
  split; [done|]. by rewrite run_script_view, Hv.
Qed.

Lemma SetJobID_run u h j r :
  let k := buildIdempotencyKey u h in
  let x := run_script (setJobIDScript k (jobIDtoIdempotencyKey j) j) (redis_view r) in
  redis_view (SetJobID u h j r).2 = x.2
  /\ (x.1 = Ok (RInt 1) -> (SetJobID u h j r).1 = None).
Proof.
  cbv zeta. unfold SetJobID. rewrite bind_unfold, rc_Int64_direct, ret_unfold. cbn [fst snd].
  rewrite run_script_view. split; [done|]. by intros ->.
Qed.

Lemma run_transition_run j st r :
  let now := format_rfc3339 ((time_Now r).1 / second)%Z in
  let x := run_script (idempotencyTransitionStatusScript (jobIDtoIdempotencyKey j) st now
             completed_ttl) (redis_view r) in
  (run_transition config j st r).1 = result_of x.1
  /\ redis_view (run_transition config j st r).2 = x.2.
Proof.
  cbv zeta. unfold run_transition. rewrite bind_unfold.
  destruct (now_rfc3339_run r) as [-> Hv]. rewrite rc_Result_direct, Hv. cbn [fst snd].
  split; [done|]. by rewrite run_script_view, Hv.
Qed.

Lemma transition_run j st r :
  (idem_run (OTransition j st) r).2 = (run_transition config j st r).2
  /\ (idem_run (OTransitionIf j st) r).2 = (run_transition config j st r).2.
Proof.
  cbn [idem_run]. unfold TransitionStatus, TransitionStatusIfInFlight.
  by rewrite !bind_unfold, !ret_unfold.
Qed.

Lemma del_run k r :
  redis_view (rc_run (call (DEL k)) r).2 = del_key k (redis_view r).
Proof. destruct (rc_cmd_direct (DEL k) r) as [-> Hd]. exact Hd. Qed.

Lemma TryCoalesce_run u hash ttl r :
  let x := run_script (coalescingScript (buildCoalescingKey u hash) (duration_seconds ttl)
             (format_rfc3339 ((time_Now r).1 / second)%Z)) (redis_view r) in
  (TryCoalesce u hash ttl r).1 = match result_of x.1 with
       | Err err => Err (errorf_w "coalescing failed: " (Some err))
       | Ok (RStr s) =>
           Ok (if String.eqb s "PROCEED" then MkCoalescingDecision PROCEED None
               else if String.eqb s "REJECTED" then
                 MkCoalescingDecision REJECTED
                   (Some (errors_New ("coalescing rejected: " +:+ s)))
               else MkCoalescingDecision UNKNOWN
                      (Some (errors_New ("unexpected lua action: " +:+ s))))
       | Ok _ => Err (errors_New "invalid lua response")
       end
  /\ redis_view (TryCoalesce u hash ttl r).2 = x.2.
Proof.
  cbv zeta. unfold TryCoalesce. rewrite !bind_unfold, ret_unfold.
  destruct (now_rfc3339_run r) as [-> Hv]. rewrite rc_Result_direct, Hv. cbn [fst snd].
  split; [done|]. by rewrite run_script_view, Hv.
Qed.

(** *** One operation on a held record *)

Lemma held_taken k e d ttl now :
  held d k e ->
  run_script (idempotencyScript k ttl now) d = (Ok (claim_answer (claim_of d k) now), d).
Proof.
  intros Hh. apply claim_taken.
  - unfold claim_wf. rewrite (held_exists _ _ _ Hh), bool_decide_true by apply Hh. done.
  - unfold claim_of. by destruct Hh as [[st ->] _].
Qed.

Lemma held_wait k e d dt :
  held d k e -> (r_now (doc_wait dt d) < e)%Z ->
  held (doc_wait dt d) k e /\ claim_of (doc_wait dt d) k = claim_of d k.
Proof.
  intros (Hst & Hs & He) Hlt.
  assert (Hl : r_hashes (doc_wait dt d) !! k = r_hashes d !! k).
  { cbn. destruct (r_hashes d !! k) as [[hh o]|] eqn:E.
    - apply map_lookup_filter_Some. split; [done|]. unfold live. cbn.
      unfold rhash_exp in He. rewrite E in He. cbn in He, Hlt. destruct o; [lia|done].
    - apply map_lookup_filter_None. by left. }
  assert (Hr : rhash (doc_wait dt d) k = rhash d k) by (unfold rhash; by rewrite Hl).
  split; [|unfold claim_of; by rewrite Hr]. split; [by rewrite Hr|]. split.
  - cbn. apply map_lookup_filter_None. by left.
  - unfold rhash_exp. by rewrite Hl.
Qed.

(** How an operation may change the record of [k]: the creation time stays, a
    terminal status stays, the job changes only by a binding of [k]. *)
Definition evolves (binds : Prop) (c c' : claim) : Prop :=
  match c, c' with
  | Claimed st cr j, Claimed st' cr' j' =>
      cr' = cr /\ (st <> "in_flight" -> st' = st) /\ (~ binds -> j' = j)
  | _, _ => False
  end.

Lemma evolves_refl b k e d : held d k e -> evolves b (claim_of d k) (claim_of d k).
Proof. unfold claim_of. by intros [[st ->] _]. Qed.

Lemma evolves_trans (b1 b2 : Prop) c1 c2 c3 :
  evolves b1 c1 c2 -> evolves b2 c2 c3 -> evolves (b1 \/ b2) c1 c3.
Proof.
  destruct c1, c2, c3; try done. cbn. intros (-> & Hs1 & Hj1) (-> & Hs2 & Hj2).
  split; [done|]. split.
  - intros Hn. rewrite Hs2; [by apply Hs1|]. by rewrite Hs1.
  - intros Hb. rewrite Hj2, Hj1; tauto.
Qed.

Definition op_binds (k : string) (o : idem_op) : Prop :=
  match o with OSetJob u h _ => buildIdempotencyKey u h = k | _ => False end.
Definition op_deletes (k : string) (o : idem_op) : Prop :=
  match o with ODelete u h => buildIdempotencyKey u h = k | _ => False end.

Lemma slot_step k e o r d' (b : Prop) :
  held (redis_view r) k e -> slot d' k = slot (redis_view r) k ->
  redis_view (idem_run o r).2 = d' ->
  held (redis_view (idem_run o r).2) k e
  /\ evolves b (claim_of (redis_view r) k) (claim_of (redis_view (idem_run o r).2) k).
Proof.
  intros Hh Hs ->. split; [by eapply slot_held|].
  rewrite (slot_claim _ _ _ Hs). by eapply evolves_refl.
Qed.

Lemma transition_step u h e j st r :
  let k := buildIdempotencyKey u h in
  held (redis_view r) k e -> (0 < completed_ttl)%Z ->
  (e <= r_now (redis_view r) + completed_ttl * 10 ^ 6)%Z ->
  let d' := redis_view (run_transition config j st r).2 in
  held d' k e /\ evolves False (claim_of (redis_view r) k) (claim_of d' k)
  /\ r_now d' = r_now (redis_view r).
Proof.
  intros k Hh Ht He. cbv zeta. destruct (run_transition_run j st r) as [_ ->].
  set (now := format_rfc3339 _). set (rk := jobIDtoIdempotencyKey j). set (d := redis_view r) in *.
  assert (Hne : rk <> k) by discriminate.
  destruct (rstr d rk) as [b|] eqn:E; [destruct (decide (bulk_text b = k)) as [Hb|Hb]|].
  - destruct (transition_claimed rk k b st now _ d e Hne E Hb Hh Ht He)
      as (d' & -> & Hc & Hh' & Hn & _). cbn [snd]. split; [done|]. split; [|done].
    rewrite Hc. unfold claim_of. destruct Hh as [[s ->] _]. cbn [transitioned].
    case_decide; cbn; tauto.
  - destruct (transition_frame rk k st now completed_ttl d Hne) as [Hs Hn].
    { rewrite E. by intros ? [= <-]. }
    split; [by eapply slot_held|]. rewrite (slot_claim _ _ _ Hs).
    split; [by eapply evolves_refl|done].
  - destruct (transition_frame rk k st now completed_ttl d Hne) as [Hs Hn]; [by rewrite E|].
    split; [by eapply slot_held|]. rewrite (slot_claim _ _ _ Hs).
    split; [by eapply evolves_refl|done].
Qed.

Lemma set_job_frame u h k j d :
  buildIdempotencyKey u h <> k -> jobIDtoIdempotencyKey j <> k ->
  slot (run_script (setJobIDScript (buildIdempotencyKey u h) (jobIDtoIdempotencyKey j) j) d).2 k
    = slot d k
  /\ r_now (run_script (setJobIDScript (buildIdempotencyKey u h) (jobIDtoIdempotencyKey j) j) d).2
    = r_now d.
Proof.
  intros H1 H2. unfold setJobIDScript. lua1. case_match; [done|]. lua1. lua1. lua1.
  match goal with |- context [(0 <? ?t)%Z] => destruct (0 <? t)%Z end; [lua1|];
    lua_ret; rewrite ?slot_do_expire, ?now_do_expire, slot_set_str, slot_put_hash by done; done.
Qed.

Lemma coalesce_frame u hash ttl now k d :
  buildCoalescingKey u hash <> k ->
  slot (run_script (coalescingScript (buildCoalescingKey u hash) ttl now) d).2 k = slot d k
  /\ r_now (run_script (coalescingScript (buildCoalescingKey u hash) ttl now) d).2 = r_now d.
Proof.
  intros Hne. unfold coalescingScript. lua1. repeat case_match; simplify_eq; try done;
    lua_ret; by rewrite ?slot_set_str.
Qed.

Lemma idem_step u h e o r :
  let k := buildIdempotencyKey u h in
  let d' := redis_view (idem_run o r).2 in
  held (redis_view r) k e -> ~ op_deletes k o -> (0 < completed_ttl)%Z ->
  (e <= r_now (redis_view r) + completed_ttl * 10 ^ 6)%Z ->
  (r_now d' < e)%Z ->
  held d' k e /\ evolves (op_binds k o) (claim_of (redis_view r) k) (claim_of d' k)
  /\ (r_now (redis_view r) <= r_now d')%Z.
Proof.
  intros k d' Hh Hdel Ht He Hlt. subst d'. set (d := redis_view r) in *.
  assert (Hslot : forall d' b, slot d' k = slot d k -> r_now d' = r_now d ->
    held d' k e /\ evolves b (claim_of d k) (claim_of d' k) /\ (r_now d <= r_now d')%Z).
  { intros d' b Hs Hn. rewrite (slot_claim _ _ _ Hs), Hn. split; [by eapply slot_held|].
    split; [by eapply evolves_refl|lia]. }
  destruct o as [u' h' ttl|u' h' j|u' h'|j st|j st|u' hash ttl|u' hash|dt]; cbn [op_binds].
  - cbn [idem_run] in *. rewrite bind_unfold, ret_unfold. cbn [snd]. destruct (ClaimOrGet_run u' h' ttl r) as [_ ->].
    fold d. set (now := format_rfc3339 _).
    destruct (decide (buildIdempotencyKey u' h' = k)) as [E|E].
    + rewrite E, (held_taken k e d) by done. by apply Hslot.
    + apply Hslot; unfold idempotencyScript; lua1; case_match; cbn [negb];
        try (by rewrite !run_bind, hget_text_run, run_bind, hget_text_run, run_bind, hget_text_run;
             repeat case_match); lua1; lua1; lua_ret; rewrite ?slot_do_expire, ?slot_put_hash, ?now_do_expire; done.
  - cbn [idem_run] in *. rewrite bind_unfold, ret_unfold. cbn [snd]. destruct (SetJobID_run u' h' j r) as [-> _]. fold d.
    destruct (decide (buildIdempotencyKey u' h' = k)) as [E|E].
    + rewrite E. destruct (set_job_claimed k (jobIDtoIdempotencyKey j) j d e)
        as (d' & -> & Hh' & Hn & _ & Hc & _); [discriminate|done|]. cbn [snd].
      split; [done|]. rewrite Hc, Hn. split; [|lia]. unfold claim_of.
      destruct Hh as [[s ->] _]. cbn. tauto.
    + destruct (set_job_frame u' h' k j d) as [? ?]; [done|done|]. by apply Hslot.
  - cbn [idem_run] in *. rewrite bind_unfold, ret_unfold. cbn [snd]. unfold Idempotency_Delete.
    rewrite bind_unfold, ret_unfold. cbn [snd]. rewrite del_run. apply Hslot; [|done].
    by apply slot_del_key.
  - destruct (transition_run j st r) as [-> _].
    destruct (transition_step u h e j st r Hh Ht He) as (Hh' & Hc & Hn).
    split; [done|]. split; [done|]. fold d in Hn. lia.
  - destruct (transition_run j st r) as [_ ->].
    destruct (transition_step u h e j st r Hh Ht He) as (Hh' & Hc & Hn).
    split; [done|]. split; [done|]. fold d in Hn. lia.
  - cbn [idem_run] in *. rewrite bind_unfold, ret_unfold. cbn [snd]. destruct (TryCoalesce_run u' hash ttl r) as [_ ->].
    destruct (coalesce_frame u' hash (duration_seconds ttl)
      (format_rfc3339 ((time_Now r).1 / second)%Z) k d) as [? ?]; [done|]. by apply Hslot.
  - cbn [idem_run] in *. rewrite bind_unfold, ret_unfold. cbn [snd]. unfold Coalescing_Delete.
    rewrite bind_unfold, ret_unfold. cbn [snd]. rewrite del_run. apply Hslot; [|done].
    by apply slot_del_key.
  - cbn [idem_run modify_world snd] in *. rewrite redis_wait_doc in *. fold d in Hlt |- *.
    destruct (held_wait k e d dt Hh Hlt) as [Hh' Hc]. split; [done|]. rewrite Hc.
    split; [by eapply evolves_refl|]. cbn. lia.
Qed.

Lemma idem_trace_cons o ops r : idem_trace (o :: ops) r = idem_trace ops (idem_run o r).2.
Proof. unfold idem_trace. cbn [for_each]. by rewrite bind_unfold. Qed.

Lemma idem_now o r : (r_now (redis_view r) <= r_now (redis_view (idem_run o r).2))%Z.
Proof.
  destruct o as [u' h' ttl|u' h' j|u' h'|j st|j st|u' hash ttl|u' hash|dt].
  - cbn [idem_run]. rewrite bind_unfold, ret_unfold. cbn [snd].
    destruct (ClaimOrGet_run u' h' ttl r) as [_ ->]. by rewrite run_script_now.
  - cbn [idem_run]. rewrite bind_unfold, ret_unfold. cbn [snd].
    destruct (SetJobID_run u' h' j r) as [-> _]. by rewrite run_script_now.
  - cbn [idem_run]. unfold Idempotency_Delete. rewrite !bind_unfold, !ret_unfold. cbn [snd].
    by rewrite del_run.
  - destruct (transition_run j st r) as [-> _]. destruct (run_transition_run j st r) as [_ ->].
    by rewrite run_script_now.
  - destruct (transition_run j st r) as [_ ->]. destruct (run_transition_run j st r) as [_ ->].
    by rewrite run_script_now.
  - cbn [idem_run]. rewrite bind_unfold, ret_unfold. cbn [snd].
    destruct (TryCoalesce_run u' hash ttl r) as [_ ->]. by rewrite run_script_now.
  - cbn [idem_run]. unfold Coalescing_Delete. rewrite !bind_unfold, !ret_unfold. cbn [snd].
    by rewrite del_run.
  - cbn [idem_run modify_world snd]. rewrite redis_wait_doc. cbn. lia.
Qed.

Lemma idem_trace_now ops r :
  (r_now (redis_view r) <= r_now (redis_view (idem_trace ops r).2))%Z.
Proof.
  revert r. induction ops as [|o ops IH]; intros r; [cbn; lia|].
  rewrite idem_trace_cons. etrans; [apply (idem_now o)|apply IH].
Qed.

(** A held record stays held, and evolves, under every sequence of
    operations that does not delete it, until its time is over. *)
Lemma idem_trace_held u h e ops r :
  let k := buildIdempotencyKey u h in
  let d' := redis_view (idem_trace ops r).2 in
  held (redis_view r) k e -> (forall o, o ∈ ops -> ~ op_deletes k o) ->
  (0 < completed_ttl)%Z -> (e <= r_now (redis_view r) + completed_ttl * 10 ^ 6)%Z ->
  (r_now d' < e)%Z ->
  held d' k e
  /\ evolves (exists o, o ∈ ops /\ op_binds k o) (claim_of (redis_view r) k) (claim_of d' k).
Proof.
  intros k. cbv zeta. revert r. induction ops as [|o ops IH]; intros r Hh Hdel Ht He Hlt.
  { split; [done|]. by eapply evolves_refl. }
  rewrite idem_trace_cons in *. set (r1 := (idem_run o r).2) in *.
  pose proof (idem_trace_now ops r1) as Hmono.
  destruct (idem_step u h e o r) as (Hh1 & Hev1 & Hn1);
    [done|apply Hdel; left|done|done|fold r1; lia|].
  fold r1 k in Hh1, Hev1, Hn1.
  destruct (IH r1) as [Hh2 Hev2];
    [done|intros o' Ho'; apply Hdel; by right|done|lia|done|].
  split; [done|]. pose proof (evolves_trans _ _ _ _ _ Hev1 Hev2) as Hev.
  destruct (claim_of (redis_view r) k), (claim_of (redis_view (idem_trace ops r1).2) k);
    cbn in Hev |- *; try done. destruct Hev as (Hc & Hs & Hj). split; [done|]. split; [done|].
  intros Hb. apply Hj. intros [Hb1|(o' & Ho' & Hb')].
  - apply Hb. exists o. split; [left|done].
  - apply Hb. exists o'. split; [by right|done].
Qed.

(** *** What [ClaimOrGet] answers *)

Definition claim_result (ttl : Z) (secs : Z) (st : string) (job : string) : IdempotencyResult :=
  let at_ := (secs * second)%Z in
  let mk act err := MkIdempotencyResult act st job at_ (at_ + ttl)%Z (Some (errors_New err)) in
  if decide (st = "in_flight") then mk ActionDuplicateInFlight "duplicated idempotency key"
  else if decide (st = "completed") then mk ActionReplay "already processed idempotency key"
  else if decide (st = "failed") then mk ActionFailed "job has failed"
  else mk ActionUnknown "unknown state for idempotency key".

Lemma decode_claimed ttl st cr j now secs :
  parse_rfc3339 cr = Some secs ->
  decode_idempotency ttl (claim_answer (Claimed st cr j) now)
    = Ok (claim_result ttl secs st (default "" j)).
Proof.
  intros Hp. unfold claim_result, claim_answer, claim_action. cbv zeta.
  unfold decode_idempotency. cbn [toString]. rewrite Hp.
  repeat case_decide; reflexivity.
Qed.

Lemma decode_claimed_not_new ttl st cr j now res :
  decode_idempotency ttl (claim_answer (Claimed st cr j) now) = Ok res ->
  id_Action res <> ActionNew /\ id_JobID res = default "" j.
Proof.
  destruct (parse_rfc3339 cr) as [secs|] eqn:E.
  - rewrite (decode_claimed _ _ _ _ _ _ E). intros [= <-].
    unfold claim_result. repeat case_decide; split; done.
  - unfold decode_idempotency, claim_answer. cbn [toString]. by rewrite E.
Qed.

Lemma claim_held_run u h ttl e r :
  held (redis_view r) (buildIdempotencyKey u h) e ->
  redis_view (ClaimOrGet u h ttl r).2 = redis_view r /\
  exists now, (ClaimOrGet u h ttl r).1 =
    decode_idempotency ttl (claim_answer (claim_of (redis_view r) (buildIdempotencyKey u h)) now).
Proof.
  intros Hh. destruct (ClaimOrGet_run u h ttl r) as [-> ->]. set (now := format_rfc3339 _).
  rewrite (held_taken _ e _ _ now Hh). split; [done|]. exists now.
  unfold claim_of. by destruct Hh as [[st ->] _].
Qed.

(** A claim that is answered NEW found no record, and leaves one in flight
    for the time to live. *)
Lemma claim_new_run u h ttl r :
  let k := buildIdempotencyKey u h in
  let secs := ((time_Now r).1 / second)%Z in
  let r1 := (ClaimOrGet u h ttl r).2 in
  claim_wf (redis_view r) k -> (second <= ttl)%Z -> claim_of (redis_view r) k = Unclaimed ->
  held (redis_view r1) k (r_now (redis_view r) + duration_seconds ttl * 10 ^ 6)
  /\ claim_of (redis_view r1) k = Claimed "in_flight" (format_rfc3339 secs) None
  /\ r_now (redis_view r1) = r_now (redis_view r)
  /\ (forall s, parse_rfc3339 (format_rfc3339 secs) = Some s ->
       (ClaimOrGet u h ttl r).1 = Ok (MkIdempotencyResult ActionNew "in_flight" ""
                                       (s * second) (s * second + ttl) None)).
Proof.
  intros k secs. cbv zeta. intros Hwf Httl Hc. destruct (ClaimOrGet_run u h ttl r) as [-> ->].
  fold k secs. assert (Ht : (0 < duration_seconds ttl)%Z).
  { unfold duration_seconds, second in *. rewrite Z.quot_div_nonneg by lia.
    apply Z.div_str_pos. lia. }
  destruct (claim_new k _ (format_rfc3339 secs) _ Hwf Ht Hc) as (d' & -> & _ & Hc' & Hh & Hn & _).
  cbn [fst snd result_of claim_answer].
  split; [done|]. split; [done|]. split; [done|].
  intros s Hs. unfold decode_idempotency. cbn [toString]. by rewrite Hs.
Qed.

(** C15: an idempotency key is claimed once.  After [ClaimOrGet] answered
    NEW, and as long as no [Delete] of the key is among the operations of any
    client (any claims, bindings, transitions, coalescing and waiting, in any
    order) and neither the time to live of the claim nor that of completed
    records is over, the key keeps a record, and no claim is answered NEW
    again; a claim returns the job bound to the record, and none if no
    operation bound one. *)
Theorem claim_once u h ttl ttl' r0 res ops :
  let k := buildIdempotencyKey u h in
  let r1 := (ClaimOrGet u h ttl r0).2 in
  let r2 := (idem_trace ops r1).2 in
  claim_wf (redis_view r0) k -> (second <= ttl)%Z ->
  (second <= CompletedIdempotencyTTL config)%Z ->
  (ClaimOrGet u h ttl r0).1 = Ok res -> id_Action res = ActionNew ->
  (forall o, o ∈ ops -> ~ op_deletes k o) ->
  (r_now (redis_view r2) - r_now (redis_view r1)
     < Z.min (duration_seconds ttl) completed_ttl * 10 ^ 6)%Z ->
  exists st cr j, claim_of (redis_view r2) k = Claimed st cr j
    /\ ((forall o, o ∈ ops -> ~ op_binds k o) -> j = None)
    /\ forall res', (ClaimOrGet u h ttl' r2).1 = Ok res' ->
         id_Action res' <> ActionNew /\ id_JobID res' = default "" j.
Proof.
  intros k r1 r2 Hwf Httl Hcttl Hres Hnew Hdel Hlt.
  assert (Hc0 : claim_of (redis_view r0) k = Unclaimed).
  { destruct (claim_of (redis_view r0) k) as [|st cr j] eqn:E; [done|exfalso].
    destruct (ClaimOrGet_run u h ttl r0) as [Hx _]. rewrite Hx in Hres. fold k in Hres.
    rewrite claim_taken in Hres by (by rewrite ?E). rewrite E in Hres. cbn in Hres.
    by apply decode_claimed_not_new in Hres as [Hn _]. }
  destruct (claim_new_run u h ttl r0 Hwf Httl Hc0) as (Hh & Hc & Hn & _). fold k r1 in Hh, Hc, Hn.
  assert (Ht : (0 < completed_ttl)%Z).
  { unfold completed_ttl, duration_seconds, second in *. rewrite Z.quot_div_nonneg by lia.
    apply Z.div_str_pos. lia. }
  set (e := (r_now (redis_view r1) + Z.min (duration_seconds ttl) completed_ttl * 10 ^ 6)%Z).
  destruct (idem_trace_held u h e ops r1) as [Hh2 Hev];
    [apply (held_weaken _ _ _ e) in Hh; [done|unfold e; lia]|done|done|unfold e; lia| |].
  { fold r2. unfold e. lia. }
  fold k r2 in Hh2, Hev. rewrite Hc in Hev.
  destruct (claim_of (redis_view r2) k) as [|st cr j] eqn:E2; [done|].
  exists st, cr, j. split; [done|]. split.
  - intros Hb. destruct Hev as (_ & _ & Hj). apply Hj. intros (o & Ho & Hob). by apply (Hb o).
  - intros res' Hres'. destruct (claim_held_run u h ttl' e r2 Hh2) as [_ [now Hx]].
    rewrite Hx in Hres'. fold k in Hres'. rewrite E2 in Hres'.
    by apply decode_claimed_not_new in Hres'.
Qed.

(** *** Binding and ending a claimed record *)

Lemma set_job_run u h j e r :
  let k := buildIdempotencyKey u h in
  let r' := (SetJobID u h j r).2 in
  held (redis_view r) k e ->
  (SetJobID u h j r).1 = None /\ held (redis_view r') k e
  /\ r_now (redis_view r') = r_now (redis_view r)
  /\ (exists o, r_strs (redis_view r') !! jobIDtoIdempotencyKey j = Some (BStr k, o)
       /\ match o with Some w => (e - 10 ^ 6 <= w)%Z | None => True end)
  /\ forall st cr j0, claim_of (redis_view r) k = Claimed st cr j0 ->
       claim_of (redis_view r') k = Claimed st cr (Some j).
Proof.
  intros k r' Hh. destruct (SetJobID_run u h j r) as [Hv Hok]. fold k in Hv, Hok.
  destruct (set_job_claimed k (jobIDtoIdempotencyKey j) j (redis_view r) e)
    as (d' & Hrun & Hh' & Hn & (o & Ho & Hw) & Hc & _); [discriminate|done|].
  rewrite Hrun in Hv, Hok. cbn [fst snd] in Hv, Hok. subst r'. rewrite Hv.
  split; [by apply Hok|]. split; [done|]. split; [done|]. split.
  - exists o. split; [done|]. destruct o as [w|]; [|done]. destruct Hw as (t & Ht & Hle).
    destruct Hh as (_ & _ & He). rewrite Ht in He. lia.
  - intros st cr j0 E. by rewrite Hc, E.
Qed.

Lemma transition_ok_run k j st cr j0 e r :
  jobIDtoIdempotencyKey j <> k -> rstr (redis_view r) (jobIDtoIdempotencyKey j) = Some (BStr k) ->
  held (redis_view r) k e -> claim_of (redis_view r) k = Claimed "in_flight" cr j0 ->
  (0 < completed_ttl)%Z -> (e <= r_now (redis_view r) + completed_ttl * 10 ^ 6)%Z ->
  let r' := (TransitionStatus config j st r).2 in
  (TransitionStatus config j st r).1 = None
  /\ held (redis_view r') k (r_now (redis_view r) + completed_ttl * 10 ^ 6)
  /\ r_now (redis_view r') = r_now (redis_view r)
  /\ claim_of (redis_view r') k = Claimed st cr j0.
Proof.
  intros Hne Hs Hh Hc Ht He. cbv zeta. unfold TransitionStatus. rewrite bind_unfold, ret_unfold.
  cbn [fst snd]. destruct (run_transition_run j st r) as [-> ->].
  set (now := format_rfc3339 _).
  destruct (transition_claimed _ k _ st now _ _ e Hne Hs eq_refl Hh Ht He)
    as (d' & -> & Hc' & _ & Hn & Hh' & _). rewrite Hc in *. cbn [transition_answer transitioned] in *.
  rewrite decide_True in * by done. by auto.
Qed.

(** C10: replay.  A request claims a free key, binds its job, and the job ends
    with status "completed" or "failed"; as long as the completed record
    lives, and whatever else the clients of the stores do without deleting or
    rebinding the key, a claim of the key answers REPLAY with that very job,
    or FAILED, and never makes a second job. *)
Theorem idempotent_replay u h ttl j st dt ops r0 :
  let k := buildIdempotencyKey u h in
  let secs := ((time_Now r0).1 / second)%Z in
  let r1 := (ClaimOrGet u h ttl r0).2 in
  let r2 := (SetJobID u h j r1).2 in
  let r3 := redis_wait dt r2 in
  let r4 := (TransitionStatus config j st r3).2 in
  let r5 := (idem_trace ops r4).2 in
  claim_wf (redis_view r0) k -> claim_of (redis_view r0) k = Unclaimed ->
  (second <= ttl)%Z -> (second <= CompletedIdempotencyTTL config)%Z ->
  (0 <= dt < (duration_seconds ttl - 1) * 10 ^ 6)%Z ->
  parse_rfc3339 (format_rfc3339 secs) = Some secs ->
  st <> "in_flight" ->
  (forall o, o ∈ ops -> ~ op_deletes k o) -> (forall o, o ∈ ops -> ~ op_binds k o) ->
  (r_now (redis_view r5) - r_now (redis_view r4) < completed_ttl * 10 ^ 6)%Z ->
  (SetJobID u h j r1).1 = None /\ (TransitionStatus config j st r3).1 = None
  /\ (ClaimOrGet u h ttl r5).1 = Ok (claim_result ttl secs st j).
Proof.
  intros k secs r1 r2 r3 r4 r5 Hwf Hc0 Httl Hcttl Hdt Hfmt Hst Hdel Hbind Hlt.
  assert (Ht : (0 < completed_ttl)%Z).
  { unfold completed_ttl, duration_seconds, second in *. rewrite Z.quot_div_nonneg by lia.
    apply Z.div_str_pos. lia. }
  destruct (claim_new_run u h ttl r0 Hwf Httl Hc0) as (Hh1 & Hc1 & Hn1 & _).
  fold k secs r1 in Hh1, Hc1, Hn1.
  destruct (set_job_run u h j _ r1 Hh1) as (-> & Hh2 & Hn2 & (o & Ho & Hw) & Hc2).
  specialize (Hc2 _ _ _ Hc1). fold k r2 in Hh2, Hn2, Ho, Hc2. split; [done|].
  assert (Hv3 : redis_view r3 = doc_wait dt (redis_view r2)) by apply redis_wait_doc.
  assert (Hn3 : r_now (redis_view r3) = (r_now (redis_view r0) + dt)%Z).
  { rewrite Hv3. cbn. lia. }
  destruct (held_wait k _ _ dt Hh2) as [Hh3 Hc3]; [rewrite <- Hv3; lia|].
  rewrite <- Hv3 in Hh3, Hc3. rewrite Hc2 in Hc3.
  assert (Hs3 : rstr (redis_view r3) (jobIDtoIdempotencyKey j) = Some (BStr k)).
  { rewrite Hv3. unfold rstr. cbn. rewrite (proj2 (map_lookup_filter_Some _ _ _ _)) by
      (split; [exact Ho|]; unfold live; cbn; destruct o; [lia|done]). done. }
  set (e := Z.min (r_now (redis_view r0) + duration_seconds ttl * 10 ^ 6)
              (r_now (redis_view r3) + completed_ttl * 10 ^ 6)).
  apply (held_weaken _ _ _ e) in Hh3; [|lia].
  destruct (transition_ok_run k j st (format_rfc3339 secs) (Some j) e r3) as (-> & Hh4 & Hn4 & Hc4);
    [discriminate|done|done|done|done|lia|].
  fold r4 in Hh4, Hn4, Hc4. split; [done|].
  destruct (idem_trace_held u h _ ops r4 Hh4) as [Hh5 Hev]; [done|done|lia|fold r5; lia|].
  fold k r5 in Hh5, Hev. rewrite Hc4 in Hev.
  destruct (claim_held_run u h ttl _ r5 Hh5) as [_ [now ->]]. fold k.
  destruct (claim_of (redis_view r5) k) as [|st5 cr5 j5]; [done|].
  destruct Hev as (-> & Hs & Hj). rewrite Hs, Hj by (try done; intros (x & Hx & Hb); by apply (Hbind x)).
  by apply decode_claimed.
Qed.

(** *** Coalescing *)

Lemma key_exists_false d k :
  key_exists d k = false <-> slot d k = (None, None, None, None, None, None).
Proof.
  unfold key_exists, slot. rewrite !orb_false_iff, !bool_decide_eq_false, <- !eq_None_not_Some.
  split; [by intros [[[[[-> ->] ->] ->] ->] ->]|by intros [= -> -> -> -> -> ->]].
Qed.

Lemma coalesce_free u hash ttl r :
  let k := buildCoalescingKey u hash in
  (second <= ttl)%Z -> key_exists (redis_view r) k = false ->
  (TryCoalesce u hash ttl r).1 = Ok (MkCoalescingDecision PROCEED None)
  /\ exists v, redis_view (TryCoalesce u hash ttl r).2 =
      upd_strs <[k := (v, Some (r_now (redis_view r) + duration_seconds ttl * 10 ^ 6)%Z)]>
        (redis_view r).
Proof.
  intros k Httl Hk. destruct (TryCoalesce_run u hash ttl r) as [-> ->]. fold k.
  unfold coalescingScript. lua1. rewrite Hk.
  rewrite (proj2 (Z.leb_gt (duration_seconds ttl) 0)).
  2:{ unfold duration_seconds, second in *. rewrite Z.quot_div_nonneg by lia.
      apply Z.div_str_pos. lia. }
  lua_ret. split; [done|]. by eexists.
Qed.

Lemma coalesce_taken u hash ttl r :
  (second <= ttl)%Z -> key_exists (redis_view r) (buildCoalescingKey u hash) = true ->
  (TryCoalesce u hash ttl r).1 =
    Ok (MkCoalescingDecision REJECTED (Some (errors_New "coalescing rejected: REJECTED"))).
Proof.
  intros Httl Hk. destruct (TryCoalesce_run u hash ttl r) as [-> _].
  unfold coalescingScript. lua1. rewrite Hk.
  rewrite (proj2 (Z.leb_gt (duration_seconds ttl) 0)); [done|].
  unfold duration_seconds, second in *. rewrite Z.quot_div_nonneg by lia.
  apply Z.div_str_pos. lia.
Qed.

Lemma key_exists_str d k v : key_exists (upd_strs <[k := v]> d) k = true.
Proof.
  unfold key_exists. cbn. rewrite lookup_insert_eq.
  by rewrite (bool_decide_true (is_Some (Some v))), !orb_true_r by by eexists.
Qed.

Lemma str_wait d k v e dt :
  r_strs d !! k = Some (v, Some e) ->
  r_strs (doc_wait dt d) !! k
    = if decide (r_now d + Z.max 0 dt < e)%Z then Some (v, Some e) else None.
Proof.
  intros Hs. cbn. case_decide as Hlt.
  - apply map_lookup_filter_Some. by split.
  - apply map_lookup_filter_None. right. intros x Hx. rewrite Hs in Hx. injection Hx as <-.
    exact Hlt.
Qed.

(** The coalescing window.  The first request with a content hash
    proceeds and opens a window of the configured time to live; every request
    of the same user with that hash is rejected while it lasts, and proceeds
    again once it is over, or once the key is deleted. *)
Theorem coalescing_window u hash ttl ttl' dt r :
  let k := buildCoalescingKey u hash in
  let again r := (TryCoalesce u hash ttl' r).1 in
  let go := Ok (MkCoalescingDecision PROCEED None) in
  (second <= ttl)%Z -> (second <= ttl')%Z -> (0 <= dt)%Z ->
  key_exists (redis_view r) k = false ->
  let r1 := (TryCoalesce u hash ttl r).2 in
  (TryCoalesce u hash ttl r).1 = go
  /\ again (redis_wait dt r1) =
       (if decide (dt < duration_seconds ttl * 10 ^ 6)%Z
        then Ok (MkCoalescingDecision REJECTED (Some (errors_New "coalescing rejected: REJECTED")))
        else go)
  /\ again (Coalescing_Delete u hash (redis_wait dt r1)).2 = go.
Proof.
  intros k again go Httl Httl' Hdt Hk. cbv zeta. subst again.
  destruct (coalesce_free u hash ttl r Httl Hk) as [-> [v Hv]]. split; [done|].
  set (r1 := (TryCoalesce u hash ttl r).2) in *. fold k in Hv.
  set (e := (r_now (redis_view r) + duration_seconds ttl * 10 ^ 6)%Z) in Hv.
  pose proof (str_wait (redis_view r1) k v e dt) as Hs. rewrite Hv in Hs.
  specialize (Hs (lookup_insert_eq _ _ _)).
  split.
  - cbn [upd_strs r_now] in Hs. case_decide as Hlt; case_decide as Hlt2; try (unfold e in *; lia).
    + apply coalesce_taken; [done|]. fold k. rewrite redis_wait_doc, Hv. unfold key_exists.
      rewrite Hs. by rewrite (bool_decide_true (is_Some (Some _))), !orb_true_r by by eexists.
    + apply coalesce_free; [done|]. fold k. rewrite redis_wait_doc, Hv.
      apply key_exists_false. apply key_exists_false in Hk. injection Hk as H1 H2 H3 H4 H5 H6.
      unfold slot. rewrite Hs. cbn [doc_wait r_zsets r_lists r_sets r_hashes r_streams upd_strs].
      rewrite H1, H2, H3. rewrite !(proj2 (map_lookup_filter_None _ _ _)) by (by left). done.
  - apply coalesce_free; [done|]. unfold Coalescing_Delete. rewrite bind_unfold, ret_unfold.
    cbn [snd]. rewrite del_run. fold k. apply key_exists_false.
    unfold slot, del_key. cbn. by rewrite !lookup_delete_eq.
Qed.
End stores.

(** ** Witnesses *)

Module IdempotencyDemo.
#[export] Instance clock : GoClock rdata := {| time_Now := mret (5 * 10 ^ 9)%Z |}.
#[export] Instance fmt : GoFmt := {|
  sscan_int64 := fun _ => None; parse_int64 := fun _ => None;
  format_rfc3339 := pretty;
  parse_rfc3339 := fun s => if String.eqb s "5" then Some 5%Z else None |}.
Definition config : InferenceConfig :=
  MkInferenceConfig (30 * second) (60 * second) (3600 * second).

(** What other clients do meanwhile. *)
Definition traffic : list idem_op :=
  [OClaim "u" "h" (60 * second); OCoalesce "u" 7 (30 * second); OWait (10 * 10 ^ 6);
   OTransition "j2" "failed"; ODelete "u" "other"; OClaim "u" "h" (60 * second)].
End IdempotencyDemo.

#[local] Existing Instances IdempotencyDemo.clock IdempotencyDemo.fmt.

Lemma clock_pure (r : rdata) : redis_view (time_Now r).2 = redis_view r.
Proof. reflexivity. Qed.

(** No operation of a concrete list touches the key. *)
Ltac no_op :=
  let o := fresh "o" in let Ho := fresh "Ho" in let E := fresh "E" in
  intros o Ho E;
  repeat (apply elem_of_cons in Ho as [->|Ho]; [first [exact E | discriminate E]|]);
  by apply not_elem_of_nil in Ho.

Lemma claim_once_witness :
  let r1 := (ClaimOrGet "u" "h" (60 * second) rdata_empty).2 in
  let r2 := (idem_trace IdempotencyDemo.config IdempotencyDemo.traffic r1).2 in
  exists st cr j, claim_of r2 (buildIdempotencyKey "u" "h") = Claimed st cr j
    /\ ((forall o, o ∈ IdempotencyDemo.traffic ->
          ~ op_binds (buildIdempotencyKey "u" "h") o) -> j = None)
    /\ forall res', (ClaimOrGet "u" "h" (60 * second) r2).1 = Ok res' ->
         id_Action res' <> ActionNew /\ id_JobID res' = default "" j.
Proof.
  refine (claim_once clock_pure IdempotencyDemo.config "u" "h"
    (60 * second) (60 * second) rdata_empty
    (MkIdempotencyResult ActionNew "in_flight" "" (5 * second) (65 * second) None)
    IdempotencyDemo.traffic _ _ _ _ _ _ _).
  - reflexivity.
  - discriminate.
  - discriminate.
  - reflexivity.
  - reflexivity.
  - no_op.
  - vm_compute. reflexivity.
Defined.

Lemma idempotent_replay_witness :
  let r1 := (ClaimOrGet "u" "h" (60 * second) rdata_empty).2 in
  let r2 := (SetJobID "u" "h" "j1" r1).2 in
  let r4 := (TransitionStatus IdempotencyDemo.config "j1" "completed"
               (redis_wait (20 * 10 ^ 6) r2)).2 in
  let r5 := (idem_trace IdempotencyDemo.config IdempotencyDemo.traffic r4).2 in
  id_JobID <$> match (ClaimOrGet "u" "h" (60 * second) r5).1 with
               | Ok x => Some x | Err _ => None end = Some "j1".
Proof.
  cbv zeta.
  rewrite (proj2 (proj2 (idempotent_replay clock_pure
    IdempotencyDemo.config "u" "h" (60 * second) "j1" "completed" (20 * 10 ^ 6)
    IdempotencyDemo.traffic rdata_empty ltac:(reflexivity) ltac:(reflexivity)
    ltac:(discriminate) ltac:(discriminate) ltac:(split; [discriminate|reflexivity])
    ltac:(reflexivity) ltac:(discriminate)
    ltac:(no_op)
    ltac:(no_op)
    ltac:(vm_compute; reflexivity)))).
  reflexivity.
Defined.

Lemma coalescing_window_witness :
  (TryCoalesce "u" 7 (30 * second) rdata_empty).1 = Ok (MkCoalescingDecision PROCEED None).
Proof.
  refine (proj1 (coalescing_window clock_pure "u" 7 (30 * second)
    (30 * second) (10 * 10 ^ 6) rdata_empty _ _ _ _)); [discriminate..|reflexivity].
Defined.
