(* ===== verification/Inference.v ===== *)
(** * Submitting inference requests (internal/inference)

    The ports of the use case, [Submit], the adapters to the other services,
    and the module's checks.  The stores it uses are in Idempotency.v. *)

From S2P Require Import Prelude GoErr Redis Env.
From S2P Require Scheduler Admission Job.
From S2P Require Import Idempotency.
From stdpp Require Import base gmap sets list strings pretty.
From Stdlib Require Import ZArith Lia.

(** ** ports *)

Class RequestAdmitter (W : Type) := {
  port_Admit : InferenceRequest -> M W (res goerr InferenceRequest) }.

Class IdempotencyStore (W : Type) := {
  port_ClaimOrGet : string -> string -> Z -> M W (res goerr IdempotencyResult);
  port_SetJobID : string -> string -> string -> M W (option goerr);
  port_Delete : string -> string -> M W (option goerr);
  port_TransitionStatus : string -> string -> M W (option goerr) }.

Class Coalescer (W : Type) := {
  port_TryCoalesce : string -> Z -> Z -> M W (res goerr CoalescingDecision);
  port_DeleteCoalescing : string -> Z -> M W (option goerr) }.

Class Hasher := { port_HashRequest : string -> Z }.

Class JobService (W : Type) := {
  port_Create : InferenceRequest -> M W (res goerr InferenceJob);
  port_MarkFailed : string -> Z -> M W (option goerr) }.

Class Enqueuer (W : Type) := {
  port_TryEnqueue : InferenceJob -> M W (res goerr bool) }.

Class InferenceMetrics (W : Type) := { JobAccepted : M W unit }.

(** [ctx.Deadline()] and [time.Until]: the time left, when there is a
    deadline. *)
Class GoDeadline (W : Type) := { ctx_TimeLeft : M W (option Z) }.

(** ** public *)

Definition ErrCodeIdempotencyConflict := "INFERENCE_IDEMPOTENCY_CONFLICT".
Definition ErrCodeCheckIdempotencyFailed := "IDEMPOTENCY_CHECK_FAILED".
Definition ErrCodeTryCoalescingFailed := "TRY_COALESCING_FAILED".
Definition ErrCodeCoalescingRejected := "COALESCING_REJECTED".
Definition ErrCodeRequestValidation := "REQUEST_VALIDATION_FAILED".
Definition ErrCodeJobCreationFailed := "JOB_CREATION_FAILED".
Definition ErrCodeIdempotencyKeyMissing := "IDEMPOTENCY_KEY_MISSING".
Definition ErrCodeIdempotencyUnknown := "IDEMPOTENCY_UNKNOWN_STATUS".
Definition ErrCodeAdmissionFailed := "ADMISSION_FAILED".
Definition ErrCodeEnqueueFailed := "INFERENCE_ENQUEUE_FAILED".
Definition ErrCodeReleaseCoalescing := "RELEASE_COALESCING_FAILED".
Definition ErrCodeReleaseIdempotencyKey := "RELEASE_IDEMPOTENCY_FAILED".
Definition ErrCodeIdempotencyJobFailed := "IDEMPOTENCY_JOB_FAILED".
Definition ErrCodeSubmitDeadlineExceeded := "SUBMIT_DEADLINE_EXCEEDED".
Definition ErrTypeInference := "INFERENCE_FAILED".

(** ** usecase/inference.go *)

Section usecase.
Context {W : Type} `{!RequestAdmitter W, !IdempotencyStore W, !Hasher, !Coalescer W,
  !JobService W, !Enqueuer W, !GoDeadline W}.
Context (config : InferenceConfig) (metrics : option (M W unit)).

(** What [Submit] returns: the job id and the error. *)
Definition submit_result : Type := string * option goerr.

Definition submit_error (err : option goerr) (code : string) : submit_result :=
  ("", EnsureAppError err code ErrTypeInference).

Definition cleanupClaims (userID idempotencyHeader : string) (hashRequest : Z)
  : M W (option goerr) :=
  remCoalErr ← port_DeleteCoalescing userID hashRequest;
  remIdempErr ← port_Delete userID idempotencyHeader;
  mret (errors_Join
    [EnsureAppError remCoalErr ErrCodeReleaseCoalescing ErrTypeInference;
     EnsureAppError remIdempErr ErrCodeReleaseIdempotencyKey ErrTypeInference]).

(** The compensation of a job that cannot be enqueued: the job is marked
    failed, its idempotency key too, the coalescing key is released; errors
    are logged only. *)
Definition compensate_job (job : InferenceJob) (userID : string) (hashRequest : Z) : M W unit :=
  _ ← port_MarkFailed (ij_JobID job) (ij_CurrentAttempt job);
  _ ← port_TransitionStatus (ij_JobID job) "failed";
  _ ← port_DeleteCoalescing userID hashRequest;
  mret tt.

(** Lines 124-162: the deadline check and the enqueue. *)
Definition submit_enqueue (job : InferenceJob) (userID : string) (hashRequest : Z)
  : M W submit_result :=
  dl ← ctx_TimeLeft;
  if match dl with Some remaining => (remaining <? 8 * second)%Z | None => false end then
    _ ← compensate_job job userID hashRequest;
    mret (submit_error (Some (errors_New "request deadline too short to enqueue job"))
            ErrCodeCheckIdempotencyFailed)
  else
    r ← port_TryEnqueue job;
    match r with
    | Err err =>
        _ ← when (errors_Is (Some err) ErrQueueFull) (compensate_job job userID hashRequest);
        mret (submit_error (Some err) ErrCodeEnqueueFailed)
    | Ok _ =>
        _ ← match metrics with Some m => m | None => skip end;
        mret (ij_JobID job, None)
    end.

(** Lines 91-122: admission, job creation and its binding to the idempotency
    key.  The inner [err :=] of the two error paths shadows the error that
    led there. *)
Definition submit_admitted (task : InferenceRequest) (userID idempotencyHeader : string)
    (hashRequest : Z) : M W submit_result :=
  a ← port_Admit task;
  match a with
  | Err admitErr =>
      err ← cleanupClaims userID idempotencyHeader hashRequest;
      mret match err with
           | Some _ => ("", err)
           | None => submit_error (Some admitErr) ErrCodeAdmissionFailed
           end
  | Ok admittedReq =>
      j ← port_Create admittedReq;
      match j with
      | Err _ =>
          err ← cleanupClaims userID idempotencyHeader hashRequest;
          mret match err with
               | Some _ => ("", err)
               | None => submit_error err ErrCodeJobCreationFailed
               end
      | Ok job =>
          e ← port_SetJobID userID idempotencyHeader (ij_JobID job);
          match e with
          | Some _ =>
              _ ← port_MarkFailed (ij_JobID job) (ij_CurrentAttempt job);
              err ← cleanupClaims userID idempotencyHeader hashRequest;
              mret match err with
                   | Some _ => ("", err)
                   | None => submit_error err ErrCodeCheckIdempotencyFailed
                   end
          | None => submit_enqueue job userID hashRequest
          end
      end
  end.

(** Lines 81-89: coalescing. *)
Definition submit_coalesce (task : InferenceRequest) (userID idempotencyHeader : string)
  : M W submit_result :=
  let hashRequest := port_HashRequest (GenerateKey task) in
  c ← port_TryCoalesce userID hashRequest (CoalescingTTL config);
  match c with
  | Err e => mret (submit_error (Some e) ErrCodeTryCoalescingFailed)
  | Ok d =>
      match cd_Action d with
      | REJECTED | UNKNOWN => mret (submit_error (cd_Error d) ErrCodeCoalescingRejected)
      | PROCEED => submit_admitted task userID idempotencyHeader hashRequest
      end
  end.

Definition Submit (inferenceInput : InferenceInput) (userID idempotencyHeader : string)
  : M W submit_result :=
  match ValidateInferenceInput inferenceInput with
  | Err valErr => mret (submit_error (Some valErr) ErrCodeRequestValidation)
  | Ok v =>
      let validatedTask := MkInferenceRequest userID (ir_Prompt v) (ir_Model v)
                             (ir_MaxOutputTokens v) in
      i ← port_ClaimOrGet userID idempotencyHeader (IdempotencyTTL config);
      match i with
      | Err e => mret (submit_error (Some e) ErrCodeCheckIdempotencyFailed)
      | Ok r =>
          match id_Action r with
          | ActionNew => submit_coalesce validatedTask userID idempotencyHeader
          | ActionDuplicateInFlight =>
              mret (submit_error (id_Err r) ErrCodeIdempotencyConflict)
          | ActionReplay => mret (id_JobID r, None)
          | ActionUnknown => mret (submit_error (id_Err r) ErrCodeIdempotencyUnknown)
          | ActionFailed => mret (submit_error (id_Err r) ErrCodeIdempotencyJobFailed)
          end
      end
  end.
End usecase.

(** ** adapters *)

(** The public services the adapters call. *)
Class Admitter (W : Type) := {
  svc_Admit : Admission.AdmitInput -> M W (Admission.AdmitOutput * option goerr) }.
Class PublicJobService (W : Type) := {
  svc_Create : Job.CreateJobRequest -> M W (res goerr string);
  svc_MarkFailed : string -> Z -> M W (option goerr) }.
Class PublicQueueService (W : Type) := {
  svc_Enqueue : Scheduler.PublicQueueEntry -> M W (Scheduler.EnqueueResult * option goerr) }.

Section adapters.
Context {W : Type}.

Definition RequestAdmitterAdapter_Admit `{!Admitter W} (task : InferenceRequest)
  : M W (res goerr InferenceRequest) :=
  r ← svc_Admit (Admission.MkAdmitInput (ir_UserID task) (ir_Prompt task) (ir_Model task));
  mret match r with
       | (_, Some err) => Err err
       | (out, None) =>
           Ok (MkInferenceRequest (ir_UserID task) (ir_Prompt task) (ir_Model task)
                 (Admission.ao_MaxOutputTokens out))
       end.

Definition JobCreatorAdapter_Create `{!PublicJobService W} (task : InferenceRequest)
  : M W (res goerr InferenceJob) :=
  r ← svc_Create (Job.MkCreateJobRequest (ir_UserID task) (ir_Prompt task) (ir_Model task)
                    (ir_MaxOutputTokens task));
  mret match r with
       | Err err => Err err
       | Ok jobID => Ok (MkInferenceJob jobID (ir_UserID task) 0)
       end.

Definition JobCreatorAdapter_MarkFailed `{!PublicJobService W} (jobID : string) (retryCount : Z)
  : M W (option goerr) := svc_MarkFailed jobID retryCount.

Definition JobEnqueuerAdapter_TryEnqueue `{!PublicQueueService W} (job : InferenceJob)
  : M W (res goerr bool) :=
  r ← svc_Enqueue (Scheduler.MkPublicQueueEntry (ij_JobID job) (ij_UserID job)
                     (ij_CurrentAttempt job));
  mret match r with
       | (_, Some err) =>
           if IsCode (Some err) Scheduler.ErrCodeQueueFull then Err ErrQueueFull else Err err
       | (enqueueResult, None) => Ok (Scheduler.BecameActive enqueueResult)
       end.

(** The metrics recorder may be [nil]. *)
Definition MetricsAdapter_JobAccepted (recorder : option (M W unit)) : M W unit :=
  match recorder with Some m => m | None => skip end.

#[global] Instance adapted_RequestAdmitter `{!Admitter W} : RequestAdmitter W := {|
  port_Admit := RequestAdmitterAdapter_Admit |}.
#[global] Instance adapted_JobService `{!PublicJobService W} : JobService W := {|
  port_Create := JobCreatorAdapter_Create;
  port_MarkFailed := JobCreatorAdapter_MarkFailed |}.
#[global] Instance adapted_Enqueuer `{!PublicQueueService W} : Enqueuer W := {|
  port_TryEnqueue := JobEnqueuerAdapter_TryEnqueue |}.

(** The Redis stores behind the idempotency and coalescing ports. *)
Definition redis_IdempotencyStore `{!RedisClient W, !GoFmt, !GoClock W}
    (config : InferenceConfig) : IdempotencyStore W := {|
  port_ClaimOrGet := ClaimOrGet;
  port_SetJobID := SetJobID;
  port_Delete := Idempotency_Delete;
  port_TransitionStatus := TransitionStatus config |}.
Definition redis_Coalescer `{!RedisClient W, !GoFmt, !GoClock W} : Coalescer W := {|
  port_TryCoalesce := TryCoalesce;
  port_DeleteCoalescing := Coalescing_Delete |}.
#[global] Instance fnv_Hasher : Hasher := {| port_HashRequest := HashRequest |}.
End adapters.

(** ** module.go *)

Definition NewInferenceModule (redisClient tokens admission jobs queue logger : bool)
    (cfg : InferenceConfig) : option goerr :=
  if negb redisClient then
    Some (errors_New "inference dependencies: redis client must not be nil")
  else if negb tokens then
    Some (errors_New "inference dependencies: token validation service must not be nil")
  else if negb admission then
    Some (errors_New "inference dependencies: admission service must not be nil")
  else if negb jobs then
    Some (errors_New "inference dependencies: job service must not be nil")
  else if negb queue then
    Some (errors_New "inference dependencies: queue service must not be nil")
  else if (CoalescingTTL cfg <=? 0)%Z then
    Some (errors_New "inference configuration: coalescing TTL must be positive")
  else if (IdempotencyTTL cfg <=? 0)%Z then
    Some (errors_New "inference configuration: idempotency TTL must be positive")
  else if (CompletedIdempotencyTTL cfg <=? 0)%Z then
    Some (errors_New "inference configuration: completed idempotency TTL must be positive")
  else if negb logger then Some (errors_New "inference logger must not be nil")
  else None.
