(* ===== verification/InferenceThms.v ===== *)
(** * Theorems about submitting inference requests *)

From S2P Require Import Prelude GoErr Redis Env Idempotency IdempotencyThms Inference.
From stdpp Require Import base gmap sets list strings pretty.
From Stdlib Require Import ZArith Lia.

(** ** What the stores promise to the use case *)

(** An answer that stops the request carries an error. *)
Class IdempotencyContract (W : Type) `{!IdempotencyStore W} : Prop := {
  claim_error : forall u h ttl (w : W) r,
    (port_ClaimOrGet u h ttl w).1 = Ok r ->
    id_Action r <> ActionNew -> id_Action r <> ActionReplay -> id_Err r <> None }.

Class CoalescerContract (W : Type) `{!Coalescer W} : Prop := {
  coalesce_error : forall u hash ttl (w : W) d,
    (port_TryCoalesce u hash ttl w).1 = Ok d -> cd_Action d <> PROCEED -> cd_Error d <> None }.

(** The Redis stores keep the promises, whatever the connection does. *)
Section contracts.
Context {W : Type} `{!RedisClient W, !GoFmt, !GoClock W}.

Lemma decode_idempotency_error ttl raw r :
  decode_idempotency ttl raw = Ok r ->
  id_Action r <> ActionNew -> id_Action r <> ActionReplay -> id_Err r <> None.
Proof.
  unfold decode_idempotency. intros Hd.
  destruct raw as [| | |[|a0 [|a1 [|a2 [|a3 [|]]]]]]; try done.
  destruct (parse_rfc3339 _); [|done].
  destruct (idempotency_action (toString a0)) as [[act err]|] eqn:Ea; [|done].
  injection Hd as <-. cbn. revert Ea. unfold idempotency_action.
  repeat case_match; intros [= <- <-]; done.
Qed.

#[export] Instance redis_idempotency_contract (config : InferenceConfig) :
  @IdempotencyContract W (redis_IdempotencyStore config).
Proof.
  split. intros u h ttl w r. cbn [port_ClaimOrGet redis_IdempotencyStore]. unfold ClaimOrGet.
  rewrite !bind_unfold, ret_unfold. cbn [fst].
  destruct (rc_Result _ _).1; [apply decode_idempotency_error|done].
Qed.

#[export] Instance redis_coalescer_contract : @CoalescerContract W redis_Coalescer.
Proof.
  split. intros u hash ttl w d. cbn [port_TryCoalesce redis_Coalescer]. unfold TryCoalesce.
  rewrite !bind_unfold, ret_unfold. cbn [fst]. destruct (rc_Result _ _).1 as [[| |s|]|]; try done.
  repeat case_match; intros [= <-]; done.
Qed.
End contracts.

(** ** Against any implementation of the ports *)

Section submit.
Context {W : Type} `{!RequestAdmitter W, !IdempotencyStore W, !Hasher, !Coalescer W,
  !JobService W, !Enqueuer W, !GoDeadline W}.
Context `{!IdempotencyContract W, !CoalescerContract W}.
Context (config : InferenceConfig) (metrics : option (M W unit)).
Implicit Types w : W.

(** An error that is not nil stays an error. *)
Lemma submit_error_some e code : (submit_error (Some e) code).2 <> None.
Proof.
  unfold submit_error. cbn [snd]. destruct (EnsureAppError_some e code ErrTypeInference)
    as (e' & -> & _). done.
Qed.

Lemma submit_error_none e code id : submit_error (Some e) code = (id, None) -> False.
Proof. intros E. apply (submit_error_some e code). by rewrite E. Qed.

(** The request gets as far as [req], the answer of admission, in [w3]: its
    input is valid, its key is new, no equal request is being processed. *)
Definition admitted inp u h w (hash : Z) (req : InferenceRequest) w3 : Prop :=
  exists v r w1 d w2,
    let task := MkInferenceRequest u (ir_Prompt v) (ir_Model v) (ir_MaxOutputTokens v) in
    ValidateInferenceInput inp = Ok v
    /\ port_ClaimOrGet u h (IdempotencyTTL config) w = (Ok r, w1) /\ id_Action r = ActionNew
    /\ hash = port_HashRequest (GenerateKey task)
    /\ port_TryCoalesce u hash (CoalescingTTL config) w1 = (Ok d, w2) /\ cd_Action d = PROCEED
    /\ port_Admit task w2 = (Ok req, w3).

Definition time_to_enqueue (left : option Z) : bool :=
  match left with Some remaining => (8 * second <=? remaining)%Z | None => true end.

(** The ways to an answer without an error, step by step. *)
Inductive submitted inp u h w : string -> Prop :=
| submitted_replay v r w1 :
    ValidateInferenceInput inp = Ok v ->
    port_ClaimOrGet u h (IdempotencyTTL config) w = (Ok r, w1) -> id_Action r = ActionReplay ->
    submitted inp u h w (id_JobID r)
| submitted_queued hash req w3 job w4 w5 left w6 b w7 :
    admitted inp u h w hash req w3 -> port_Create req w3 = (Ok job, w4) ->
    port_SetJobID u h (ij_JobID job) w4 = (None, w5) ->
    ctx_TimeLeft w5 = (left, w6) -> time_to_enqueue left = true ->
    port_TryEnqueue job w6 = (Ok b, w7) ->
    submitted inp u h w (ij_JobID job)
| submitted_not_created hash req w3 e w4 :
    admitted inp u h w hash req w3 -> port_Create req w3 = (Err e, w4) ->
    (cleanupClaims u h hash w4).1 = None ->
    submitted inp u h w ""
| submitted_not_bound hash req w3 job w4 e w5 :
    admitted inp u h w hash req w3 -> port_Create req w3 = (Ok job, w4) ->
    port_SetJobID u h (ij_JobID job) w4 = (Some e, w5) ->
    (cleanupClaims u h hash (port_MarkFailed (ij_JobID job) (ij_CurrentAttempt job) w5).2).1 = None ->
    submitted inp u h w "".

Lemma cleanup_error err code (e : goerr) id :
  match err with
  | Some _ => ("", err)
  | None => submit_error (Some e) code
  end = (id, None) -> False.
Proof. destruct err; [done|]. apply submit_error_none. Qed.

Lemma cleanup_lost err code id :
  match err with
  | Some _ => ("", err)
  | None => submit_error err code
  end = (id, None) <-> err = None /\ id = "".
Proof. destruct err; [by split; [|intros [? _]]|]. split; [by intros [= <-]|by intros [_ ->]]. Qed.

Lemma submit_enqueue_success job u hash w id :
  (submit_enqueue metrics job u hash w).1 = (id, None) <->
  exists left w6 b w7, ctx_TimeLeft w = (left, w6) /\ time_to_enqueue left = true
    /\ port_TryEnqueue job w6 = (Ok b, w7) /\ id = ij_JobID job.
Proof.
  unfold submit_enqueue. rewrite bind_unfold.
  destruct (ctx_TimeLeft w) as [left w6]. cbn [fst snd].
  replace (match left with Some remaining => (remaining <? 8 * second)%Z | None => false end)
    with (negb (time_to_enqueue left)) by (destruct left; cbn; lia).
  destruct (time_to_enqueue left) eqn:El; cbn [negb].
  2:{ rewrite bind_unfold, ret_unfold. split; [by intros E%submit_error_none|].
      intros (l & ? & ? & ? & [= <- _] & Ht & _). congruence. }
  rewrite bind_unfold. destruct (port_TryEnqueue job w6) as [[b|e] w7] eqn:Eq; cbn [fst snd];
    rewrite bind_unfold, ret_unfold; cbn [fst].
  - split; [intros [= <-]; by exists left, w6, b, w7|].
    by intros (? & ? & ? & ? & _ & _ & _ & ->).
  - split; [by intros E%submit_error_none|].
    intros (? & ? & b & ? & [= _ <-] & _ & Hb & _). congruence.
Qed.

(** What follows the admission. *)
Lemma submit_admitted_success inp task u h hash w w2 id :
  (forall req w3, port_Admit task w2 = (Ok req, w3) <-> admitted inp u h w hash req w3) ->
  (submit_admitted metrics task u h hash w2).1 = (id, None) -> submitted inp u h w id.
Proof.
  intros Hadm. unfold submit_admitted. rewrite bind_unfold.
  destruct (port_Admit task w2) as [[req|e] w3]; cbn [fst snd].
  2:{ rewrite bind_unfold, ret_unfold. intros E. by apply cleanup_error in E. }
  pose proof (proj1 (Hadm req w3) eq_refl) as Ha.
  rewrite bind_unfold. destruct (port_Create req w3) as [[job|e] w4] eqn:Ec; cbn [fst snd].
  2:{ rewrite bind_unfold, ret_unfold. intros E. apply cleanup_lost in E as [Ecl ->].
      by eapply submitted_not_created. }
  rewrite bind_unfold.
  destruct (port_SetJobID u h (ij_JobID job) w4) as [[e|] w5] eqn:Es; cbn [fst snd].
  { rewrite !bind_unfold, ret_unfold. intros E. apply cleanup_lost in E as [Ecl ->].
    by eapply submitted_not_bound. }
  intros (left & w6 & b & w7 & Hl & Ht & Hb & ->)%submit_enqueue_success.
  by eapply submitted_queued.
Qed.

(** An admitted request reaches the steps after the admission. *)
Lemma submit_reaches inp u h w hash req w3 :
  admitted inp u h w hash req w3 ->
  exists task w2, port_Admit task w2 = (Ok req, w3)
    /\ Submit config metrics inp u h w = submit_admitted metrics task u h hash w2.
Proof.
  intros (v & r & w1 & d & w2 & Hv & Hi & Ha & -> & Hc & Hd & Hadm).
  eexists _, w2. split; [exact Hadm|]. unfold Submit. rewrite Hv, bind_unfold, Hi. cbn [fst snd].
  rewrite Ha. unfold submit_coalesce. rewrite bind_unfold, Hc. cbn [fst snd]. by rewrite Hd.
Qed.

Lemma submitted_success inp u h w id :
  submitted inp u h w id -> (Submit config metrics inp u h w).1 = (id, None).
Proof.
  intros [v r w1 Hv Hi Ha|hash req w3 job w4 w5 left w6 b w7 Hadm Hcr Hs Hl Ht Hq
         |hash req w3 e w4 Hadm Hcr Hcl|hash req w3 job w4 e w5 Hadm Hcr Hs Hcl].
  - unfold Submit. rewrite Hv, bind_unfold, Hi. cbn [fst snd]. by rewrite Ha.
  - destruct (submit_reaches _ _ _ _ _ _ _ Hadm) as (task & w2 & E & ->). unfold submit_admitted.
    rewrite bind_unfold, E. cbn [fst snd]. rewrite bind_unfold, Hcr. cbn [fst snd].
    rewrite bind_unfold, Hs. cbn [fst snd]. apply submit_enqueue_success. eauto 10.
  - destruct (submit_reaches _ _ _ _ _ _ _ Hadm) as (task & w2 & E & ->). unfold submit_admitted.
    rewrite bind_unfold, E. cbn [fst snd]. rewrite bind_unfold, Hcr. cbn [fst snd].
    rewrite bind_unfold, ret_unfold. cbn [fst]. by apply cleanup_lost.
  - destruct (submit_reaches _ _ _ _ _ _ _ Hadm) as (task & w2 & E & ->). unfold submit_admitted.
    rewrite bind_unfold, E. cbn [fst snd]. rewrite bind_unfold, Hcr. cbn [fst snd].
    rewrite bind_unfold, Hs. cbn [fst snd]. rewrite !bind_unfold, ret_unfold. cbn [fst].
    by apply cleanup_lost.
Qed.

(** C11: what a successful submission means.  [Submit] returns an id without
    an error exactly when one of four courses is taken, each call in the state
    that the one before left.  The input is valid and the idempotency key was
    answered REPLAY: the id is that of the recorded job.  Or the input is
    valid, the key new, no equal request is being processed, and admission
    answers the request made of the user and the input with the request to
    run; a job is created for that request, it is bound to the key of the user,
    there are eight seconds left to the deadline, if there is one, and the
    queue accepts the job: the id is the job's.  Or - the shadowed errors of
    the two compensation paths - its creation or its binding failed and the
    two claims were released without an error: the id is empty. *)
Theorem submit_success inp u h w id :
  (Submit config metrics inp u h w).1 = (id, None) <-> submitted inp u h w id.
Proof.
  split; [|apply submitted_success].
  unfold Submit. destruct (ValidateInferenceInput inp) as [v|e] eqn:Ev.
  2:{ rewrite ret_unfold. intros E. by apply submit_error_none in E. }
  rewrite bind_unfold.
  destruct (port_ClaimOrGet u h (IdempotencyTTL config) w) as [[r|e] w1] eqn:Ei; cbn [fst snd].
  2:{ rewrite ret_unfold. intros E. by apply submit_error_none in E. }
  pose proof (claim_error u h (IdempotencyTTL config) w r) as Herr. rewrite Ei in Herr.
  specialize (Herr eq_refl). destruct (id_Action r) eqn:Ea;
    try (rewrite ret_unfold; specialize (Herr ltac:(done) ltac:(done));
         destruct (id_Err r); [intros E; by apply submit_error_none in E|done]).
  2:{ rewrite ret_unfold. intros [= <-]. by eapply submitted_replay. }
  unfold submit_coalesce. rewrite bind_unfold. set (hash := port_HashRequest _).
  destruct (port_TryCoalesce u hash (CoalescingTTL config) w1) as [[d|e] w2] eqn:Ec;
    cbn [fst snd].
  2:{ rewrite ret_unfold. intros E. by apply submit_error_none in E. }
  pose proof (coalesce_error u hash (CoalescingTTL config) w1 d) as Hd. rewrite Ec in Hd.
  specialize (Hd eq_refl).
  destruct (cd_Action d) eqn:Ed; [|rewrite ret_unfold; destruct (cd_Error d);
    [intros E; by apply submit_error_none in E|by destruct Hd]..].
  apply submit_admitted_success. intros req w3. split.
  - intros Hadm. by exists v, r, w1, d, w2.
  - intros (v' & r' & w1' & d' & w2' & Hv & Hi & _ & Hh & Hco & _ & Hadm).
    rewrite Ev in Hv. injection Hv as <-. rewrite Ei in Hi. injection Hi as <- <-.
    rewrite Ec in Hco. injection Hco as <- <-. exact Hadm.
Qed.

End submit.

(** ** On Redis *)

Section on_redis.
Context {R : Type} `{!Redis R, !RedisDoc R, !GoFmt, !GoClock R}.
Context (Hclock : forall r : R, redis_view (time_Now r).2 = redis_view r).
Context `{!RequestAdmitter R, !JobService R, !Enqueuer R, !GoDeadline R}.
Context (config : InferenceConfig) (metrics : option (M R unit)).
Implicit Types r : R.

#[local] Instance store : IdempotencyStore R := redis_IdempotencyStore config.
#[local] Instance coalescer : Coalescer R := redis_Coalescer.

Lemma cleanup_direct u h hash r :
  (cleanupClaims u h hash r).1 = None
  /\ redis_view (cleanupClaims u h hash r).2 =
       del_key (buildIdempotencyKey u h) (del_key (buildCoalescingKey u hash) (redis_view r)).
Proof.
  unfold cleanupClaims. cbn [port_DeleteCoalescing port_Delete store coalescer
    redis_IdempotencyStore redis_Coalescer]. unfold Coalescing_Delete, Idempotency_Delete.
  rewrite !bind_unfold, !ret_unfold. cbn [fst snd]. rewrite !del_run.
  split; [|done]. rewrite !(proj1 (rc_cmd_direct _ _)). done.
Qed.

(** C37: a rejected request leaves nothing behind.  When admission rejects a
    request that had claimed its idempotency key and opened its coalescing
    window, [Submit] answers the rejection, and both keys are free again, so
    the client may retry with the same key. *)
Theorem rejected_admission_releases inp u h r v e :
  ValidateInferenceInput inp = Ok v ->
  let task := MkInferenceRequest u (ir_Prompt v) (ir_Model v) (ir_MaxOutputTokens v) in
  let hash := HashRequest (GenerateKey task) in
  let r1 := (ClaimOrGet u h (IdempotencyTTL config) r).2 in
  let r2 := (TryCoalesce u hash (CoalescingTTL config) r1).2 in
  let r' := (Submit config metrics inp u h r).2 in
  let secs := ((time_Now r).1 / second)%Z in
  (second <= IdempotencyTTL config)%Z -> (second <= CoalescingTTL config)%Z ->
  claim_wf (redis_view r) (buildIdempotencyKey u h) ->
  claim_of (redis_view r) (buildIdempotencyKey u h) = Unclaimed ->
  key_exists (redis_view r1) (buildCoalescingKey u hash) = false ->
  parse_rfc3339 (format_rfc3339 secs) = Some secs ->
  (port_Admit task r2).1 = Err e ->
  (Submit config metrics inp u h r).1 = ("", EnsureAppError (Some e) ErrCodeAdmissionFailed
                                              ErrTypeInference)
  /\ key_exists (redis_view r') (buildIdempotencyKey u h) = false
  /\ key_exists (redis_view r') (buildCoalescingKey u hash) = false.
Proof.
  intros Hv task hash r1 r2 r' secs Hit Hct Hwf Hc Hk Hfmt Hadm.
  destruct (claim_new_run Hclock u h (IdempotencyTTL config) r Hwf Hit Hc) as (_ & _ & _ & Hi).
  specialize (Hi secs Hfmt).
  destruct (coalesce_free Hclock u hash (CoalescingTTL config) r1 Hct Hk) as [Hco _].
  assert (Hsub : Submit config metrics inp u h r =
    (("", EnsureAppError (Some e) ErrCodeAdmissionFailed ErrTypeInference),
     (cleanupClaims u h hash (port_Admit task r2).2).2)).
  { unfold Submit. rewrite Hv, bind_unfold.
    cbn [port_ClaimOrGet store redis_IdempotencyStore]. rewrite Hi. fold r1. cbn [id_Action].
    unfold submit_coalesce. cbn [port_HashRequest fnv_Hasher]. fold task hash.
    rewrite bind_unfold. cbn [port_TryCoalesce coalescer redis_Coalescer].
    rewrite Hco. fold r2. cbn [cd_Action].
    unfold submit_admitted. rewrite bind_unfold, Hadm, bind_unfold, ret_unfold.
    by rewrite (proj1 (cleanup_direct u h hash _)). }
  subst r'. rewrite Hsub. split; [done|]. cbn [snd].
  rewrite (proj2 (cleanup_direct u h hash _)). rewrite !key_exists_false.
  unfold slot, del_key. cbn [r_zsets r_lists r_sets r_hashes r_strs r_streams].
  assert (Hne : buildIdempotencyKey u h <> buildCoalescingKey u hash) by discriminate.
  split; [by rewrite !lookup_delete_eq|].
  by rewrite !(lookup_delete_ne _ (buildIdempotencyKey u h)), !lookup_delete_eq by exact Hne.
Qed.

(** A coalesced request keeps its idempotency key.  When a request with
    a fresh idempotency key is rejected because an identical one is being
    processed, its record is not released: a retry with the same key, however
    long after the coalescing window, is answered with the conflict error
    until the time to live of the claim is over. *)
Theorem coalesced_claim_stays inp u h r v dt :
  ValidateInferenceInput inp = Ok v ->
  let task := MkInferenceRequest u (ir_Prompt v) (ir_Model v) (ir_MaxOutputTokens v) in
  let k := buildIdempotencyKey u h in
  let r1 := (ClaimOrGet u h (IdempotencyTTL config) r).2 in
  let r' := (Submit config metrics inp u h r).2 in
  let secs := ((time_Now r).1 / second)%Z in
  (second <= IdempotencyTTL config)%Z -> (second <= CoalescingTTL config)%Z ->
  claim_wf (redis_view r) k -> claim_of (redis_view r) k = Unclaimed ->
  key_exists (redis_view r1) (buildCoalescingKey u (HashRequest (GenerateKey task))) = true ->
  parse_rfc3339 (format_rfc3339 secs) = Some secs ->
  (0 <= dt < duration_seconds (IdempotencyTTL config) * 10 ^ 6)%Z ->
  (Submit config metrics inp u h r).1
    = submit_error (Some (errors_New "coalescing rejected: REJECTED")) ErrCodeCoalescingRejected
  /\ (Submit config metrics inp u h (redis_wait dt r')).1
    = submit_error (Some (errors_New "duplicated idempotency key")) ErrCodeIdempotencyConflict.
Proof.
  intros Hv task k r1 r' secs Hit Hct Hwf Hc Hk Hfmt Hdt.
  destruct (claim_new_run Hclock u h (IdempotencyTTL config) r Hwf Hit Hc) as (Hh & Hc1 & Hn & Hi).
  specialize (Hi secs Hfmt). fold k secs r1 in Hh, Hc1, Hn.
  set (hash := HashRequest (GenerateKey task)) in Hk.
  pose proof (coalesce_taken Hclock u hash (CoalescingTTL config) r1 Hct Hk) as Hco.
  assert (Hsub : Submit config metrics inp u h r =
    (submit_error (Some (errors_New "coalescing rejected: REJECTED")) ErrCodeCoalescingRejected,
     (TryCoalesce u hash (CoalescingTTL config) r1).2)).
  { unfold Submit. rewrite Hv, bind_unfold.
    cbn [port_ClaimOrGet store redis_IdempotencyStore]. rewrite Hi. fold r1. cbn [id_Action].
    unfold submit_coalesce. cbn [port_HashRequest fnv_Hasher]. fold task hash.
    rewrite bind_unfold. cbn [port_TryCoalesce coalescer redis_Coalescer]. by rewrite Hco. }
  subst r'. rewrite Hsub. split; [done|]. cbn [snd].
  set (r2 := (TryCoalesce u hash (CoalescingTTL config) r1).2).
  assert (Hs2 : slot (redis_view r2) k = slot (redis_view r1) k
    /\ r_now (redis_view r2) = r_now (redis_view r1)).
  { destruct (TryCoalesce_run Hclock u hash (CoalescingTTL config) r1) as [_ Hx].
    fold r2 in Hx. rewrite Hx. apply coalesce_frame. discriminate. }
  destruct Hs2 as [Hs2 Hn2].
  apply (slot_held _ (redis_view r2)) in Hh; [|done].
  rewrite <- (slot_claim _ _ _ Hs2) in Hc1.
  destruct (held_wait k _ (redis_view r2) dt Hh) as [Hh3 Hc3]; [cbn; lia|].
  rewrite <- redis_wait_doc in Hh3, Hc3. rewrite Hc1 in Hc3.
  destruct (claim_held_run Hclock u h (IdempotencyTTL config) _ _ Hh3) as [_ [now Hcl]].
  fold k in Hcl. rewrite Hc3, (decode_claimed _ _ _ _ _ secs Hfmt) in Hcl.
  unfold Submit. rewrite Hv, bind_unfold.
  cbn [port_ClaimOrGet store redis_IdempotencyStore]. by rewrite Hcl.
Qed.
End on_redis.

(** ** Witnesses *)

Module InferenceDemo.
#[local] Existing Instances IdempotencyDemo.clock IdempotencyDemo.fmt.
#[export] Instance admitter : RequestAdmitter rdata := {|
  port_Admit := fun t => mret (if String.eqb (ir_Model t) "forbidden"
                               then Err (errors_New "model not allowed") else Ok t) |}.
#[export] Instance jobs : JobService rdata := {|
  port_Create := fun t => mret (if String.eqb (ir_Model t) "broken"
                                then Err (errors_New "database is down")
                                else Ok (MkInferenceJob "j1" (ir_UserID t) 0));
  port_MarkFailed := fun _ _ => mret None |}.
#[export] Instance queue : Enqueuer rdata := {| port_TryEnqueue := fun _ => mret (Ok true) |}.
#[export] Instance deadline : GoDeadline rdata := {| ctx_TimeLeft := mret None |}.

Definition config : InferenceConfig := IdempotencyDemo.config.
#[export] Instance store : IdempotencyStore rdata := redis_IdempotencyStore config.
#[export] Instance coalescer : Coalescer rdata := redis_Coalescer.
#[export] Instance store_contract : IdempotencyContract rdata := redis_idempotency_contract config.
#[export] Instance coalescer_contract : CoalescerContract rdata := redis_coalescer_contract.

Definition hash (model : string) : Z :=
  HashRequest (GenerateKey (MkInferenceRequest "u" "hello" model 0)).
(** A Redis where an identical request of the user is being processed. *)
Definition busy : rdata := (TryCoalesce "u" (hash "m") (30 * second) rdata_empty).2.
End InferenceDemo.

#[local] Existing Instances IdempotencyDemo.clock IdempotencyDemo.fmt InferenceDemo.admitter
  InferenceDemo.jobs InferenceDemo.queue InferenceDemo.deadline InferenceDemo.store
  InferenceDemo.coalescer InferenceDemo.store_contract InferenceDemo.coalescer_contract.

(** A request that is queued, and one whose job cannot be created. *)
Lemma submit_success_witness :
  submitted InferenceDemo.config (MkInferenceInput "hello" "m") "u" "h" rdata_empty "j1"
  /\ submitted InferenceDemo.config (MkInferenceInput "hello" "broken") "u" "h" rdata_empty "".
Proof.
  split; apply (submit_success InferenceDemo.config None); vm_compute; reflexivity.
Defined.


Lemma rejected_admission_releases_witness :
  key_exists (redis_view (Submit (IdempotencyStore0 := redis_IdempotencyStore InferenceDemo.config)
    (Coalescer0 := redis_Coalescer) InferenceDemo.config None
    (MkInferenceInput "hello" "forbidden") "u" "h" rdata_empty).2)
    (buildIdempotencyKey "u" "h") = false.
Proof.
  refine (proj1 (proj2 (rejected_admission_releases clock_pure InferenceDemo.config None
    (MkInferenceInput "hello" "forbidden") "u" "h" rdata_empty
    (MkInferenceRequest "" "hello" "forbidden" 0) (errors_New "model not allowed")
    eq_refl _ _ _ _ _ _ _))); try discriminate; vm_compute; reflexivity.
Defined.

Lemma coalesced_claim_stays_witness :
  (Submit InferenceDemo.config None (MkInferenceInput "hello" "m") "u" "h"
     (redis_wait (50 * 10 ^ 6)
        (Submit InferenceDemo.config None (MkInferenceInput "hello" "m") "u" "h"
           InferenceDemo.busy).2)).1
  = submit_error (Some (errors_New "duplicated idempotency key")) ErrCodeIdempotencyConflict.
Proof.
  refine (proj2 (coalesced_claim_stays clock_pure InferenceDemo.config None
    (MkInferenceInput "hello" "m") "u" "h" InferenceDemo.busy
    (MkInferenceRequest "" "hello" "m" 0) (50 * 10 ^ 6) _ _ _ _ _ _ _ _));
    first [discriminate | vm_compute; reflexivity | split; [discriminate | reflexivity]].
Defined.
