(* ===== verification/Worker.v ===== *)
(** * The worker pool (internal/worker)

    [processJob] runs two threads: the job itself and the heartbeat that
    renews its lease.  They share the job's context, which the heartbeat
    cancels when the lease is lost.  The state they share is a [jobscope];
    the interleaving is explicit: a schedule, chosen by the environment, says
    how many ticks of the heartbeat happen before each operation of the job. *)

From S2P Require Import Prelude GoErr Redis Env.
From S2P Require Retry Scheduler Job.
From stdpp Require Import base gmap sets list strings pretty.
From Stdlib Require Import ZArith Lia.

(** ** domain *)

Record JobClaimResult := MkJobClaimResult { jc_JobID : string; jc_UserID : string }.

Record JobPayload := MkJobPayload {
  wp_JobID : string; wp_UserID : string; wp_Prompt : string; wp_Model : string;
  wp_MaxOutputTokens : Z }.

(** The temperature is a [float32] that is only passed on. *)
Record GenerationInput := MkGenerationInput {
  gi_Model : string; gi_Prompt : string; gi_MaxTokens : Z; gi_Temperature : string }.

Record StreamChunk := MkStreamChunk { sc_Text : string }.

Record InferenceRetryPolicy := MkInferenceRetryPolicy {
  irp_MaxAttempts : Z; irp_BaseDelay : Z; irp_MaxDelay : Z }.

Definition ErrNoJobAvailable : goerr :=
  Leaf (Sentinel "worker.ErrNoJobAvailable") "no job available in the queue".
Definition ErrInferenceFailed : goerr :=
  Leaf (Sentinel "worker.ErrInferenceFailed") "inference generation failed".
Definition ErrTransientInference : goerr :=
  Leaf (Sentinel "worker.ErrTransientInference") "transient inference failure".
Definition ErrLeaseExtendFailed : goerr :=
  Leaf (Sentinel "worker.ErrLeaseExtendFailed") "processing lease lost".

Class JobClaimer (W : Type) := {
  wk_ClaimNextJob : Z -> M W (res goerr (option JobClaimResult)) }.

Class JobRepository (W : Type) := {
  wj_Payload : JobClaimResult -> M W (res goerr JobPayload);
  wj_GetRetryPolicy : string -> M W (res goerr InferenceRetryPolicy);
  wj_MarkCompleted : string -> Z -> M W (option goerr);
  wj_MarkFailed : string -> Z -> M W (option goerr) }.

(** A streamed generation, seen from the caller: the chunks it delivers, each
    answered by the callback, and how it ends. *)
Inductive generation : Type :=
| GenEnd (err : option goerr)
| GenChunk (c : StreamChunk) (k : option goerr -> generation).

Class InferenceEngine (W : Type) := { we_GenerateStream : GenerationInput -> M W generation }.

Class StreamPublisher (W : Type) := {
  ws_Publish : string -> StreamChunk -> M W (option goerr);
  ws_PublishEvent : string -> string -> string -> M W (option goerr);
  ws_Close : string -> M W (option goerr) }.

Class Queue (W : Type) := {
  wq_Release : string -> M W (option goerr);
  wq_ExtendLease : string -> M W (option goerr);
  wq_MarkCompleted : string -> M W (option goerr) }.

Class IdempotencyStatusUpdater (W : Type) := {
  wi_TransitionStatus : string -> string -> string -> M W (option goerr) }.

Inductive worker_metric : Type :=
| JobStarted | JobEnded | JobCompleted | JobFailed | JobRetriedModelFailure
| JobRetriedLeaseExpired
| ObserveJobProcessingSuccess (duration : Z)
| ObserveJobProcessingFailure (duration : Z).

Class WorkerMetrics (W : Type) := { wm_observe : worker_metric -> M W unit }.

(** What a job needs of its surroundings: sleeping, and the schedule of the
    heartbeat's ticks. *)
Class JobEnv (W : Type) := {
  time_Sleep : Z -> M W unit;
  beat_schedule : M W (list nat) }.

(** ** infrastructure/config and the pool *)

Record WorkerConfig := MkWorkerConfig {
  WorkerCounts : Z; PollInterval : Z; LeaseTimeout : Z; Temperature : string;
  DefaultMaxAttempts : Z; DefaultMaxDelay : Z; DefaultBaseDelay : Z;
  MaxRenewalFailures : Z }.

(** [streamPublisher] and [metrics] may be nil. *)
Record workerPool := MkWorkerPool {
  workerCount : Z; pollInterval : Z; leaseTimeout : Z; temperature : string;
  defaultMaxAttempts : Z; defaultMaxDelay : Z; defaultBaseDelay : Z;
  maxRenewalFailures : Z; streamPublisher : bool; pool_metrics : bool }.

(** The struct literal of the constructor does not set [maxRenewalFailures],
    which keeps its zero value. *)
Definition NewWorkerPool (workerCfg : option WorkerConfig) (stream metrics : bool)
  : res goerr workerPool :=
  match workerCfg with
  | None => Err (errors_New "worker pool: configuration must not be nil")
  | Some c =>
      if (WorkerCounts c <=? 0)%Z then
        Err (errors_New ("worker pool: WorkerCounts must be > 0, got "
                           +:+ pretty (WorkerCounts c)))
      else if (PollInterval c <=? 0)%Z then
        Err (errors_New "worker pool: PollInterval must be > 0")
      else if (LeaseTimeout c <=? 0)%Z then
        Err (errors_New "worker pool: LeaseTimeout must be > 0")
      else if (DefaultMaxAttempts c =? 0)%Z then
        Err (errors_New "worker pool: DefaultMaxAttempts must be > 0")
      else if (DefaultBaseDelay c <=? 0)%Z then
        Err (errors_New "worker pool: DefaultBaseDelay must be > 0")
      else if (DefaultMaxDelay c <=? 0)%Z then
        Err (errors_New "worker pool: DefaultMaxDelay must be > 0")
      else if (DefaultMaxDelay c <? DefaultBaseDelay c)%Z then
        Err (errors_New "worker pool: DefaultMaxDelay must be >= DefaultBaseDelay")
      else if (MaxRenewalFailures c <=? 0)%Z then
        Err (errors_New ("worker pool: maxRenewalFailures must be > 0, got "
                           +:+ pretty (MaxRenewalFailures c)))
      else Ok (MkWorkerPool (WorkerCounts c) (PollInterval c) (LeaseTimeout c) (Temperature c)
                 (DefaultMaxAttempts c) (DefaultMaxDelay c) (DefaultBaseDelay c) 0
                 stream metrics)
  end.

(** module.go: the booleans say which dependencies are there. *)
Definition NewWorkerModule (claimer jobs inference stream queue idempotency metrics logger : bool)
    (cfg : WorkerConfig) : res goerr workerPool :=
  let missing what := Err (errors_New ("worker dependencies: " +:+ what +:+ " must not be nil")) in
  if negb claimer then missing "job claimer"
  else if negb jobs then missing "job service"
  else if negb inference then missing "inference service"
  else if negb stream then missing "stream publisher"
  else if negb queue then missing "queue service"
  else if negb idempotency then missing "idempotency updater"
  else if negb logger then Err (errors_New "worker logger must not be nil")
  else NewWorkerPool (Some cfg) stream metrics.

(** ** The scope of a job *)

Inductive heartbeat : Type :=
| Beating (consecutiveFailures : Z)
| Stopped.

(** [sc_cause] is [context.Cause(jobCtx)]: [None] as long as the context is
    not cancelled. *)
Record jobscope (W : Type) := MkScope {
  sc_world : W;
  sc_cause : option goerr;
  sc_beat : heartbeat;
  sc_attempts : Z;
  sc_sched : list nat;
}.
Arguments MkScope {W}.
Arguments sc_world {W}.
Arguments sc_cause {W}.
Arguments sc_beat {W}.
Arguments sc_attempts {W}.
Arguments sc_sched {W}.

Section worker.
Context {W : Type} `{!JobClaimer W, !JobRepository W, !InferenceEngine W, !StreamPublisher W,
  !Queue W, !IdempotencyStatusUpdater W, !WorkerMetrics W, !JobEnv W, !GoClock W}.
#[local] Abbreviation S := (jobscope W).

Definition lift {A} (m : M W A) : M S A := fun s =>
  let '(a, w) := m (sc_world s) in
  (a, MkScope w (sc_cause s) (sc_beat s) (sc_attempts s) (sc_sched s)).

Definition set_beat (b : heartbeat) : M S unit :=
  modify_world (fun s => MkScope (sc_world s) (sc_cause s) b (sc_attempts s) (sc_sched s)).

(** [jobCancel(cause)]: the first cancellation wins. *)
Definition jobCancel (cause : goerr) : M S unit :=
  modify_world (fun s =>
    MkScope (sc_world s) (Some (default cause (sc_cause s))) (sc_beat s) (sc_attempts s)
      (sc_sched s)).

Definition set_attempts (n : Z) : M S unit :=
  modify_world (fun s => MkScope (sc_world s) (sc_cause s) (sc_beat s) n (sc_sched s)).

Section job.
Context (pool : workerPool) (claim : JobClaimResult).

(** One tick of the heartbeat. *)
Definition heartbeat_tick : M S unit :=
  s ← get_world;
  match sc_beat s with
  | Stopped => skip
  | Beating consecutiveFailures =>
      err ← lift (wq_ExtendLease (jc_JobID claim));
      match err with
      | None => set_beat (Beating 0)
      | Some e =>
          if errors_Is (Some e) ErrLeaseExtendFailed then
            _ ← jobCancel (Errorf "" ErrLeaseExtendFailed ": lease no longer held");
            set_beat Stopped
          else if (maxRenewalFailures pool <=? consecutiveFailures + 1)%Z then
            _ ← jobCancel (Errorf "" ErrLeaseExtendFailed ": max consecutive failures reached");
            set_beat Stopped
          else set_beat (Beating (consecutiveFailures + 1))
      end
  end.

Fixpoint ticks (n : nat) : M S unit :=
  match n with O => skip | Datatypes.S n' => _ ← heartbeat_tick; ticks n' end.

(** The ticks the schedule puts before the next operation of the job. *)
Definition beats : M S unit :=
  s ← get_world;
  match sc_sched s with
  | [] => skip
  | n :: rest =>
      _ ← modify_world (fun s =>
            MkScope (sc_world s) (sc_cause s) (sc_beat s) (sc_attempts s) rest);
      ticks n
  end.

(** An operation of the job. *)
Definition op {A} (m : M W A) : M S A := _ ← beats; lift m.

(** [jobCtx.Err()], and the [select] of a sleep with [jobCtx.Done()]. *)
Definition job_ctx_Err : M S (option goerr) :=
  _ ← beats; s ← get_world; mret (match sc_cause s with Some _ => Some Canceled | None => None end).

#[local] Instance job_ctx : GoContext S := {|
  ctx_Err := job_ctx_Err;
  ctx_sleep := fun d => _ ← op (time_Sleep d); job_ctx_Err |}.

Definition stopHeartbeatAndWait : M S unit := _ ← beats; set_beat Stopped.

Definition lease_lost : M S bool :=
  s ← get_world; mret (errors_Is (sc_cause s) ErrLeaseExtendFailed).

(** A metric, if there is a recorder; an event, if there is a publisher. *)
Definition observe (x : worker_metric) : M S unit :=
  when (pool_metrics pool) (lift (wm_observe x)).
Definition publishing (m : M W (option goerr)) : M S unit :=
  when (streamPublisher pool) (_ ← op m; skip).

Definition failed_message : string :=
  "{" +:+ dq +:+ "message" +:+ dq +:+ ":" +:+ dq
    +:+ "We could not complete your request after several attempts. Please try again later."
    +:+ dq +:+ "}".

(** The terminal writes of a failed job: their errors are only logged. *)
Definition fail_job (retryCount : Z) (count_failure : bool) : M S unit :=
  markErr ← op (wj_MarkFailed (jc_JobID claim) retryCount);
  _ ← match markErr with
      | Some _ => skip
      | None => when count_failure (observe JobFailed)
      end;
  _ ← op (wi_TransitionStatus (jc_UserID claim) (jc_JobID claim) "failed");
  _ ← op (wq_Release (jc_JobID claim));
  publishing (ws_PublishEvent (jc_JobID claim) "failed" failed_message).

(** Lines 311-326. *)
Definition retry_policy : M S (InferenceRetryPolicy * option goerr) :=
  r ← op (wj_GetRetryPolicy (jc_UserID claim));
  mret match r with
       | Ok p => (p, None)
       | Err err =>
           (MkInferenceRetryPolicy (defaultMaxAttempts pool) (defaultBaseDelay pool)
              (defaultMaxDelay pool), Some err)
       end.

(** Lines 328-355. *)
Definition fetch_payload (policy : InferenceRetryPolicy) : M S (res goerr JobPayload) :=
  Retry.DoWithRetry
    (Retry.MkRetryPolicy (irp_MaxAttempts policy) (irp_BaseDelay policy) (irp_MaxDelay policy)
       (Some (fun e => IsTransient (Some e))) (Some (fun _ => skip)))
    (op (wj_Payload claim)).

(** Lines 357-400.  [err] is the error of [GetRetryPolicy]. *)
Definition payload_failed (policy : InferenceRetryPolicy) (err : option goerr)
    (payloadErr : goerr) : M S (option goerr) :=
  _ ← stopHeartbeatAndWait;
  lost ← lease_lost;
  if lost : bool then
    _ ← observe JobRetriedLeaseExpired;
    mret (Some (Errorf2 ErrLeaseExtendFailed payloadErr))
  else
    _ ← fail_job (irp_MaxAttempts policy) false;
    mret err.

(** The callback of the stream: every chunk is published. *)
Definition onChunk (chunk : StreamChunk) : M S (option goerr) :=
  if streamPublisher pool then op (ws_Publish (jc_JobID claim) chunk) else mret None.

Fixpoint run_generation (g : generation) : M S (option goerr) :=
  match g with
  | GenEnd err => _ ← beats; mret err
  | GenChunk c k => e ← onChunk c; run_generation (k e)
  end.

(** Lines 453-473: one attempt. *)
Definition generate (input : GenerationInput) : M S (res goerr unit) :=
  s ← get_world;
  _ ← set_attempts (sc_attempts s + 1);
  g ← op (we_GenerateStream input);
  genErr ← run_generation g;
  mret match genErr with
       | Some e => Err (Errorf2 ErrInferenceFailed e)
       | None => Ok tt
       end.

Definition retrying_message (ev : Retry.RetryEvent) : string :=
  "{" +:+ dq +:+ "attempt" +:+ dq +:+ ":" +:+ pretty (Retry.Attempt ev)
    +:+ "," +:+ dq +:+ "max_attempts" +:+ dq +:+ ":" +:+ pretty (Retry.EvMaxAttempts ev)
    +:+ "," +:+ dq +:+ "message" +:+ dq +:+ ":" +:+ dq
    +:+ "The inference service is temporarily unavailable. Retrying..." +:+ dq +:+ "}".

(** Lines 410-440. *)
Definition on_attempt_failed (ev : Retry.RetryEvent) : M S unit :=
  _ ← set_attempts (Z.of_nat (Retry.Attempt ev));
  when (Retry.WillRetry ev)
    (_ ← observe JobRetriedModelFailure;
     publishing (ws_PublishEvent (jc_JobID claim) "retrying" (retrying_message ev))).

Definition run_inference (policy : InferenceRetryPolicy) (payload : JobPayload)
  : M S (res goerr unit) :=
  Retry.DoWithRetry
    (Retry.MkRetryPolicy (irp_MaxAttempts policy) (irp_BaseDelay policy) (irp_MaxDelay policy)
       (Some (fun e => errors_Is (Some e) ErrTransientInference)) (Some on_attempt_failed))
    (generate (MkGenerationInput (wp_Model payload) (wp_Prompt payload)
                 (wp_MaxOutputTokens payload) (temperature pool))).

(** Lines 477-524. *)
Definition inference_failed (err : goerr) (retryCount : Z) : M S (option goerr) :=
  _ ← stopHeartbeatAndWait;
  lost ← lease_lost;
  if lost : bool then mret (Some (Errorf2 ErrLeaseExtendFailed err))
  else
    _ ← fail_job retryCount true;
    mret (Some err).

(** Lines 526-581. *)
Definition inference_succeeded (retryCount : Z) : M S (option goerr) :=
  _ ← op (wq_MarkCompleted (jc_JobID claim));
  e ← op (wj_MarkCompleted (jc_JobID claim) retryCount);
  match e with
  | Some err =>
      _ ← stopHeartbeatAndWait;
      _ ← publishing (ws_Close (jc_JobID claim));
      _ ← op (wq_Release (jc_JobID claim));
      mret (Some err)
  | None =>
      _ ← observe JobCompleted;
      _ ← stopHeartbeatAndWait;
      _ ← op (wi_TransitionStatus (jc_UserID claim) (jc_JobID claim) "completed");
      _ ← publishing (ws_Close (jc_JobID claim));
      _ ← op (wq_Release (jc_JobID claim));
      mret None
  end.

(** Lines 311-581: the job, once claimed. *)
Definition process_claimed : M S (option goerr) :=
  p ← retry_policy;
  let '(policy, err) := p in
  r ← fetch_payload policy;
  match r with
  | Err payloadErr => payload_failed policy err payloadErr
  | Ok payload =>
      r ← run_inference policy payload;
      s ← get_world;
      match r with
      | Err err => inference_failed err (sc_attempts s)
      | Ok _ => inference_succeeded (sc_attempts s)
      end
  end.
End job.

(** The job in a fresh scope: the context is live, the heartbeat runs. *)
Definition with_scope {A} (m : M S A) : M W A :=
  sched ← beat_schedule;
  (fun w => let '(a, s) := m (MkScope w None (Beating 0) 0 sched) in (a, sc_world s)) : M W A.

Definition processJob (pool : workerPool) (workerID : Z) : M W (option goerr) :=
  c ← wk_ClaimNextJob workerID;
  match c with
  | Err err => mret (Some err)
  | Ok None => mret (Some ErrNoJobAvailable)
  | Ok (Some claim) =>
      jobStarted ← time_Now;
      _ ← when (pool_metrics pool) (wm_observe JobStarted);
      resultErr ← with_scope (process_claimed pool claim);
      _ ← when (pool_metrics pool)
            (_ ← wm_observe JobEnded;
             now ← time_Now;
             wm_observe (match resultErr with
                         | Some _ => ObserveJobProcessingFailure (now - jobStarted)
                         | None => ObserveJobProcessingSuccess (now - jobStarted)
                         end));
      mret resultErr
  end.

(** [runWorker] is a loop; one iteration says whether it goes on. *)
Definition wait `{!GoContext W} (d : Z) : M W bool :=
  e ← ctx_sleep d; mret (match e with Some _ => false | None => true end).

Definition worker_iteration `{!GoContext W} (pool : workerPool) (workerID : Z) : M W bool :=
  c ← ctx_Err;
  match c with
  | Some _ => mret false
  | None =>
      err ← processJob pool workerID;
      match err with
      | None => mret true
      | Some e =>
          if errors_Is (Some e) ErrNoJobAvailable then wait (pollInterval pool)
          else if errors_Is (Some e) Canceled then mret false
          else wait (pollInterval pool)
      end
  end.

(** [n] iterations at most; [true] when the worker is still running. *)
Fixpoint runWorker `{!GoContext W} (n : nat) (pool : workerPool) (workerID : Z) : M W bool :=
  match n with
  | O => mret true
  | Datatypes.S n' =>
      go ← worker_iteration pool workerID;
      if (go : bool) then runWorker n' pool workerID else mret false
  end.
End worker.

(** ** Starting and stopping *)

(** [started], and the ids of the running workers. *)
Record pool_state := MkPoolState { started : bool; running : list Z }.

Definition Start (pool : workerPool) (s : pool_state) : option goerr * pool_state :=
  if started s then (Some (errors_New "worker pool: already started"), s)
  else (None, MkPoolState true (running s ++ (Z.of_nat <$> seq 0 (Z.to_nat (workerCount pool))))).

(** [Stop] cancels the workers' context and waits: [stopped] are the workers
    that return before the context of the call is done, which then is
    [ctxErr]. *)
Definition Stop (stopped : list Z) (ctxErr : goerr) (s : pool_state)
  : option goerr * pool_state :=
  if negb (started s) then (None, s)
  else
    let running' := filter (fun i => i ∉ stopped) (running s) in
    (match running' with
     | [] => None
     | _ => Some (errorf_w "worker pool: shutdown timed out: " (Some ctxErr))
     end, MkPoolState false running').

(** ** adapters *)

(** The public services the worker's adapters call. *)
Class PublicJobClaimer (W : Type) := {
  svc_NextJob : Z -> M W (res goerr (option Scheduler.NextJobClaim)) }.
Class PublicLeaseService (W : Type) := {
  svc_ReleaseProcessingJob : string -> M W (option goerr);
  svc_ExtendProcessingLease : string -> M W (option goerr);
  svc_MarkJobCompleted : string -> M W (option goerr) }.
Class PublicJobRunner (W : Type) := {
  svc_PayloadByID : Job.JobPayloadRequest -> M W (res goerr Job.JobPayloadResponse);
  svc_GetRetryPolicy : string -> M W (res goerr Job.RetryPolicy);
  svc_MarkJobRowCompleted : string -> Z -> M W (option goerr);
  svc_MarkJobRowFailed : string -> Z -> M W (option goerr) }.
Class PublicIdempotencyService (W : Type) := {
  svc_TransitionStatus : string -> string -> M W (option goerr) }.
Class PublicStreamPublisher (W : Type) := {
  svc_Publish : string -> string -> string -> M W (option goerr);
  svc_Close : string -> M W (option goerr) }.

Section adapters.
Context {W : Type}.

Definition JobClaimerAdapter_ClaimNextJob `{!PublicJobClaimer W} (workerID : Z)
  : M W (res goerr (option JobClaimResult)) :=
  result ← svc_NextJob workerID;
  mret (res_map (option_map (fun c => MkJobClaimResult (Scheduler.nj_JobID c)
                                        (Scheduler.nj_UserID c))) result).

Definition QueueAdapter_Release `{!PublicLeaseService W} (jobID : string)
  : M W (option goerr) := svc_ReleaseProcessingJob jobID.

(** A lease the scheduler no longer knows is a lost lease. *)
Definition QueueAdapter_ExtendLease `{!PublicLeaseService W} (jobID : string)
  : M W (option goerr) :=
  err ← svc_ExtendProcessingLease jobID;
  mret match err with
       | Some e => if IsCode err Scheduler.ErrCodeJobNotFound
                   then Some (Errorf2 ErrLeaseExtendFailed e) else err
       | None => None
       end.

Definition QueueAdapter_MarkCompleted `{!PublicLeaseService W} (jobID : string)
  : M W (option goerr) := svc_MarkJobCompleted jobID.

Definition JobRepositoryAdapter_Payload `{!PublicJobRunner W} (claim : JobClaimResult)
  : M W (res goerr JobPayload) :=
  r ← svc_PayloadByID (Job.MkJobPayloadRequest (jc_JobID claim) (jc_UserID claim));
  mret (res_map (fun p => MkJobPayload (Job.pl_JobID p) (Job.pl_UserID p) (Job.pl_Prompt p)
                            (Job.pl_Model p) (Job.pl_MaxOutputTokens p)) r).

Definition JobRepositoryAdapter_GetRetryPolicy `{!PublicJobRunner W} (userID : string)
  : M W (res goerr InferenceRetryPolicy) :=
  r ← svc_GetRetryPolicy userID;
  mret (res_map (fun p => MkInferenceRetryPolicy (Job.MaxAttempts p) (Job.BaseDelay p)
                            (Job.MaxDelay p)) r).

Definition IdempotencyStatusAdapter_TransitionStatus `{!PublicIdempotencyService W}
    (userID jobID status : string) : M W (option goerr) := svc_TransitionStatus jobID status.

Definition StreamPublisherAdapter_Publish `{!PublicStreamPublisher W} (jobID : string)
    (chunk : StreamChunk) : M W (option goerr) := svc_Publish jobID "chunk" (sc_Text chunk).

Definition StreamPublisherAdapter_PublishEvent `{!PublicStreamPublisher W}
    (jobID eventType data : string) : M W (option goerr) := svc_Publish jobID eventType data.

#[global] Instance adapted_JobClaimer `{!PublicJobClaimer W} : JobClaimer W := {|
  wk_ClaimNextJob := JobClaimerAdapter_ClaimNextJob |}.
#[global] Instance adapted_Queue `{!PublicLeaseService W} : Queue W := {|
  wq_Release := QueueAdapter_Release;
  wq_ExtendLease := QueueAdapter_ExtendLease;
  wq_MarkCompleted := QueueAdapter_MarkCompleted |}.
#[global] Instance adapted_JobRepository `{!PublicJobRunner W} : JobRepository W := {|
  wj_Payload := JobRepositoryAdapter_Payload;
  wj_GetRetryPolicy := JobRepositoryAdapter_GetRetryPolicy;
  wj_MarkCompleted := svc_MarkJobRowCompleted;
  wj_MarkFailed := svc_MarkJobRowFailed |}.
#[global] Instance adapted_IdempotencyStatusUpdater `{!PublicIdempotencyService W} :
  IdempotencyStatusUpdater W := {|
  wi_TransitionStatus := IdempotencyStatusAdapter_TransitionStatus |}.
#[global] Instance adapted_StreamPublisher `{!PublicStreamPublisher W} : StreamPublisher W := {|
  ws_Publish := StreamPublisherAdapter_Publish;
  ws_PublishEvent := StreamPublisherAdapter_PublishEvent;
  ws_Close := svc_Close |}.
End adapters.
