(* ===== verification/WorkerThms.v ===== *)
(** * Theorems about the worker pool

    The protocol of one job: which services the worker calls, in which order,
    on every path, under any schedule of the heartbeat and any answers of the
    services. *)

From S2P Require Import Prelude GoErr Redis Env.
From S2P Require Retry.
From S2P Require Import Worker.
From stdpp Require Import base gmap sets list strings pretty.
From Stdlib Require Import ZArith Lia.

(** ** The calls a worker makes *)

Inductive event : Type :=
| EvPolicy (u : string)
| EvPayload (j : string)
| EvGenerate
| EvChunk (j : string)
| EvEvent (j kind : string)
| EvExtend (j : string)
| EvMarker (j : string)
| EvMarkCompleted (j : string) (n : Z)
| EvMarkFailed (j : string) (n : Z)
| EvTransition (j status : string)
| EvRelease (j : string)
| EvClose (j : string).

(** A world that records the calls: every service appends its event and may
    otherwise do and answer anything. *)
Class Traced (W : Type) `{!JobRepository W, !InferenceEngine W, !StreamPublisher W, !Queue W,
    !IdempotencyStatusUpdater W, !WorkerMetrics W, !JobEnv W} := {
  calls : W -> list event;
  tr_policy u w : calls (wj_GetRetryPolicy u w).2 = calls w ++ [EvPolicy u];
  tr_payload c w : calls (wj_Payload c w).2 = calls w ++ [EvPayload (jc_JobID c)];
  tr_completed j n w : calls (wj_MarkCompleted j n w).2 = calls w ++ [EvMarkCompleted j n];
  tr_failed j n w : calls (wj_MarkFailed j n w).2 = calls w ++ [EvMarkFailed j n];
  tr_generate i w : calls (we_GenerateStream i w).2 = calls w ++ [EvGenerate];
  tr_chunk j c w : calls (ws_Publish j c w).2 = calls w ++ [EvChunk j];
  tr_event j k m w : calls (ws_PublishEvent j k m w).2 = calls w ++ [EvEvent j k];
  tr_close j w : calls (ws_Close j w).2 = calls w ++ [EvClose j];
  tr_release j w : calls (wq_Release j w).2 = calls w ++ [EvRelease j];
  tr_extend j w : calls (wq_ExtendLease j w).2 = calls w ++ [EvExtend j];
  tr_marker j w : calls (wq_MarkCompleted j w).2 = calls w ++ [EvMarker j];
  tr_transition u j st w :
    calls (wi_TransitionStatus u j st w).2 = calls w ++ [EvTransition j st];
  tr_metric x w : calls (wm_observe x w).2 = calls w;
  tr_sleep d w : calls (time_Sleep d w).2 = calls w;
  tr_schedule w : calls (beat_schedule w).2 = calls w;
}.

(** The calls a job makes while it runs; the others end it. *)
Definition quiet (e : event) : Prop :=
  match e with
  | EvPolicy _ | EvPayload _ | EvGenerate | EvChunk _ | EvExtend _ => True
  | EvEvent _ k => k = "retrying"
  | _ => False
  end.

Definition is_generate (e : event) : bool :=
  match e with EvGenerate => true | _ => false end.

Definition is_extend (e : event) : Prop :=
  match e with EvExtend _ => True | _ => False end.

Definition generations (t : list event) : nat := length (List.filter is_generate t).

Lemma generations_app t1 t2 : generations (t1 ++ t2) = (generations t1 + generations t2)%nat.
Proof. unfold generations. by rewrite List.filter_app, length_app. Qed.

Lemma extends_quiet t : Forall is_extend t -> Forall quiet t /\ generations t = 0%nat.
Proof.
  induction 1 as [|e t He Ht [IH1 IH2]]; [done|]. destruct e; try done.
  split; [by constructor|exact IH2].
Qed.

Section traced.
Context {W : Type} `{!JobRepository W, !InferenceEngine W, !StreamPublisher W, !Queue W,
  !IdempotencyStatusUpdater W, !WorkerMetrics W, !JobEnv W, !Traced W}.
Context (pool : workerPool) (claim : JobClaimResult).
#[local] Abbreviation S := (jobscope W).
Implicit Types s : S.

(** From [s] to [s'] the job made quiet calls only, [k] of them generations. *)
Definition quietly (s s' : S) (k : nat) : Prop :=
  exists t, calls (sc_world s') = calls (sc_world s) ++ t /\ Forall quiet t /\ generations t = k.

Lemma quietly_refl s s' : calls (sc_world s') = calls (sc_world s) -> quietly s s' 0.
Proof. intros E. exists []. by rewrite app_nil_r. Qed.

Lemma quietly_trans s1 s2 s3 k1 k2 :
  quietly s1 s2 k1 -> quietly s2 s3 k2 -> quietly s1 s3 (k1 + k2).
Proof.
  intros (t1 & E1 & Q1 & <-) (t2 & E2 & Q2 & <-). exists (t1 ++ t2).
  rewrite E2, E1, <- app_assoc, generations_app. split; [done|].
  split; [by apply Forall_app|done].
Qed.

(** A program that only renews the lease. *)
Definition renews {A} (m : M S A) : Prop := forall s,
  (exists t, calls (sc_world (m s).2) = calls (sc_world s) ++ t /\ Forall is_extend t)
  /\ sc_attempts (m s).2 = sc_attempts s
  /\ (sc_beat s = Stopped -> sc_beat (m s).2 = Stopped
        /\ calls (sc_world (m s).2) = calls (sc_world s)).

(** A program that makes quiet calls, none of them a generation. *)
Class Calm {A} (m : M S A) : Prop :=
  calm : forall s, quietly s (m s).2 0 /\ sc_attempts (m s).2 = sc_attempts s.

#[local] Instance Calm_ret {A} (a : A) : Calm (mret a).
Proof. intros s. split; [by apply quietly_refl|done]. Qed.

#[local] Instance Calm_bind {A B} (m : M S A) (k : A -> M S B) :
  Calm m -> (forall a, Calm (k a)) -> Calm (x ← m; k x).
Proof.
  intros Hm Hk s. rewrite bind_unfold. destruct (Hm s) as [H1 A1].
  destruct (Hk (m s).1 (m s).2) as [H2 A2]. split; [|by rewrite A2].
  exact (quietly_trans _ _ _ 0 0 H1 H2).
Qed.

#[local] Instance Calm_when c (m : M S unit) : Calm m -> Calm (when c m).
Proof. intros Hm. destruct c; [exact Hm|apply Calm_ret]. Qed.

Lemma renews_ret {A} (a : A) : renews (mret a).
Proof. intros s. split; [exists []; by rewrite app_nil_r|done]. Qed.

Lemma renews_bind {A B} (m : M S A) (k : A -> M S B) :
  renews m -> (forall a, renews (k a)) -> renews (x ← m; k x).
Proof.
  intros Hm Hk s. rewrite bind_unfold. destruct (Hm s) as ((t1 & E1 & X1) & A1 & B1).
  destruct (Hk (m s).1 (m s).2) as ((t2 & E2 & X2) & A2 & B2). split; [|split].
  - exists (t1 ++ t2). rewrite E2, E1, <- app_assoc. split; [done|by apply Forall_app].
  - by rewrite A2.
  - intros Hs. destruct (B1 Hs) as [Hs1 C1]. destruct (B2 Hs1) as [Hs2 C2].
    split; [done|]. by rewrite C2.
Qed.

Lemma renews_calm {A} (m : M S A) : renews m -> Calm m.
Proof.
  intros Hm s. destruct (Hm s) as ((t & E & X) & Ha & _). split; [|done].
  exists t. destruct (extends_quiet _ X). done.
Qed.

(** *** The heartbeat *)

Lemma tick_renews : renews (heartbeat_tick pool claim).
Proof.
  intros s. unfold heartbeat_tick. rewrite bind_unfold. cbn [get_world fst snd].
  destruct (sc_beat s) as [n|] eqn:Eb.
  2:{ split; [exists []; by rewrite app_nil_r|]. split; [done|]. done. }
  rewrite bind_unfold. unfold lift at 1 2 3 4 5 6.
  pose proof (tr_extend (jc_JobID claim) (sc_world s)) as Hx.
  destruct (wq_ExtendLease (jc_JobID claim) (sc_world s)) as [err w]. cbn [fst snd] in *.
  split; [|split; [|congruence]].
  - exists [EvExtend (jc_JobID claim)]. split; [|by repeat constructor].
    rewrite <- Hx. by repeat case_match.
  - by repeat case_match.
Qed.

Lemma ticks_renews n : renews (ticks pool claim n).
Proof.
  induction n as [|n IH]; [apply renews_ret|].
  apply renews_bind; [apply tick_renews|intros _; exact IH].
Qed.

Lemma beats_renews : renews (beats pool claim).
Proof.
  intros s. unfold beats. rewrite bind_unfold. cbn [get_world fst snd].
  destruct (sc_sched s) as [|n rest]; [apply renews_ret|].
  rewrite bind_unfold. cbn [modify_world fst snd].
  destruct (ticks_renews n (MkScope (sc_world s) (sc_cause s) (sc_beat s) (sc_attempts s) rest))
    as (H1 & H2 & H3). done.
Qed.

(** *** One operation *)

(** What an operation of the job appends: renewals, then its own event; only
    its own event once the heartbeat is stopped. *)
Lemma op_calls {A} (m : M W A) ev s :
  (forall w, calls (m w).2 = calls w ++ ev) ->
  let s' := (op pool claim m s).2 in
  (exists t, calls (sc_world s') = calls (sc_world s) ++ t ++ ev /\ Forall is_extend t)
  /\ sc_attempts s' = sc_attempts s
  /\ (sc_beat s = Stopped -> sc_beat s' = Stopped
        /\ calls (sc_world s') = calls (sc_world s) ++ ev).
Proof.
  intros Hm. unfold op. cbv zeta. rewrite bind_unfold.
  destruct (beats_renews s) as ((t & E & X) & Ha & Hb).
  destruct (beats pool claim s) as [[] s1]. cbn [fst snd] in *. unfold lift. specialize (Hm (sc_world s1)). destruct (m (sc_world s1)) as [a w].
  cbn [fst snd sc_world sc_attempts sc_beat] in *. rewrite Hm. split; [|split; [done|]].
  - exists t. by rewrite E, app_assoc.
  - intros Hs. destruct (Hb Hs) as [Hs1 E1]. by rewrite E1.
Qed.

Lemma op_calm {A} (m : M W A) ev :
  (forall w, calls (m w).2 = calls w ++ ev) -> Forall quiet ev -> generations ev = 0%nat ->
  Calm (op pool claim m).
Proof.
  intros Hm Hq Hg s. destruct (op_calls m ev s Hm) as ((t & E & X) & Ha & _). split; [|done].
  exists (t ++ ev). split; [done|]. destruct (extends_quiet _ X).
  rewrite generations_app. split; [by apply Forall_app|lia].
Qed.

Lemma lift_silent {A} (m : M W A) s :
  (forall w, calls (m w).2 = calls w) ->
  calls (sc_world (lift m s).2) = calls (sc_world s)
  /\ sc_attempts (lift m s).2 = sc_attempts s /\ sc_beat (lift m s).2 = sc_beat s.
Proof.
  intros Hm. unfold lift. specialize (Hm (sc_world s)). by destruct (m (sc_world s)).
Qed.

(** *** The parts of the job *)

#[local] Instance Calm_lift {A} (m : M W A) :
  (forall w, calls (m w).2 = calls w) -> Calm (lift m).
Proof.
  intros Hm s. destruct (lift_silent m s Hm) as (E & Ha & _).
  split; [by apply quietly_refl|done].
Qed.

#[local] Instance Calm_beats : Calm (beats pool claim).
Proof. apply renews_calm, beats_renews. Qed.

#[local] Instance Calm_get : Calm (get_world : M S S).
Proof. intros s. split; [by apply quietly_refl|done]. Qed.

#[local] Instance Calm_ctx_Err : Calm (job_ctx_Err pool claim).
Proof. unfold job_ctx_Err. apply _. Qed.

#[local] Instance Calm_ctx_sleep d : Calm (@ctx_sleep S (job_ctx pool claim) d).
Proof.
  cbn. apply Calm_bind; [|apply _].
  apply (op_calm _ []); [intros w; by rewrite tr_sleep, app_nil_r|constructor|done].
Qed.

#[local] Instance Calm_sleepWithContext d :
  Calm (@Retry.sleepWithContext S (job_ctx pool claim) d).
Proof. unfold Retry.sleepWithContext. destruct (d <=? 0)%Z; apply _. Qed.

#[local] Instance Calm_observe x : Calm (observe pool x).
Proof. unfold observe. apply Calm_when, Calm_lift. apply tr_metric. Qed.

Lemma Calm_publishing (m : M W (option goerr)) ev :
  (forall w, calls (m w).2 = calls w ++ ev) -> Forall quiet ev -> generations ev = 0%nat ->
  Calm (publishing pool claim m).
Proof.
  intros. unfold publishing. apply Calm_when, Calm_bind; [by apply (op_calm _ ev)|apply _].
Qed.

(** A retried operation is calm when the operation and the callback are. *)
Lemma Calm_retry {T} (policy : Retry.RetryPolicy S) (fn : M S (res goerr T)) :
  Calm fn ->
  (forall f ev, Retry.OnAttemptFailed policy = Some f -> Calm (f ev)) ->
  Calm (@Retry.DoWithRetry S (job_ctx pool claim) T policy fn).
Proof.
  intros Hfn Hcb. unfold Retry.DoWithRetry. destruct (_ <=? 0)%Z; [apply _|].
  generalize (None : option goerr) as lastErr. generalize 1%nat as attempt.
  induction (Z.to_nat (Retry.MaxAttempts policy)) as [|left IH]; intros attempt lastErr;
    [apply _|]. cbn [Retry.retry_loop].
  apply Calm_bind; [done|]. intros [v|err]; [apply _|].
  apply Calm_bind; [apply Calm_ctx_Err|]. intros [e|]; [apply _|].
  apply Calm_bind; [destruct (Retry.OnAttemptFailed policy) eqn:E; [by eapply Hcb|apply Calm_ret]|].
  intros _. destruct (negb _); [apply _|].
  apply Calm_bind; [apply _|]. intros [e|]; [apply _|apply IH].
Qed.

#[local] Instance Calm_retry_policy : Calm (retry_policy pool claim).
Proof.
  unfold retry_policy. apply Calm_bind; [|apply _].
  by apply (op_calm _ _ (tr_policy _)); [repeat constructor|].
Qed.

#[local] Instance Calm_fetch_payload policy : Calm (fetch_payload pool claim policy).
Proof.
  unfold fetch_payload. apply Calm_retry.
  - by apply (op_calm _ _ (tr_payload _)); [repeat constructor|].
  - intros f ev [= <-]. apply Calm_ret.
Qed.

#[local] Instance Calm_run_generation g : Calm (run_generation pool claim g).
Proof.
  induction g as [err|c k IH]; cbn [run_generation]; [apply _|].
  apply Calm_bind; [|intros e; apply IH]. unfold onChunk.
  destruct (streamPublisher pool); [|apply _].
  by apply (op_calm _ _ (tr_chunk _ _)); [repeat constructor|].
Qed.

(** One attempt makes one generation and counts it. *)
Lemma generate_quietly input s :
  quietly s (generate pool claim input s).2 1
  /\ sc_attempts (generate pool claim input s).2 = (sc_attempts s + 1)%Z.
Proof.
  unfold generate. rewrite bind_unfold. cbn [get_world fst snd].
  rewrite bind_unfold. set (s0 := (set_attempts (sc_attempts s + 1) s).2).
  rewrite bind_unfold.
  destruct (op_calls (we_GenerateStream input) _ s0 (tr_generate input)) as ((t & E & X) & Ha & _).
  destruct (op pool claim (we_GenerateStream input) s0) as [g s1]. cbn [fst snd] in *.
  rewrite bind_unfold, ret_unfold. cbn [snd].
  destruct (Calm_run_generation g s1) as [Hq Hb]. rewrite Hb, Ha. split; [|done].
  apply (quietly_trans _ s1 _ 1 0); [|exact Hq]. exists (t ++ [EvGenerate]).
  split; [exact E|]. destruct (extends_quiet _ X). rewrite generations_app.
  split; [apply Forall_app; split; [done|by repeat constructor]|]. cbn. lia.
Qed.

Lemma on_attempt_failed_quietly ev s :
  quietly s (on_attempt_failed pool claim ev s).2 0
  /\ sc_attempts (on_attempt_failed pool claim ev s).2 = Z.of_nat (Retry.Attempt ev).
Proof.
  unfold on_attempt_failed. rewrite bind_unfold.
  set (s0 := (set_attempts (Z.of_nat (Retry.Attempt ev)) s).2).
  assert (Hc : Calm (when (Retry.WillRetry ev)
    (_ ← observe pool JobRetriedModelFailure;
     publishing pool claim (ws_PublishEvent (jc_JobID claim) "retrying" (retrying_message ev))))).
  { apply Calm_when, Calm_bind; [apply _|]. intros _.
    by apply (Calm_publishing _ _ (tr_event _ _ _)); [repeat constructor|]. }
  destruct (Hc s0) as [Hq Ha]. split; [exact Hq|]. by rewrite Ha.
Qed.

(** The attempts made are counted, and there are at most [MaxAttempts]. *)
Lemma run_inference_quietly policy payload s :
  sc_attempts s = 0%Z ->
  exists k, quietly s (run_inference pool claim policy payload s).2 k
    /\ sc_attempts (run_inference pool claim policy payload s).2 = Z.of_nat k
    /\ (k <= Z.to_nat (irp_MaxAttempts policy))%nat.
Proof.
  intros Hs0. unfold run_inference, Retry.DoWithRetry.
  set (pol := Retry.MkRetryPolicy _ _ _ _ _).
  change (Retry.MaxAttempts pol) with (irp_MaxAttempts policy).
  destruct (_ <=? 0)%Z.
  { exists 0%nat. split; [by apply quietly_refl|]. split; [done|lia]. }
  set (gen := generate pool claim _). generalize (None : option goerr) as lastErr.
  assert (Hloop : forall left attempt lastErr s, sc_attempts s = Z.of_nat attempt ->
    exists k, quietly s (@Retry.retry_loop S (job_ctx pool claim) unit pol gen left
                           (Datatypes.S attempt) lastErr s).2 k
      /\ sc_attempts (@Retry.retry_loop S (job_ctx pool claim) unit pol gen left
                        (Datatypes.S attempt) lastErr s).2 = Z.of_nat (attempt + k)
      /\ (k <= left)%nat).
  2:{ intros lastErr. destruct (Hloop (Z.to_nat (irp_MaxAttempts policy)) 0%nat lastErr s)
        as (k & Hk); [done|]. by exists k. }
  clear s Hs0. induction left as [|left IH]; intros attempt lastErr s Hs.
  { exists 0%nat. split; [by apply quietly_refl|]. cbn [Retry.retry_loop]. rewrite ret_unfold.
    split; [by rewrite Nat.add_0_r|done]. }
  cbn [Retry.retry_loop]. rewrite bind_unfold.
  destruct (generate_quietly (MkGenerationInput (wp_Model payload) (wp_Prompt payload)
    (wp_MaxOutputTokens payload) (temperature pool)) s) as [Hq Ha]. fold gen in Hq, Ha.
  destruct (gen s) as [[v|err] s1]; cbn [fst snd] in *.
  { exists 1%nat. rewrite ret_unfold. split; [done|]. cbn [snd]. split; [lia|lia]. }
  rewrite bind_unfold. destruct (Calm_ctx_Err s1) as [Hq2 Ha2].
  change (@ctx_Err S (job_ctx pool claim)) with (job_ctx_Err pool claim).
  destruct (job_ctx_Err pool claim s1) as [c s2]. cbn [fst snd] in *.
  pose proof (quietly_trans _ _ _ _ _ Hq Hq2) as Hq12. cbn in Hq12.
  destruct c as [e|].
  { exists 1%nat. rewrite ret_unfold. split; [done|]. cbn [snd]. split; [lia|lia]. }
  cbn [Retry.OnAttemptFailed pol]. set (ev := Retry.MkRetryEvent _ _ _ _ _).
  rewrite bind_unfold. destruct (on_attempt_failed_quietly ev s2) as [Hq3 Ha3].
  destruct (on_attempt_failed pool claim ev s2) as [u s3]. cbn [fst snd] in *.
  pose proof (quietly_trans _ _ _ _ _ Hq12 Hq3) as Hq13. cbn in Hq13.
  change (Z.of_nat (Retry.Attempt ev)) with (Z.of_nat (Datatypes.S attempt)) in Ha3.
  destruct (negb _).
  { exists 1%nat. rewrite ret_unfold. split; [done|]. cbn [snd]. split; [lia|lia]. }
  rewrite bind_unfold. match goal with |- context [Retry.sleepWithContext ?d] => set (d0 := d) end.
  destruct (Calm_sleepWithContext d0 s3) as [Hq4 Ha4].
  destruct (Retry.sleepWithContext d0 s3) as [z s4]. cbn [fst snd] in *.
  pose proof (quietly_trans _ _ _ _ _ Hq13 Hq4) as Hq14. cbn in Hq14.
  destruct z as [e|].
  { exists 1%nat. rewrite ret_unfold. split; [done|]. cbn [snd]. split; [lia|lia]. }
  destruct (IH (Datatypes.S attempt) (Some err) s4) as (k & Hk & Hka & Hkl); [lia|].
  exists (1 + k)%nat. split; [exact (quietly_trans _ _ _ _ _ Hq14 Hk)|].
  rewrite Hka. split; [f_equal; lia|lia].
Qed.

(** *** The ends of the job *)

Definition after_stop (s s' : S) (t : list event) : Prop :=
  calls (sc_world s') = calls (sc_world s) ++ t /\ sc_beat s' = Stopped.

Lemma after_stop_refl s : sc_beat s = Stopped -> after_stop s s [].
Proof. intros Hs. split; [by rewrite app_nil_r|done]. Qed.

Lemma after_stop_trans s1 s2 s3 t1 t2 :
  after_stop s1 s2 t1 -> after_stop s2 s3 t2 -> after_stop s1 s3 (t1 ++ t2).
Proof. intros [E1 _] [E2 Hs]. split; [by rewrite E2, E1, app_assoc|done]. Qed.

Lemma op_after_stop {A} (m : M W A) ev s :
  (forall w, calls (m w).2 = calls w ++ ev) -> sc_beat s = Stopped ->
  after_stop s (op pool claim m s).2 ev.
Proof. intros Hm Hs. destruct (op_calls m ev s Hm) as (_ & _ & H3). by destruct (H3 Hs). Qed.

Lemma observe_after_stop x s : sc_beat s = Stopped -> after_stop s (observe pool x s).2 [].
Proof.
  intros Hs. unfold observe, when. destruct (pool_metrics pool); [|by apply after_stop_refl].
  destruct (lift_silent (wm_observe x) s (tr_metric x)) as (E & _ & Hb).
  split; [by rewrite E, app_nil_r|by rewrite Hb].
Qed.

(** An event, when there is a publisher. *)
Definition if_stream (ev : list event) : list event := if streamPublisher pool then ev else [].

Lemma publishing_after_stop (m : M W (option goerr)) ev s :
  (forall w, calls (m w).2 = calls w ++ ev) -> sc_beat s = Stopped ->
  after_stop s (publishing pool claim m s).2 (if_stream ev).
Proof.
  intros Hm Hs. unfold publishing, if_stream, when.
  destruct (streamPublisher pool); [|by apply after_stop_refl].
  rewrite bind_unfold. by apply op_after_stop.
Qed.

Lemma stop_calls s :
  let s' := (stopHeartbeatAndWait pool claim s).2 in
  (exists t, calls (sc_world s') = calls (sc_world s) ++ t /\ Forall is_extend t)
  /\ sc_beat s' = Stopped /\ sc_attempts s' = sc_attempts s.
Proof.
  unfold stopHeartbeatAndWait. cbv zeta. rewrite bind_unfold.
  destruct (beats_renews s) as ((t & E & X) & Ha & _).
  destruct (beats pool claim s) as [[] s1]. cbn [fst snd] in *.
  split; [by exists t|done].
Qed.

(** The terminal writes of a failed job, in order. *)
Definition failed_tail (n : Z) : list event :=
  [EvMarkFailed (jc_JobID claim) n; EvTransition (jc_JobID claim) "failed";
   EvRelease (jc_JobID claim)] ++ if_stream [EvEvent (jc_JobID claim) "failed"].

Lemma fail_job_calls n c s :
  sc_beat s = Stopped -> after_stop s (fail_job pool claim n c s).2 (failed_tail n).
Proof.
  intros Hs. unfold fail_job. rewrite bind_unfold.
  pose proof (op_after_stop _ _ s (tr_failed (jc_JobID claim) n) Hs) as H1.
  destruct (op pool claim (wj_MarkFailed (jc_JobID claim) n) s) as [e s1]. cbn [fst snd] in *.
  assert (H2 : after_stop s1 (match e with Some _ => skip
    | None => when c (observe pool JobFailed) end s1).2 []).
  { destruct e; [by apply after_stop_refl, H1|]. destruct c; [|by apply after_stop_refl, H1].
    by apply observe_after_stop, H1. }
  rewrite bind_unfold.
  set (m2 := match e with Some _ => _ | None => _ end) in *.
  destruct (m2 s1) as [u s2]. cbn [fst snd] in *. rewrite bind_unfold.
  pose proof (op_after_stop _ _ s2 (tr_transition (jc_UserID claim) (jc_JobID claim) "failed")
    (proj2 H2)) as H3.
  destruct (op pool claim (wi_TransitionStatus _ _ _) s2) as [e3 s3]. cbn [fst snd] in *.
  rewrite bind_unfold.
  pose proof (op_after_stop _ _ s3 (tr_release (jc_JobID claim)) (proj2 H3)) as H4.
  destruct (op pool claim (wq_Release _) s3) as [e4 s4]. cbn [fst snd] in *.
  pose proof (publishing_after_stop _ _ s4
    (tr_event (jc_JobID claim) "failed" failed_message) (proj2 H4)) as H5.
  pose proof (after_stop_trans _ _ _ _ _ H1 (after_stop_trans _ _ _ _ _ H2
    (after_stop_trans _ _ _ _ _ H3 (after_stop_trans _ _ _ _ _ H4 H5)))) as H6.
  exact H6.
Qed.

(** How a job may end, under the retry policy [policy] (read with the error
    [err]) and after [k] generations: the calls after the quiet ones, and the
    result. *)
Inductive job_end (policy : InferenceRetryPolicy) (err : option goerr) (k : nat)
  : list event -> option goerr -> Prop :=
| end_lease_lost e : job_end policy err k [] (Some (Errorf2 ErrLeaseExtendFailed e))
| end_no_payload :
    (k = 0)%nat -> job_end policy err k (failed_tail (irp_MaxAttempts policy)) err
| end_failed e : job_end policy err k (failed_tail (Z.of_nat k)) (Some e)
| end_completed x y :
    Forall is_extend x -> Forall is_extend y ->
    job_end policy err k (EvMarker (jc_JobID claim) :: x
               ++ EvMarkCompleted (jc_JobID claim) (Z.of_nat k) :: y
               ++ EvTransition (jc_JobID claim) "completed"
               :: if_stream [EvClose (jc_JobID claim)] ++ [EvRelease (jc_JobID claim)]) None
| end_unrecorded x y e :
    Forall is_extend x -> Forall is_extend y ->
    job_end policy err k (EvMarker (jc_JobID claim) :: x
               ++ EvMarkCompleted (jc_JobID claim) (Z.of_nat k) :: y
               ++ if_stream [EvClose (jc_JobID claim)] ++ [EvRelease (jc_JobID claim)])
      (Some e).

(** A part of the job that ends it: renewals, then one of the ends. *)
Definition ends policy err (k : nat) (s : S) (r : option goerr * S) : Prop :=
  exists x tail, calls (sc_world r.2) = calls (sc_world s) ++ x ++ tail
    /\ Forall is_extend x /\ job_end policy err k tail r.1.

Lemma payload_failed_ends policy err e s :
  ends policy err 0 s (payload_failed pool claim policy err e s).
Proof.
  unfold ends, payload_failed. rewrite bind_unfold.
  destruct (stop_calls s) as ((x & E & X) & Hs & _).
  destruct (stopHeartbeatAndWait pool claim s) as [u s1]. cbn [fst snd] in *.
  rewrite bind_unfold. cbn [lease_lost]. unfold lease_lost. rewrite bind_unfold, ret_unfold.
  cbn [get_world fst snd]. destruct (errors_Is (sc_cause s1) ErrLeaseExtendFailed);
    rewrite bind_unfold, ret_unfold; cbn [fst snd].
  - exists x, []. rewrite app_nil_r. split; [|split; [done|apply end_lease_lost]].
    rewrite <- E. destruct (observe_after_stop JobRetriedLeaseExpired s1 Hs) as [E2 _].
    by rewrite app_nil_r in E2.
  - exists x, (failed_tail (irp_MaxAttempts policy)).
    destruct (fail_job_calls (irp_MaxAttempts policy) false s1 Hs) as [E2 _].
    split; [by rewrite E2, E, app_assoc|]. split; [done|by apply end_no_payload].
Qed.

Lemma inference_failed_ends policy err e k s :
  ends policy err k s (inference_failed pool claim e (Z.of_nat k) s).
Proof.
  unfold ends, inference_failed. rewrite bind_unfold.
  destruct (stop_calls s) as ((x & E & X) & Hs & _).
  destruct (stopHeartbeatAndWait pool claim s) as [u s1]. cbn [fst snd] in *.
  rewrite bind_unfold. unfold lease_lost. rewrite bind_unfold, ret_unfold.
  cbn [get_world fst snd]. destruct (errors_Is (sc_cause s1) ErrLeaseExtendFailed).
  - rewrite ret_unfold. cbn [fst snd]. exists x, []. rewrite app_nil_r.
    split; [done|]. split; [done|apply end_lease_lost].
  - rewrite bind_unfold, ret_unfold. cbn [fst snd]. exists x, (failed_tail (Z.of_nat k)).
    destruct (fail_job_calls (Z.of_nat k) true s1 Hs) as [E2 _].
    split; [by rewrite E2, E, app_assoc|]. split; [done|by apply end_failed].
Qed.

(** The end of a job whose heartbeat is stopped: the stream is closed and the
    lease is released. *)
Lemma close_release_calls s :
  sc_beat s = Stopped ->
  after_stop s (op pool claim (wq_Release (jc_JobID claim))
      (publishing pool claim (ws_Close (jc_JobID claim)) s).2).2
    (if_stream [EvClose (jc_JobID claim)] ++ [EvRelease (jc_JobID claim)]).
Proof.
  intros Hs. pose proof (publishing_after_stop _ _ s (tr_close (jc_JobID claim)) Hs) as H1.
  eapply after_stop_trans; [exact H1|].
  apply (op_after_stop _ _ _ (tr_release (jc_JobID claim)) (proj2 H1)).
Qed.

Lemma inference_succeeded_ends policy err k s :
  ends policy err k s (inference_succeeded pool claim (Z.of_nat k) s).
Proof.
  unfold ends, inference_succeeded. rewrite bind_unfold.
  destruct (op_calls _ _ s (tr_marker (jc_JobID claim))) as ((x1 & E1 & X1) & _).
  destruct (op pool claim (wq_MarkCompleted _) s) as [e1 s1]. cbn [fst snd] in *.
  rewrite bind_unfold.
  destruct (op_calls _ _ s1 (tr_completed (jc_JobID claim) (Z.of_nat k))) as ((x2 & E2 & X2) & _).
  destruct (op pool claim (wj_MarkCompleted _ _) s1) as [[e|] s2]; cbn [fst snd] in *;
    rewrite bind_unfold.
  - destruct (stop_calls s2) as ((x3 & E3 & X3) & Hs & _).
    destruct (stopHeartbeatAndWait pool claim s2) as [u s3]. cbn [fst snd] in *.
    rewrite !bind_unfold, ret_unfold. cbn [fst snd].
    destruct (close_release_calls s3 Hs) as [E4 _].
    eexists x1, _. split; [|split; [exact X1|apply (end_unrecorded policy err k x2 x3 e X2 X3)]].
    cbn [fst snd]. rewrite E4, E3, E2, E1. rewrite <- !app_assoc. done.
  - destruct (lift_silent (wm_observe JobCompleted) s2 (tr_metric _)) as (Eo & _).
    assert (Eo' : calls (sc_world (observe pool JobCompleted s2).2) = calls (sc_world s2)).
    { unfold observe, when. by destruct (pool_metrics pool). }
    destruct (observe pool JobCompleted s2) as [u2 s2']. cbn [fst snd] in *. rewrite bind_unfold.
    destruct (stop_calls s2') as ((x3 & E3 & X3) & Hs & _).
    destruct (stopHeartbeatAndWait pool claim s2') as [u s3]. cbn [fst snd] in *.
    rewrite bind_unfold.
    pose proof (op_after_stop _ _ s3
      (tr_transition (jc_UserID claim) (jc_JobID claim) "completed") Hs) as [E4 Hs4].
    destruct (op pool claim (wi_TransitionStatus _ _ _) s3) as [e4 s4]. cbn [fst snd] in *.
    rewrite !bind_unfold, ret_unfold. cbn [fst snd].
    destruct (close_release_calls s4 Hs4) as [E5 _].
    eexists x1, _. split; [|split; [exact X1|apply (end_completed policy err k x2 x3 X2 X3)]].
    cbn [fst snd]. rewrite E5, E4, E3, Eo', E2, E1. rewrite <- !app_assoc. done.
Qed.

(** The scope in which a claimed job starts. *)
Definition fresh_scope w : S :=
  MkScope (beat_schedule w).2 None (Beating 0) 0 (beat_schedule w).1.

Lemma with_scope_fresh {A} (m : M S A) w :
  with_scope m w = ((m (fresh_scope w)).1, sc_world (m (fresh_scope w)).2).
Proof.
  unfold with_scope, fresh_scope. rewrite bind_unfold. cbv beta.
  destruct (beat_schedule w) as [sched w0]. cbn [fst snd]. by destruct (m _).
Qed.

(** C9: the protocol of a job.  Whatever the services answer and whenever the
    heartbeat ticks, a claimed job first makes calls that end nothing -
    reading the policy and the payload, generations, chunks, "retrying"
    events, renewals - with at most as many generations as the policy that it
    read first allows, and then ends in one of five ways.  Its lease was lost:
    nothing more.  There is no payload: after no generation at all the job is
    marked failed with the attempts of the policy as its count, its idempotency
    key ended as failed, the lease released and the failure published, in this
    order, and the result is the error of reading the policy, if there was one.
    The generations failed: the same calls, with the number of generations as
    the count.  It is completed: the completion marker is set before the job is
    marked completed with the number of generations, then the key is ended as
    completed, the stream closed and the lease released last.  Or it could not
    be marked completed, which was tried with that number: the stream is closed
    and the lease released.  The lease is never renewed after its release. *)
Theorem job_protocol w :
  let p := with_scope (process_claimed pool claim) w in
  let '(policy, err) := (retry_policy pool claim (fresh_scope w)).1 in
  exists pre tail, calls p.2 = calls w ++ pre ++ tail /\ Forall quiet pre
    /\ (generations pre <= Z.to_nat (irp_MaxAttempts policy))%nat
    /\ job_end policy err (generations pre) tail p.1.
Proof.
  cbv zeta. rewrite with_scope_fresh. cbn [fst snd].
  assert (Hsch : calls (sc_world (fresh_scope w)) = calls w) by apply tr_schedule.
  assert (Ha0 : sc_attempts (fresh_scope w) = 0%Z) by done.
  set (s := fresh_scope w) in *. clearbody s.
  unfold process_claimed. rewrite bind_unfold.
  destruct (Calm_retry_policy s) as [Hq1 Ha1].
  destruct (retry_policy pool claim s) as [[policy err] s1]. cbn [fst snd] in *.
  assert (Hcomb : forall s' k r, quietly s s' k -> ends policy err k s' r ->
    (k <= Z.to_nat (irp_MaxAttempts policy))%nat ->
    exists pre tail, calls (sc_world r.2) = calls w ++ pre ++ tail /\ Forall quiet pre
      /\ (generations pre <= Z.to_nat (irp_MaxAttempts policy))%nat
      /\ job_end policy err (generations pre) tail r.1).
  { intros s' k r (t & E & Q & <-) (x & tail & E2 & X & Hend) Hk.
    exists (t ++ x), tail. destruct (extends_quiet _ X) as [Qx Gx].
    rewrite generations_app, Gx, Nat.add_0_r, E2, E, Hsch, <- !app_assoc.
    repeat split; try done. by apply Forall_app. }
  rewrite bind_unfold. destruct (Calm_fetch_payload policy s1) as [Hq2 Ha2].
  destruct (fetch_payload pool claim policy s1) as [[payload|pe] s2]; cbn [fst snd] in *;
    pose proof (quietly_trans _ _ _ _ _ Hq1 Hq2) as Hq12; cbn in Hq12.
  2:{ apply (Hcomb s2 0%nat _ Hq12); [apply payload_failed_ends|lia]. }
  rewrite bind_unfold.
  destruct (run_inference_quietly policy payload s2) as (k & Hq3 & Ha3 & Hk); [by rewrite Ha2, Ha1|].
  destruct (run_inference pool claim policy payload s2) as [r s3]. cbn [fst snd] in *.
  pose proof (quietly_trans _ _ _ _ _ Hq12 Hq3) as Hq13. cbn in Hq13.
  rewrite bind_unfold. cbn [get_world fst snd]. rewrite Ha3.
  destruct r as [v|e];
    (apply (Hcomb s3 k _ Hq13); [|exact Hk]);
    [apply inference_succeeded_ends|apply inference_failed_ends].
Qed.
End traced.

(** ** Losing the lease *)

Section lease.
Context {W : Type} `{!JobClaimer W, !JobRepository W, !InferenceEngine W, !StreamPublisher W,
  !Queue W, !IdempotencyStatusUpdater W, !WorkerMetrics W, !JobEnv W, !GoClock W}.
#[local] Abbreviation S := (jobscope W).
Implicit Types s : S.

(** The renewal budget is not used.  The configuration must allow at
    least one failed renewal, but the pool that [NewWorkerPool] builds does
    not get the number: the first renewal that fails, for whatever reason,
    stops the heartbeat and cancels the job as if the lease were lost. *)
Theorem renewal_budget_ignored cfg stream metrics pool claim n s e :
  NewWorkerPool (Some cfg) stream metrics = Ok pool ->
  sc_beat s = Beating n -> (0 <= n)%Z -> sc_cause s = None ->
  (wq_ExtendLease (jc_JobID claim) (sc_world s)).1 = Some e ->
  (0 < MaxRenewalFailures cfg)%Z
  /\ sc_beat (heartbeat_tick pool claim s).2 = Stopped
  /\ errors_Is (sc_cause (heartbeat_tick pool claim s).2) ErrLeaseExtendFailed = true.
Proof.
  intros Hnew Hb Hn Hc He. unfold NewWorkerPool in Hnew.
  repeat (case_match; try discriminate Hnew). injection Hnew as <-. split; [lia|].
  unfold heartbeat_tick. rewrite bind_unfold. cbn [get_world fst snd]. rewrite Hb, bind_unfold.
  unfold lift. destruct (wq_ExtendLease (jc_JobID claim) (sc_world s)) as [err w].
  cbn [fst snd] in *. subst err. cbn [maxRenewalFailures].
  destruct (errors_Is (Some e) ErrLeaseExtendFailed);
    [|rewrite (proj2 (Z.leb_le 0 (n + 1))) by lia]; rewrite bind_unfold; cbn;
    rewrite Hc; done.
Qed.

(** A cancelled context stays cancelled, with its first cause. *)
Definition keeps_cause {A} (m : M S A) : Prop :=
  forall s c, sc_cause s = Some c -> sc_cause (m s).2 = Some c.

Lemma keeps_bind {A B} (m : M S A) (k : A -> M S B) :
  keeps_cause m -> (forall a, keeps_cause (k a)) -> keeps_cause (x ← m; k x).
Proof. intros Hm Hk s c Hs. rewrite bind_unfold. by apply Hk, Hm. Qed.

Lemma tick_keeps pool claim : keeps_cause (heartbeat_tick pool claim).
Proof.
  intros s c Hs. unfold heartbeat_tick. rewrite bind_unfold. cbn [get_world fst snd].
  destruct (sc_beat s); [|done]. rewrite bind_unfold. unfold lift.
  destruct (wq_ExtendLease (jc_JobID claim) (sc_world s)) as [err w]. cbn [fst snd].
  repeat case_match; try done; rewrite bind_unfold; cbn; by rewrite Hs.
Qed.

Lemma beats_keeps pool claim : keeps_cause (beats pool claim).
Proof.
  intros s c Hs. unfold beats. rewrite bind_unfold. cbn [get_world fst snd].
  destruct (sc_sched s) as [|n rest]; [done|]. rewrite bind_unfold. cbn [modify_world snd].
  assert (Ht : forall n, keeps_cause (ticks pool claim n)).
  { clear. induction n as [|n IH]; [by intros s c|].
    apply keeps_bind; [apply tick_keeps|done]. }
  by apply Ht.
Qed.

Lemma ctx_Err_cancelled pool claim s c :
  sc_cause s = Some c ->
  (job_ctx_Err pool claim s).1 = Some Canceled
  /\ sc_cause (job_ctx_Err pool claim s).2 = Some c.
Proof.
  intros Hs. unfold job_ctx_Err. rewrite !bind_unfold, ret_unfold. cbn [get_world fst snd].
  by rewrite (beats_keeps pool claim s c Hs).
Qed.

Lemma inference_failed_lost pool claim err n s c :
  sc_cause s = Some c -> errors_Is (Some c) ErrLeaseExtendFailed = true ->
  (inference_failed pool claim err n s).1 = Some (Errorf2 ErrLeaseExtendFailed err).
Proof.
  intros Hs Hc. unfold inference_failed. rewrite bind_unfold.
  assert (Hst : sc_cause (stopHeartbeatAndWait pool claim s).2 = Some c).
  { unfold stopHeartbeatAndWait. rewrite bind_unfold. cbn. by apply beats_keeps. }
  unfold lease_lost. rewrite !bind_unfold, ret_unfold. cbn [get_world fst snd].
  by rewrite Hst, Hc.
Qed.

(** The loop of the attempts reaches one that starts in [s']. *)
Definition input_for pool (payload : JobPayload) : GenerationInput :=
  MkGenerationInput (wp_Model payload) (wp_Prompt payload) (wp_MaxOutputTokens payload)
    (temperature pool).

Definition at_attempt pool claim policy payload s s' : Prop :=
  exists left attempt lastErr, run_inference pool claim policy payload s =
    @Retry.retry_loop S (job_ctx pool claim) unit
      (Retry.MkRetryPolicy (irp_MaxAttempts policy) (irp_BaseDelay policy) (irp_MaxDelay policy)
         (Some (fun e => errors_Is (Some e) ErrTransientInference))
         (Some (on_attempt_failed pool claim)))
      (generate pool claim (input_for pool payload)) (Datatypes.S left) attempt lastErr s'.

Lemma first_attempt pool claim policy payload s :
  (0 < irp_MaxAttempts policy)%Z -> at_attempt pool claim policy payload s s.
Proof.
  intros Hmax. unfold at_attempt, run_inference, Retry.DoWithRetry. cbn [Retry.MaxAttempts].
  rewrite (proj2 (Z.leb_gt _ 0)) by done.
  destruct (Z.to_nat (irp_MaxAttempts policy)) as [|left] eqn:El; [lia|]. by exists left, 1%nat, None.
Qed.

(** The loop gives up when the context is cancelled during an attempt that
    fails. *)
Lemma attempt_cancelled pool claim policy payload s s' e s1 c :
  at_attempt pool claim policy payload s s' ->
  generate pool claim (input_for pool payload) s' = (Err e, s1) -> sc_cause s1 = Some c ->
  exists s2, run_inference pool claim policy payload s = (Err Canceled, s2) /\ sc_cause s2 = Some c.
Proof.
  intros (left & attempt & lastErr & ->) Hgen Hc.
  destruct (ctx_Err_cancelled pool claim s1 c Hc) as [He Hc2].
  exists (job_ctx_Err pool claim s1).2. split; [|exact Hc2].
  cbn [Retry.retry_loop]. rewrite bind_unfold, Hgen. cbn [fst snd].
  rewrite bind_unfold. change (@ctx_Err S (job_ctx pool claim)) with (job_ctx_Err pool claim).
  by rewrite He.
Qed.

(** The scope of the job that [processJob] has claimed in [w]. *)
Definition claimed_scope pool (w : W) : S :=
  fresh_scope (when (pool_metrics pool) (wm_observe JobStarted) (time_Now w).2).2.

(** C39: a lost lease ends the worker.  A worker whose context is live claims a
    job, reads the policy and the payload, and loses the lease during a
    generation that fails, in whichever attempt.  Then the retry loop gives up
    with the error of the cancelled context of the job, [processJob] returns
    an error that wraps it, and the loop of the worker takes this for its own
    cancellation: the worker returns, although its context is live, and the
    pool has one worker less. *)
Theorem lease_loss_stops_worker `{!GoContext W} pool id w w1 claim policy perr payload s1 s2 s e s3 c :
  (ctx_Err w).1 = None ->
  wk_ClaimNextJob id (ctx_Err w).2 = (Ok (Some claim), w1) ->
  retry_policy pool claim (claimed_scope pool w1) = ((policy, perr), s1) ->
  fetch_payload pool claim policy s1 = (Ok payload, s2) ->
  at_attempt pool claim policy payload s2 s ->
  generate pool claim (input_for pool payload) s = (Err e, s3) ->
  sc_cause s3 = Some c -> errors_Is (Some c) ErrLeaseExtendFailed = true ->
  (processJob pool id (ctx_Err w).2).1 = Some (Errorf2 ErrLeaseExtendFailed Canceled)
  /\ forall n, (runWorker (Datatypes.S n) pool id w).1 = false.
Proof.
  intros Hlive Hclaim Hpol Hpay Hat Hgen Hc Hlost.
  destruct (attempt_cancelled _ _ _ _ _ _ _ _ _ Hat Hgen Hc) as (s4 & Hrun & Hc4).
  assert (Hjob : (process_claimed pool claim (claimed_scope pool w1)).1
    = Some (Errorf2 ErrLeaseExtendFailed Canceled)).
  { unfold process_claimed. rewrite bind_unfold, Hpol. cbn [fst snd].
    rewrite bind_unfold, Hpay. cbn [fst snd]. rewrite bind_unfold, Hrun. cbn [fst snd].
    rewrite bind_unfold. cbn [get_world fst snd]. by apply (inference_failed_lost _ _ _ _ _ c). }
  assert (Hproc : (processJob pool id (ctx_Err w).2).1 = Some (Errorf2 ErrLeaseExtendFailed Canceled)).
  { unfold processJob. rewrite bind_unfold, Hclaim. cbn [fst snd]. rewrite !bind_unfold.
    rewrite ret_unfold. cbn [fst]. rewrite with_scope_fresh. exact Hjob. }
  split; [exact Hproc|]. intros n. cbn [runWorker]. rewrite bind_unfold.
  unfold worker_iteration. rewrite bind_unfold, Hlive, bind_unfold, Hproc. reflexivity.
Qed.

(** A job that failed without its payload is reported as a success.
    When the payload cannot be fetched and the retry policy could be, the job
    is marked failed and its stream told so, but [processJob] returns the
    error of the policy, which is nil: the attempt is counted as a success
    and the worker goes on at once. *)
Theorem payload_failure_reported `{!Traced W} pool claim s policy s1 e s2 :
  retry_policy pool claim s = ((policy, None), s1) ->
  fetch_payload pool claim policy s1 = (Err e, s2) ->
  errors_Is (sc_cause (stopHeartbeatAndWait pool claim s2).2) ErrLeaseExtendFailed = false ->
  (process_claimed pool claim s).1 = None
  /\ calls (sc_world (process_claimed pool claim s).2)
     = calls (sc_world (stopHeartbeatAndWait pool claim s2).2)
       ++ failed_tail pool claim (irp_MaxAttempts policy).
Proof.
  intros Hp Hf Hc. unfold process_claimed. rewrite bind_unfold, Hp. cbn [fst snd].
  rewrite bind_unfold, Hf. cbn [fst snd]. unfold payload_failed. rewrite bind_unfold.
  destruct (stop_calls pool claim s2) as (_ & Hs & _).
  destruct (stopHeartbeatAndWait pool claim s2) as [u s3]. cbn [fst snd] in *.
  rewrite bind_unfold. unfold lease_lost. rewrite bind_unfold, ret_unfold. cbn [get_world fst snd].
  rewrite Hc, bind_unfold, ret_unfold. cbn [fst snd]. split; [done|].
  by destruct (fail_job_calls pool claim (irp_MaxAttempts policy) false s3 Hs).
Qed.
End lease.

(** ** Witnesses *)

Module WorkerDemo.
(** The world is the log of the calls.  Renewals fail; job "broken" has no
    payload; the engine fails after one chunk. *)
Definition log : Type := list event.
Definition say {A} (e : event) (a : A) : M log A := fun w => (a, w ++ [e]).

#[export] Instance claimer : JobClaimer log := {|
  wk_ClaimNextJob := fun _ => mret (Ok (Some (MkJobClaimResult "j" "u"))) |}.
#[export] Instance jobs : JobRepository log := {|
  wj_Payload := fun c => say (EvPayload (jc_JobID c))
    (if String.eqb (jc_JobID c) "broken" then Err (errors_New "no payload")
     else Ok (MkJobPayload (jc_JobID c) (jc_UserID c) "hello" "m" 64));
  wj_GetRetryPolicy := fun u => say (EvPolicy u) (Ok (MkInferenceRetryPolicy 3 second (60 * second)));
  wj_MarkCompleted := fun j n => say (EvMarkCompleted j n) None;
  wj_MarkFailed := fun j n => say (EvMarkFailed j n) None |}.
#[export] Instance engine : InferenceEngine log := {|
  we_GenerateStream := fun _ => say EvGenerate
    (GenChunk (MkStreamChunk "hel") (fun _ => GenEnd (Some ErrTransientInference))) |}.
#[export] Instance stream : StreamPublisher log := {|
  ws_Publish := fun j _ => say (EvChunk j) None;
  ws_PublishEvent := fun j k _ => say (EvEvent j k) None;
  ws_Close := fun j => say (EvClose j) None |}.
#[export] Instance queue : Queue log := {|
  wq_Release := fun j => say (EvRelease j) None;
  wq_ExtendLease := fun j => say (EvExtend j) (Some (errors_New "i/o timeout"));
  wq_MarkCompleted := fun j => say (EvMarker j) None |}.
#[export] Instance keys : IdempotencyStatusUpdater log := {|
  wi_TransitionStatus := fun _ j st => say (EvTransition j st) None |}.
#[export] Instance metrics : WorkerMetrics log := {| wm_observe := fun _ => skip |}.
(** One tick of the heartbeat, before the chunk of the second generation. *)
#[export] Instance env : JobEnv log := {|
  time_Sleep := fun _ => skip; beat_schedule := mret (repeat 0 10 ++ [1])%nat |}.
#[export] Instance clock : GoClock log := {| time_Now := mret 0%Z |}.
#[export] Instance ctx : GoContext log := {| ctx_Err := mret None; ctx_sleep := fun _ => mret None |}.
#[export] Instance traced : Traced log.
Proof.
  refine {| calls := id |}; try done; intros; cbn; by rewrite app_nil_r.
Defined.

Definition config : WorkerConfig :=
  MkWorkerConfig 4 second (30 * second) "0.7" 3 (60 * second) second 3.
Definition pool : workerPool :=
  MkWorkerPool 4 second (30 * second) "0.7" 3 (60 * second) second 0 true true.
Definition claim (j : string) : JobClaimResult := MkJobClaimResult j "u".
Definition start (sched : list nat) : jobscope log := MkScope [] None (Beating 0) 0 sched.
(** Job "j" when its second generation starts. *)
Definition again : jobscope log :=
  MkScope [EvPolicy "u"; EvPayload "j"; EvGenerate; EvChunk "j"; EvEvent "j" "retrying"]
    None (Beating 0) 1 [0; 1]%nat.
End WorkerDemo.

#[local] Existing Instances WorkerDemo.claimer WorkerDemo.jobs WorkerDemo.engine
  WorkerDemo.stream WorkerDemo.queue WorkerDemo.keys WorkerDemo.metrics WorkerDemo.env
  WorkerDemo.clock WorkerDemo.ctx WorkerDemo.traced.

(** A job without a payload, and one that loses its lease in its second
    generation. *)
Definition demo_end (j : string) : Prop :=
  exists pre tail,
    calls (with_scope (process_claimed WorkerDemo.pool (WorkerDemo.claim j)) []).2 = pre ++ tail
    /\ Forall quiet pre /\ (generations pre <= 3)%nat
    /\ job_end WorkerDemo.pool (WorkerDemo.claim j) (MkInferenceRetryPolicy 3 second (60 * second))
         None (generations pre) tail
         (with_scope (process_claimed WorkerDemo.pool (WorkerDemo.claim j)) []).1.

Lemma job_protocol_witness :
  demo_end "broken" /\ demo_end "j"
  /\ calls (with_scope (process_claimed WorkerDemo.pool (WorkerDemo.claim "broken")) []).2
     = [EvPolicy "u"; EvPayload "broken"; EvMarkFailed "broken" 3;
        EvTransition "broken" "failed"; EvRelease "broken"; EvEvent "broken" "failed"]
  /\ calls (with_scope (process_claimed WorkerDemo.pool (WorkerDemo.claim "j")) []).2
     = [EvPolicy "u"; EvPayload "j"; EvGenerate; EvChunk "j"; EvEvent "j" "retrying";
        EvGenerate; EvExtend "j"; EvChunk "j"].
Proof.
  split; [|split; [|split; vm_compute; reflexivity]].
  - exact (job_protocol WorkerDemo.pool (WorkerDemo.claim "broken") []).
  - exact (job_protocol WorkerDemo.pool (WorkerDemo.claim "j") []).
Defined.

Lemma renewal_budget_ignored_witness :
  sc_beat (heartbeat_tick WorkerDemo.pool (WorkerDemo.claim "j") (WorkerDemo.start [])).2 = Stopped.
Proof.
  refine (proj1 (proj2 (renewal_budget_ignored WorkerDemo.config true true WorkerDemo.pool
    (WorkerDemo.claim "j") 0 (WorkerDemo.start []) (errors_New "i/o timeout") _ _ _ _ _)));
    first [reflexivity | discriminate].
Defined.

(** The configuration allows three failed renewals; one failed renewal, in the
    second generation of the first job, stops the worker. *)
Lemma lease_loss_stops_worker_witness :
  NewWorkerPool (Some WorkerDemo.config) true true = Ok WorkerDemo.pool
  /\ (runWorker 1 WorkerDemo.pool 0 []).1 = false.
Proof.
  split; [reflexivity|].
  edestruct (lease_loss_stops_worker WorkerDemo.pool 0 [] []
    (WorkerDemo.claim "j") (MkInferenceRetryPolicy 3 second (60 * second)) None
    (MkJobPayload "j" "u" "hello" "m" 64)) with (s := WorkerDemo.again) as [_ Hw].
  - reflexivity.
  - reflexivity.
  - vm_compute. reflexivity.
  - vm_compute. reflexivity.
  - exists 1%nat, 2%nat, (Some (Errorf2 ErrInferenceFailed ErrTransientInference)).
    vm_compute. reflexivity.
  - vm_compute. reflexivity.
  - reflexivity.
  - reflexivity.
  - exact (Hw 0%nat).
Defined.

Lemma payload_failure_reported_witness :
  (process_claimed WorkerDemo.pool (WorkerDemo.claim "broken") (WorkerDemo.start [])).1 = None.
Proof.
  eapply (payload_failure_reported WorkerDemo.pool (WorkerDemo.claim "broken")
    (WorkerDemo.start [])); [vm_compute; reflexivity | vm_compute; reflexivity | reflexivity].
Defined.
