(* ===== verification/Recovery.v ===== *)
(** * Recovery (internal/recovery)

    The sweeps over expired leases, completed jobs and orphans, and the
    adapters through which they see the scheduler, the jobs, the idempotency
    keys and the streams. *)

From S2P Require Import Prelude GoErr Redis Env.
From S2P Require Scheduler Job.
From stdpp Require Import base gmap sets list strings pretty.
From Stdlib Require Import ZArith Lia.

(** ** domain *)

Definition StatusCreated := "created".
Definition ErrJobNotFound : goerr := Leaf (Sentinel "recovery.ErrJobNotFound") "job not found".

Record RecoveryJob := MkRecoveryJob {
  rj_JobID : string; rj_UserID : string; rj_Status : string; rj_RetryCount : Z }.

Class Queue (W : Type) := {
  q_ExpiredJobIDs : Z -> Z -> M W (res goerr (list string));
  q_RemoveIfExpired : string -> Z -> M W (res goerr bool);
  q_RequeueIfExpired : string -> string -> Z -> M W (res goerr bool);
  q_CompletedJobIDs : M W (res goerr (list string));
  q_RemoveCompletedJob : string -> M W (option goerr);
  q_EnqueueIfAbsent : string -> string -> Z -> M W (res goerr bool) }.

Class Jobs (W : Type) := {
  j_ByID : string -> M W (res goerr RecoveryJob);
  j_PendingOrphans : Z -> Z -> M W (res goerr (list RecoveryJob)) }.

Class StatusWriter (W : Type) := {
  s_MarkCompleted : string -> Z -> M W (option goerr);
  s_MarkFailed : string -> Z -> M W (option goerr);
  s_UpdateCreated : string -> Z -> M W (res goerr bool) }.

(** [RetryPolicy{MaxAttempts}]. *)
Class Policies (W : Type) := { p_GetRetryPolicy : string -> M W (res goerr Z) }.

Class IdempotencyFailure (W : Type) := {
  i_TransitionStatus : string -> string -> M W (res goerr bool) }.

Class Events (W : Type) := {
  e_PublishEvent : string -> string -> string -> M W (option goerr);
  e_Close : string -> M W (option goerr) }.

Inductive recovery_metric : Type := JobRequeued | JobRetried | JobCompleted | JobFailed.
Class RecoveryMetrics (W : Type) := { r_observe : recovery_metric -> M W unit }.

(** ** errors *)

Definition ErrCodeQueueRecoveryFailed := "RECOVERY_QUEUE_OPERATION_FAILED".
Definition ErrCodeJobLookupFailed := "RECOVERY_JOB_LOOKUP_FAILED".
Definition ErrCodeRetryPolicyLookupFailed := "RECOVERY_RETRY_POLICY_LOOKUP_FAILED".
Definition ErrCodeJobStatusUpdateFailed := "RECOVERY_JOB_STATUS_UPDATE_FAILED".
Definition ErrCodeIdempotencyUpdateFailed := "RECOVERY_IDEMPOTENCY_UPDATE_FAILED".
Definition ErrCodeEventPublishFailed := "RECOVERY_EVENT_PUBLISH_FAILED".
Definition ErrCodeReconcileFailed := "RECOVERY_RECONCILE_FAILED".
Definition ErrCodeOrphanSweepFailed := "RECOVERY_ORPHAN_SWEEP_FAILED".
Definition ErrTypeRecovery := "RECOVERY_FAILED".

(** ** usecase/service.go *)

(** The settings; [stopping] says whether [stop] holds a cancel function. *)
Record RecoveryService := MkRecoveryService {
  interval : Z; batch : Z; orphanGrace : Z; queueCapacity : Z; running : bool }.

Section recovery.
Context {W : Type} `{!Queue W, !Jobs W, !StatusWriter W, !Policies W, !IdempotencyFailure W,
  !Events W, !RecoveryMetrics W, !GoClock W}.
Context (s : RecoveryService).

Definition recovery_error (code : string) (err : option goerr) : option goerr :=
  EnsureAppError err code ErrTypeRecovery.
Definition recovery_new (code : string) (err : goerr) : option goerr :=
  Some (NewAppError code ErrTypeRecovery (Some err)).

Definition as_error {A} (r : res goerr A) : option goerr :=
  match r with Ok _ => None | Err e => Some e end.

(** The body of the loop of [ReconcileCompleted]. *)
Definition reconcile_one (id : string) : M W (option goerr) :=
  j ← j_ByID id;
  match j with
  | Err err =>
      _ ← when (errors_Is (Some err) ErrJobNotFound) (_ ← q_RemoveCompletedJob id; skip);
      mret None
  | Ok job =>
      ok ← (if String.eqb (rj_Status job) StatusCreated then
              e ← s_MarkCompleted id (rj_RetryCount job);
              match e with
              | Some _ => mret false
              | None => _ ← r_observe JobCompleted; mret true
              end
            else mret true);
      if negb (ok : bool) then mret None
      else
        t ← i_TransitionStatus id "completed";
        match t with
        | Err _ => mret None
        | Ok _ =>
            _ ← e_Close id;
            e ← q_RemoveCompletedJob id;
            mret match e with
                 | Some err => recovery_error ErrCodeReconcileFailed (Some err)
                 | None => None
                 end
        end
  end.

Definition ReconcileCompleted : M W (option goerr) :=
  ids ← q_CompletedJobIDs;
  match ids with
  | Err err => mret (recovery_error ErrCodeReconcileFailed (Some err))
  | Ok ids => for_each_err reconcile_one ids
  end.

(** The defaults that [SweepOrphans] stores in the service. *)
Definition effective_grace : Z :=
  if (orphanGrace s <=? 0)%Z then 5 * interval s else orphanGrace s.
Definition effective_capacity : Z :=
  if (queueCapacity s <=? 0)%Z then 10 else queueCapacity s.

Definition sweep_orphan (job : RecoveryJob) : M W unit :=
  q ← q_EnqueueIfAbsent (rj_JobID job) (rj_UserID job) effective_capacity;
  match q with
  | Err _ => skip
  | Ok queued => when queued (r_observe JobRequeued)
  end.

Definition SweepOrphans : M W (option goerr) :=
  now ← time_Now;
  jobs ← j_PendingOrphans (now - effective_grace)%Z (batch s);
  match jobs with
  | Err err => mret (recovery_error ErrCodeOrphanSweepFailed (Some err))
  | Ok jobs => _ ← for_each sweep_orphan jobs; mret None
  end.

(** Lines 157-178: a job whose attempts are used up. *)
Definition recover_exhausted (id : string) (next cutoff : Z) : M W (option goerr) :=
  c ← q_RemoveIfExpired id cutoff;
  match c with
  | Err err => mret (recovery_error ErrCodeQueueRecoveryFailed (Some err))
  | Ok false => mret None
  | Ok true =>
      e ← s_MarkFailed id next;
      match e with
      | Some err => mret (recovery_new ErrCodeJobStatusUpdateFailed err)
      | None =>
          _ ← r_observe JobFailed;
          t ← i_TransitionStatus id "failed";
          match t with
          | Err err => mret (recovery_new ErrCodeIdempotencyUpdateFailed err)
          | Ok _ =>
              e ← e_PublishEvent id "failed" "recovery retry limit exceeded";
              mret (recovery_error ErrCodeEventPublishFailed e)
          end
      end
  end.

(** Lines 179-193: a job with attempts left. *)
Definition recover_retry (id userID : string) (next cutoff : Z) : M W (option goerr) :=
  c ← q_RequeueIfExpired id userID cutoff;
  match c with
  | Err err => mret (recovery_error ErrCodeQueueRecoveryFailed (Some err))
  | Ok false => mret None
  | Ok true =>
      u ← s_UpdateCreated id next;
      match u with
      | Err err => mret (recovery_error ErrCodeJobStatusUpdateFailed (Some err))
      | Ok _ => _ ← r_observe JobRequeued; _ ← r_observe JobRetried; mret None
      end
  end.

Definition recoverOne (id : string) (cutoff : Z) : M W (option goerr) :=
  j ← j_ByID id;
  match j with
  | Err err =>
      if errors_Is (Some err) ErrJobNotFound then
        r ← q_RemoveIfExpired id cutoff;
        mret (recovery_error ErrCodeQueueRecoveryFailed (as_error r))
      else mret (recovery_new ErrCodeJobLookupFailed err)
  | Ok job =>
      if negb (String.eqb (rj_Status job) StatusCreated) then
        r ← q_RemoveIfExpired id cutoff;
        mret (recovery_error ErrCodeQueueRecoveryFailed (as_error r))
      else
        p ← p_GetRetryPolicy (rj_UserID job);
        match p with
        | Err err => mret (recovery_new ErrCodeRetryPolicyLookupFailed err)
        | Ok maxAttempts =>
            if (maxAttempts <=? rj_RetryCount job)%Z
            then recover_exhausted id (rj_RetryCount job) cutoff
            else recover_retry id (rj_UserID job) (rj_RetryCount job + 1) cutoff
        end
  end.

Definition Sweep : M W (option goerr) :=
  now ← time_Now;
  let now_ms := (now / 10 ^ 6)%Z in
  ids ← q_ExpiredJobIDs now_ms (batch s);
  match ids with
  | Err err => mret (recovery_new ErrCodeQueueRecoveryFailed err)
  | Ok ids => _ ← for_each (fun id => _ ← recoverOne id now_ms; skip) ids; mret None
  end.

(** One tick of the loop of [Start]: the three sweeps, errors logged. *)
Definition recovery_tick : M W unit :=
  _ ← Sweep; _ ← ReconcileCompleted; _ ← SweepOrphans; skip.
End recovery.

(** [Start] sets the defaults and starts the loop once; [Stop] cancels it. *)
Definition recovery_Start (s : RecoveryService) : RecoveryService :=
  MkRecoveryService
    (if (interval s <=? 0)%Z then 30 * second else interval s)
    (if (batch s <=? 0)%Z then 100 else batch s)
    (orphanGrace s) (queueCapacity s) true.
Definition recovery_Stop (s : RecoveryService) : RecoveryService :=
  MkRecoveryService (interval s) (batch s) (orphanGrace s) (queueCapacity s) false.

(** ** adapters *)

(** The other modules' services, as their packages define them. *)
Class JobReaderWriter (W : Type) := {
  jsvc_GetByID : string -> M W (res goerr Job.JobSnapshot);
  jsvc_PendingOrphans : Z -> Z -> M W (res goerr (list Job.JobSnapshot));
  jsvc_MarkCompleted : string -> Z -> M W (option goerr);
  jsvc_MarkFailed : string -> Z -> M W (option goerr);
  jsvc_UpdateStatusIfStatus : string -> Z -> string -> string -> M W (res goerr bool);
  jsvc_GetRetryPolicy : string -> M W (res goerr Job.RetryPolicy) }.

(** The public interfaces of the idempotency store and of the streams. *)
Class PublicIdempotency (W : Type) := {
  isvc_TransitionStatusIfInFlight : string -> string -> M W (res goerr bool) }.
Class PublicEvents (W : Type) := {
  esvc_Publish : string -> string -> string -> M W (option goerr);
  esvc_Close : string -> M W (option goerr) }.

Section adapters.
Context {W : Type}.

Definition of_snapshot (j : Job.JobSnapshot) : RecoveryJob :=
  MkRecoveryJob (Job.js_JobID j) (Job.js_UserID j) (Job.js_Status j) (Job.js_RetryCount j).

Definition JobAdapter_ByID `{!JobReaderWriter W} (jobID : string) : M W (res goerr RecoveryJob) :=
  r ← jsvc_GetByID jobID;
  mret match r with
       | Err err => if IsCode (Some err) Job.ErrCodeJobNotFound then Err ErrJobNotFound else Err err
       | Ok job => Ok (of_snapshot job)
       end.

Definition JobAdapter_UpdateCreated `{!JobReaderWriter W} (jobID : string) (retryCount : Z)
  : M W (res goerr bool) :=
  jsvc_UpdateStatusIfStatus jobID retryCount StatusCreated StatusCreated.

Definition JobAdapter_PendingOrphans `{!JobReaderWriter W} (before limit : Z)
  : M W (res goerr (list RecoveryJob)) :=
  r ← jsvc_PendingOrphans before limit;
  mret (res_map (fun jobs => of_snapshot <$> jobs) r).

Definition JobAdapter_GetRetryPolicy `{!JobReaderWriter W} (userID : string)
  : M W (res goerr Z) :=
  r ← jsvc_GetRetryPolicy userID; mret (res_map Job.MaxAttempts r).

#[global] Instance adapted_Jobs `{!JobReaderWriter W} : Jobs W := {|
  j_ByID := JobAdapter_ByID; j_PendingOrphans := JobAdapter_PendingOrphans |}.
#[global] Instance adapted_StatusWriter `{!JobReaderWriter W} : StatusWriter W := {|
  s_MarkCompleted := jsvc_MarkCompleted; s_MarkFailed := jsvc_MarkFailed;
  s_UpdateCreated := JobAdapter_UpdateCreated |}.
#[global] Instance adapted_Policies `{!JobReaderWriter W} : Policies W := {|
  p_GetRetryPolicy := JobAdapter_GetRetryPolicy |}.

(** The scheduler's recovery service is used as it is. *)
#[global] Instance adapted_Queue `{!Scheduler.RecoveryQueue W} : Queue W := {|
  q_ExpiredJobIDs := Scheduler.rq_ExpiredJobIDs;
  q_RemoveIfExpired := Scheduler.rq_RemoveIfExpired;
  q_RequeueIfExpired := Scheduler.rq_RequeueIfExpired;
  q_CompletedJobIDs := Scheduler.rq_CompletedJobIDs;
  q_RemoveCompletedJob := Scheduler.rq_RemoveCompletedJob;
  q_EnqueueIfAbsent := Scheduler.rq_EnqueueIfAbsent |}.

#[global] Instance adapted_IdempotencyFailure `{!PublicIdempotency W} : IdempotencyFailure W := {|
  i_TransitionStatus := isvc_TransitionStatusIfInFlight |}.
#[global] Instance adapted_Events `{!PublicEvents W} : Events W := {|
  e_PublishEvent := esvc_Publish;
  e_Close := esvc_Close |}.
End adapters.

(** ** module.go *)

Definition NewRecoveryModule (queue jobs statuses policies idempotency events logger : bool)
    (SweepInterval BatchSize OrphanGrace QueueCapacity : Z) : res goerr RecoveryService :=
  let missing what := Err (errors_New ("recovery dependencies: " +:+ what +:+ " must not be nil")) in
  let bad what :=
    Err (errors_New ("recovery config: " +:+ what +:+ " must be greater than zero")) in
  if negb queue then missing "queue"
  else if negb jobs then missing "jobs"
  else if negb statuses then missing "statuses"
  else if negb policies then missing "policies"
  else if negb idempotency then missing "idempotency"
  else if negb events then missing "events"
  else if negb logger then Err (errors_New "recovery logger must not be nil")
  else if (SweepInterval <=? 0)%Z then bad "sweep_interval"
  else if (BatchSize <=? 0)%Z then bad "batch_size"
  else if (OrphanGrace <=? 0)%Z then bad "orphan_grace"
  else if (QueueCapacity <=? 0)%Z then bad "queue_capacity"
  else Ok (MkRecoveryService SweepInterval BatchSize OrphanGrace QueueCapacity false).
