(* ===== verification/RecoveryThms.v ===== *)
(** * Theorems about recovery *)

From S2P Require Import Prelude GoErr Redis Env Postgres.
From S2P Require Job JobThms.
From S2P Require Import Recovery.
From stdpp Require Import base gmap sets list strings pretty.
From Stdlib Require Import ZArith Lia.

(** ** The calls of a recovery, with what they answered *)

Inductive revent : Type :=
| RLookup (id : string) (r : res goerr RecoveryJob)
| RPolicy (u : string) (r : res goerr Z)
| RRemove (id : string) (r : res goerr bool)
| RRequeue (id u : string) (r : res goerr bool)
| RMarkFailed (id : string) (n : Z) (r : option goerr)
| RUpdate (id : string) (n : Z) (r : res goerr bool)
| RTransition (id st : string) (r : res goerr bool)
| RPublish (id kind : string) (r : option goerr).

Class RTraced (W : Type) `{!Queue W, !Jobs W, !StatusWriter W, !Policies W,
    !IdempotencyFailure W, !Events W, !RecoveryMetrics W} := {
  rcalls : W -> list revent;
  rt_lookup id w : rcalls (j_ByID id w).2 = rcalls w ++ [RLookup id (j_ByID id w).1];
  rt_policy u w : rcalls (p_GetRetryPolicy u w).2 = rcalls w ++ [RPolicy u (p_GetRetryPolicy u w).1];
  rt_remove id c w :
    rcalls (q_RemoveIfExpired id c w).2 = rcalls w ++ [RRemove id (q_RemoveIfExpired id c w).1];
  rt_requeue id u c w :
    rcalls (q_RequeueIfExpired id u c w).2 = rcalls w ++ [RRequeue id u (q_RequeueIfExpired id u c w).1];
  rt_failed id n w :
    rcalls (s_MarkFailed id n w).2 = rcalls w ++ [RMarkFailed id n (s_MarkFailed id n w).1];
  rt_update id n w :
    rcalls (s_UpdateCreated id n w).2 = rcalls w ++ [RUpdate id n (s_UpdateCreated id n w).1];
  rt_transition id st w :
    rcalls (i_TransitionStatus id st w).2 = rcalls w ++ [RTransition id st (i_TransitionStatus id st w).1];
  rt_publish id k m w :
    rcalls (e_PublishEvent id k m w).2 = rcalls w ++ [RPublish id k (e_PublishEvent id k m w).1];
  rt_metric x w : rcalls (r_observe x w).2 = rcalls w;
}.

(** The terminal writes of a job whose attempts are used up: each follows
    only if the one before succeeded. *)
Inductive failing (id : string) (n : Z) : list revent -> Prop :=
| failing_unmarked e : failing id n [RMarkFailed id n (Some e)]
| failing_untransitioned e :
    failing id n [RMarkFailed id n None; RTransition id "failed" (Err e)]
| failing_done b p :
    failing id n [RMarkFailed id n None; RTransition id "failed" (Ok b); RPublish id "failed" p].

(** What [recoverOne] does, by what it is answered. *)
Inductive recovered (id : string) : list revent -> Prop :=
| rec_unknown err : errors_Is (Some err) ErrJobNotFound = false -> recovered id [RLookup id (Err err)]
| rec_gone err r : errors_Is (Some err) ErrJobNotFound = true ->
    recovered id [RLookup id (Err err); RRemove id r]
| rec_over job r : rj_Status job <> StatusCreated ->
    recovered id [RLookup id (Ok job); RRemove id r]
| rec_no_policy job err : rj_Status job = StatusCreated ->
    recovered id [RLookup id (Ok job); RPolicy (rj_UserID job) (Err err)]
| rec_spent_lost job max r :
    rj_Status job = StatusCreated -> (max <= rj_RetryCount job)%Z -> r <> Ok true ->
    recovered id [RLookup id (Ok job); RPolicy (rj_UserID job) (Ok max); RRemove id r]
| rec_spent job max t :
    rj_Status job = StatusCreated -> (max <= rj_RetryCount job)%Z ->
    failing id (rj_RetryCount job) t ->
    recovered id ([RLookup id (Ok job); RPolicy (rj_UserID job) (Ok max); RRemove id (Ok true)] ++ t)
| rec_retry_lost job max r :
    rj_Status job = StatusCreated -> (rj_RetryCount job < max)%Z -> r <> Ok true ->
    recovered id [RLookup id (Ok job); RPolicy (rj_UserID job) (Ok max);
                  RRequeue id (rj_UserID job) r]
| rec_retry job max r :
    rj_Status job = StatusCreated -> (rj_RetryCount job + 1 <= max)%Z ->
    recovered id [RLookup id (Ok job); RPolicy (rj_UserID job) (Ok max);
                  RRequeue id (rj_UserID job) (Ok true); RUpdate id (rj_RetryCount job + 1) r].

Section traced.
Context {W : Type} `{!Queue W, !Jobs W, !StatusWriter W, !Policies W, !IdempotencyFailure W,
  !Events W, !RecoveryMetrics W, !RTraced W}.

Definition emits (w w' : W) (t : list revent) : Prop := rcalls w' = rcalls w ++ t.

Lemma emits_trans w1 w2 w3 t1 t2 : emits w1 w2 t1 -> emits w2 w3 t2 -> emits w1 w3 (t1 ++ t2).
Proof. unfold emits. intros E1 E2. by rewrite E2, E1, app_assoc. Qed.

Lemma exhausted_emits id n cutoff w :
  (exists r, r <> Ok true /\ emits w (recover_exhausted id n cutoff w).2 [RRemove id r])
  \/ (exists t, failing id n t
       /\ emits w (recover_exhausted id n cutoff w).2 (RRemove id (Ok true) :: t)).
Proof.
  unfold recover_exhausted. rewrite bind_unfold. pose proof (rt_remove id cutoff w) as H1.
  destruct (q_RemoveIfExpired id cutoff w) as [[[]|e] w1]; cbn [fst snd] in *;
    [|left; eexists; split; [|exact H1]; done|left; eexists; split; [|exact H1]; done].
  right. rewrite bind_unfold. pose proof (rt_failed id n w1) as H2.
  destruct (s_MarkFailed id n w1) as [[e|] w2]; cbn [fst snd] in *.
  { eexists. split; [apply (failing_unmarked _ _ e)|]. exact (emits_trans _ _ _ _ _ H1 H2). }
  rewrite bind_unfold. pose proof (rt_metric JobFailed w2) as Hm.
  destruct (r_observe JobFailed w2) as [u w2']. cbn [fst snd] in *.
  rewrite bind_unfold. pose proof (rt_transition id "failed" w2') as H3. rewrite Hm in H3.
  destruct (i_TransitionStatus id "failed" w2') as [[b|e] w3]; cbn [fst snd] in *.
  2:{ eexists. split; [apply (failing_untransitioned _ _ e)|].
      exact (emits_trans _ _ _ _ _ H1 (emits_trans _ _ _ _ _ H2 H3)). }
  rewrite bind_unfold. pose proof (rt_publish id "failed" "recovery retry limit exceeded" w3) as H4.
  destruct (e_PublishEvent _ _ _ w3) as [p w4]. cbn [fst snd] in *. rewrite ret_unfold.
  eexists. split; [apply (failing_done _ _ b p)|].
  exact (emits_trans _ _ _ _ _ H1 (emits_trans _ _ _ _ _ H2 (emits_trans _ _ _ _ _ H3 H4))).
Qed.

Lemma retry_emits id u n cutoff w :
  (exists r, r <> Ok true /\ emits w (recover_retry id u n cutoff w).2 [RRequeue id u r])
  \/ (exists r, emits w (recover_retry id u n cutoff w).2
                  [RRequeue id u (Ok true); RUpdate id n r]).
Proof.
  unfold recover_retry. rewrite bind_unfold. pose proof (rt_requeue id u cutoff w) as H1.
  destruct (q_RequeueIfExpired id u cutoff w) as [[[]|e] w1]; cbn [fst snd] in *;
    [|left; eexists; split; [|exact H1]; done|left; eexists; split; [|exact H1]; done].
  right. rewrite bind_unfold. pose proof (rt_update id n w1) as H2.
  destruct (s_UpdateCreated id n w1) as [[b|e] w2]; cbn [fst snd] in *; eexists;
    [|exact (emits_trans _ _ _ _ _ H1 H2)].
  rewrite !bind_unfold, ret_unfold. cbn [fst snd]. unfold emits in *. rewrite !rt_metric.
  exact (emits_trans _ _ _ _ _ H1 H2).
Qed.

(** C17: the protocol of recovery.  For one expired job, whatever the services
    answer: a job that is over or gone is only removed; a created job is
    failed only when its attempts are used up and only after its expired lease
    was won, its key and its stream only after the job; otherwise it is
    requeued, and only the recovery that won the lease counts one attempt
    more, which never exceeds the policy's maximum. *)
Theorem recover_one_protocol id cutoff w :
  exists t, rcalls (recoverOne id cutoff w).2 = rcalls w ++ t /\ recovered id t.
Proof.
  unfold recoverOne. rewrite bind_unfold. pose proof (rt_lookup id w) as H1.
  destruct (j_ByID id w) as [[job|err] w1]; cbn [fst snd] in *.
  2:{ destruct (errors_Is (Some err) ErrJobNotFound) eqn:E.
      - rewrite bind_unfold, ret_unfold. pose proof (rt_remove id cutoff w1) as H2. eexists.
        split; [exact (emits_trans _ _ _ _ _ H1 H2)|by apply rec_gone].
      - eexists. split; [exact H1|by apply rec_unknown]. }
  destruct (String.eqb_spec (rj_Status job) StatusCreated) as [Est|Est]; cbn [negb].
  2:{ rewrite bind_unfold, ret_unfold. pose proof (rt_remove id cutoff w1) as H2. eexists.
      split; [exact (emits_trans _ _ _ _ _ H1 H2)|by apply rec_over]. }
  rewrite bind_unfold. pose proof (rt_policy (rj_UserID job) w1) as H2.
  destruct (p_GetRetryPolicy (rj_UserID job) w1) as [[max|err] w2]; cbn [fst snd] in *.
  2:{ eexists. split; [exact (emits_trans _ _ _ _ _ H1 H2)|by apply rec_no_policy]. }
  pose proof (emits_trans _ _ _ _ _ H1 H2) as H12.
  destruct (Z.leb_spec max (rj_RetryCount job)) as [Hm|Hm].
  - destruct (exhausted_emits id (rj_RetryCount job) cutoff w2) as [(r & Hr & H3)|(t & Ht & H3)];
      (eexists; split; [exact (emits_trans _ _ _ _ _ H12 H3)|]).
    + by apply rec_spent_lost.
    + by apply (rec_spent id job max t).
  - destruct (retry_emits id (rj_UserID job) (rj_RetryCount job + 1) cutoff w2)
      as [(r & Hr & H3)|(r & H3)]; (eexists; split; [exact (emits_trans _ _ _ _ _ H12 H3)|]).
    + by apply rec_retry_lost.
    + apply rec_retry; [done|lia].
Qed.
End traced.

(** ** Recovery on the job module *)

Section on_jobs.
Context {D : Type} `{!Postgres D, !PostgresDoc D}.
#[local] Existing Instance direct_pg.
Context `{!Job.UserPolicyReader D, !Queue D, !IdempotencyFailure D, !Events D,
  !RecoveryMetrics D}.
Context (tierPolicy : Job.JobPolicyConfig).

(** The job module behind the adapter. *)
#[local] Instance job_module : JobReaderWriter D := {|
  jsvc_GetByID := Job.GetByID;
  jsvc_PendingOrphans := Job.PendingOrphans;
  jsvc_MarkCompleted := Job.MarkCompleted;
  jsvc_MarkFailed := Job.MarkFailed;
  jsvc_UpdateStatusIfStatus := Job.UpdateStatusIfStatus;
  jsvc_GetRetryPolicy := Job.GetRetryPolicy tierPolicy |}.

(** A missing job is never removed.  [GetByID] returns the bare sentinel
    of the job module, which the adapter does not recognise, so for an expired
    or completed entry whose job does not exist recovery makes no call to the
    queue at all: the sweep reports a failed lookup, the reconciliation
    nothing, and the entry is met again at every tick. *)
Theorem missing_job_stays id cutoff (d : D) :
  pg_jobs (pg_view d) !! id = None ->
  let d' := (pg_call (SELECT_JOB id) d).2 in
  recoverOne id cutoff d = (recovery_new ErrCodeJobLookupFailed Job.ErrJobNotFound, d')
  /\ reconcile_one id d = (None, d')
  /\ pg_view d' = pg_view d.
Proof.
  intros Hj d'. destruct (JobThms.JobByID_direct id d) as [Hby Hview]. rewrite Hj in Hby.
  assert (Hget : j_ByID id d = (Err Job.ErrJobNotFound, d')).
  { cbn [j_ByID adapted_Jobs]. unfold JobAdapter_ByID. rewrite bind_unfold, ret_unfold.
    cbn [jsvc_GetByID job_module]. unfold Job.GetByID. rewrite !bind_unfold, !ret_unfold.
    cbn [Job.jr_JobByID Job.pg_JobRepository]. by rewrite Hby. }
  split; [|split; [|exact Hview]].
  - unfold recoverOne. by rewrite bind_unfold, Hget.
  - unfold reconcile_one. by rewrite bind_unfold, Hget.
Qed.
End on_jobs.

(** ** Witnesses *)

Module RecoveryDemo.
#[export] Instance users : Job.UserPolicyReader pgdata := {|
  Job.GetUserPolicy := fun _ => mret (Ok (Job.MkUserPolicy "free")) |}.
#[export] Instance queue : Queue pgdata := {|
  q_ExpiredJobIDs := fun _ _ => mret (Ok ["gone"]);
  q_RemoveIfExpired := fun _ _ => mret (Ok true);
  q_RequeueIfExpired := fun _ _ _ => mret (Ok true);
  q_CompletedJobIDs := mret (Ok ["gone"]);
  q_RemoveCompletedJob := fun _ => mret None;
  q_EnqueueIfAbsent := fun _ _ _ => mret (Ok true) |}.
#[export] Instance keys : IdempotencyFailure pgdata := {|
  i_TransitionStatus := fun _ _ => mret (Ok true) |}.
#[export] Instance events : Events pgdata := {|
  e_PublishEvent := fun _ _ _ => mret None; e_Close := fun _ => mret None |}.
#[export] Instance metrics : RecoveryMetrics pgdata := {| r_observe := fun _ => skip |}.

(** A world that is the log of the calls: a job with one attempt left. *)
Definition log : Type := list revent.
Definition say {A} (f : A -> revent) (a : A) : M log A := fun w => (a, w ++ [f a]).
#[export] Instance lqueue : Queue log := {|
  q_ExpiredJobIDs := fun _ _ => mret (Ok ["j"]);
  q_RemoveIfExpired := fun id _ => say (RRemove id) (Ok true);
  q_RequeueIfExpired := fun id u _ => say (RRequeue id u) (Ok true);
  q_CompletedJobIDs := mret (Ok []);
  q_RemoveCompletedJob := fun _ => mret None;
  q_EnqueueIfAbsent := fun _ _ _ => mret (Ok true) |}.
#[export] Instance ljobs : Jobs log := {|
  j_ByID := fun id => say (RLookup id) (Ok (MkRecoveryJob id "u" "created" 2));
  j_PendingOrphans := fun _ _ => mret (Ok []) |}.
#[export] Instance lstatuses : StatusWriter log := {|
  s_MarkCompleted := fun _ _ => mret None;
  s_MarkFailed := fun id n => say (RMarkFailed id n) None;
  s_UpdateCreated := fun id n => say (RUpdate id n) (Ok true) |}.
#[export] Instance lpolicies : Policies log := {| p_GetRetryPolicy := fun u => say (RPolicy u) (Ok 3%Z) |}.
#[export] Instance lkeys : IdempotencyFailure log := {|
  i_TransitionStatus := fun id st => say (RTransition id st) (Ok true) |}.
#[export] Instance levents : Events log := {|
  e_PublishEvent := fun id k _ => say (RPublish id k) None; e_Close := fun _ => mret None |}.
#[export] Instance lmetrics : RecoveryMetrics log := {| r_observe := fun _ => skip |}.
#[export] Instance ltraced : RTraced log.
Proof. refine {| rcalls := id |}; done. Defined.
End RecoveryDemo.

#[local] Existing Instances RecoveryDemo.users RecoveryDemo.queue RecoveryDemo.keys
  RecoveryDemo.events RecoveryDemo.metrics RecoveryDemo.lqueue RecoveryDemo.ljobs
  RecoveryDemo.lstatuses RecoveryDemo.lpolicies RecoveryDemo.lkeys RecoveryDemo.levents
  RecoveryDemo.lmetrics RecoveryDemo.ltraced.

Lemma recover_one_protocol_witness :
  exists t, rcalls (recoverOne (W := RecoveryDemo.log) "j" 0 []).2 = [] ++ t /\ recovered "j" t.
Proof. exact (recover_one_protocol (W := RecoveryDemo.log) "j" 0 []). Defined.

Lemma missing_job_stays_witness :
  let d' := (pg_call (SELECT_JOB "gone") pgdata_empty).2 in
  recoverOne (Jobs0 := @adapted_Jobs pgdata (job_module ∅))
    (StatusWriter0 := @adapted_StatusWriter pgdata (job_module ∅))
    (Policies0 := @adapted_Policies pgdata (job_module ∅)) "gone" 0 pgdata_empty
  = (recovery_new ErrCodeJobLookupFailed Job.ErrJobNotFound, d').
Proof. exact (proj1 (missing_job_stays ∅ "gone" 0 pgdata_empty eq_refl)). Defined.
