(* ===== verification/Http.v ===== *)
(** * HTTP: gin as the handlers use it, and the shared middleware
    (internal/shared/middleware, internal/shared/errors/resolver.go)

    gin is a library outside the repository: the class [Gin], one typed
    operation per method of [*gin.Context] that the code calls.  [GinDoc]
    states their documented behaviour on the state of one request,
    [gin_state], which is itself an instance.

    A middleware is a function of the rest of the chain, which runs where the
    code calls [c.Next()]; every middleware of the repository calls either
    [c.Next()] or [c.Abort()] on each of its paths, so that this is the
    order in which gin runs the chain.  Handlers are programs over a pair of
    the gin context and the world [V] of the services. *)

From S2P Require Import Prelude GoText GoErr Env.
From stdpp Require Import base gmap list strings.
From Stdlib Require Import ZArith Lia.

(** ** The state of a request *)

Record gin_state := MkGin {
  (* what the client sent; [g_bind fields] is what decoding the body (or the
     query) into a struct of required strings gives, and [g_size] the number
     of bytes that takes *)
  g_headers : gmap string string;
  g_params : gmap string string;
  g_bind : list string -> res goerr (list string);
  g_size : Z;
  g_host : string;
  g_path : string;
  (* what the handlers keep in the context *)
  g_keys : gmap string string;
  g_values : gmap string string;
  g_timeout : option Z;
  g_limit : option Z;
  g_errors : list goerr;
  g_aborted : bool;
  (* the response *)
  g_out : gmap string string;
  g_status : option Z;
  g_bodies : list json;
  g_stream : list string;
  g_writes : list (option goerr);
}.

Inductive gin_op : Type -> Type :=
| GetHeader (name : string) : gin_op string
| Param (name : string) : gin_op string
| ShouldBind (fields : list string) : gin_op (res goerr (list string))
| MaxBytesReader (limit : Z) : gin_op unit
| RequestHost : gin_op string
| FullPath : gin_op string
| SetKey (k v : string) : gin_op unit
| GetString (k : string) : gin_op string
| WithValue (k v : string) : gin_op unit
| Value (k : string) : gin_op string
| WithTimeout (d : Z) : gin_op unit
| AddError (e : goerr) : gin_op unit
| LastError : gin_op (option goerr)
| AbortChain : gin_op unit
| SetHeader (name v : string) : gin_op unit
| WriteJSON (status : Z) (body : json) : gin_op unit
| AbortWithStatusJSON (status : Z) (body : json) : gin_op unit
| AbortWithStatus (status : Z) : gin_op unit
| RedirectTo (status : Z) (url : string) : gin_op unit
| WriterStatus : gin_op Z
| WriteString (s : string) : gin_op (option goerr).

Section updates.
Implicit Types g : gin_state.

Definition set_keys f g := MkGin (g_headers g) (g_params g) (g_bind g) (g_size g) (g_host g) (g_path g)
  (f (g_keys g)) (g_values g) (g_timeout g) (g_limit g) (g_errors g) (g_aborted g)
  (g_out g) (g_status g) (g_bodies g) (g_stream g) (g_writes g).
Definition set_values f g := MkGin (g_headers g) (g_params g) (g_bind g) (g_size g) (g_host g) (g_path g)
  (g_keys g) (f (g_values g)) (g_timeout g) (g_limit g) (g_errors g) (g_aborted g)
  (g_out g) (g_status g) (g_bodies g) (g_stream g) (g_writes g).
Definition set_timeout t g := MkGin (g_headers g) (g_params g) (g_bind g) (g_size g) (g_host g) (g_path g)
  (g_keys g) (g_values g) t (g_limit g) (g_errors g) (g_aborted g)
  (g_out g) (g_status g) (g_bodies g) (g_stream g) (g_writes g).
Definition set_limit n g := MkGin (g_headers g) (g_params g) (g_bind g) (g_size g) (g_host g) (g_path g)
  (g_keys g) (g_values g) (g_timeout g) n (g_errors g) (g_aborted g)
  (g_out g) (g_status g) (g_bodies g) (g_stream g) (g_writes g).
Definition set_errors es g := MkGin (g_headers g) (g_params g) (g_bind g) (g_size g) (g_host g) (g_path g)
  (g_keys g) (g_values g) (g_timeout g) (g_limit g) es (g_aborted g)
  (g_out g) (g_status g) (g_bodies g) (g_stream g) (g_writes g).
Definition set_aborted g := MkGin (g_headers g) (g_params g) (g_bind g) (g_size g) (g_host g) (g_path g)
  (g_keys g) (g_values g) (g_timeout g) (g_limit g) (g_errors g) true
  (g_out g) (g_status g) (g_bodies g) (g_stream g) (g_writes g).
Definition set_out f g := MkGin (g_headers g) (g_params g) (g_bind g) (g_size g) (g_host g) (g_path g)
  (g_keys g) (g_values g) (g_timeout g) (g_limit g) (g_errors g) (g_aborted g)
  (f (g_out g)) (g_status g) (g_bodies g) (g_stream g) (g_writes g).
Definition set_stream s ws g := MkGin (g_headers g) (g_params g) (g_bind g) (g_size g) (g_host g) (g_path g)
  (g_keys g) (g_values g) (g_timeout g) (g_limit g) (g_errors g) (g_aborted g)
  (g_out g) (Some (default 200%Z (g_status g))) (g_bodies g) s ws.

(** The status of a response is that of its first write. *)
Definition respond_status (status : Z) g :=
  MkGin (g_headers g) (g_params g) (g_bind g) (g_size g) (g_host g) (g_path g)
    (g_keys g) (g_values g) (g_timeout g) (g_limit g) (g_errors g) (g_aborted g)
    (g_out g) (Some (default status (g_status g))) (g_bodies g) (g_stream g) (g_writes g).
Definition respond_json (status : Z) (body : json) g :=
  MkGin (g_headers g) (g_params g) (g_bind g) (g_size g) (g_host g) (g_path g)
    (g_keys g) (g_values g) (g_timeout g) (g_limit g) (g_errors g) (g_aborted g)
    (g_out g) (Some (default status (g_status g))) (g_bodies g ++ [body])
    (g_stream g) (g_writes g).
End updates.

Definition doc_gin {A : Type} (op : gin_op A) (g : gin_state) : A * gin_state :=
  match op in gin_op A return A * gin_state with
  | GetHeader n => (default "" (g_headers g !! n), g)
  | Param n => (default "" (g_params g !! n), g)
  | ShouldBind fs =>
      (match g_limit g with
       | Some n => if (n <? g_size g)%Z
                   then Err (Leaf MaxBytesError "http: request body too large") else g_bind g fs
       | None => g_bind g fs
       end, g)
  | MaxBytesReader n => (tt, set_limit (Some n) g)
  | RequestHost => (g_host g, g)
  | FullPath => (g_path g, g)
  | SetKey k v => (tt, set_keys <[k := v]> g)
  | GetString k => (default "" (g_keys g !! k), g)
  | WithValue k v => (tt, set_values <[k := v]> g)
  | Value k => (default "" (g_values g !! k), g)
  | WithTimeout d =>
      (tt, set_timeout (Some (match g_timeout g with Some t => Z.min t d | None => d end)) g)
  | AddError e => (tt, set_errors (g_errors g ++ [e]) g)
  | LastError => (last (g_errors g), g)
  | AbortChain => (tt, set_aborted g)
  | SetHeader n v => (tt, set_out <[n := v]> g)
  | WriteJSON s b => (tt, respond_json s b g)
  | AbortWithStatusJSON s b => (tt, respond_json s b (set_aborted g))
  | AbortWithStatus s => (tt, respond_status s (set_aborted g))
  | RedirectTo s u => (tt, respond_json s JNull (set_out <["Location" := u]> g))
  | WriterStatus => (default 200%Z (g_status g), g)
  | WriteString s =>
      match g_writes g with
      | [] => (None, set_stream (g_stream g ++ [s]) [] g)
      | None :: ws => (None, set_stream (g_stream g ++ [s]) ws g)
      | Some e :: ws => (Some e, set_stream (g_stream g) ws g)
      end
  end.

Class Gin (G : Type) := {
  gin_call : forall {A : Type}, gin_op A -> M G A;
  gin_view : G -> gin_state;
}.

Class GinDoc (G : Type) `{!Gin G} : Prop := {
  gin_call_doc : forall (A : Type) (op : gin_op A) (g : G),
    doc_gin op (gin_view g) = ((gin_call op g).1, gin_view (gin_call op g).2);
}.

#[global] Instance gin_state_gin : Gin gin_state := {|
  gin_call := fun A op g => doc_gin op g;
  gin_view := fun g => g;
|}.

#[global] Instance gin_state_doc : GinDoc gin_state.
Proof. split. intros A op g. simpl. by destruct (doc_gin op g). Qed.

(** ** Chains *)

Abbreviation handler G V := (M (G * V) unit).
Abbreviation middleware G V := (M (G * V) unit -> M (G * V) unit).

Section chain.
Context {G V : Type} `{!Gin G}.

(** A method of [*gin.Context], and a call of a service. *)
Definition gin {A} (op : gin_op A) : M (G * V) A :=
  fun w => let '(a, g) := gin_call op w.1 in (a, (g, w.2)).
Definition svc {A} (m : M V A) : M (G * V) A :=
  fun w => let '(a, v) := m w.2 in (a, (w.1, v)).

(** [group.Use(mw...)] and [group.GET(path, h)]. *)
Definition chain (mws : list (middleware G V)) (h : handler G V) : handler G V :=
  foldr (fun m k => m k) h mws.

(** [_ = c.Error(err); return], and the same before [c.Abort()]. *)
Definition fail (err : goerr) : handler G V := gin (AddError err).
Definition fail_abort (err : goerr) : handler G V := _ ← gin (AddError err); gin AbortChain.
End chain.

(** A JSON string and an object of strings. *)
Definition jstr (s : string) : json := JString (String.list_ascii_of_string s).
Definition jobject (fields : list (string * json)) : json :=
  JObject ((fun f => (String.list_ascii_of_string f.1, f.2)) <$> fields).

(** ** shared/errors/resolver.go: the body of an error response *)

Definition MsgServerError :=
  "We couldn't complete your request due to an unexpected server error. Please retry. If the problem continues, include your request ID when contacting support.".

Definition ErrorResponse (errorCode message requestID : string) : json :=
  jobject [("error", jobject [("code", jstr errorCode); ("message", jstr message);
                              ("request_id", jstr requestID)])].

(** ** The middleware every module repeats *)

Section middleware.
Context {G V : Type} `{!Gin G}.

(** [TimeoutMiddleware]: the context of the request gets a deadline. *)
Definition TimeoutMiddleware (timeout : Z) : middleware G V :=
  fun next => _ ← gin (WithTimeout timeout); next.

(** [ErrorHandler] of a module, with its registry and default error type. *)
Definition ErrorHandler (registry : CodeRegistry) (errType : string)
  : middleware G V :=
  fun next =>
    _ ← next;
    ginErr ← gin LastError;
    match ginErr with
    | None => skip
    | Some err =>
        let resolved := ResolveError (Some err) registry errType in
        requestID ← gin (Value "request_id");
        gin (AbortWithStatusJSON (StatusCode resolved)
               (ErrorResponse (ErrorCode resolved) (Message resolved) requestID))
    end.

(** shared/middleware/middleware.go: the id of a request is the one the
    client sent, or a fresh one. *)
Definition RequestContextMiddleware {A} (uuid : M V string) (next : M (G * V) A) : M (G * V) A :=
  sent ← gin (GetHeader "X-Request-Id");
  requestID ← (if str_empty sent then svc uuid else mret sent);
  _ ← gin (WithValue "request_id" requestID);
  _ ← gin (SetHeader "X-Request-Id" requestID);
  next.

(** How a handler ends: it returns, or it panics with a value. *)
Inductive exit : Type := Returned | Panicked (recovered : string).

(** A handler that never panics. *)
Definition returning (h : handler G V) : M (G * V) exit := _ ← h; mret Returned.

(** shared/middleware/middleware.go: the deferred function runs in either
    case; the record of the panic is not modelled. *)
Definition RecoveryMiddleware (next : M (G * V) exit) : M (G * V) exit :=
  r ← next;
  match r with
  | Returned => mret Returned
  | Panicked _ => _ ← gin (AbortWithStatus 500); mret Returned
  end.

(** shared/middleware/metrics.go; [recorder] is [nil] or the methods of the
    recorder, and [method] the method of the request.  What follows [next] is
    a deferred function: it also runs after a panic, which goes on. *)
Inductive http_metric : Type :=
| IncHTTPInFlight (method route : string)
| DecHTTPInFlight (method route : string)
| ObserveHTTPRequest (method route : string) (status : Z)
| ObserveHTTPRequestDuration (method route : string) (d : Z).

Definition matched_route (path : string) : string :=
  if str_empty path then "unmatched" else path.

Definition MetricsMiddleware {A} `{!GoClock V} (method : string)
    (recorder : option (http_metric -> M V unit)) (next : M (G * V) A) : M (G * V) A :=
  match recorder with
  | None => next
  | Some record =>
      start ← svc time_Now;
      path ← gin FullPath;
      _ ← svc (record (IncHTTPInFlight method (matched_route path)));
      r ← next;
      _ ← svc (record (DecHTTPInFlight method (matched_route path)));
      path ← gin FullPath;
      status ← gin WriterStatus;
      now ← svc time_Now;
      _ ← svc (record (ObserveHTTPRequest method (matched_route path) status));
      _ ← svc (record (ObserveHTTPRequestDuration method (matched_route path) (now - start)%Z));
      mret r
  end.

(** application/app.go: what [Run] puts in front of the routes of /api. *)
Definition api_Use `{!GoClock V} (method : string) (recorder : option (http_metric -> M V unit))
    (uuid : M V string) (next : M (G * V) exit) : M (G * V) exit :=
  MetricsMiddleware method recorder (RecoveryMiddleware (RequestContextMiddleware uuid next)).
End middleware.

(** ** Lemmas *)

Section lemmas.
Context {G V : Type} `{!Gin G, !GinDoc G}.

Lemma gin_run {A} (op : gin_op A) (g : G) (v : V) :
  gin op (g, v) = ((doc_gin op (gin_view g)).1, ((gin_call op g).2, v)).
Proof. unfold gin. cbn [fst snd]. rewrite gin_call_doc. by destruct (gin_call op g). Qed.

Lemma gin_run_view {A} (op : gin_op A) (g : G) :
  gin_view (gin_call op g).2 = (doc_gin op (gin_view g)).2.
Proof. by rewrite gin_call_doc. Qed.

Lemma svc_run {A} (m : M V A) (g : G) (v : V) : svc m (g, v) = ((m v).1, (g, (m v).2)).
Proof. unfold svc. cbn. by destruct (m v). Qed.
End lemmas.

(** Run a handler on a known request: the operations of gin by their
    documented behaviour. *)
Ltac gin_step :=
  repeat first
    [ rewrite bind_unfold | rewrite ret_unfold | rewrite gin_run | rewrite svc_run
    | progress cbn [fst snd] ].
