(* ===== verification/HttpThms.v ===== *)
(** * What a chain of handlers answers

    The contract between the handlers of a module and its error handler:
    the handlers answer themselves or leave one error, which the error
    handler turns into the response of the registry. *)

From S2P Require Import Prelude GoText GoErr Env Http.
From stdpp Require Import base gmap list strings.
From Stdlib Require Import ZArith Lia.

Definition header (s : gin_state) (name : string) : string := default "" (g_headers s !! name).

(** A request that nothing has answered. *)
Definition unanswered (s : gin_state) : Prop :=
  g_errors s = [] /\ g_status s = None /\ g_bodies s = [].

Ltac run_gin := gin_step; repeat (rewrite !gin_run_view; cbn [doc_gin fst snd]).

Section contract.
Context {G V A : Type} `{!Gin G, !GinDoc G}.
(** What the module answers to an outcome, and to an error. *)
Context (good : A -> gin_state -> Prop) (registry : CodeRegistry) (errType : string).

(** The response to a request [s] that came to [o]. *)
Definition answered (s s' : gin_state) (o : res goerr A) : Prop :=
  match o with
  | Ok a => good a s'
  | Err err =>
      let r := ResolveError (Some err) registry errType in
      g_status s' = Some (StatusCode r)
      /\ g_bodies s' = [ErrorResponse (ErrorCode r) (Message r)
                          (default "" (g_values s !! "request_id"))]
  end.

(** What the handlers leave to the error handler. *)
Definition left_by (s s' : gin_state) (o : res goerr A) : Prop :=
  match o with
  | Ok a => g_errors s' = [] /\ good a s'
  | Err err =>
      g_errors s' = [err] /\ g_status s' = None /\ g_bodies s' = []
      /\ g_values s' !! "request_id" = g_values s !! "request_id"
  end.

Lemma fail_left (s : gin_state) (g : G) (v : V) err :
  unanswered (gin_view g) -> g_values (gin_view g) !! "request_id" = g_values s !! "request_id" ->
  (fail err (g, v)).2.2 = v /\ left_by s (gin_view (fail err (g, v)).2.1) (Err err)
  /\ (fail_abort err (g, v)).2.2 = v
  /\ left_by s (gin_view (fail_abort err (g, v)).2.1) (Err err).
Proof.
  intros (He & Hs & Hb) Hid. unfold fail, fail_abort. run_gin.
  cbn. rewrite He. done.
Qed.

Lemma error_handler t next (g : G) (v : V) :
  let w1 := (next (g, v)).2 in
  let s1 := gin_view w1.1 in
  let w2 := (ErrorHandler registry t next (g, v)).2 in
  w2.2 = w1.2 /\
  gin_view w2.1 = match last (g_errors s1) with
                  | None => s1
                  | Some err =>
                      let r := ResolveError (Some err) registry t in
                      respond_json (StatusCode r)
                        (ErrorResponse (ErrorCode r) (Message r)
                           (default "" (g_values s1 !! "request_id"))) (set_aborted s1)
                  end.
Proof.
  cbv zeta. unfold ErrorHandler. rewrite bind_unfold. destruct (next (g, v)) as [[] [g1 v1]].
  cbn [fst snd]. rewrite bind_unfold, gin_run. cbn [doc_gin fst snd].
  destruct (last (g_errors (gin_view g1))) as [err|].
  - run_gin. done.
  - unfold skip. rewrite ret_unfold. cbn [fst snd]. run_gin. done.
Qed.

(** Every module puts its timeout and its error handler in front of its
    handlers: what these leave becomes the response. *)
Lemma module_answers (d : Z) (h : handler G V) (g : G) (v v' : V) (o : res goerr A) :
  let s := gin_view g in
  (forall g1, gin_view g1 = (doc_gin (WithTimeout d) s).2 ->
     let w := (h (g1, v)).2 in w.2 = v' /\ left_by s (gin_view w.1) o) ->
  let w := (chain [TimeoutMiddleware d; ErrorHandler registry errType] h (g, v)).2 in
  w.2 = v' /\ answered s (gin_view w.1) o.
Proof.
  cbv zeta. intros Hh. unfold chain. cbn [foldr]. unfold TimeoutMiddleware.
  rewrite bind_unfold, gin_run. cbn [fst snd].
  set (g1 := (gin_call _ g).2).
  assert (Hv1 : gin_view g1 = (doc_gin (WithTimeout d) (gin_view g)).2)
    by (unfold g1; by rewrite gin_run_view).
  destruct (error_handler errType h g1 v) as [Ew Es].
  destruct (Hh g1 Hv1) as [Hw Hl]. rewrite Ew, Es. split; [exact Hw|].
  destruct o as [a|err]; cbn [left_by] in Hl.
  - destruct Hl as [He Ha]. by rewrite He.
  - destruct Hl as (He & Hs & Hb & Hid). rewrite He.
    unfold answered, respond_json, set_aborted. cbn [last g_status g_bodies g_values].
    rewrite Hs, Hb, Hid. done.
Qed.
End contract.

(** A registry of errors only has statuses of errors, and an error that it
    does not know is answered 500. *)
Lemma error_status (registry : CodeRegistry) err t :
  bool_decide (map_Forall (fun _ m => 400 <= em_status m)%Z registry) = true ->
  (400 <= StatusCode (ResolveError (Some err) registry t))%Z.
Proof.
  intros Hreg%bool_decide_eq_true.
  unfold ResolveError. destruct (as_app_error err) as [a|]; [|by repeat case_match].
  destruct (registry !! _) as [m|] eqn:Em; [|done]. exact (Hreg _ _ Em).
Qed.

(** ** The middleware of /api *)

Section api.
Context {G V : Type} `{!Gin G, !GinDoc G}.

(** The response to a handler that ended with [r]: a panic is answered 500,
    unless the status of the response was sent before. *)
Definition recovered (r : exit) (s : gin_state) : gin_state :=
  match r with Returned => s | Panicked _ => respond_status 500 (set_aborted s) end.

Lemma recovery_runs (next : M (G * V) exit) (g : G) (v : V) :
  let p := RecoveryMiddleware next (g, v) in
  p.1 = Returned /\ gin_view p.2.1 = recovered (next (g, v)).1 (gin_view (next (g, v)).2.1)
  /\ p.2.2 = (next (g, v)).2.2.
Proof.
  cbv zeta. unfold RecoveryMiddleware. rewrite bind_unfold.
  destruct (next (g, v)) as [[|x] [g1 v1]]; cbn [fst snd]; run_gin; done.
Qed.

Lemma request_context_runs {A} uuid (next : M (G * V) A) (g : G) (v : V) :
  exists g1 v1 id, RequestContextMiddleware uuid next (g, v) = next (g1, v1)
    /\ gin_view g1 = set_out <["X-Request-Id" := id]> (set_values <["request_id" := id]> (gin_view g))
    /\ (id, v1) = (let sent := header (gin_view g) "X-Request-Id" in
                   if str_empty sent then uuid v else (sent, v)).
Proof.
  unfold RequestContextMiddleware, header. rewrite bind_unfold, gin_run. cbn [doc_gin fst snd].
  set (g0 := (gin_call _ g).2).
  assert (Hg0 : gin_view g0 = gin_view g) by (unfold g0; by rewrite gin_run_view).
  destruct (str_empty _).
  - destruct (uuid v) as [id v1] eqn:Eu. gin_step. rewrite Eu. cbn [fst snd].
    eexists _, v1, id. split; [reflexivity|]. rewrite !gin_run_view. cbn [doc_gin fst snd].
    by rewrite Hg0.
  - gin_step. eexists _, v, _. split; [reflexivity|]. rewrite !gin_run_view.
    cbn [doc_gin fst snd]. by rewrite Hg0.
Qed.

(** What runs behind the middleware of metrics answers the request, and does
    to the services all that is done, but for what the clock and the recorder
    change. *)
Lemma metrics_runs {A T} `{!GoClock V} (part : V -> T) method recorder (next : M (G * V) A) g v
    (Hclock : forall v, part (time_Now v).2 = part v)
    (Hrecord : forall record x v, recorder = Some record -> part (record x v).2 = part v) :
  let p := MetricsMiddleware method recorder next (g, v) in
  exists g1 v1, gin_view g1 = gin_view g /\ part v1 = part v
    /\ p.1 = (next (g1, v1)).1
    /\ gin_view p.2.1 = gin_view (next (g1, v1)).2.1
    /\ part p.2.2 = part (next (g1, v1)).2.2.
Proof.
  cbv zeta. unfold MetricsMiddleware. destruct recorder as [record|]; [|by exists g, v].
  specialize (Hrecord record). gin_step. set (g1 := (gin_call FullPath g).2).
  match goal with |- context [next (g1, ?v)] => set (v1 := v) end.
  exists g1, v1. split; [unfold g1; by rewrite gin_run_view|].
  split; [unfold v1; by rewrite Hrecord, Hclock|].
  destruct (next (g1, v1)) as [r [g2 v2]]. gin_step.
  split; [done|]. rewrite !gin_run_view. split; [done|].
  by rewrite !Hrecord, Hclock, Hrecord.
Qed.

(** The whole middleware in front of a handler that does not panic. *)
Lemma api_runs {T} `{!GoClock V} (part : V -> T) method recorder uuid (h : handler G V) g v
    (Hclock : forall v, part (time_Now v).2 = part v) (Huuid : forall v, part (uuid v).2 = part v)
    (Hrecord : forall record x v, recorder = Some record -> part (record x v).2 = part v) :
  let p := api_Use method recorder uuid (returning h) (g, v) in
  exists g1 v1 id,
    gin_view g1 = set_out <["X-Request-Id" := id]> (set_values <["request_id" := id]> (gin_view g))
    /\ part v1 = part v /\ p.1 = Returned
    /\ gin_view p.2.1 = gin_view (h (g1, v1)).2.1 /\ part p.2.2 = part (h (g1, v1)).2.2.
Proof.
  cbv zeta. unfold api_Use.
  destruct (metrics_runs part method recorder
    (RecoveryMiddleware (RequestContextMiddleware uuid (returning h))) g v Hclock Hrecord)
    as (g0 & v0 & Hg0 & Hv0 & H1 & H2 & H3).
  destruct (recovery_runs (RequestContextMiddleware uuid (returning h)) g0 v0) as (H4 & H5 & H6).
  destruct (request_context_runs uuid (returning h) g0 v0) as (g1 & v1 & id & E & Hg1 & Hid).
  rewrite E in H5, H6. exists g1, v1, id. rewrite H1, H2, H3, H4, H5, H6. clear - Hg0 Hv0 Hg1 Hid Huuid.
  assert (Hr : returning h (g1, v1) = (Returned, (h (g1, v1)).2)).
  { unfold returning. rewrite bind_unfold. by destruct (h (g1, v1)) as [[] [? ?]]. }
  rewrite Hr. cbn [fst snd recovered]. split; [by rewrite Hg1, Hg0|]. split; [|done].
  pose proof (Huuid v0) as Hu. cbv zeta in Hid. rewrite <- Hv0.
  destruct (str_empty _); [by rewrite <- Hu, <- Hid|]. by injection Hid as _ ->.
Qed.
End api.
