(* ===== verification/Stream.v ===== *)
(** * Streams (internal/stream)

    The events of a job go through a Redis stream: the worker appends them,
    the subscriber of an HTTP request reads them from the beginning and
    writes them as server-sent events. *)

From S2P Require Import Prelude GoText GoErr Redis Env Http.
From stdpp Require Import base gmap list strings.
From Stdlib Require Import ZArith Lia Ascii.

(** ** domain *)

Definition StreamEventType : Type := string.
Definition EventChunk : StreamEventType := "chunk".
Definition EventCompleted : StreamEventType := "completed".
Definition EventFailed : StreamEventType := "failed".
Definition EventRetrying : StreamEventType := "retrying".

Record StreamEvent := MkStreamEvent { ev_Type : string; ev_Data : string }.

#[global] Instance StreamEvent_eq_dec : EqDecision StreamEvent.
Proof. solve_decision. Defined.

(** ** public *)

Definition ErrCodeStreamNotFound := "STREAM_NOT_FOUND".
Definition ErrCodeSubscribeFailed := "SUBSCRIBE_FAILED".
Definition ErrCodePublishFailed := "PUBLISH_FAILED".
Definition ErrCodeConnectionLost := "CONNECTION_LOST".
Definition ErrCodeInvalidStreamData := "INVALID_STREAM_DATA".

(** ** infrastructure/redis/stream_service.go *)

Definition streamPrefix := "stream:".
Definition streamRetention : Z := 3600.
Definition streamTTL : Z := 1800.

Definition streamKey (jobID : string) : string := streamPrefix +:+ jobID.

(** The payload of an entry: a [streamMessage] as JSON. *)
Definition marshal_message (msg : StreamEvent) : string :=
  String.string_of_list_ascii
    (String.list_ascii_of_string ("{" +:+ dq +:+ "type" +:+ dq +:+ ":")
     ++ json_string (ev_Type msg)
     ++ String.list_ascii_of_string ("," +:+ dq +:+ "data" +:+ dq +:+ ":")
     ++ json_string (ev_Data msg) ++ String.list_ascii_of_string "}").

Definition unmarshal_message (payload : string) : option StreamEvent :=
  v ← parse_json (String.list_ascii_of_string payload);
  fields ← decode_fields ["type"; "data"] v;
  match fields with
  | [t; d] => Some (MkStreamEvent t d)
  | _ => None
  end.

Definition isTerminalEvent (eventType : StreamEventType) : bool :=
  String.eqb eventType "completed" || String.eqb eventType "failed".

Section service.
Context {W : Type} `{!RedisClient W}.

Definition appendMessage (jobID : string) (msg : StreamEvent) : M W (option goerr) :=
  r ← rc_run (call (XADD (streamKey jobID) (marshal_message msg)));
  match r with
  | Err err => mret (Some (errorf_w "failed to append stream message: " (Some err)))
  | Ok _ =>
      r ← rc_run (call (EXPIRE_NX (streamKey jobID) streamTTL));
      mret match r with
           | Err err => Some (errorf_w "failed to set stream retention: " (Some err))
           | Ok _ => None
           end
  end.

Definition Publish (jobID : string) (eventType : StreamEventType) (data : string)
  : M W (option goerr) :=
  err ← appendMessage jobID (MkStreamEvent eventType data);
  match err with
  | Some e => mret (Some e)
  | None =>
      if isTerminalEvent eventType then
        r ← rc_run (call (EXPIRE (streamKey jobID) streamRetention));
        mret match r with
             | Err err => Some (errorf_w "failed to set stream retention: " (Some err))
             | Ok _ => None
             end
      else mret None
  end.

Definition Close (jobID : string) : M W (option goerr) := Publish jobID EventCompleted "".

(** [XREAD ... COUNT 100 BLOCK 2000]: no entry in time is [redis.Nil].  A
    wait is a sequence of reads that find nothing. *)
Definition xread (jobID : string) (lastID : Z) : M W (res goerr (list (Z * string))) :=
  r ← rc_run (call (XREAD (streamKey jobID) lastID 100));
  mret match r with
       | Ok [] => Err redis_Nil
       | r => r
       end.

(** The channel of [Subscribe]: [sub_send] is the select between sending an
    event and the end of the context (false). *)
Context `{!GoContext W}.
Context (sub_send : StreamEvent -> M W bool).

(** The messages of one read.  [None] when the goroutine returns, otherwise
    the id of the last message. *)
Fixpoint deliver (messages : list (Z * string)) (lastID : Z) : M W (option Z) :=
  match messages with
  | [] => mret (Some lastID)
  | (id, payload) :: rest =>
      match unmarshal_message payload with
      | None => deliver rest id
      | Some event =>
          sent ← sub_send event;
          if negb sent then mret None
          else if isTerminalEvent (ev_Type event) then mret None
          else deliver rest id
      end
  end.

(** One iteration of the loop of [Subscribe]. *)
Definition subscribe_iter (jobID : string) (lastID : Z) : M W (option Z) :=
  streams ← xread jobID lastID;
  match streams with
  | Err err =>
      if errors_Is (Some err) redis_Nil then mret (Some lastID)
      else _ ← ctx_Err; mret None
  | Ok messages => deliver messages lastID
  end.

(** [n] iterations, from the beginning of the stream: what [Subscribe] does
    until then; [None] when it has closed the channel. *)
Fixpoint subscribe_loop (n : nat) (jobID : string) (lastID : Z) : M W (option Z) :=
  match n with
  | O => mret (Some lastID)
  | S n' =>
      l ← subscribe_iter jobID lastID;
      match l with
      | Some lastID => subscribe_loop n' jobID lastID
      | None => mret None
      end
  end.

Definition Subscribe (n : nat) (jobID : string) : M W (option Z) := subscribe_loop n jobID 0.
End service.

(** The interfaces of the module's parts. *)
Class Publisher (W : Type) := {
  pub_Publish : string -> StreamEventType -> string -> M W (option goerr);
  pub_Close : string -> M W (option goerr);
}.

#[global] Instance redis_Publisher {W} `{!RedisClient W} : Publisher W := {|
  pub_Publish := Publish;
  pub_Close := Close;
|}.

(** ** usecase/stream_usecase.go *)

Definition ErrTypeStream := "STREAM_FAILED".

Section usecase.
Context {W : Type} `{!Publisher W}.

(** An unknown type becomes the empty one. *)
Definition domain_event (eventType : string) : StreamEventType :=
  if String.eqb eventType "chunk" then EventChunk
  else if String.eqb eventType "completed" then EventCompleted
  else if String.eqb eventType "failed" then EventFailed
  else if String.eqb eventType "retrying" then EventRetrying
  else "".

Definition UseCase_Publish (jobID eventType data : string) : M W (option goerr) :=
  err ← pub_Publish jobID (domain_event eventType) data;
  mret (EnsureAppError err ErrCodePublishFailed ErrTypeStream).

Definition UseCase_Close (jobID : string) : M W (option goerr) :=
  err ← pub_Close jobID;
  mret (EnsureAppError err ErrCodeConnectionLost ErrTypeStream).

(** [StreamSubscriberUseCase.Subscribe]: the goroutine that copies the data
    of chunks, as the events it receives come in; it ends at the first other
    event or when the context does. *)
Context (data_send : string -> M W bool).

Fixpoint forward_chunks (events : list StreamEvent) : M W unit :=
  match events with
  | [] => skip
  | event :: events' =>
      if String.eqb (ev_Type event) "chunk" then
        sent ← data_send (ev_Data event);
        if negb sent then skip else forward_chunks events'
      else skip
  end.
End usecase.

(** ** transport/handler.go *)

Section sse.
Context {W : Type} (write : string -> M W (option goerr)).

Definition newline : string := String (Ascii.ascii_of_nat 10) "".

Definition writeSSEEvent (eventType data : string) : M W (option goerr) :=
  err ← write ("event: " +:+ eventType +:+ newline);
  match err with
  | Some e => mret (Some e)
  | None =>
      err ← for_each_err (fun line => write ("data: " +:+ line +:+ newline))
              (Split data (Ascii.ascii_of_nat 10));
      match err with
      | Some e => mret (Some e)
      | None => write newline
      end
  end.
End sse.

(** What the select of [HandleStream] finds: the end of the context, a tick
    of the heartbeat, an event, or the closed channel. *)
Inductive occurrence : Type :=
| ContextDone
| HeartbeatTick
| EventReceived (e : StreamEvent)
| EventsClosed.

Inductive stream_metric : Type :=
| ObserveStreamDelivery
| ObserveJobEndToEnd (createdAt : Z).

Section handler.
Context {G V : Type} `{!Gin G}.

(** [metrics] and [jobAcceptedAtReader] may be [nil]; the zero time is
    [None]. *)
Context (metrics : option (stream_metric -> M V unit)).
Context (jobAcceptedAtReader : option (string -> M V (res goerr Z))).
Context (jobID : string).

Definition observe_delivery (m : stream_metric) : M (G * V) unit :=
  match metrics with Some record => svc (record m) | None => skip end.

Definition jobAcceptedAt : M (G * V) (option Z) :=
  match metrics, jobAcceptedAtReader with
  | Some _, Some read =>
      r ← svc (read jobID);
      mret match r with Ok t => Some t | Err _ => None end
  | _, _ => mret None
  end.

Definition observeJobEndToEnd (createdAt : option Z) : M (G * V) unit :=
  match createdAt with
  | Some t => observe_delivery (ObserveJobEndToEnd t)
  | None => skip
  end.

Definition sse_write (s : string) : M (G * V) (option goerr) := gin (WriteString s).

(** One turn of the loop; [false] when the handler returns. *)
Definition handle_occurrence (o : occurrence) : M (G * V) bool :=
  match o with
  | ContextDone | EventsClosed => mret false
  | HeartbeatTick =>
      err ← sse_write (": heartbeat" +:+ newline +:+ newline);
      mret (match err with Some _ => false | None => true end)
  | EventReceived event =>
      if String.eqb (ev_Type event) "chunk" || String.eqb (ev_Type event) "retrying" then
        err ← writeSSEEvent sse_write (ev_Type event) (ev_Data event);
        match err with
        | Some _ => mret false
        | None => _ ← observe_delivery ObserveStreamDelivery; mret true
        end
      else if isTerminalEvent (ev_Type event) then
        createdAt ← jobAcceptedAt;
        err ← writeSSEEvent sse_write (ev_Type event) (ev_Data event);
        match err with
        | Some _ => mret false
        | None =>
            _ ← observe_delivery ObserveStreamDelivery;
            _ ← observeJobEndToEnd createdAt;
            mret false
        end
      else mret true
  end.

(** The loop, over what its selects find. *)
Fixpoint stream_loop (found : list occurrence) : M (G * V) bool :=
  match found with
  | [] => mret true
  | o :: found' =>
      go_on ← handle_occurrence o;
      if (go_on : bool) then stream_loop found' else mret false
  end.
End handler.

Section routes.
Context {G V : Type} `{!Gin G}.

(** The parts of net/http and of the uuid library the handler asks:
    [uuid.Parse], [SetWriteDeadline], and whether the writer can flush. *)
Context (uuid_ok : string -> bool) (SetWriteDeadline : M (G * V) (option goerr))
  (flusher : bool).
Context (metrics : option (stream_metric -> M V unit)).
Context (jobAcceptedAtReader : option (string -> M V (res goerr Z))).
(** [subscriber.Subscribe], and what the selects find afterwards. *)
Context (subscribe : string -> M V (res goerr (list occurrence))).

Definition stream_error (code msg : string) : goerr :=
  NewAppError code "STREAM_FAILED" (Some (errors_New msg)).

Definition HandleStream : handler G V :=
  jobID ← gin (Param "jobID");
  if str_empty jobID then fail (stream_error ErrCodeInvalidStreamData "jobID is required")
  else if negb (uuid_ok jobID) then
    fail (stream_error ErrCodeInvalidStreamData "jobID is not valid")
  else
    err ← SetWriteDeadline;
    match err with
    | Some _ => fail (stream_error ErrCodeInternal "failed to clear write deadline")
    | None =>
        _ ← gin (SetHeader "Content-Type" "text/event-stream");
        _ ← gin (SetHeader "Cache-Control" "no-cache");
        _ ← gin (SetHeader "Connection" "keep-alive");
        _ ← gin (SetHeader "Access-Control-Allow-Origin" "*");
        if negb flusher then fail (stream_error ErrCodeInternal "streaming unsupported")
        else
          events ← svc (subscribe jobID);
          match events with
          | Err err =>
              match EnsureAppError (Some err) ErrCodeSubscribeFailed "STREAM_FAILED" with
              | Some e => fail e
              | None => skip
              end
          | Ok found =>
              _ ← stream_loop metrics jobAcceptedAtReader jobID found; skip
          end
    end.

(** transport/middleware.go *)
Definition stream_AuthenticateMiddleware
    (ValidateAccessToken : string -> M V (res goerr (string * string))) : middleware G V :=
  fun next =>
    authHeader ← gin (GetHeader "Authorization");
    match cut " "%char authHeader with
    | None => fail_abort (AppError ErrCodeUnauthorized "INVALID_AUTH_HEADER"
        (Some (errors_New "authorization header must be in the format 'Bearer <token>'")))
    | Some (scheme, tokenString) =>
        if negb (String.eqb (lower scheme) "bearer") then
          fail_abort (AppError ErrCodeUnauthorized "INVALID_AUTH_HEADER"
            (Some (errors_New "authorization header must be in the format 'Bearer <token>'")))
        else
          r ← svc (ValidateAccessToken tokenString);
          match r with
          | Err err =>
              fail_abort (AppError ErrCodeUnauthorized "INVALID_ACCESS_TOKEN" (Some err))
          | Ok (userID, role) =>
              _ ← gin (SetKey "userID" userID);
              _ ← gin (SetKey "userRole" role);
              _ ← gin (WithValue "user_id" userID);
              next
          end
    end.

(** transport/http_errors.go *)
Definition MsgInternalError :=
  "Your stream request could not be completed due to an unexpected server error. Please retry. If the problem persists, include your request ID when contacting support.".
Definition StreamCodeRegistry : CodeRegistry := list_to_map [
  (ErrCodeStreamNotFound, MkErrorMeta 404
    "The requested stream could not be found. Please verify the stream ID and try again.");
  (ErrCodeSubscribeFailed, MkErrorMeta 500 MsgInternalError);
  (ErrCodePublishFailed, MkErrorMeta 500 MsgInternalError);
  (ErrCodeConnectionLost, MkErrorMeta 503
    "The streaming service is temporarily unavailable. Please retry in a few moments.");
  (ErrCodeInvalidStreamData, MkErrorMeta 400
    "Your stream request contains invalid parameters. Verify the stream ID format and subscription options, then try again.");
  (ErrCodeInternal, MkErrorMeta 500 MsgInternalError);
  (ErrCodeUnauthorized, MkErrorMeta 401
    "Authentication is required to access stream endpoints. Your session may have expired or the provided token is invalid. Please sign in again and include a valid authentication token.")].

(** transport/middleware.go: the module's own copies. *)
Definition stream_TimeoutMiddleware : Z -> middleware G V := TimeoutMiddleware.
Definition stream_ErrorHandler : middleware G V := ErrorHandler StreamCodeRegistry "STREAM_FAILED".

(** transport/routes.go: GET /stream/:jobID *)
Definition RegisterStreamRoutes
    (ValidateAccessToken : string -> M V (res goerr (string * string))) : handler G V :=
  chain [stream_TimeoutMiddleware (30 * 60 * second);
         stream_ErrorHandler;
         stream_AuthenticateMiddleware ValidateAccessToken] HandleStream.
End routes.

(** ** adapters *)

Section adapters.
Context {V : Type}.

(** adapters/metrics_adapter.go: the acceptance time of a job.  The reader
    may be [nil]. *)
Definition GetJobAcceptedAt {J : Type} (createdAt : J -> Z)
    (jobReader : option (string -> M V (res goerr J))) (jobID : string) : M V (res goerr Z) :=
  match jobReader with
  | None => mret (Err (errors_New "job reader must not be nil"))
  | Some read => snapshot ← read jobID; mret (res_map createdAt snapshot)
  end.

Definition MetricsAdapter_observe (recorder : option (stream_metric -> M V unit))
    (m : stream_metric) : M V unit :=
  match recorder with Some record => record m | None => skip end.

(** ** module.go *)

(** Whether each dependency is there. *)
Definition NewStreamModule (redisClient tokens logger : bool) : res goerr unit :=
  if negb redisClient then
    Err (errors_New "stream dependencies: redis client must not be nil")
  else if negb tokens then
    Err (errors_New "stream dependencies: token validation service must not be nil")
  else if negb logger then Err (errors_New "stream logger must not be nil")
  else Ok tt.
End adapters.
