(* ===== verification/StreamThms.v ===== *)
(** * Theorems about streams

    What a worker publishes on the stream of a job is what a subscriber
    receives, in order, however the two interleave. *)

From S2P Require Import Prelude GoText GoErr Redis Env Http Stream.
From stdpp Require Import base gmap list strings sorting.
From Stdlib Require Import ZArith Lia Ascii.

(** ** Payloads *)

Definition valid_event (e : StreamEvent) : Prop :=
  ValidString (ev_Type e) = true /\ ValidString (ev_Data e) = true.

(** The body of a JSON string and its closing quote, with fuel to spare. *)
Lemma parse_json_string (s : string) m more :
  ValidString s = true -> (length (json_string s) <= m)%nat ->
  parse_string m (json_body (String.length s) (String.list_ascii_of_string s) ++ quote :: more)
    = Some (String.list_ascii_of_string s, more).
Proof.
  intros Hv Hm. unfold json_string in Hm. cbn in Hm. rewrite length_app in Hm. cbn in Hm.
  apply parse_json_body; [|done|lia].
  clear. induction s; cbn; lia.
Qed.

(** An object whose members are strings, without blanks. *)
Lemma parse_object n rest :
  parse_value (S n) ("{"%char :: quote :: rest)
    = (p ← parse_members n (quote :: rest); Some (JObject p.1, p.2)).
Proof. reflexivity. Qed.

Lemma parse_member n s k r1 v r2 :
  parse_string (S n) s = Some (k, ":"%char :: quote :: r1) ->
  parse_string n r1 = Some (v, r2) ->
  parse_members (S (S n)) (quote :: s) =
    match skip_ws r2 with
    | c :: rest =>
        if Ascii.eqb c "}"%char then Some ([(k, JString v)], rest)
        else if Ascii.eqb c ","%char then
          q ← parse_members (S n) rest; Some ((k, JString v) :: q.1, q.2)
        else None
    | [] => None
    end.
Proof.
  intros Hk Hv.
  assert (Hp : parse_value (S n) (quote :: r1) = Some (JString v, r2)).
  { transitivity (p ← parse_string n r1; Some (JString p.1, p.2)); [reflexivity|by rewrite Hv]. }
  transitivity (k ← parse_string (S n) s;
    match skip_ws k.2 with
    | colon :: rest' =>
        if Ascii.eqb colon ":"%char then
          p ← parse_value (S n) rest';
          match skip_ws p.2 with
          | c :: rest'' =>
              if Ascii.eqb c "}"%char then Some ([(k.1, p.1)], rest'')
              else if Ascii.eqb c ","%char then
                q ← parse_members (S n) rest''; Some ((k.1, p.1) :: q.1, q.2)
              else None
          | [] => None
          end
        else None
    | [] => None
    end); [reflexivity|].
  rewrite Hk. change (mbind (M := option) ?f (Some ?x)) with (f x). cbv beta.
  change (skip_ws (k, ":"%char :: quote :: r1).2) with (":"%char :: quote :: r1).
  cbv iota. change (Ascii.eqb ":" ":") with true. cbv iota. by rewrite Hp.
Qed.

Lemma unmarshal_marshal (e : StreamEvent) :
  valid_event e -> unmarshal_message (marshal_message e) = Some e.
Proof.
  destruct e as [t d]. intros [Ht Hd]. cbn [ev_Type ev_Data] in *.
  unfold unmarshal_message, marshal_message. cbn [ev_Type ev_Data].
  rewrite String.list_ascii_of_string_of_list_ascii.
  set (p1 := String.list_ascii_of_string ("{" +:+ _)).
  set (p2 := String.list_ascii_of_string ("," +:+ _)).
  set (p3 := String.list_ascii_of_string "}"). vm_compute in p1, p2, p3.
  set (doc := p1 ++ _).
  assert (Hlen : exists n, (2 * length doc + 2 = 9 + n
    /\ length (json_string t) <= 5 + n /\ length (json_string d) <= 4 + n)%nat).
  { exists (2 * length doc - 7)%nat. unfold doc. rewrite !length_app.
    generalize (json_string t) (json_string d). unfold p1, p2, p3. cbn [length]. lia. }
  destruct Hlen as (n & Hn & Hnt & Hnd). unfold parse_json. rewrite Hn. clear Hn.
  assert (Hdoc : doc = p1 ++ quote :: (json_body (String.length t) (String.list_ascii_of_string t)
    ++ quote :: p2 ++ quote :: (json_body (String.length d) (String.list_ascii_of_string d)
    ++ quote :: p3))).
  { unfold doc, json_string. cbn [app]. by rewrite <- !app_assoc. }
  rewrite Hdoc. clear Hdoc doc. unfold p1, p2, p3. clear p1 p2 p3. cbn [app].
  pose proof (parse_json_string t) as Pt. pose proof (parse_json_string d) as Pd.
  revert Pt Pd.
  generalize (json_body (String.length t) (String.list_ascii_of_string t)).
  generalize (json_body (String.length d) (String.list_ascii_of_string d)).
  intros bd bt Pt Pd. cbn [plus]. rewrite parse_object.
  erewrite parse_member; [|reflexivity|apply Pt; [done|lia]].
  match goal with |- context [skip_ws (?c :: ?x)] =>
    change (skip_ws (c :: x)) with (c :: x) end. cbv iota.
  change (Ascii.eqb "," "}") with false. change (Ascii.eqb "," ",") with true. cbv iota.
  erewrite parse_member; [|reflexivity|apply Pd; [done|lia]].
  transitivity (Some (MkStreamEvent
    (String.string_of_list_ascii (String.list_ascii_of_string t))
    (String.string_of_list_ascii (String.list_ascii_of_string d)))); [|by rewrite !list_string_list].
  by generalize (String.list_ascii_of_string t), (String.list_ascii_of_string d).
Qed.

(** ** The events up to the terminal one *)

Definition is_terminal (e : StreamEvent) : bool := isTerminalEvent (ev_Type e).

Fixpoint upto_terminal (es : list StreamEvent) : list StreamEvent :=
  match es with
  | [] => []
  | e :: es' => if is_terminal e then [e] else e :: upto_terminal es'
  end.

Lemma upto_terminal_none es : existsb is_terminal es = false -> upto_terminal es = es.
Proof.
  induction es as [|e es IH]; [done|]. cbn. destruct (is_terminal e); [done|].
  cbn. intros H. by rewrite IH.
Qed.

Lemma upto_terminal_prefix es more :
  existsb is_terminal es = true -> upto_terminal (es ++ more) = upto_terminal es.
Proof.
  induction es as [|e es IH]; [done|]. cbn. destruct (is_terminal e); [done|].
  cbn. intros H. by rewrite IH.
Qed.

Lemma upto_terminal_app es more :
  existsb is_terminal es = false -> upto_terminal (es ++ more) = es ++ upto_terminal more.
Proof.
  induction es as [|e es IH]; [done|]. cbn. destruct (is_terminal e); [done|].
  cbn. intros H. by rewrite IH.
Qed.

(** ** A subscriber and the rest of the world *)

Section delivery.
Context {R : Type} `{!Redis R, !RedisDoc R} (job : string).
#[local] Abbreviation W := (R * list StreamEvent)%type.

(** The world of the subscriber: Redis and what it has sent on its channel,
    which its reader empties; the request stays alive. *)
#[global] Instance sub_redis : RedisClient W := {|
  rc_run := fun A s w =>
    let '(x, r) := run_script s w.1 in
    (match x with Ok a => Ok a | Err m => Err (errors_New m) end, (r, w.2));
|}.
#[global] Instance sub_context : GoContext W := {|
  ctx_Err := mret None;
  ctx_sleep := fun _ => mret None;
|}.
Definition sub_emit (e : StreamEvent) : M W bool := fun w => (true, (w.1, w.2 ++ [e])).

Record stream_sys := MkSys { ss_redis : R; ss_last : option Z; ss_got : list StreamEvent }.

(** What Redis holds under the key of the job's stream, and the clock. *)
Definition slot (r : R) :=
  let d := redis_view r in let k := streamKey job in
  (r_strs d !! k, r_hashes d !! k, r_streams d !! k).
Definition clock (r : R) : Z := r_now (redis_view r).

(** The commands of [Publish]: an entry is appended; the stream gets a time
    to live. *)
Definition append_cmd (t d : string) : cmd Z :=
  XADD (streamKey job) (marshal_message (MkStreamEvent t d)).

Inductive retention : cmd unit -> Prop :=
| retain_new : retention (EXPIRE_NX (streamKey job) streamTTL)
| retain_ended : retention (EXPIRE (streamKey job) streamRetention).

Definition exec {A} (c : cmd A) (r : R) : R := (run_script (call c) r).2.

(** One step: an event is published, at once or command by command; the
    subscriber reads once; time passes; or anything else happens to the other
    keys. *)
Inductive stream_step : stream_sys -> list StreamEvent -> stream_sys -> Prop :=
| step_publish r l g t d :
    stream_step (MkSys r l g) [MkStreamEvent t d] (MkSys (Publish job t d r).2 l g)
| step_append r l g t d :
    stream_step (MkSys r l g) [MkStreamEvent t d] (MkSys (exec (append_cmd t d) r) l g)
| step_retain c r l g : retention c -> stream_step (MkSys r l g) [] (MkSys (exec c r) l g)
| step_read r last g :
    let w := subscribe_iter sub_emit job last (r, g) in
    stream_step (MkSys r (Some last) g) [] (MkSys w.2.1 w.1 w.2.2)
| step_wait r l g dt : stream_step (MkSys r l g) [] (MkSys (redis_wait dt r) l g)
| step_other r r' l g :
    slot r' = slot r -> clock r' = clock r -> stream_step (MkSys r l g) [] (MkSys r' l g).

Inductive stream_trace : stream_sys -> list StreamEvent -> stream_sys -> Prop :=
| stream_trace_nil s : stream_trace s [] s
| stream_trace_snoc s es s' es' s'' :
    stream_trace s es s' -> stream_step s' es' s'' -> stream_trace s (es ++ es') s''.

Lemma stream_trace_app s es s' es' s'' :
  stream_trace s es s' -> stream_trace s' es' s'' -> stream_trace s (es ++ es') s''.
Proof.
  intros H1 H2. revert H1. induction H2 as [|s' es' s1 es1 s2 _ IH Hs]; intros H1;
    [by rewrite app_nil_r|]. rewrite app_assoc. eapply stream_trace_snoc; [by apply IH|done].
Qed.

Lemma stream_trace_one s es s' : stream_step s es s' -> stream_trace s es s'.
Proof. intros Hs. exact (stream_trace_snoc _ _ _ _ _ (stream_trace_nil s) Hs). Qed.

(** *** The effect of one step on the stream *)

Definition empty_slot (r : R) : Prop := slot r = (None, None, None).

Definition last_id (l : list (Z * string)) : Z := from_option fst 0%Z (last l).

(** What the key of the stream holds: the entries, with an expiry. *)
Definition held (l : list (Z * string)) (e : option Z) : option (list (Z * string) * option Z) :=
  match l with [] => None | _ => Some (l, e) end.

Definition holds (d : rdata) (l : list (Z * string)) (e : option Z) : Prop :=
  let k := streamKey job in
  r_strs d !! k = None /\ r_hashes d !! k = None /\ r_streams d !! k = held l e.

Lemma holds_slot r l e :
  holds (redis_view r) l e <-> slot r = (None, None, held l e).
Proof. unfold holds, slot. split; [by intros (-> & -> & ->)|by intros [= -> -> ->]]. Qed.

Lemma exec_view {A} (c : cmd A) r : redis_view (exec c r) = (doc_exec c (redis_view r)).2.
Proof. unfold exec. by rewrite run_script_view, run_tail. Qed.

Lemma holds_stream d l e : holds d l e -> rstream d (streamKey job) = l.
Proof. intros (_ & _ & H). unfold rstream. rewrite H. by destruct l. Qed.

(** The stream grows by one entry, with a greater id. *)
Lemma append_holds t dt d l e :
  holds d l e -> (0 <= last_id l)%Z ->
  exists id e', (last_id l < id)%Z /\ (e' = e \/ e' = None)
    /\ holds (doc_exec (append_cmd t dt) d).2
         (l ++ [(id, marshal_message (MkStreamEvent t dt))]) e'.
Proof.
  intros Hh Hpos. pose proof (holds_stream _ _ _ Hh) as Hst. destruct Hh as (Hs & Hx & Hl).
  exists (next_id d (streamKey job)), (r_streams d !! streamKey job ≫= snd).
  split; [|split].
  - unfold next_id, last_id in *. rewrite Hst. destruct (last l) as [[i p]|]; cbn in *; lia.
  - rewrite Hl. destruct l; [by right|by left].
  - split; [done|]. split; [done|]. cbn. rewrite Hst, lookup_insert_eq. by destruct l.
Qed.

Lemma expire_holds ttl d l e :
  (0 < ttl)%Z -> holds d l e ->
  holds (do_expire (streamKey job) ttl d) l (Some (r_now d + ttl * 10 ^ 6)%Z).
Proof.
  intros Ht (Hs & Hx & Hl). unfold do_expire. destruct (Z.leb_spec ttl 0); [lia|].
  unfold holds, set_expiry. cbn. rewrite !lookup_alter_eq, Hs, Hx, Hl. by destruct l.
Qed.

(** The entries stay; an expiry that is set is at least half an hour away. *)
Lemma retain_holds c d l e :
  retention c -> holds d l e ->
  exists e', holds (doc_exec c d).2 l e'
    /\ (e' = e \/ exists x, e' = Some x /\ (r_now d + 1800 * 10 ^ 6 <= x)%Z).
Proof.
  intros Hc Hh. destruct Hc; cbn [doc_exec snd].
  - destruct (key_expiry d (streamKey job)); [by exists e; split; [|left]|].
    eexists. split; [by eapply expire_holds|]. right. eexists. split; [done|]. unfold streamTTL. lia.
  - eexists. split; [by eapply expire_holds|]. right. eexists. split; [done|].
    unfold streamRetention. lia.
Qed.

(** [Publish] is its commands, in this order. *)
Lemma publish_commands t d r :
  (Publish job t d r).1 = None /\
  (Publish job t d r).2 =
    (let r2 := exec (EXPIRE_NX (streamKey job) streamTTL) (exec (append_cmd t d) r) in
     if isTerminalEvent t then exec (EXPIRE (streamKey job) streamRetention) r2 else r2).
Proof.
  unfold Publish, appendMessage. fold (append_cmd t d).
  set (c1 := append_cmd t d). set (c2 := EXPIRE_NX _ _). set (c3 := EXPIRE _ _).
  rewrite !bind_unfold. rewrite (proj1 (rc_cmd_direct c1 r)). cbn [fst snd].
  change ((doc_exec c1 (redis_view r)).1) with (Ok (E := string) (next_id (redis_view r) (streamKey job))).
  cbv iota. rewrite bind_unfold. fold (exec c1 r). rewrite (proj1 (rc_cmd_direct c2 (exec c1 r))).
  cbn [fst snd]. change ((doc_exec c2 (redis_view (exec c1 r))).1) with (Ok (E := string) tt).
  cbv iota. rewrite ret_unfold. cbn [fst snd]. fold (exec c2 (exec c1 r)).
  destruct (isTerminalEvent t); [|done]. rewrite bind_unfold.
  rewrite (proj1 (rc_cmd_direct c3 (exec c2 (exec c1 r)))). by rewrite ret_unfold.
Qed.
(** *** Ids *)

(** The ids of a stream increase, from above 0. *)
Definition ordered (l : list (Z * string)) : Prop := StronglySorted Z.lt (0%Z :: l.*1).

Lemma ordered_last l : ordered l -> (0 <= last_id l)%Z.
Proof.
  intros Ho. unfold last_id. destruct (last l) as [[i p]|] eqn:E; [|done].
  apply last_Some in E as [l' ->]. apply StronglySorted_inv in Ho as [_ Ho].
  rewrite fmap_app, Forall_app in Ho. destruct Ho as [_ Ho].
  apply Forall_cons in Ho as [Ho _]. cbn in *. lia.
Qed.

Lemma sorted_below (l : list Z) (a : Z) x :
  StronglySorted Z.lt l -> x ∈ l -> last l = Some a -> (x <= a)%Z.
Proof.
  intros Hs Hx [l' ->]%last_Some. apply elem_of_app in Hx as [Hx|Hx%list_elem_of_singleton];
    [|lia]. pose proof (StronglySorted_app_1_elem_of _ _ _ x a Hs Hx ltac:(set_solver)). lia.
Qed.

Lemma last_fst (l : list (Z * string)) :
  last (0%Z :: l.*1) = Some (last_id l).
Proof.
  unfold last_id. destruct l as [|x l] using rev_ind; [done|].
  rewrite fmap_app, app_comm_cons. change ([x].*1) with [x.1]. by rewrite !last_snoc.
Qed.

Lemma ordered_snoc l i p :
  ordered l -> (last_id l < i)%Z -> ordered (l ++ [(i, p)]).
Proof.
  intros Ho Hi. unfold ordered in *. rewrite fmap_app, app_comm_cons.
  apply StronglySorted_app_2; [|exact Ho|cbn; repeat constructor].
  cbn. intros x y Hx Hy%list_elem_of_singleton. subst y.
  pose proof (sorted_below _ _ _ Ho Hx (last_fst l)). lia.
Qed.

(** The entries after the last one that was read. *)
Lemma unread l1 l2 :
  ordered (l1 ++ l2) -> filter (fun e => (last_id l1 < e.1)%Z) (l1 ++ l2) = l2.
Proof.
  intros Ho. unfold ordered in Ho. rewrite fmap_app, app_comm_cons in Ho.
  pose proof (StronglySorted_app_1_l _ _ _ Ho) as Ho1.
  pose proof (last_fst l1) as Hl.
  assert (H1 : forall l, Forall (fun e : Z * string => (e.1 <= last_id l1)%Z) l ->
    filter (fun e => (last_id l1 < e.1)%Z) l = []).
  { induction 1 as [|e l He _ IH]; [done|]. rewrite filter_cons_False by lia. done. }
  assert (H2 : forall l, Forall (fun e : Z * string => (last_id l1 < e.1)%Z) l ->
    filter (fun e => (last_id l1 < e.1)%Z) l = l).
  { induction 1 as [|e l He _ IH]; [done|]. rewrite filter_cons_True by done. by rewrite IH. }
  rewrite filter_app, H1, H2; [done| |]; apply Forall_forall; intros e He.
  - eapply (StronglySorted_app_1_elem_of _ _ _ _ _ Ho).
    + by eapply last_Some_elem_of.
    + by apply list_elem_of_fmap_2.
  - eapply sorted_below; [exact Ho1| |exact Hl]. right. by apply list_elem_of_fmap_2.
Qed.

(** *** Reading *)

Lemma deliver_events es m id r g :
  Forall valid_event es -> m.*2 = marshal_message <$> es ->
  deliver sub_emit m id (r, g)
    = (if existsb is_terminal es then None else Some (from_option fst id (last m)),
       (r, g ++ upto_terminal es)).
Proof.
  intros Hv. revert m id g. induction Hv as [|e es He Hv IH]; intros [|[i p] m] id g Hm;
    try discriminate; [by rewrite app_nil_r|].
  injection Hm as -> Hm. cbn [deliver existsb upto_terminal].
  rewrite unmarshal_marshal by done. rewrite bind_unfold.
  cbn [sub_emit fst snd negb]. fold (is_terminal e). destruct (is_terminal e); [done|].
  rewrite (IH m i) by done. cbn [orb]. rewrite <- app_assoc. cbn [app].
  destruct (existsb is_terminal es); [done|]. by destruct m as [|x m] using rev_ind;
    [|rewrite app_comm_cons, !last_snoc].
Qed.

Lemma read_effect id r g :
  exists r', redis_view r' = redis_view r /\
  subscribe_iter sub_emit job id (r, g) =
    deliver sub_emit
      (take 100 (filter (fun e => (id < e.1)%Z) (rstream (redis_view r) (streamKey job))))
      id (r', g).
Proof.
  exists (run_script (call (XREAD (streamKey job) id 100)) r).2.
  split; [by rewrite run_script_view, run_tail|].
  unfold subscribe_iter, xread. rewrite !bind_unfold, ret_unfold.
  set (c := XREAD _ _ _).
  assert (Hrun : rc_run (call c) (r, g) =
    (Ok (take 100 (filter (fun e => (id < e.1)%Z) (rstream (redis_view r) (streamKey job)))),
     ((run_script (call c) r).2, g))).
  { cbn [rc_run sub_redis fst snd]. pose proof (run_script_reply (call c) r) as Hr.
    rewrite run_tail in Hr. destruct (run_script (call c) r) as [x r']. cbn in Hr. by rewrite Hr. }
  rewrite Hrun. cbn [fst snd]. by destruct (take 100 _).
Qed.
(** *** The invariant *)

(** What was published is in the stream, with an expiry beyond [t0] and half
    an hour, once there is anything; the subscriber has sent a prefix of it
    and stands after the entry of its last event, or has sent everything up
    to the terminal event and is gone. *)
Record stream_inv (t0 : Z) (es : list StreamEvent) (s : stream_sys) : Prop := {
  inv_clock : (t0 <= clock (ss_redis s))%Z;
  inv_stream : exists l1 l2 es1 es2 e,
    es = es1 ++ es2
    /\ holds (redis_view (ss_redis s)) (l1 ++ l2) e
    /\ (forall x, e = Some x -> (t0 + 1800 * 10 ^ 6 <= x)%Z)
    /\ ordered (l1 ++ l2)
    /\ l1.*2 = marshal_message <$> es1 /\ l2.*2 = marshal_message <$> es2
    /\ match ss_last s with
       | Some id => id = last_id l1 /\ ss_got s = es1 /\ existsb is_terminal es1 = false
       | None => existsb is_terminal es = true /\ ss_got s = upto_terminal es
       end;
}.

Lemma inv_init r : empty_slot r -> stream_inv (clock r) [] (MkSys r (Some 0%Z) []).
Proof.
  intros Hs. split; [cbn; lia|]. exists [], [], [], [], None. cbn.
  split; [done|]. split; [by apply holds_slot|]. repeat split; try done. repeat constructor.
Qed.

Lemma read_view id r g :
  redis_view (subscribe_iter sub_emit job id (r, g)).2.1 = redis_view r.
Proof.
  destruct (read_effect id r g) as (r' & Hr & ->).
  assert (Hd : forall m id w, (deliver sub_emit m id w).2.1 = w.1).
  { clear. induction m as [|[i p] m IH]; intros id w; [done|]. cbn [deliver].
    destruct (unmarshal_message p); [|apply IH]. rewrite bind_unfold. cbn.
    case_match; [done|]. by rewrite IH. }
  rewrite Hd. exact Hr.
Qed.

Lemma exec_clock {A} (c : cmd A) r : clock (exec c r) = clock r.
Proof. unfold clock. by rewrite exec_view, doc_exec_now. Qed.

Lemma publish_clock t d r : clock (Publish job t d r).2 = clock r.
Proof. destruct (publish_commands t d r) as [_ ->]. cbv zeta. case_match; by rewrite !exec_clock. Qed.

Lemma step_clock s es s' : stream_step s es s' -> (clock (ss_redis s) <= clock (ss_redis s'))%Z.
Proof.
  intros [r l g t d|r l g t d|c r l g _|r id g|r l g dt|r r' l g Hs Hc]; cbn [ss_redis].
  - by rewrite publish_clock.
  - by rewrite exec_clock.
  - by rewrite exec_clock.
  - subst w. unfold clock. by rewrite read_view.
  - unfold clock. rewrite redis_wait_doc. cbn. lia.
  - lia.
Qed.

Lemma trace_clock s es s' : stream_trace s es s' -> (clock (ss_redis s) <= clock (ss_redis s'))%Z.
Proof.
  induction 1 as [|s es s' es' s'' _ IH Hs]; [lia|]. pose proof (step_clock _ _ _ Hs). lia.
Qed.
Lemma last_id_app l1 l2 : last_id (l1 ++ l2) = from_option fst (last_id l1) (last l2).
Proof.
  unfold last_id. rewrite last_app. by destruct (last l2).
Qed.

Lemma inv_append t0 es t d r l g :
  stream_inv t0 es (MkSys r l g) ->
  stream_inv t0 (es ++ [MkStreamEvent t d]) (MkSys (exec (append_cmd t d) r) l g).
Proof.
  intros [Hc (l1 & l2 & es1 & es2 & e & -> & Hh & Hx & Ho & H1 & H2 & Hsub)].
  cbn [ss_redis ss_last ss_got] in *.
  destruct (append_holds t d _ _ _ Hh (ordered_last _ Ho)) as (id & e' & Hid & He' & Hh').
  split; cbn [ss_redis ss_last ss_got]; [by rewrite exec_clock|].
  exists l1, (l2 ++ [(id, marshal_message (MkStreamEvent t d))]), es1, (es2 ++ [MkStreamEvent t d]), e'.
  rewrite !app_assoc, !fmap_app, H2, exec_view.
  repeat split; try done; try apply Hh'.
  - intros x ->. destruct He' as [He'|]; [|done]. by apply Hx.
  - by apply ordered_snoc.
  - destruct l as [id0|]; [done|]. destruct Hsub as [Ht ->].
    rewrite existsb_app, Ht. split; [done|]. by rewrite (upto_terminal_prefix (es1 ++ es2)).
Qed.

Lemma inv_retain t0 es c r l g :
  retention c -> stream_inv t0 es (MkSys r l g) -> stream_inv t0 es (MkSys (exec c r) l g).
Proof.
  intros Hret [Hc (l1 & l2 & es1 & es2 & e & -> & Hh & Hx & Hrest)].
  cbn [ss_redis ss_last ss_got] in *. destruct (retain_holds c _ _ _ Hret Hh) as (e' & Hh' & He').
  split; cbn [ss_redis ss_last ss_got]; [by rewrite exec_clock|].
  exists l1, l2, es1, es2, e'. rewrite exec_view. split; [done|]. split; [done|].
  split; [|done]. intros x ->. destruct He' as [He'|(x' & [= <-] & Hx')]; [by apply Hx|].
  unfold clock in Hc. lia.
Qed.

Lemma inv_publish t0 es t d r l g :
  stream_inv t0 es (MkSys r l g) ->
  stream_inv t0 (es ++ [MkStreamEvent t d]) (MkSys (Publish job t d r).2 l g).
Proof.
  intros Hi. destruct (publish_commands t d r) as [_ ->]. cbv zeta.
  destruct (isTerminalEvent t); repeat (apply inv_retain; [constructor|]); by apply inv_append.
Qed.

Lemma inv_wait t0 es r l g dt :
  stream_inv t0 es (MkSys r l g) -> (clock (redis_wait dt r) < t0 + 1800 * 10 ^ 6)%Z ->
  stream_inv t0 es (MkSys (redis_wait dt r) l g).
Proof.
  intros [Hc (l1 & l2 & es1 & es2 & e & -> & (Hs & Hh & Hst) & Hx & Hrest)] Hb.
  cbn [ss_redis ss_last ss_got] in *. unfold clock in *. rewrite redis_wait_doc in *.
  split; cbn [ss_redis ss_last ss_got]; [unfold clock; rewrite redis_wait_doc; cbn; lia|].
  exists l1, l2, es1, es2, e. split; [done|]. split; [|done]. rewrite redis_wait_doc.
  split; [by apply map_lookup_filter_None; left|].
  split; [by apply map_lookup_filter_None; left|]. unfold held in *.
  destruct (l1 ++ l2) as [|x l']; [by apply map_lookup_filter_None; left|].
  apply map_lookup_filter_Some. split; [done|]. destruct e as [y|]; [|done].
  cbn in *. specialize (Hx y eq_refl). lia.
Qed.

Lemma inv_read t0 es r id g (w := subscribe_iter sub_emit job id (r, g)) :
  Forall valid_event es -> stream_inv t0 es (MkSys r (Some id) g) ->
  stream_inv t0 es (MkSys w.2.1 w.1 w.2.2)
  /\ (w.1 <> None -> (Nat.min (length es) (length g + 100) <= length w.2.2)%nat).
Proof.
  intros Hv [Hc (l1 & l2 & es1 & es2 & e & -> & Hh & Hx & Ho & H1 & H2 & Hsub)].
  cbn [ss_redis ss_last ss_got] in *. destruct Hsub as (-> & -> & Hn).
  subst w. destruct (read_effect (last_id l1) r es1) as (r' & Hr & ->).
  rewrite (holds_stream _ _ _ Hh), unread by done.
  rewrite (deliver_events (take 100 es2)); cycle 1.
  { apply Forall_take. by apply Forall_app in Hv as [_ Hv]. }
  { by rewrite fmap_take, H2, fmap_take. }
  cbn [fst snd]. split; cycle 1.
  { destruct (existsb is_terminal (take 100 es2)) eqn:Ht; [done|]. intros _.
    rewrite upto_terminal_none, !length_app, length_take by done. lia. }
  split; cbn [ss_redis ss_last ss_got].
  { unfold clock in *. by rewrite Hr. }
  exists (l1 ++ take 100 l2), (drop 100 l2), (es1 ++ take 100 es2), (drop 100 es2), e.
  rewrite <- !app_assoc, !take_drop, !fmap_app, fmap_take, fmap_drop, H1, H2.
  rewrite Hr. repeat split; try apply Hh; try done; [by rewrite fmap_take|by rewrite fmap_drop|].
  destruct (existsb is_terminal (take 100 es2)) eqn:Ht.
  - assert (E : es1 ++ es2 = es1 ++ take 100 es2 ++ drop 100 es2) by by rewrite take_drop.
    rewrite E, !existsb_app, Hn, Ht. split; [done|].
    by rewrite upto_terminal_app, upto_terminal_prefix.
  - rewrite last_id_app, existsb_app, Hn, Ht, upto_terminal_none; done.
Qed.

Lemma inv_trace t0 s es s' :
  stream_trace s es s' -> Forall valid_event es ->
  (clock (ss_redis s') < t0 + 1800 * 10 ^ 6)%Z ->
  stream_inv t0 [] s -> stream_inv t0 es s'.
Proof.
  intros Ht. induction Ht as [s|s es s1 es' s2 Ht IH Hs]; [done|].
  intros [Hv Hv']%Forall_app Hb H0.
  assert (Hi : stream_inv t0 es s1).
  { apply IH; [done| |done]. pose proof (step_clock _ _ _ Hs). lia. }
  destruct Hs as [r l g t d|r l g t d|c r l g Hret|r id g|r l g dt|r r' l g Hsl Hc];
    rewrite ?app_nil_r.
  - by apply inv_publish.
  - by apply inv_append.
  - by apply inv_retain.
  - by apply inv_read.
  - by apply inv_wait.
  - destruct Hi as [Hclk (l1 & l2 & es1 & es2 & e & E & Hh & Hrest)].
    cbn [ss_redis ss_last ss_got] in *. split; cbn [ss_redis ss_last ss_got]; [by rewrite Hc|].
    exists l1, l2, es1, es2, e. split; [done|]. split; [|done].
    apply holds_slot. rewrite Hsl. by apply holds_slot.
Qed.
(** *** The loop of the subscriber ends *)

Lemma inv_waiting t0 es r id g :
  stream_inv t0 es (MkSys r (Some id) g) -> existsb is_terminal es = true ->
  g `prefix_of` es /\ (length g < length es)%nat.
Proof.
  intros [_ (l1 & l2 & es1 & es2 & e & -> & _ & _ & _ & _ & _ & _ & Hg & Hn)].
  cbn [ss_got] in Hg. subst g. rewrite existsb_app, Hn. intros Ht. split; [by eexists|].
  rewrite length_app. destruct es2; [done|cbn; lia].
Qed.

Lemma loop_ends n t0 es r id g :
  Forall valid_event es -> existsb is_terminal es = true ->
  stream_inv t0 es (MkSys r (Some id) g) -> (length es <= length g + 100 * n)%nat ->
  let w := subscribe_loop sub_emit n job id (r, g) in
  w.1 = None /\ w.2.2 = upto_terminal es.
Proof.
  intros Hv Ht. revert r id g. induction n as [|n IH]; intros r id g Hi Hn.
  { destruct (inv_waiting _ _ _ _ _ Hi Ht). lia. }
  cbn [subscribe_loop]. rewrite bind_unfold.
  destruct (inv_read t0 es r id g Hv Hi) as [Hi' Hlen].
  destruct (subscribe_iter sub_emit job id (r, g)) as [[id'|] [r' g']]; cbn [fst snd] in *.
  - apply IH; [done|]. specialize (Hlen ltac:(done)).
    destruct (inv_waiting _ _ _ _ _ Hi' Ht). lia.
  - by destruct Hi' as [_ (? & ? & ? & ? & ? & _ & _ & _ & _ & _ & _ & _ & Hg)].
Qed.

(** What the invariant says of the subscriber. *)
Definition delivered (es : list StreamEvent) (s : stream_sys) : Prop :=
  ss_got s `prefix_of` upto_terminal es
  /\ (ss_last s = None -> ss_got s = upto_terminal es)
  /\ forall id n, ss_last s = Some id -> existsb is_terminal es = true ->
     (length es <= 100 * n)%nat ->
     let w := subscribe_loop sub_emit n job id (ss_redis s, ss_got s) in
     w.1 = None /\ w.2.2 = upto_terminal es.

Lemma inv_delivered t0 es s : Forall valid_event es -> stream_inv t0 es s -> delivered es s.
Proof.
  intros Hv Hi. destruct s as [r' l g]. split; [|split]; cbn [ss_redis ss_last ss_got].
  - destruct Hi as [_ (l1 & l2 & es1 & es2 & e & -> & _ & _ & _ & _ & _ & Hsub)].
    cbn [ss_last ss_got] in Hsub. destruct l as [id|].
    + destruct Hsub as (_ & -> & Hn). rewrite upto_terminal_app by done. by eexists.
    + by destruct Hsub as [_ ->].
  - intros ->. by destruct Hi as [_ (? & ? & ? & ? & ? & _ & _ & _ & _ & _ & _ & _ & Hg)].
  - intros id n -> Hterm Hn. eapply loop_ends; [done|done|exact Hi|]. lia.
Qed.

(** C21: the stream of a job delivers.  Publish any events (of valid
    UTF-8), each at once or command by command, while the subscriber reads at
    its own pace, other keys change and less than the half hour of the
    stream's time to live passes: at every moment the subscriber has sent a prefix of the published events, in order and
    without gaps, up to the first terminal one; if it has closed its channel
    it has sent exactly that; and once a terminal event is published, a
    hundredth as many further reads as there are events end its loop with
    exactly that. *)
Theorem stream_delivery r es s n :
  empty_slot r -> stream_trace (MkSys r (Some 0%Z) []) es s -> Forall valid_event es ->
  (clock (ss_redis s) < clock r + 1800 * 10 ^ 6)%Z ->
  ss_got s `prefix_of` upto_terminal es
  /\ (ss_last s = None -> ss_got s = upto_terminal es)
  /\ forall id, ss_last s = Some id -> existsb is_terminal es = true ->
     (length es <= 100 * n)%nat ->
     let w := subscribe_loop sub_emit n job id (ss_redis s, ss_got s) in
     w.1 = None /\ w.2.2 = upto_terminal es.
Proof.
  intros Hr Ht Hv Hc.
  destruct (inv_delivered _ _ _ Hv (inv_trace _ _ _ _ Ht Hv Hc (inv_init r Hr))) as (H1 & H2 & H3).
  split; [exact H1|]. split; [exact H2|]. intros id. apply H3.
Qed.
End delivery.

(** ** Witness *)

Module StreamDemo.
Definition r0 : rdata := rdata_empty.
Definition ev (t d : string) : StreamEvent := MkStreamEvent t d.
Definition r1 := (Publish "j" "chunk" "Hello" r0).2.
Definition w2 := subscribe_iter sub_emit "j" 0 (r1, []).
Definition r3 := (Publish "j" "completed" "" w2.2.1).2.

Lemma trace :
  stream_trace "j" (MkSys r0 (Some 0%Z) []) [ev "chunk" "Hello"; ev "completed" ""]
    (MkSys r3 w2.1 w2.2.2).
Proof.
  apply (stream_trace_snoc _ _ [ev "chunk" "Hello"] (MkSys w2.2.1 w2.1 w2.2.2) [ev "completed" ""]);
    [|apply step_publish].
  apply (stream_trace_snoc _ _ [ev "chunk" "Hello"] (MkSys r1 (Some 0%Z) []) []);
    [|apply (step_read "j" r1 0 [])].
  apply (stream_trace_snoc _ _ [] (MkSys r0 (Some 0%Z) []) [ev "chunk" "Hello"]);
    [constructor|apply step_publish].
Qed.
End StreamDemo.

Lemma stream_delivery_witness :
  StreamDemo.w2.2.2 = [StreamDemo.ev "chunk" "Hello"]
  /\ (subscribe_loop sub_emit 1 "j" (default 0%Z StreamDemo.w2.1)
       (StreamDemo.r3, StreamDemo.w2.2.2)).2.2
     = [StreamDemo.ev "chunk" "Hello"; StreamDemo.ev "completed" ""].
Proof.
  split; [by vm_compute|].
  refine (proj2 (proj2 (proj2 (stream_delivery "j" StreamDemo.r0 _ _ 1 eq_refl
    StreamDemo.trace _ _)) _ _ _ _)).
  - repeat constructor.
  - vm_compute. done.
  - vm_compute. done.
  - done.
  - cbn. lia.
Defined.
