(* ===== verification/SseThms.v ===== *)
(** * Theorems about server-sent events

    What the handler of a stream writes, read back by the rules of the HTML
    standard for event streams. *)

From S2P Require Import Prelude GoText GoErr Http Stream.
From stdpp Require Import base gmap list strings.
From Stdlib Require Import ZArith Lia Ascii.

(** ** A client of event streams *)

Definition LF : ascii := Ascii.ascii_of_nat 10.
Definition CR : ascii := Ascii.ascii_of_nat 13.

(** The complete lines: a line ends with LF, CR or CR LF. *)
Fixpoint sse_lines (cur s : string) : list string :=
  match s with
  | EmptyString => []
  | String b s' =>
      if Ascii.eqb b LF then cur :: sse_lines "" s'
      else if Ascii.eqb b CR then
        cur :: match s' with
               | String c s'' => if Ascii.eqb c LF then sse_lines "" s'' else sse_lines "" s'
               | EmptyString => []
               end
      else sse_lines (cur +:+ String b "") s'
  end.

(** The buffers: the type of the event, and its data once there is a line. *)
Record sse_buf := MkSseBuf { sb_type : string; sb_data : option string }.
Definition sse_empty : sse_buf := MkSseBuf "" None.

Definition drop_space (v : string) : string :=
  match v with String b v' => if Ascii.eqb b " "%char then v' else v | EmptyString => v end.

(** A line: a blank one dispatches, a comment is ignored, any other sets a
    field. *)
Definition sse_line (buf : sse_buf) (line : string) : sse_buf * list StreamEvent :=
  if str_empty line then
    (sse_empty,
     match sb_data buf with
     | None => []
     | Some d => [MkStreamEvent (if str_empty (sb_type buf) then "message" else sb_type buf) d]
     end)
  else
    let '(name, value) := match cut ":"%char line with
                          | Some (n, v) => (n, drop_space v)
                          | None => (line, "")
                          end in
    (if String.eqb name "event" then MkSseBuf value (sb_data buf)
     else if String.eqb name "data" then
       MkSseBuf (sb_type buf)
         (Some match sb_data buf with Some d => d +:+ String LF value | None => value end)
     else buf, []).

Fixpoint sse_events (buf : sse_buf) (lines : list string) : list StreamEvent :=
  match lines with
  | [] => []
  | l :: ls => let '(buf', es) := sse_line buf l in es ++ sse_events buf' ls
  end.

Definition sse_parse (text : string) : list StreamEvent :=
  sse_events sse_empty (sse_lines "" text).

(** ** Lines *)

Fixpoint no_byte (b : ascii) (s : string) : bool :=
  match s with
  | EmptyString => true
  | String c s' => negb (Ascii.eqb c b) && no_byte b s'
  end.

Lemma str_app_assoc (a b c : string) : (a +:+ b) +:+ c = a +:+ (b +:+ c).
Proof. induction a as [|x a IH]; [done|]. exact (f_equal (String x) IH). Qed.

Lemma str_app_nil (a : string) : a +:+ "" = a.
Proof. induction a as [|x a IH]; [done|]. exact (f_equal (String x) IH). Qed.

Lemma sse_lines_line cur l rest :
  no_byte LF l = true -> no_byte CR l = true ->
  sse_lines cur (l +:+ newline +:+ rest) = (cur +:+ l) :: sse_lines "" rest.
Proof.
  revert cur. induction l as [|b l IH]; intros cur Hl Hr.
  - by rewrite str_app_nil.
  - cbn in Hl, Hr. apply andb_prop in Hl as [Hb Hl], Hr as [Hb' Hr].
    rewrite negb_true_iff in Hb, Hb'.
    change (sse_lines cur (String b (l +:+ newline +:+ rest))
      = (cur +:+ String b l) :: sse_lines "" rest).
    cbn [sse_lines]. rewrite Hb, Hb', IH by done. by rewrite str_app_assoc.
Qed.

(** The text of some writes, and of some lines. *)
Definition text (ws : list string) : string := foldr String.append "" ws.
Definition line_text (ls : list string) : string := text ((fun l => l +:+ newline) <$> ls).
Definition clean (l : string) : Prop := no_byte LF l = true /\ no_byte CR l = true.

Lemma text_app ws ws' : text (ws ++ ws') = text ws +:+ text ws'.
Proof.
  induction ws as [|w ws IH]; [done|]. unfold text in *. cbn [app foldr].
  by rewrite str_app_assoc, <- IH.
Qed.

Lemma line_text_app ls ls' : line_text (ls ++ ls') = line_text ls +:+ line_text ls'.
Proof. unfold line_text. by rewrite fmap_app, text_app. Qed.

Lemma sse_lines_text ls rest :
  Forall clean ls -> sse_lines "" (line_text ls +:+ rest) = ls ++ sse_lines "" rest.
Proof.
  induction 1 as [|l ls [H1 H2] _ IH]; [done|]. unfold line_text. cbn [fmap list_fmap text foldr].
  rewrite !str_app_assoc. fold (text ((fun l => l +:+ newline) <$> ls)). fold (line_text ls).
  rewrite sse_lines_line by done. by rewrite IH.
Qed.

(** *** Splitting data into lines *)

Fixpoint join_lines (ls : list string) : string :=
  match ls with
  | [] => ""
  | [l] => l
  | l :: ls' => l +:+ String LF (join_lines ls')
  end.

Lemma split_cons b d :
  exists l ls, Split d LF = l :: ls /\
  Split (String b d) LF = if Ascii.eqb b LF then "" :: l :: ls else String b l :: ls.
Proof.
  unfold Split. cbn [String.list_ascii_of_string split_bytes].
  destruct (split_bytes LF (String.list_ascii_of_string d)) as [l ls].
  exists (String.string_of_list_ascii l), (String.string_of_list_ascii <$> ls).
  split; [done|]. by destruct (Ascii.eqb b LF).
Qed.

Lemma split_lines (d : string) :
  join_lines (Split d LF) = d /\ Forall (fun l => no_byte LF l = true) (Split d LF)
  /\ (no_byte CR d = true -> Forall (fun l => no_byte CR l = true) (Split d LF)).
Proof.
  induction d as [|b d IH]; [by repeat constructor|].
  destruct (split_cons b d) as (l & ls & E & ->). rewrite E in IH.
  destruct IH as (Hj & Hn & Hc). destruct (Ascii.eqb b LF) eqn:Hb.
  - apply Ascii.eqb_eq in Hb as ->. repeat split; [|by constructor|].
    + by rewrite <- Hj.
    + intros H. constructor; [done|]. by apply Hc.
  - apply Forall_cons in Hn as [Hn Hns]. repeat split.
    + rewrite <- Hj. by destruct ls.
    + constructor; [|done]. cbn. by rewrite Hb.
    + intros [Hr H]%andb_prop. specialize (Hc H). apply Forall_cons in Hc as [Hc Hcs].
      constructor; [|done]. cbn. by rewrite Hr.
Qed.

(** ** The frame of an event *)

Definition frame (e : StreamEvent) : list string :=
  ("event: " +:+ ev_Type e) :: ((fun l => "data: " +:+ l) <$> Split (ev_Data e) LF) ++ [""].

Definition readable (e : StreamEvent) : Prop :=
  ev_Type e ∈ ["chunk"; "retrying"; "completed"; "failed"] /\ no_byte CR (ev_Data e) = true.

Lemma readable_type e : readable e -> clean (ev_Type e) /\ str_empty (ev_Type e) = false.
Proof.
  intros [H _]. repeat (apply elem_of_cons in H as [->|H]; [done|]).
  by apply elem_of_nil in H.
Qed.

Lemma frame_clean e : readable e -> Forall clean (frame e).
Proof.
  intros He. destruct (readable_type e He) as [[H1 H2] _]. destruct He as [_ Hd].
  destruct (split_lines (ev_Data e)) as (_ & Hn & Hc). specialize (Hc Hd).
  unfold frame. constructor; [by split|]. apply Forall_app. split; [|by repeat constructor].
  apply Forall_fmap, Forall_forall. intros l Hl. rewrite Forall_forall in Hn, Hc.
  split; [exact (Hn l Hl)|exact (Hc l Hl)].
Qed.

Lemma sse_data_lines t l ls acc rest :
  sse_events (MkSseBuf t acc) (((fun l => "data: " +:+ l) <$> l :: ls) ++ rest) =
  sse_events (MkSseBuf t (Some match acc with
    | Some d => d +:+ String LF (join_lines (l :: ls))
    | None => join_lines (l :: ls) end)) rest.
Proof.
  revert l acc. induction ls as [|l' ls IH]; intros l acc.
  - by destruct acc.
  - change (sse_events (MkSseBuf t acc) (((fun l => "data: " +:+ l) <$> l :: l' :: ls) ++ rest))
      with (sse_events (MkSseBuf t (Some match acc with
        | Some d => d +:+ String LF l | None => l end))
        (((fun l => "data: " +:+ l) <$> l' :: ls) ++ rest)).
    rewrite IH. do 3 f_equal. destruct acc as [d|]; [|done].
    by rewrite str_app_assoc.
Qed.

Lemma sse_frame e rest :
  readable e -> sse_events sse_empty (frame e ++ rest) = e :: sse_events sse_empty rest.
Proof.
  intros He. destruct (readable_type e He) as [_ Hne].
  destruct (split_lines (ev_Data e)) as (Hj & _).
  unfold frame. destruct e as [t d]. cbn [ev_Type ev_Data] in *.
  rewrite <- app_comm_cons, <- app_assoc.
  change (sse_events sse_empty (("event: " +:+ t) :: ?x)) with (sse_events (MkSseBuf t None) x).
  destruct (Split d LF) as [|l ls] eqn:E.
  { unfold Split in E. by destruct (split_bytes _ _). }
  rewrite sse_data_lines, Hj. cbn [app sse_events sse_line str_empty sb_data sb_type].
  change (sse_line (MkSseBuf t (Some d)) "") with
    (sse_empty, [MkStreamEvent (if str_empty t then "message" else t) d]).
  by rewrite Hne.
Qed.

(** ** What the handler writes *)

Section handler.
Context {G V : Type} `{!Gin G, !GinDoc G}.
Implicit Types w : G * V.

(** No write fails, and [ws] are the writes between two states. *)
Definition open_writer w : Prop := g_writes (gin_view w.1) = [].
Definition wrote (ws : list string) w w' : Prop :=
  open_writer w' /\ g_stream (gin_view w'.1) = g_stream (gin_view w.1) ++ ws.

Lemma wrote_trans ws1 ws2 w1 w2 w3 :
  wrote ws1 w1 w2 -> wrote ws2 w2 w3 -> wrote (ws1 ++ ws2) w1 w3.
Proof. intros [_ H1] [Hw H2]. split; [done|]. by rewrite H2, H1, app_assoc. Qed.

Lemma wrote_svc {A} (m : M V A) w : open_writer w -> wrote [] w (svc m w).2.
Proof. destruct w as [g v]. intros Hw. rewrite svc_run. split; [done|]. by rewrite app_nil_r. Qed.

Lemma sse_write_ok s w :
  open_writer w -> (sse_write s w).1 = None /\ wrote [s] w (sse_write s w).2.
Proof.
  destruct w as [g v]. intros Hw. unfold sse_write. rewrite gin_run. cbn [fst snd].
  unfold wrote, open_writer in *. cbn [fst] in *. rewrite gin_run_view. cbn [doc_gin]. rewrite Hw.
  done.
Qed.

Lemma write_lines_ok ls w :
  open_writer w ->
  let m := for_each_err (fun l => sse_write ("data: " +:+ l +:+ newline)) ls in
  (m w).1 = None /\ wrote ((fun l => l +:+ newline) <$> ((fun l => "data: " +:+ l) <$> ls)) w (m w).2.
Proof.
  revert w. induction ls as [|l ls IH]; intros w Hw; cbn zeta in *.
  { split; [done|]. split; [done|]. by rewrite app_nil_r. }
  cbn [for_each_err]. rewrite bind_unfold.
  destruct (sse_write_ok ("data: " +:+ l +:+ newline) w Hw) as [-> H1].
  destruct (IH _ (proj1 H1)) as [-> H2]. split; [done|].
  cbn [fmap list_fmap]. rewrite str_app_assoc. exact (wrote_trans [_] _ _ _ _ H1 H2).
Qed.

Lemma writeSSEEvent_ok e w :
  open_writer w ->
  let m := writeSSEEvent sse_write (ev_Type e) (ev_Data e) in
  (m w).1 = None /\ wrote ((fun l => l +:+ newline) <$> frame e) w (m w).2.
Proof.
  intros Hw. cbn zeta. unfold writeSSEEvent, frame. fold LF. rewrite bind_unfold.
  destruct (sse_write_ok ("event: " +:+ ev_Type e +:+ newline) w Hw) as [-> H1].
  rewrite bind_unfold. destruct (write_lines_ok (Split (ev_Data e) LF) _ (proj1 H1)) as [-> H2].
  destruct (sse_write_ok newline _ (proj1 H2)) as [-> H3]. split; [done|].
  rewrite fmap_cons, fmap_app, str_app_assoc.
  apply (wrote_trans [_] _ _ _ _ H1). exact (wrote_trans _ [_] _ _ _ H2 H3).
Qed.

Context (metrics : option (stream_metric -> M V unit)).
Context (jobAcceptedAtReader : option (string -> M V (res goerr Z))).
Context (jobID : string).

Lemma observe_silent m w : open_writer w -> wrote [] w (observe_delivery (G := G) metrics m w).2.
Proof.
  intros Hw. unfold observe_delivery. destruct metrics; [by apply wrote_svc|].
  split; [done|]. by rewrite app_nil_r.
Qed.

Lemma acceptedAt_silent w :
  open_writer w -> wrote [] w (jobAcceptedAt (G := G) metrics jobAcceptedAtReader jobID w).2.
Proof.
  intros Hw. unfold jobAcceptedAt.
  destruct metrics, jobAcceptedAtReader; try (split; [done|]; by rewrite app_nil_r).
  rewrite bind_unfold, ret_unfold. by apply wrote_svc.
Qed.

(** The events a client is to receive, and the lines it is sent. *)
Fixpoint received (found : list occurrence) : list StreamEvent :=
  match found with
  | [] | ContextDone :: _ | EventsClosed :: _ => []
  | HeartbeatTick :: found' => received found'
  | EventReceived e :: found' => e :: if isTerminalEvent (ev_Type e) then [] else received found'
  end.

Fixpoint sent (found : list occurrence) : list string :=
  match found with
  | [] | ContextDone :: _ | EventsClosed :: _ => []
  | HeartbeatTick :: found' => [": heartbeat"; ""] ++ sent found'
  | EventReceived e :: found' =>
      frame e ++ if isTerminalEvent (ev_Type e) then [] else sent found'
  end.

Definition readable_occurrence (o : occurrence) : Prop :=
  match o with EventReceived e => readable e | _ => True end.

Lemma sent_received found :
  Forall readable_occurrence found ->
  Forall clean (sent found) /\ sse_events sse_empty (sent found) = received found.
Proof.
  induction 1 as [|[| |e|] found He _ [IH1 IH2]]; try (split; [by constructor|done]).
  - cbn [sent received app]. split; [by repeat constructor|done].
  - cbn [sent received readable_occurrence] in *. destruct (isTerminalEvent (ev_Type e)).
    + rewrite app_nil_r. split; [by apply frame_clean|].
      rewrite <- (app_nil_r (frame e)). by rewrite sse_frame.
    + split; [apply Forall_app; split; [by apply frame_clean|done]|].
      by rewrite sse_frame, IH2.
Qed.

Lemma parse_sent found :
  Forall readable_occurrence found -> sse_parse (line_text (sent found)) = received found.
Proof.
  intros Hr. destruct (sent_received found Hr) as [Hc He]. unfold sse_parse.
  rewrite <- (str_app_nil (line_text _)), sse_lines_text by done.
  cbn [sse_lines]. by rewrite app_nil_r.
Qed.

(** One turn of the loop writes its lines. *)
Lemma handle_wrote o w :
  readable_occurrence o -> open_writer w ->
  let m := handle_occurrence (G := G) metrics jobAcceptedAtReader jobID o in
  exists ws, wrote ws w (m w).2 /\
  text ws = line_text match o with
                      | HeartbeatTick => [": heartbeat"; ""]
                      | EventReceived e => frame e
                      | _ => []
                      end
  /\ (m w).1 = match o with
               | HeartbeatTick => true
               | EventReceived e => negb (isTerminalEvent (ev_Type e))
               | _ => false
               end.
Proof.
  intros Ho Hw. cbn zeta. destruct o as [| |e|]; cbn [handle_occurrence].
  1, 4: exists []; split; [|done]; split; [done|]; by rewrite app_nil_r.
  - rewrite bind_unfold. eexists. destruct (sse_write_ok (": heartbeat" +:+ newline +:+ newline) w Hw)
      as [-> H]. by split; [exact H|].
  - exists ((fun l => l +:+ newline) <$> frame e).
    assert (Hkind : (String.eqb (ev_Type e) "chunk" || String.eqb (ev_Type e) "retrying")
      = negb (isTerminalEvent (ev_Type e))).
    { destruct Ho as [Ho _]. repeat (apply elem_of_cons in Ho as [->|Ho]; [done|]).
      by apply elem_of_nil in Ho. }
    rewrite Hkind. destruct (isTerminalEvent (ev_Type e)); cbn [negb].
    + rewrite bind_unfold. pose proof (acceptedAt_silent w Hw) as H0.
      set (w0 := (jobAcceptedAt _ _ _ w).2) in *.
      rewrite bind_unfold. destruct (writeSSEEvent_ok e w0 (proj1 H0)) as [-> H1].
      rewrite bind_unfold. pose proof (observe_silent ObserveStreamDelivery _ (proj1 H1)) as H2.
      set (w2 := (observe_delivery _ _ _).2) in *. rewrite bind_unfold, ret_unfold.
      split; [|done]. pose proof (wrote_trans _ _ _ _ _ (wrote_trans _ _ _ _ _ H0 H1) H2) as H3.
      rewrite app_nil_r in H3. unfold observeJobEndToEnd.
      destruct (jobAcceptedAt _ _ _ w).1 as [t|]; [|exact H3].
      rewrite <- (app_nil_r (_ <$> _)).
      exact (wrote_trans _ _ _ _ _ H3 (observe_silent _ _ (proj1 H2))).
    + rewrite bind_unfold. destruct (writeSSEEvent_ok e w Hw) as [-> H1].
      rewrite bind_unfold, ret_unfold. split; [|done]. rewrite <- (app_nil_r (_ <$> _)).
      exact (wrote_trans _ _ _ _ _ H1 (observe_silent _ _ (proj1 H1))).
Qed.

Lemma loop_wrote found w :
  Forall readable_occurrence found -> open_writer w ->
  exists ws, wrote ws w (stream_loop metrics jobAcceptedAtReader jobID found w).2
  /\ text ws = line_text (sent found).
Proof.
  intros Hr. revert w. induction Hr as [|o found Ho _ IH]; intros w Hw.
  { exists []. split; [split; [done|]; by rewrite app_nil_r|done]. }
  cbn [stream_loop]. rewrite bind_unfold.
  destruct (handle_wrote o w Ho Hw) as (ws & H1 & Hws & ->).
  set (w1 := (handle_occurrence _ _ _ o w).2) in *.
  destruct (IH w1 (proj1 H1)) as (ws' & H2 & Hws').
  destruct o as [| |e|]; cbn [sent]; try (by exists ws).
  - exists (ws ++ ws'). split; [exact (wrote_trans _ _ _ _ _ H1 H2)|].
    by rewrite text_app, line_text_app, Hws, Hws'.
  - destruct (isTerminalEvent (ev_Type e)); cbn [negb].
    + exists ws. by rewrite app_nil_r.
    + exists (ws ++ ws'). split; [exact (wrote_trans _ _ _ _ _ H1 H2)|].
      by rewrite text_app, line_text_app, Hws, Hws'.
Qed.

(** The response while it is streamed, and after it: no error, no other body. *)
Definition streaming w : Prop :=
  let s := gin_view w.1 in
  g_errors s = [] /\ g_bodies s = [] /\ default 200%Z (g_status s) = 200%Z
  /\ g_out s !! "Content-Type" = Some "text/event-stream".

#[local] Instance streaming_svc {A} (m : M V A) : Preserves streaming (svc m).
Proof. intros [g v] Hw. by rewrite svc_run. Qed.

#[local] Instance streaming_write s : Preserves streaming (sse_write s).
Proof.
  intros [g v] Hw. unfold sse_write. rewrite gin_run. unfold streaming in *. cbn [fst snd] in *.
  rewrite gin_run_view. destruct Hw as (H1 & H2 & H3 & H4). cbn [doc_gin].
  destruct (g_writes (gin_view g)) as [|[e|] ws]; cbn; (split; [done|]; split; [done|]; split; [|done]);
    by rewrite H3.
Qed.

#[local] Instance streaming_event t d : Preserves streaming (writeSSEEvent (W := G * V) sse_write t d).
Proof.
  unfold writeSSEEvent. apply Preserves_bind; [apply _|]. intros [e|]; [apply _|].
  apply Preserves_bind; [apply _|]. intros [e|]; apply _.
Qed.

#[local] Instance streaming_observe m : Preserves streaming (observe_delivery (G := G) metrics m).
Proof. unfold observe_delivery. destruct metrics; [apply _|by intros w]. Qed.

Lemma streaming_occurrence o :
  Preserves streaming (handle_occurrence (G := G) metrics jobAcceptedAtReader jobID o).
Proof.
  assert (Ha : Preserves streaming (jobAcceptedAt (G := G) metrics jobAcceptedAtReader jobID)).
  { unfold jobAcceptedAt. destruct metrics, jobAcceptedAtReader; apply _. }
  assert (He : forall t, Preserves streaming (observeJobEndToEnd (G := G) metrics t)).
  { intros [t|]; [apply streaming_observe|by intros w]. }
  destruct o as [| |e|]; cbn [handle_occurrence]; try apply _.
  repeat case_match; repeat (apply Preserves_bind; [apply _|intros []]); apply _.
Qed.

Lemma streaming_loop found : Preserves streaming (stream_loop metrics jobAcceptedAtReader jobID found).
Proof.
  induction found as [|o found IH]; [by intros w|]. cbn [stream_loop].
  apply Preserves_bind; [apply streaming_occurrence|]. intros []; [exact IH|by intros w].
Qed.

(** C29: the text of a stream says what happened.  Whatever the handler's
    select finds, in any order (events, heartbeats, the end of the context or
    of the channel), the text it writes, read by the rules of event streams,
    is the list of the events it received up to the first terminal one; data
    of several lines included.  The data must not hold a carriage return. *)
Theorem sse_roundtrip found w :
  Forall readable_occurrence found -> open_writer w -> g_stream (gin_view w.1) = [] ->
  let w' := (stream_loop metrics jobAcceptedAtReader jobID found w).2 in
  sse_parse (text (g_stream (gin_view w'.1))) = received found.
Proof.
  intros Hr Hw Hs w'. destruct (loop_wrote found w Hr Hw) as (ws & [_ H] & Hws).
  fold w' in H. rewrite Hs in H. cbn [app] in H. rewrite H, Hws.
  by apply parse_sent.
Qed.
End handler.

(** ** Witness, and a carriage return *)

Module SseDemo.
Definition g0 : gin_state :=
  MkGin ∅ ∅ (fun _ => Ok []) 0 "" "" ∅ ∅ None None [] false ∅ None [] [] [].
Definition found : list occurrence :=
  [EventReceived (MkStreamEvent "chunk" ("Hello" +:+ newline +:+ "world")); HeartbeatTick;
   EventReceived (MkStreamEvent "completed" ""); HeartbeatTick].
End SseDemo.

Lemma sse_roundtrip_witness :
  sse_parse (text (g_stream (gin_view (stream_loop (V := unit) None None "j" SseDemo.found
    (SseDemo.g0, tt)).2.1)))
  = [MkStreamEvent "chunk" ("Hello" +:+ newline +:+ "world"); MkStreamEvent "completed" ""].
Proof.
  refine (sse_roundtrip None None "j" SseDemo.found (SseDemo.g0, tt) _ eq_refl eq_refl).
  repeat constructor; set_solver.
Defined.

(** A carriage return in the generated text ends a line of the frame: what
    follows it is a field of the event, here its type. *)
Example sse_carriage_return :
  sse_parse (text (g_stream (gin_view (stream_loop (V := unit) None None "j"
    [EventReceived (MkStreamEvent "chunk" ("a" +:+ String CR "event: failed"))]
    (SseDemo.g0, tt)).2.1)))
  = [MkStreamEvent "failed" "a"].
Proof. vm_compute. reflexivity. Qed.
