(* ===== verification/InferenceServer.v ===== *)
(** * The inference server (internal/inference_server)

    The client of an OpenAI-compatible server, the classification of its
    errors, the use case, and the adapter of the worker that calls it.

    A streamed generation calls back for every chunk and stops when the
    callback fails; [generation] is what the caller sees of it: the chunks,
    each answered by the callback, the metrics on the way, and the end. *)

From S2P Require Import Prelude GoText GoErr Env.
From S2P Require Worker.
From stdpp Require Import base list strings pretty.
From Stdlib Require Import ZArith Lia.

(** ** domain *)

(** The temperature is a [float32] that is only passed on. *)
Record GenerationRequest := MkGenerationRequest {
  gr_Model : string; gr_Prompt : string; gr_MaxTokens : Z; gr_Temperature : string }.

Definition server_error (name msg : string) : goerr :=
  Leaf (Sentinel ("inference_server." +:+ name)) msg.

Definition ErrInvalidRequest := server_error "ErrInvalidRequest" "invalid request".
Definition ErrAuthenticationFailed :=
  server_error "ErrAuthenticationFailed" "authentication failed".
Definition ErrModelNotFound := server_error "ErrModelNotFound" "model not found".
Definition ErrContentFiltered := server_error "ErrContentFiltered" "content filtered".
Definition ErrMaxTokensExceeded := server_error "ErrMaxTokensExceeded" "max tokens exceeded".
Definition ErrServerOverloaded := server_error "ErrServerOverloaded" "server overloaded".
Definition ErrRateLimitExceeded := server_error "ErrRateLimitExceeded" "rate limit exceeded".
Definition ErrStreamInterrupted := server_error "ErrStreamInterrupted" "stream interrupted".
Definition ErrStreamIdleTimeout := server_error "ErrStreamIdleTimeout" "stream idle timeout".
Definition ErrUnknown := server_error "ErrUnknown" "unknown error".
Definition ErrIncompleteGeneration :=
  server_error "ErrIncompleteGeneration" "incomplete generation".

Inductive llm_metric : Type := ObserveDuration | ObserveTimeToFirstToken.

(** [LLMClient.GenerateStream] and [StreamGenerator.GenerateStream]. *)
Inductive generation : Type :=
| GenEnd (err : option goerr)
| GenChunk (text : string) (k : option goerr -> generation)
| GenObserve (m : llm_metric) (g : generation).

(** ** public *)

Definition ErrCodeInvalidRequest := "INFERENCE_INVALID_REQUEST".
Definition ErrCodeAuthenticationFailed := "INFERENCE_AUTHENTICATION_FAILED".
Definition ErrCodeModelNotFound := "INFERENCE_MODEL_NOT_FOUND".
Definition ErrCodeContentFiltered := "INFERENCE_CONTENT_FILTERED".
Definition ErrCodeMaxTokensExceeded := "INFERENCE_MAX_TOKENS_EXCEEDED".
Definition ErrCodeServerOverloaded := "INFERENCE_SERVER_OVERLOADED".
Definition ErrCodeRateLimitExceeded := "INFERENCE_RATE_LIMIT_EXCEEDED".
Definition ErrCodeStreamInterrupted := "INFERENCE_STREAM_INTERRUPTED".
Definition ErrCodeUnknown := "INFERENCE_UNKNOWN_ERROR".
Definition ErrCodeIncompleteGeneration := "INFERENCE_INCOMPLETE_GENERATION".
Definition ErrCodeGenerationFailed := "INFERENCE_GENERATION_FAILED".

(** ** infrastructure/openai/client.go *)

(** The openai library: the status and the message of the first
    [*openai.Error] of an error ([errors.As]), and a streaming request.  Of
    the stream the client sees its events, each a list of choices with a
    finish reason and a text, then how it ends: whether the idle timer has
    cancelled it, and [stream.Err()]. *)
Record llm_stream := MkLlmStream {
  st_events : list (list (string * string));
  st_idle : bool;
  st_Err : option goerr }.

Class OpenAIError := { as_openai_error : goerr -> option (Z * string) }.
Class OpenAI (W : Type) := { NewStreaming : GenerationRequest -> M W llm_stream }.

(** [fmt.Errorf("%w: %s", err, msg)]. *)
Definition errorf_ws (err : goerr) (msg : string) : goerr := Errorf "" err (": " +:+ msg).

Section client.
Context `{!OpenAIError}.

Definition classifyOpenAIError (err : goerr) : goerr :=
  match as_openai_error err with
  | Some (status, message) =>
      if (status =? 400)%Z then errorf_ws ErrInvalidRequest message
      else if ((status =? 401) || (status =? 403))%Z
      then errorf_ws ErrAuthenticationFailed message
      else if (status =? 404)%Z then errorf_ws ErrModelNotFound message
      else if (status =? 429)%Z then errorf_ws ErrRateLimitExceeded message
      else if ((status =? 500) || (status =? 502) || (status =? 503))%Z
      then errorf_ws ErrServerOverloaded message
      else errorf_ws ErrUnknown (message +:+ " (status: " +:+ pretty status +:+ ")")
  | None =>
      if errors_Is (Some err) DeadlineExceeded then Errorf2 ErrServerOverloaded err
      else if errors_Is (Some err) Canceled then Errorf2 ErrStreamInterrupted err
      else match as_net_error err with
           | Some _ => Errorf2 ErrServerOverloaded err
           | None => Errorf2 ErrUnknown err
           end
  end.

(** After the loop. *)
Definition stream_end (stream : llm_stream) (finishReason : string) : option goerr :=
  if st_idle stream then
    Some (Errorf "streaming generation: " (Errorf2 ErrServerOverloaded ErrStreamIdleTimeout) "")
  else
    match st_Err stream with
    | Some err => Some (errorf_w "streaming generation: " (Some (classifyOpenAIError err)))
    | None =>
        if str_empty finishReason then Some ErrIncompleteGeneration
        else if String.eqb finishReason "length" then Some ErrMaxTokensExceeded
        else if String.eqb finishReason "content_filter" then Some ErrContentFiltered
        else None
    end.

(** The choices of one event. *)
Fixpoint stream_choices (choices : list (string * string)) (finishReason : string)
    (next : string -> generation) : generation :=
  match choices with
  | [] => next finishReason
  | (reason, text) :: rest =>
      let finishReason := if str_empty reason then finishReason else reason in
      if str_empty text then stream_choices rest finishReason next
      else GenChunk text (fun answer =>
        match answer with
        | Some _ =>
            GenEnd (Some (errorf_w "chunk processing failed: " (Some ErrStreamInterrupted)))
        | None => stream_choices rest finishReason next
        end)
  end.

Fixpoint stream_events (events : list (list (string * string))) (finishReason : string)
    (stream : llm_stream) : generation :=
  match events with
  | [] => GenEnd (stream_end stream finishReason)
  | choices :: rest =>
      stream_choices choices finishReason (fun f => stream_events rest f stream)
  end.

Definition client_GenerateStream {W} `{!OpenAI W} (req : GenerationRequest) : M W generation :=
  stream ← NewStreaming req;
  mret (stream_events (st_events stream) "" stream).
End client.

(** ** usecase/generation_usecase.go *)

Definition ErrTypeInferenceServer := "INFERENCE_SERVER_FAILED".

Definition generation_code (err : goerr) : string :=
  let matches := errors_Is (Some err) in
  if matches ErrInvalidRequest then ErrCodeInvalidRequest
  else if matches ErrAuthenticationFailed then ErrCodeAuthenticationFailed
  else if matches ErrModelNotFound then ErrCodeModelNotFound
  else if matches ErrContentFiltered then ErrCodeContentFiltered
  else if matches ErrMaxTokensExceeded then ErrCodeMaxTokensExceeded
  else if matches ErrServerOverloaded then ErrCodeServerOverloaded
  else if matches ErrRateLimitExceeded then ErrCodeRateLimitExceeded
  else if matches ErrStreamInterrupted then ErrCodeStreamInterrupted
  else if matches ErrUnknown then ErrCodeUnknown
  else if matches ErrIncompleteGeneration then ErrCodeIncompleteGeneration
  else ErrCodeGenerationFailed.

Definition generation_error (err : option goerr) : option goerr :=
  match err with
  | None => None
  | Some e => EnsureAppError err (generation_code e) ErrTypeInferenceServer
  end.

(** What the use case makes of the client's generation; [onChunk] may be
    [nil]. *)
Fixpoint usecase_generation (onChunk firstTokenRecorded : bool) (g : generation) : generation :=
  match g with
  | GenEnd err => GenObserve ObserveDuration (GenEnd (generation_error err))
  | GenChunk text k =>
      let first := negb (str_empty text) && negb firstTokenRecorded in
      let rest answer := usecase_generation onChunk (firstTokenRecorded || first) (k answer) in
      let deliver := if negb (str_empty text) && onChunk then GenChunk text rest else rest None in
      if first then GenObserve ObserveTimeToFirstToken deliver else deliver
  | GenObserve m g => GenObserve m (usecase_generation onChunk firstTokenRecorded g)
  end.

Definition usecase_GenerateStream {W} `{!OpenAIError, !OpenAI W} (onChunk : bool)
    (input : GenerationRequest) : M W generation :=
  g ← client_GenerateStream input;
  mret (usecase_generation onChunk false g).

(** ** worker/adapters/inference_server_adapter.go *)

Definition adapter_error (err : option goerr) : option goerr :=
  match err with
  | None => None
  | Some e => if IsCode err ErrCodeServerOverloaded
              then Some (Errorf2 Worker.ErrTransientInference e) else err
  end.

Fixpoint adapter_generation (g : generation) : Worker.generation :=
  match g with
  | GenEnd err => Worker.GenEnd (adapter_error err)
  | GenChunk text k =>
      Worker.GenChunk (Worker.MkStreamChunk text) (fun answer => adapter_generation (k answer))
  | GenObserve _ g => adapter_generation g
  end.

#[global] Instance InferenceEngineAdapter {W} `{!OpenAIError, !OpenAI W}
  : Worker.InferenceEngine W := {|
  Worker.we_GenerateStream := fun input =>
    g ← usecase_GenerateStream true
          (MkGenerationRequest (Worker.gi_Model input) (Worker.gi_Prompt input)
             (Worker.gi_MaxTokens input) (Worker.gi_Temperature input));
    mret (adapter_generation g);
|}.

(** ** adapters/metrics_adapter.go: the recorder may be [nil]. *)
Definition MetricsAdapter_Observe {W} (recorder : option (llm_metric -> M W unit))
    (m : llm_metric) : M W unit :=
  match recorder with Some record => record m | None => skip end.

(** ** module.go *)

Record InferenceClient := MkInferenceClient {
  APIKey : string; BaseURL : string; ic_MaxRetries : Z; DialTimeout : Z;
  TLSHandshakeTimeout : Z; ResponseHeaderTimeout : Z; StreamIdleTimeout : Z;
  StreamTotalTimeout : Z; MaxIdleConnections : Z; MaxIdleConnectionsHost : Z;
  ConnectionIdleTimeout : Z }.

(** The fields of [http.Transport] that the configuration is about.  A zero
    response-header timeout and a zero dial timeout (that of the dialer of a
    transport without [DialContext]) mean that there is none. *)
Record http_Transport := MkTransport {
  tr_MaxIdleConns : Z; tr_MaxIdleConnsPerHost : Z; tr_IdleConnTimeout : Z;
  tr_TLSHandshakeTimeout : Z; tr_ResponseHeaderTimeout : Z; tr_DialTimeout : Z }.

(** The client of the openai library by its options. *)
Record OpenaiClient := MkOpenaiClient {
  oc_BaseURL : string; oc_APIKey : string; oc_MaxRetries : Z;
  oc_Timeout : Z; oc_Transport : http_Transport;
  oc_streamIdleTimeout : Z }.

(** infrastructure/openai/client.go *)
Definition NewOpenAIClient (cfg : InferenceClient) : OpenaiClient :=
  let transport :=
    MkTransport (MaxIdleConnections cfg) (MaxIdleConnectionsHost cfg)
      (ConnectionIdleTimeout cfg) (TLSHandshakeTimeout cfg) 0 0 in
  MkOpenaiClient (BaseURL cfg) (APIKey cfg) (ic_MaxRetries cfg)
    (StreamTotalTimeout cfg) transport (StreamIdleTimeout cfg).

Definition engine_config_error {A : Type} (msg : string) : res goerr A :=
  Err (errors_New ("inference engine configuration: " +:+ msg)).

Definition positiveDurations (cfg : InferenceClient) : list (string * Z) :=
  [("dial timeout", DialTimeout cfg);
   ("TLS handshake timeout", TLSHandshakeTimeout cfg);
   ("response header timeout", ResponseHeaderTimeout cfg);
   ("stream idle timeout", StreamIdleTimeout cfg);
   ("stream total timeout", StreamTotalTimeout cfg);
   ("connection idle timeout", ConnectionIdleTimeout cfg)].

(** The module, given whether the logger is there. *)
Definition NewInferenceEngineModule (cfg : InferenceClient) (logger : bool)
  : res goerr OpenaiClient :=
  if str_empty (APIKey cfg) then engine_config_error "API key must not be empty"
  else if str_empty (TrimSpace (BaseURL cfg)) then
    engine_config_error "base URL must not be empty"
  else if (ic_MaxRetries cfg <? 0)%Z then
    engine_config_error "max retries must not be negative"
  else
    match List.find (fun d => (d.2 <=? 0)%Z) (positiveDurations cfg) with
    | Some d => engine_config_error (d.1 +:+ " must be positive")
    | None =>
        if (StreamTotalTimeout cfg <? StreamIdleTimeout cfg)%Z then
          engine_config_error "stream idle timeout must not exceed stream total timeout"
        else if (MaxIdleConnections cfg <=? 0)%Z then
          engine_config_error "max idle connections must be positive"
        else if (MaxIdleConnectionsHost cfg <=? 0)%Z then
          engine_config_error "max idle connections per host must be positive"
        else if negb logger then Err (errors_New "inference engine logger must not be nil")
        else Ok (NewOpenAIClient cfg)
    end.
