(* ===== verification/InferenceServerThms.v ===== *)
(** * Theorems about the inference server: what the worker sees of a stream *)

From S2P Require Import Prelude GoText GoErr InferenceServer.
From S2P Require Worker.
From stdpp Require Import base list strings.
From Stdlib Require Import ZArith Lia.

(** ** Searching trees of errors *)

Lemma errors_Is_Errorf p e s t : errors_Is (Some (Errorf p e s)) t = errors_Is (Some e) t.
Proof. reflexivity. Qed.

Lemma errors_Is_Errorf2 a b t :
  errors_Is (Some (Errorf2 a b)) t = errors_Is (Some a) t || errors_Is (Some b) t.
Proof. unfold errors_Is. cbn. by destruct (find_err _ a). Qed.

Lemma errors_Is_AppError c ty e n m :
  errors_Is (Some (AppError c ty (Some e))) (Leaf (Sentinel n) m)
  = errors_Is (Some e) (Leaf (Sentinel n) m).
Proof. reflexivity. Qed.

(** ** A generation with the answers of its callback *)

Definition refused (answers : list (option goerr)) : bool :=
  match answers with Some _ :: _ => true | _ => false end.

Definition next_answer (answers : list (option goerr)) : option goerr :=
  match answers with a :: _ => a | [] => None end.

(** The chunks the callback gets, and how the generation ends.  Missing
    answers are successes. *)
Fixpoint run_gen (g : Worker.generation) (answers : list (option goerr))
  : list string * option goerr :=
  match g with
  | Worker.GenEnd err => ([], err)
  | Worker.GenChunk c k =>
      let '(texts, err) := run_gen (k (next_answer answers)) (tail answers) in
      (Worker.sc_Text c :: texts, err)
  end.

(** ** The stream as the caller should see it *)

Definition choice_texts (choices : list (string * string)) : list string :=
  filter (fun t => str_empty t = false) (snd <$> choices).

(** The texts of a stream, and the finish reason: the last that is not
    empty. *)
Definition texts (events : list (list (string * string))) : list string :=
  choice_texts (concat events).

Definition last_reason (choices : list (string * string)) (initial : string) : string :=
  foldl (fun f c => if str_empty c.1 then f else c.1) initial choices.

Definition finish_reason (events : list (list (string * string))) : string :=
  last_reason (concat events) "".

Definition interrupted : goerr := errorf_w "chunk processing failed: " (Some ErrStreamInterrupted).

(** Delivering texts until the callback refuses one, and then the rest. *)
Fixpoint deliver_then (ts : list string) (answers : list (option goerr))
    (rest : list (option goerr) -> list string * option goerr) : list string * option goerr :=
  match ts with
  | [] => rest answers
  | t :: ts =>
      if refused answers then ([t], adapter_error (generation_error (Some interrupted)))
      else let '(ds, e) := deliver_then ts (tail answers) rest in (t :: ds, e)
  end.

Lemma deliver_then_app ts1 ts2 answers rest :
  deliver_then (ts1 ++ ts2) answers rest
  = deliver_then ts1 answers (fun answers => deliver_then ts2 answers rest).
Proof.
  revert answers. induction ts1 as [|t ts1 IH]; intros answers; cbn; [done|].
  by destruct (refused answers); rewrite ?IH.
Qed.

Lemma deliver_then_ext ts answers r1 r2 :
  (forall a, r1 a = r2 a) -> deliver_then ts answers r1 = deliver_then ts answers r2.
Proof.
  intros E. revert answers. induction ts as [|t ts IH]; intros answers; cbn; [apply E|].
  by destruct (refused answers); rewrite ?IH.
Qed.

Section generation.
Context `{!OpenAIError}.

(** What the worker sees of the client's generation. *)
Definition seen (b : bool) (g : generation) : Worker.generation :=
  adapter_generation (usecase_generation true b g).

(** The metric of the first token is not seen. *)
Lemma seen_first b g answers : run_gen (seen b g) answers = run_gen (seen false g) answers.
Proof.
  revert b answers. induction g as [err|t k IH|m g IH]; intros b answers; [done| |apply IH].
  unfold seen in *. cbn. destruct (str_empty t); cbn; [apply IH|].
  by destruct b.
Qed.

Lemma seen_choices choices f next answers :
  run_gen (seen false (stream_choices choices f next)) answers
  = deliver_then (choice_texts choices) answers
      (run_gen (seen false (next (last_reason choices f)))).
Proof.
  revert f answers. induction choices as [|[r t] choices IH]; intros f answers; [done|].
  cbn [stream_choices last_reason foldl fst]. unfold choice_texts. cbn [fmap list_fmap snd].
  destruct (str_empty t) eqn:Et.
  - rewrite filter_cons_False by (by rewrite Et). apply IH.
  - rewrite filter_cons_True by done. unfold seen. cbn. rewrite Et. cbn.
    unfold refused, next_answer. destruct answers as [|[e|] answers]; cbn; [|done|].
    + change (adapter_generation (usecase_generation true true ?g)) with (seen true g).
      rewrite seen_first. by rewrite IH.
    + change (adapter_generation (usecase_generation true true ?g)) with (seen true g).
      rewrite seen_first. by rewrite IH.
Qed.

Lemma seen_events events f stream answers :
  run_gen (seen false (stream_events events f stream)) answers
  = deliver_then (texts events) answers
      (fun _ => ([], adapter_error (generation_error
                       (stream_end stream (last_reason (concat events) f))))).
Proof.
  revert f answers. induction events as [|choices events IH]; intros f answers; [done|].
  cbn [stream_events]. rewrite seen_choices. unfold texts, choice_texts, last_reason.
  cbn [concat]. rewrite fmap_app, filter_app, deliver_then_app, foldl_app.
  apply deliver_then_ext. intros a. apply IH.
Qed.

(** *** The end *)

(** The first of [n] answers that refuses its chunk. *)
Definition first_refusal (answers : list (option goerr)) (n : nat) : option nat :=
  fst <$> list_find (fun a => is_Some a) (take n answers).

Lemma deliver_then_end ts answers e :
  deliver_then ts answers (fun _ => ([], e))
  = match first_refusal answers (length ts) with
    | Some i => (take (S i) ts, adapter_error (generation_error (Some interrupted)))
    | None => (ts, e)
    end.
Proof.
  revert answers. induction ts as [|t ts IH]; intros answers; [done|].
  cbn [deliver_then length]. rewrite IH. unfold first_refusal.
  destruct answers as [|[x|] answers]; cbn.
  - by rewrite take_nil.
  - done.
  - by destruct (list_find _ (take (length ts) answers)) as [[i y]|].
Qed.

(** An error that comes from outside the module. *)
Definition foreign (err : goerr) : Prop :=
  as_app_error err = None /\
  Forall (fun t => errors_Is (Some err) t = false)
    [ErrInvalidRequest; ErrAuthenticationFailed; ErrModelNotFound; ErrContentFiltered;
     ErrMaxTokensExceeded; ErrServerOverloaded; Worker.ErrTransientInference].

(** Errors that mean that the server may answer later: 500, 502 and 503, a
    deadline, a broken connection (but not a cancelled request). *)
Definition overloaded (err : goerr) : bool :=
  match as_openai_error err with
  | Some (status, _) => ((status =? 500) || (status =? 502) || (status =? 503))%Z
  | None => errors_Is (Some err) DeadlineExceeded
            || (negb (errors_Is (Some err) Canceled) && bool_decide (is_Some (as_net_error err)))
  end.

Definition transient_end (stream : llm_stream) : bool :=
  st_idle stream || match st_Err stream with Some err => overloaded err | None => false end.

Definition complete (stream : llm_stream) : bool :=
  let reason := finish_reason (st_events stream) in
  negb (st_idle stream) && bool_decide (st_Err stream = None) && negb (str_empty reason)
  && negb (String.eqb reason "length") && negb (String.eqb reason "content_filter").

(** The classified error, as the worker gets it. *)
Definition reported (e : goerr) : option goerr := adapter_error (generation_error (Some e)).

Lemma reported_code (e : goerr) :
  as_app_error e = None ->
  reported e = adapter_error (Some (AppError (generation_code e) ErrTypeInferenceServer (Some e))).
Proof. intros He. unfold reported, generation_error, EnsureAppError. by rewrite He. Qed.

Lemma reported_transient (e : goerr) :
  as_app_error e = None -> errors_Is (Some e) Worker.ErrTransientInference = false ->
  is_Some (reported e)
  /\ errors_Is (reported e) Worker.ErrTransientInference
     = String.eqb (generation_code e) ErrCodeServerOverloaded.
Proof.
  intros He Ht. rewrite reported_code by done. unfold adapter_error.
  rewrite IsCode_AppError. destruct (String.eqb _ _).
  - split; [done|]. by rewrite errors_Is_Errorf2.
  - split; [done|]. exact Ht.
Qed.

Lemma classified_code (err : goerr) :
  foreign err ->
  let e := Errorf "streaming generation: " (classifyOpenAIError err) "" in
  as_app_error e = None
  /\ errors_Is (Some e) Worker.ErrTransientInference = false
  /\ String.eqb (generation_code e) ErrCodeServerOverloaded = overloaded err.
Proof.
  intros [Ha Hf]. cbv zeta. unfold generation_code. rewrite !errors_Is_Errorf, as_app_error_Errorf.
  repeat match goal with H : Forall _ _ |- _ => apply Forall_cons in H as [?Hs Hf] end.
  unfold classifyOpenAIError, overloaded.
  destruct (as_openai_error err) as [[status msg]|].
  - set (o := ((status =? 500) || (status =? 502) || (status =? 503))%Z).
    assert (Ho : (status = 400 \/ status = 401 \/ status = 403 \/ status = 404
                  \/ status = 429)%Z -> o = false) by (unfold o; lia).
    destruct (status =? 400)%Z eqn:E1; [rewrite Ho by lia; done|].
    destruct ((status =? 401) || (status =? 403))%Z eqn:E2; [rewrite Ho by lia; done|].
    destruct (status =? 404)%Z eqn:E3; [rewrite Ho by lia; done|].
    destruct (status =? 429)%Z eqn:E4; [rewrite Ho by lia; done|].
    by destruct o.
  - destruct (errors_Is (Some err) DeadlineExceeded); [|destruct (errors_Is (Some err) Canceled);
      [|destruct (as_net_error err)]]; rewrite !errors_Is_Errorf2, ?Hs, ?Hs0, ?Hs1, ?Hs2, ?Hs3, ?Hs4, ?Hs5.
    all: split; [exact Ha|]; split; [done|].
    all: repeat match goal with |- context [errors_Is (Some ?e) ?t] =>
           is_var e; destruct (errors_Is (Some e) t) end; done.
Qed.

(** A generation whose chunks are all accepted. *)
Lemma seen_all stream :
  run_gen (seen false (stream_events (st_events stream) "" stream)) []
  = (texts (st_events stream),
     adapter_error (generation_error (stream_end stream (finish_reason (st_events stream))))).
Proof. rewrite seen_events, deliver_then_end. unfold first_refusal. by rewrite take_nil. Qed.

Lemma no_error_complete stream :
  adapter_error (generation_error (stream_end stream (finish_reason (st_events stream)))) = None ->
  complete stream = true.
Proof.
  assert (Hsome : forall e, adapter_error (generation_error (Some e)) <> None).
  { intros e. unfold generation_error.
    destruct (EnsureAppError_some e (generation_code e) ErrTypeInferenceServer) as (e' & -> & _).
    unfold adapter_error. by case_match. }
  unfold stream_end, complete. destruct (st_idle stream); [intros Hx; by apply Hsome in Hx|].
  destruct (st_Err stream); [intros Hx; by apply Hsome in Hx|].
  rewrite bool_decide_true by done.
  repeat (case_match; [intros Hx; by apply Hsome in Hx|]). done.
Qed.

(** C23: what the worker sees of a stream of the inference server, through the
    client, the use case and the adapter.  If the callback refuses a chunk,
    the generation stops there with the code of an interrupted stream, which
    is not transient.  Otherwise the chunks are exactly the texts of the
    stream that are not empty, in order; there is no error exactly when the
    stream was complete (it ended by itself, without an error, with a finish
    reason that is neither length nor content_filter); and the error is
    transient, so that the worker retries, exactly when the idle timer fired
    or the error of the stream is of the overloaded class. *)
Theorem generation_outcome (stream : llm_stream) (answers : list (option goerr))
    (Hforeign : forall err, st_Err stream = Some err -> foreign err) :
  let '(chunks, err) := run_gen (seen false (stream_events (st_events stream) "" stream)) answers in
  let all := texts (st_events stream) in
  match first_refusal answers (length all) with
  | Some i => chunks = take (S i) all /\ Code err = ErrCodeStreamInterrupted
              /\ errors_Is err Worker.ErrTransientInference = false
  | None => chunks = all /\ (err = None <-> complete stream = true)
            /\ errors_Is err Worker.ErrTransientInference = transient_end stream
  end.
Proof.
  rewrite seen_events, deliver_then_end. unfold texts.
  destruct (first_refusal _ _) as [i|]; [done|]. split; [done|].
  unfold stream_end, complete, transient_end, finish_reason.
  set (reason := last_reason _ ""). destruct (st_idle stream); [by vm_compute|].
  destruct (st_Err stream) as [err|] eqn:Eerr.
  - destruct (classified_code err (Hforeign err eq_refl)) as (Ha & Ht & Hc).
    unfold errorf_w. fold (reported (Errorf "streaming generation: " (classifyOpenAIError err) "")).
    destruct (reported_transient _ Ha Ht) as [[e He] Hr]. rewrite Hr, Hc. split; [|done].
    rewrite He. rewrite bool_decide_false by done. done.
  - rewrite bool_decide_true by done.
    destruct (str_empty reason); [by vm_compute|].
    destruct (String.eqb reason "length"); [by vm_compute|].
    by destruct (String.eqb reason "content_filter"); vm_compute.
Qed.
End generation.

(** ** Witnesses *)

Section examples.
(** An openai error is a sentinel with its status. *)
#[local] Instance demo_errors : OpenAIError := {|
  as_openai_error := fun e =>
    if as_leaf (Sentinel "openai 503") e then Some (503%Z, "unavailable")
    else if as_leaf (Sentinel "openai 504") e then Some (504%Z, "gateway timeout")
    else None |}.
#[local] Abbreviation openai s := (Leaf (Sentinel ("openai " +:+ s)) s).
#[local] Abbreviation see st answers :=
  (run_gen (seen false (stream_events (st_events st) "" st)) answers).

Lemma generation_outcome_witness :
  let st := MkLlmStream [[("", "a"); ("", "")]; [("", "b")]] false (Some (openai "503")) in
  (see st []).1 = ["a"; "b"]
  /\ errors_Is (see st []).2 Worker.ErrTransientInference = true
  /\ (see st [None; Some Canceled]).1 = ["a"; "b"]
  /\ Code (see st [None; Some Canceled]).2 = ErrCodeStreamInterrupted.
Proof.
  set (st := MkLlmStream [[("", "a"); ("", "")]; [("", "b")]] false (Some (openai "503"))).
  assert (Hf : forall err, st_Err st = Some err -> foreign err).
  { intros err [= <-]. split; [reflexivity|]. repeat constructor. }
  pose proof (generation_outcome st [] Hf) as H1.
  pose proof (generation_outcome st [None; Some Canceled] Hf) as H2.
  cbv zeta. destruct (see st []) as [c1 e1]. destruct (see st [None; Some Canceled]) as [c2 e2].
  destruct H1 as (-> & _ & Ht). destruct H2 as (-> & Hc & _).
  split; [reflexivity|]. split; [exact Ht|]. split; [reflexivity|exact Hc].
Defined.

(** A gateway that times out (504) is not retried, although the other
    failures of the server are. *)
Example gateway_timeout_final :
  let st s := MkLlmStream [] false (Some (openai s)) in
  errors_Is (see (st "503") []).2 Worker.ErrTransientInference = true
  /\ errors_Is (see (st "504") []).2 Worker.ErrTransientInference = false
  /\ Code (see (st "504") []).2 = ErrCodeUnknown.
Proof. vm_compute. done. Qed.

(** An answer cut at the token limit reaches the client whole, and then the
    job fails. *)
Example length_fails :
  let st := MkLlmStream [[("", "a")]; [("length", "b")]] false None in
  (see st []).1 = ["a"; "b"] /\ Code (see st []).2 = ErrCodeMaxTokensExceeded.
Proof. vm_compute. done. Qed.
End examples.

(** ** The client that the module builds *)

(** A built client can connect and read: its key is there, and the timeouts it
    was given are positive, the idle one within the total one. *)
Lemma built_client cfg c :
  NewInferenceEngineModule cfg true = Ok c ->
  oc_APIKey c <> "" /\ (0 < oc_streamIdleTimeout c <= oc_Timeout c)%Z
  /\ (0 < tr_TLSHandshakeTimeout (oc_Transport c))%Z /\ (0 < tr_IdleConnTimeout (oc_Transport c))%Z
  /\ (0 <= oc_MaxRetries c)%Z.
Proof.
  unfold NewInferenceEngineModule. destruct (str_empty (APIKey cfg)) eqn:Ek; [done|].
  destruct (str_empty (TrimSpace _)); [done|]. destruct (ic_MaxRetries cfg <? 0)%Z eqn:Er; [done|].
  destruct (List.find _ _) as [d|] eqn:Ed; [done|].
  assert (Hd : forall x, x ∈ positiveDurations cfg -> (0 < x.2)%Z).
  { intros x Hx. apply list_elem_of_In in Hx. pose proof (List.find_none _ _ Ed x Hx) as H.
    cbn in H. lia. }
  destruct (StreamTotalTimeout cfg <? StreamIdleTimeout cfg)%Z eqn:Et; [done|].
  repeat (case_match; try done). intros [= <-].
  cbn [NewOpenAIClient oc_APIKey oc_streamIdleTimeout oc_Timeout oc_Transport oc_MaxRetries
    tr_TLSHandshakeTimeout tr_IdleConnTimeout].
  split; [by apply String.eqb_neq|].
  pose proof (Hd ("stream idle timeout", StreamIdleTimeout cfg) ltac:(do 3 right; by left)) as P1.
  pose proof (Hd ("TLS handshake timeout", TLSHandshakeTimeout cfg) ltac:(right; by left)) as P2.
  pose proof (Hd ("connection idle timeout", ConnectionIdleTimeout cfg) ltac:(do 5 right; by left)) as P3.
  cbn [snd] in *. lia.
Qed.

(** The dial and the response-header timeouts, which must be positive, make no
    difference to the client. *)
Lemma connect_timeouts_unused cfg dial header :
  NewOpenAIClient (MkInferenceClient (APIKey cfg) (BaseURL cfg) (ic_MaxRetries cfg) dial
    (TLSHandshakeTimeout cfg) header (StreamIdleTimeout cfg) (StreamTotalTimeout cfg)
    (MaxIdleConnections cfg) (MaxIdleConnectionsHost cfg) (ConnectionIdleTimeout cfg))
  = NewOpenAIClient cfg.
Proof. reflexivity. Qed.
