(* ===== verification/System.v ===== *)
(** * A system with a Redis and a PostgreSQL

    The world of the modules that use both services.  Each request to Redis
    meets the next of a list of outcomes (delivered, refused, or delivered
    with the reply lost); the requests to PostgreSQL do the same in
    [pgworld].  An empty list means that everything is delivered. *)

From S2P Require Import Prelude GoErr Redis Env Postgres.
From stdpp Require Import base gmap list strings.
From Stdlib Require Import ZArith Lia.

Record system (R D : Type) := MkSystem {
  sys_redis : R;
  sys_rfaults : list outcome;
  sys_pg : pgworld D;
}.
Arguments MkSystem {R D}.
Arguments sys_redis {R D}.
Arguments sys_rfaults {R D}.
Arguments sys_pg {R D}.

Section system.
Context {R D : Type} `{!Redis R, !Postgres D}.
Implicit Types w : system R D.

Definition sys_script {A} (s : script A) : M (system R D) (res goerr A) :=
  fun w =>
    let '(x, r') := run_script s (sys_redis w) in
    let reply := match x with Ok a => Ok a | Err m => Err (errors_New m) end in
    match sys_rfaults w with
    | [] => (reply, MkSystem r' [] (sys_pg w))
    | Delivered :: os => (reply, MkSystem r' os (sys_pg w))
    | Refused e :: os => (Err e, MkSystem (sys_redis w) os (sys_pg w))
    | ReplyLost e :: os => (Err e, MkSystem r' os (sys_pg w))
    end.

(** A program over the connection to PostgreSQL. *)
Definition on_pg {A} (m : M (pgworld D) A) : M (system R D) A :=
  fun w => let '(a, p) := m (sys_pg w) in
           (a, MkSystem (sys_redis w) (sys_rfaults w) p).

#[global] Instance system_redis : RedisClient (system R D) := {| rc_run := @sys_script |}.

#[global] Instance system_pg : PgClient (system R D) := {|
  pg_run := fun A tx c => on_pg (pg_run tx c);
  pg_Begin := on_pg pg_Begin;
  pg_Commit := on_pg pg_Commit;
  pg_Rollback := on_pg pg_Rollback;
|}.

Definition sys_wait (dt : Z) : M (system R D) unit :=
  modify_world (fun w => MkSystem (redis_wait dt (sys_redis w)) (sys_rfaults w) (sys_pg w)).

(** What the services hold. *)
Definition rview w : rdata := redis_view (sys_redis w).
Definition dview w : pgdata := pg_view (pw_db (sys_pg w)).

(** PostgreSQL delivers every request, and no transaction is open. *)
Definition pg_calm w : Prop := pw_faults (sys_pg w) = [] /\ pw_tx (sys_pg w) = None.
End system.

Section lemmas.
Context {R D : Type} `{!Redis R, !RedisDoc R, !Postgres D, !PostgresDoc D}.
Implicit Types w : system R D.

(** One command: it is lost, or it has its documented effect, and then the
    reply may be lost. *)
Lemma sys_call {A} (c : cmd A) w :
  let p := rc_run (call c) w in
  sys_pg p.2 = sys_pg w /\
  ((exists e, p.1 = Err e /\ rview p.2 = rview w /\ exists e' os, sys_rfaults w = Refused e' :: os)
   \/ (rview p.2 = (doc_exec c (rview w)).2
       /\ ((exists e, p.1 = Err e)
           \/ exists a, (doc_exec c (rview w)).1 = Ok a /\ p.1 = Ok a))).
Proof.
  cbv zeta. unfold rc_run, system_redis, sys_script, rview.
  pose proof (run_script_doc (call c) (sys_redis w)) as Hd.
  rewrite run_tail in Hd. rewrite Hd.
  destruct (run_script (call c) (sys_redis w)) as [x r']. cbn [fst snd].
  assert (Hx : (exists e, match x with Ok a => Ok a | Err m => Err (errors_New m) end
                          = Err (A := A) (E := goerr) e)
    \/ exists a, x = Ok a /\ match x with Ok a => Ok a | Err m => Err (errors_New m) end
                             = Ok (A := A) (E := goerr) a) by (destruct x; eauto).
  destruct (sys_rfaults w) as [|[|e|e] os]; cbn [fst snd sys_pg sys_redis sys_rfaults];
    (split; [done|]).
  - right. split; [done|]. exact Hx.
  - right. split; [done|]. exact Hx.
  - left. eauto 6.
  - right. split; [done|]. left. eauto.
Qed.

Lemma sys_sql {A} (c : sql A) w :
  pg_calm w ->
  let p := pg_run false c w in
  rview p.2 = rview w /\ sys_rfaults p.2 = sys_rfaults w /\ pg_calm p.2
  /\ p.1 = lift_res (doc_sql c (dview w)).1 /\ dview p.2 = (doc_sql c (dview w)).2.
Proof.
  intros [Hf Ht]. cbv zeta. unfold dview.
  rewrite <- pg_call_reply, <- pg_call_view.
  cbn -[pg_call]. unfold on_pg. cbn -[pg_call]. unfold pw_request, next_outcome. rewrite Hf.
  unfold pw_exec. destruct (pg_call c (pw_db (sys_pg w))) as [r d']. cbn. done.
Qed.

(** One statement, whatever happens to it: it is delivered, or it fails, lost
    on its way or only its reply.  Redis is not concerned. *)
Lemma sys_sql_cases {A} (c : sql A) w :
  let p := pg_run false c w in
  sys_redis p.2 = sys_redis w /\ sys_rfaults p.2 = sys_rfaults w
  /\ pw_faults (sys_pg p.2) = tail (pw_faults (sys_pg w))
  /\ ((p.1 = lift_res (doc_sql c (dview w)).1 /\ dview p.2 = (doc_sql c (dview w)).2)
      \/ exists e, p.1 = Err e
         /\ (dview p.2 = dview w /\ head (pw_faults (sys_pg w)) = Some (Refused e)
             \/ dview p.2 = (doc_sql c (dview w)).2
                /\ head (pw_faults (sys_pg w)) = Some (ReplyLost e))).
Proof.
  cbv zeta. unfold dview. rewrite <- pg_call_reply, <- pg_call_view.
  cbn -[pg_call]. unfold on_pg. cbn -[pg_call]. unfold pw_request, next_outcome, pw_exec.
  destruct (pw_faults (sys_pg w)) as [|[|e|e] os] eqn:E; cbn -[pg_call];
    try (destruct (pg_call c (pw_db (sys_pg w))) as [r d']; cbn);
    (split; [done|]); (split; [done|]); (split; [by rewrite ?E|]); eauto 8.
Qed.

Lemma rview_wait dt w : rview (sys_wait dt w).2 = doc_wait dt (rview w).
Proof. cbn. unfold rview. cbn. by rewrite redis_wait_doc. Qed.
End lemmas.
