(* ===== verification/User.v ===== *)
(** * Users (internal/user)

    The repository of users over PostgreSQL, the cache of their tiers over
    Redis, the use cases, and the HTTP interface of administrators.  The
    token service is the interface [UserTokenManager]. *)

From S2P Require Import Prelude GoText GoErr Redis Env Postgres Job Admission Http.
From stdpp Require Import base gmap list strings pretty.
From Stdlib Require Import ZArith Lia Ascii.

(** ** domain *)

Definition UserRole : Type := string.
Definition RoleAdmin : UserRole := "admin".
Definition RoleUser : UserRole := "user".

Record User := MkUser { usr_UserID : string; usr_Role : UserRole; usr_Tier : string }.

Record UpdateUserTierRequest := MkUpdateUserTierRequest { ut_UserID : string; ut_Tier : string }.

Definition ErrUserNotFound : goerr := Leaf (Sentinel "user.ErrUserNotFound") "user not found".
Definition ErrUserNotAdmin : goerr :=
  Leaf (Sentinel "user.ErrUserNotAdmin") "user is not an admin".

Class UserRepository (W : Type) := {
  ur_Save : bool -> string -> M W (option goerr);
  ur_FindByID : string -> M W (res goerr User);
}.

Class AdminService (W : Type) := {
  as_SetUserAsAdmin : string -> M W (option goerr);
  as_UpdateUserTier : string -> string -> M W (option goerr);
  as_IsUserAdmin : string -> M W (option goerr);
}.

Class UserTierCache (W : Type) := {
  tc_Invalidate : string -> M W (option goerr);
  tc_Get : string -> M W (res goerr string);
  tc_Set : string -> string -> M W (option goerr);
}.

Class UserTokenManager (W : Type) := {
  ut_Generate : string -> string -> M W (res goerr string);
  ut_ValidateAccessToken : string -> M W (res goerr (string * string));
}.

(** ** public *)

Definition ErrCodeAdminTokenGenFailed := "ADMIN_JWT_GENERATION_FAILED".
Definition ErrCodeUserNotAdmin := "USER_NOT_ADMIN".
Definition ErrCodeAdminNotFound := "ADMIN_NOT_FOUND".
Definition ErrCodeUserNotFound := "USER_NOT_FOUND".
Definition ErrCodeRegisterFailed := "USER_REGISTRATION_FAILED".
Definition ErrCodeTierFetchFailed := "USER_TIER_FETCH_FAILED".
Definition ErrCodeRoleFetchFailed := "USER_ROLE_FETCH_FAILED".
Definition ErrCodeAdminCreationFailed := "ADMIN_CREATION_FAILED".

Class UserService (W : Type) := {
  us_Register : bool -> string -> M W (option goerr);
  us_Tier : string -> M W (res goerr string);
  us_Role : string -> M W (res goerr string);
}.

(** ** infrastructure/cache/redis.go *)

Definition userTierCacheTTL : Z := 15 * 60 * 1000.

Definition buildUserTierCacheKey (userID : string) : string :=
  "user:" +:+ userID +:+ ":tier".

Section cache.
Context {W : Type} `{!RedisClient W}.

Definition Invalidate (userID : string) : M W (option goerr) :=
  r ← rc_run (call (DEL (buildUserTierCacheKey userID)));
  mret match r with
       | Err err => Some (errorf_w "invalidate user tier cache: " (Some err))
       | Ok _ => None
       end.

Definition cache_Get (userID : string) : M W (res goerr string) :=
  r ← rc_run (call (GET (buildUserTierCacheKey userID)));
  mret match r with
       | Err err => if errors_Is (Some err) redis_Nil then Ok ""
                    else Err (errorf_w "redis get failed: " (Some err))
       | Ok None => Ok ""
       | Ok (Some b) => Ok (bulk_text b)
       end.

Definition cache_Set (userID userTier : string) : M W (option goerr) :=
  r ← rc_run (call (SET_PX (buildUserTierCacheKey userID) (BStr userTier) userTierCacheTTL));
  mret match r with
       | Err err => Some (errorf_w "redis set failed: " (Some err))
       | Ok _ => None
       end.

#[global] Instance Cacher : UserTierCache W := {|
  tc_Invalidate := Invalidate;
  tc_Get := cache_Get;
  tc_Set := cache_Set;
|}.
End cache.

(** ** infrastructure/persistence/postgres.go *)

Section repository.
Context {W : Type} `{!PgClient W}.

Definition user_Save (tx : bool) (userID : string) : M W (option goerr) :=
  r ← pg_run tx (INSERT_USER userID);
  mret match r with
       | Err err => Some (errorf_w "insert user: " (Some err))
       | Ok _ => None
       end.

Definition FindByID (userUUID : string) : M W (res goerr User) :=
  r ← pg_run false (SELECT_USER userUUID);
  mret match r with
       | Err err => Err (errorf_w "retrieve user tier: " (Some err))
       | Ok None => Err ErrUserNotFound
       | Ok (Some row) => Ok (MkUser userUUID (u_role row) (u_tier row))
       end.

Definition GetUserRole (userUUID : string) : M W (res goerr string) :=
  r ← pg_run false (SELECT_USER userUUID);
  mret match r with
       | Err err => Err (errorf_w "retrieve user role: " (Some err))
       | Ok None => Err ErrUserNotFound
       | Ok (Some row) => Ok (u_role row)
       end.

Definition SetUserAsAdmin (userID : string) : M W (option goerr) :=
  r ← pg_run false (UPSERT_ADMIN userID);
  mret match r with
       | Err err => Some (errorf_w "set user as admin: " (Some err))
       | Ok _ => None
       end.

Definition repo_UpdateUserTier (userID tier : string) : M W (option goerr) :=
  r ← pg_run false (UPDATE_TIER userID tier);
  mret match r with
       | Err err => Some (errorf_w "update user tier: " (Some err))
       | Ok rowsAffected => if (rowsAffected =? 0)%Z then Some ErrUserNotFound else None
       end.

Definition IsUserAdmin (userID : string) : M W (option goerr) :=
  r ← pg_run false (SELECT_USER userID);
  mret match r with
       | Err err => Some (errorf_w "check user admin role: " (Some err))
       | Ok None => Some ErrUserNotFound
       | Ok (Some row) => if negb (String.eqb (u_role row) RoleAdmin) then Some ErrUserNotAdmin
                          else None
       end.

#[global] Instance pg_UserRepository : UserRepository W := {|
  ur_Save := user_Save;
  ur_FindByID := FindByID;
|}.

#[global] Instance pg_AdminService : AdminService W := {|
  as_SetUserAsAdmin := SetUserAsAdmin;
  as_UpdateUserTier := repo_UpdateUserTier;
  as_IsUserAdmin := IsUserAdmin;
|}.
End repository.

(** ** usecase/user_usecase.go *)

Definition ErrTypeUser := "USER_OPERATION_FAILED".

Section user_usecase.
Context {W : Type} `{!UserRepository W, !UserTierCache W}.

Definition UserUseCase_Register (tx : bool) (userUUID : string) : M W (option goerr) :=
  err ← ur_Save tx userUUID;
  mret match err with
       | Some err => Some (NewAppError ErrCodeRegisterFailed ErrTypeUser (Some err))
       | None => None
       end.

Definition UserUseCase_Tier (userUUID : string) : M W (res goerr string) :=
  cached ← tc_Get userUUID;
  let cachedUserTier := match cached with Ok t => t | Err _ => "" end in
  if str_empty cachedUserTier then
    user ← ur_FindByID userUUID;
    match user with
    | Err err => mret (Err (NewAppError ErrCodeTierFetchFailed ErrTypeUser (Some err)))
    | Ok user =>
        _ ← tc_Set userUUID (usr_Tier user);
        mret (Ok (usr_Tier user))
    end
  else mret (Ok cachedUserTier).

Definition UserUseCase_Role (userUUID : string) : M W (res goerr string) :=
  user ← ur_FindByID userUUID;
  mret match user with
       | Err err => Err (NewAppError ErrCodeRoleFetchFailed ErrTypeUser (Some err))
       | Ok user => Ok (usr_Role user)
       end.

#[global] Instance NewUserService : UserService W := {|
  us_Register := UserUseCase_Register;
  us_Tier := UserUseCase_Tier;
  us_Role := UserUseCase_Role;
|}.
End user_usecase.

(** The user service behind the ports of admission and of jobs
    (admission/adapters, job/adapters/user_adapter.go). *)
#[global] Instance user_tier_service {W} `{!UserService W} : UserTierService W := {|
  UserService_Tier := us_Tier;
|}.

#[global] Instance job_UserPolicyAdapter {W} `{!UserService W} : Job.UserPolicyReader W := {|
  Job.GetUserPolicy := fun userID =>
    userTier ← us_Tier userID;
    mret (res_map Job.MkUserPolicy userTier);
|}.

(** ** usecase/admin_usecase.go *)

Definition ErrTypeAdmin := "ADMIN_USE_CASE_FAILED".

Section admin_usecase.
Context {W : Type} `{!AdminService W, !UserTokenManager W, !UserTierCache W, !Uuid W}.

Definition CreateAdmin : M W (res goerr string) :=
  adminUserID ← uuid_New;
  err ← as_SetUserAsAdmin adminUserID;
  mret match EnsureAppError err ErrCodeAdminCreationFailed ErrTypeAdmin with
       | Some err => Err err
       | None => Ok adminUserID
       end.

Definition login_code (err : goerr) : string :=
  if errors_Is (Some err) ErrUserNotFound then ErrCodeAdminNotFound
  else if errors_Is (Some err) ErrUserNotAdmin then ErrCodeUserNotAdmin
  else ErrCodeDBQueryFailed.

Definition AdminAuthLogin (userID : string) : M W (res goerr string) :=
  err ← as_IsUserAdmin userID;
  match err with
  | Some err =>
      mret (Err (ensure_app err (login_code err) ErrTypeAdmin))
  | None =>
      token ← ut_Generate userID RoleAdmin;
      mret match token with
           | Err err => Err (ensure_app err ErrCodeAdminTokenGenFailed ErrTypeAdmin)
           | Ok token => Ok token
           end
  end.

Definition AdminUseCase_UpdateUserTier (req : UpdateUserTierRequest) : M W (option goerr) :=
  err ← as_UpdateUserTier (ut_UserID req) (ut_Tier req);
  match err with
  | Some err =>
      mret (EnsureAppError (Some err)
              (if errors_Is (Some err) ErrUserNotFound then ErrCodeUserNotFound
               else ErrCodeDBQueryFailed) ErrTypeAdmin)
  | None => _ ← tc_Invalidate (ut_UserID req); mret None
  end.
End admin_usecase.

(** ** transport *)

(** http_errors.go; the codes of the auth module are those of
    auth/public/error_codes.go. *)
Definition MsgUserNotFound :=
  "The user account you are trying to update could not be found. Please verify the user ID and try again.".
Definition MsgUserNotAdmin :=
  "Your account does not have administrator privileges. Contact an administrator if you need access.".
Definition MsgUserUnauthorized :=
  "Authentication is required to access user management endpoints. Your session may have expired or the provided token is invalid. Please sign in again.".
Definition ErrCodeJWTTokenGenerationFailed := "AUTH_JWT_TOKEN_GENERATION_FAILED".
Definition ErrCodeJWTTokenValidationFailed := "AUTH_JWT_TOKEN_VALIDATION_FAILED".

Definition UserCodeRegistry : CodeRegistry := list_to_map [
  (ErrCodeUserNotFound, MkErrorMeta 404 MsgUserNotFound);
  (ErrCodeUserNotAdmin, MkErrorMeta 404 MsgUserNotAdmin);
  (ErrCodeAdminTokenGenFailed, MkErrorMeta 500 MsgServerError);
  (ErrCodeAdminNotFound, MkErrorMeta 403 MsgUserNotAdmin);
  (ErrCodeAdminCreationFailed, MkErrorMeta 500 MsgServerError);

  (ErrCodeJWTTokenGenerationFailed, MkErrorMeta 500 MsgServerError);
  (ErrCodeJWTTokenValidationFailed, MkErrorMeta 401 MsgUserUnauthorized);

  (ErrCodeDBQueryFailed, MkErrorMeta 500 MsgServerError);
  (ErrCodeUnauthorized, MkErrorMeta 401 MsgUserUnauthorized);
  (ErrCodeForbidden, MkErrorMeta 403 MsgUserNotAdmin)].

Section transport.
Context {G V : Type} `{!Gin G}.
Context `{!AdminService V, !UserTokenManager V, !UserTierCache V, !Uuid V}.

(** middleware.go *)
Definition bad_scheme : goerr :=
  AppError ErrCodeUnauthorized "INVALID_AUTH_HEADER"
    (Some (errors_New "authorization header must be in the format 'Bearer <token>'")).

(** The message quotes the user and the role ([%q]). *)
Definition not_authorized (adminID role : string) : goerr :=
  AppError ErrCodeForbidden "FORBIDDEN"
    (Some (errors_New ("user " +:+ dq +:+ adminID +:+ dq +:+ " with role " +:+ dq +:+ role
       +:+ dq +:+ " is not authorized to access admin endpoints"))).

Definition AdminAuthMiddleware : middleware G V :=
  fun next =>
    authHeader ← gin (GetHeader "Authorization");
    match cut " "%char authHeader with
    | None => fail_abort bad_scheme
    | Some (scheme, token) =>
        if negb (String.eqb (lower scheme) "bearer") then fail_abort bad_scheme
        else
          r ← svc (ut_ValidateAccessToken token);
          match r with
          | Err err =>
              fail_abort (AppError ErrCodeUnauthorized "INVALID_ACCESS_TOKEN" (Some err))
          | Ok (adminID, role) =>
              if negb (String.eqb role RoleAdmin) || str_empty role
              then fail_abort (not_authorized adminID role)
              else
                _ ← gin (SetKey "user_id" adminID);
                _ ← gin (SetKey "user_role" role);
                _ ← gin (WithValue "user_id" adminID);
                next
          end
    end.

Definition user_TimeoutMiddleware : Z -> middleware G V := TimeoutMiddleware.
Definition user_ErrorHandler : middleware G V :=
  ErrorHandler UserCodeRegistry "USER_REQUEST_FAILED".

(** handler.go and dto.go *)
Definition CreateAdminResponse (userID : string) : json :=
  jobject [("message", jstr "Admin user created successfully"); ("user_id", jstr userID)].
Definition AdminAuthLoginResponse (token : string) : json :=
  jobject [("message", jstr "Authentication successful"); ("access_token", jstr token)].
Definition UpdateUserTierResponse (tier : string) : json :=
  jobject [("message", jstr ("Your plan successfully changed to " +:+ tier));
           ("tier", jstr tier)].

Definition HandleCreateAdmin : handler G V :=
  response ← svc CreateAdmin;
  match response with
  | Err err => fail err
  | Ok userID => gin (WriteJSON 201 (CreateAdminResponse userID))
  end.

Definition HandleAdminLogin : handler G V :=
  req ← gin (ShouldBind ["user_id"]);
  match req with
  | Err err => fail err
  | Ok [userID] =>
      response ← svc (AdminAuthLogin userID);
      match response with
      | Err err => fail err
      | Ok token => gin (WriteJSON 200 (AdminAuthLoginResponse token))
      end
  | Ok _ => skip
  end.

(** The binding of the tier, [required,oneof=free premium]. *)
Definition bind_tier (req : res goerr (list string)) : res goerr string :=
  match req with
  | Err err => Err err
  | Ok [tier] =>
      if String.eqb tier "free" || String.eqb tier "premium" then Ok tier
      else Err (Leaf ValidationErrors "Field validation for 'Tier' failed on the 'oneof' tag")
  | Ok _ => Err (Leaf ValidationErrors "Field validation for 'Tier' failed on the 'required' tag")
  end.

Definition HandleUpdateUserTier : handler G V :=
  userID ← gin (Param "user_id");
  req ← gin (ShouldBind ["tier"]);
  match bind_tier req with
  | Err err => fail err
  | Ok tier =>
      err ← svc (AdminUseCase_UpdateUserTier (MkUpdateUserTierRequest userID tier));
      match err with
      | Some err => fail err
      | None => gin (WriteJSON 200 (UpdateUserTierResponse tier))
      end
  end.

(** routes.go: the routes of the group /admin. *)
Inductive admin_route : Type := POST_register | POST_login | PUT_user_tier.

Definition admin_handler (r : admin_route) : handler G V :=
  match r with
  | POST_register => HandleCreateAdmin
  | POST_login => HandleAdminLogin
  | PUT_user_tier => chain [AdminAuthMiddleware] HandleUpdateUserTier
  end.

Definition user_RegisterRoutes (r : admin_route) : handler G V :=
  chain [user_TimeoutMiddleware (5 * second); user_ErrorHandler] (admin_handler r).
End transport.

(** ** module.go *)

(** Whether the token service and the handler of administrators are set: the
    module is built without them, since the token service needs the module. *)
Record UserModule := MkUserModule { um_tokenService : bool; um_adminHandler : bool }.

(** Whether each dependency is there. *)
Definition NewUserModule (pgPool redisClient logger : bool) : res goerr UserModule :=
  if negb pgPool then Err (errors_New "user dependencies: postgres pool must not be nil")
  else if negb redisClient then
    Err (errors_New "user dependencies: redis client must not be nil")
  else if negb logger then Err (errors_New "user logger must not be nil")
  else Ok (MkUserModule false false).

Definition SetTokenService (tokenService : bool) (m : UserModule) : res goerr UserModule :=
  if negb tokenService then Err (errors_New "tokenService cannot be nil")
  else Ok (MkUserModule true true).

(** The method [RegisterRoutes] of the module. *)
Definition UserModule_RegisterRoutes (m : UserModule) : exit :=
  if negb (um_tokenService m) || negb (um_adminHandler m)
  then Panicked "token service and admin handler must be set" else Returned.
