(* ===== verification/UserThms.v ===== *)
(** * Theorems about users: the cache of their tiers *)

From S2P Require Import Prelude GoText GoErr Redis Env Postgres System Job Admission Http User.
From stdpp Require Import base gmap list strings.
From Stdlib Require Import ZArith Lia Ascii.

#[local] Existing Instance system_redis.
#[local] Existing Instance system_pg.

(** ** The tier cache *)

Lemma tier_key_inj u v : buildUserTierCacheKey u = buildUserTierCacheKey v -> u = v.
Proof.
  unfold buildUserTierCacheKey. intros E. apply (inj (String.app "user:")) in E.
  by apply string_app_tail_inj in E.
Qed.

Section cache.
Context {R D : Type} `{!Redis R, !RedisDoc R, !Postgres D, !PostgresDoc D}.
#[local] Abbreviation W := (system R D).
Implicit Types w : W.

Definition cached w (u : string) : option bulk := rstr (rview w) (buildUserTierCacheKey u).

(** What is cached is what the table says. *)
Definition coherent w : Prop :=
  forall u b, cached w u = Some b ->
    exists row, pg_users (dview w) !! u = Some row /\ b = BStr (u_tier row).

(** What [Tier] should answer. *)
Definition table_tier w (u : string) : res goerr string :=
  match pg_users (dview w) !! u with
  | Some row => Ok (u_tier row)
  | None => Err (NewAppError ErrCodeTierFetchFailed ErrTypeUser (Some ErrUserNotFound))
  end.

Lemma coherent_same w w' :
  rview w' = rview w -> dview w' = dview w -> coherent w -> coherent w'.
Proof. unfold coherent, cached. by intros -> ->. Qed.

(** The next request to PostgreSQL fails: it is lost, or its reply is. *)
Definition pg_lost w : Prop :=
  exists e, head (pw_faults (sys_pg w)) = Some (Refused e)
            \/ head (pw_faults (sys_pg w)) = Some (ReplyLost e).

Lemma find_by_id u w :
  let p := FindByID u w in
  rview p.2 = rview w /\ dview p.2 = dview w
  /\ (p.1 = match pg_users (dview w) !! u with
            | Some row => Ok (MkUser u (u_role row) (u_tier row))
            | None => Err ErrUserNotFound
            end
      \/ (exists e, p.1 = Err e) /\ pg_lost w).
Proof.
  cbv zeta. unfold FindByID. rewrite bind_unfold, ret_unfold.
  destruct (sys_sql_cases (SELECT_USER u) w) as (Hr & _ & _ & Hc).
  destruct (pg_run false (SELECT_USER u) w) as [r w']. cbn [fst snd] in *.
  split; [unfold rview; by rewrite Hr|].
  destruct Hc as [[-> Hd]|(e & -> & He)]; cbn [doc_sql lift_res fst snd] in *.
  - split; [done|]. by left.
  - split; [by destruct He as [[? _]|[? _]]|]. right. unfold pg_lost.
    split; [eauto|]. exists e. destruct He as [[_ ?]|[_ ?]]; auto.
Qed.

Lemma cache_get u w :
  let p := cache_Get u w in
  rview p.2 = rview w /\ sys_pg p.2 = sys_pg w
  /\ (match p.1 with Ok t => t | Err _ => "" end = ""
      \/ p.1 = Ok (default "" (bulk_text <$> cached w u))).
Proof.
  cbv zeta. unfold cache_Get. rewrite bind_unfold, ret_unfold.
  pose proof (sys_call (GET (buildUserTierCacheKey u)) w) as [Hp Hs].
  destruct (rc_run (call (GET (buildUserTierCacheKey u))) w) as [r w'].
  cbn [fst snd doc_exec] in *.
  assert (Hr : rview w' = rview w) by (destruct Hs as [(?&?&?&_)|[? _]]; done).
  split; [done|]. split; [done|].
  assert (Hlost : forall e, match (if errors_Is (Some e) redis_Nil then Ok (E := goerr) ""
      else Err (errorf_w "redis get failed: " (Some e))) with Ok t => t | Err _ => "" end = "")
    by (intros e; by destruct (errors_Is _ _)).
  destruct Hs as [(e & -> & _)|(_ & [(e & ->)|(a & Ha & ->)])];
    [left; apply Hlost|left; apply Hlost|right].
  injection Ha as <-. unfold cached. by destruct (rstr (rview w) _).
Qed.

Lemma rstr_set k v e d k' :
  rstr (upd_strs <[k := (v, e)]> d) k' = if decide (k = k') then Some v else rstr d k'.
Proof.
  unfold rstr. cbn. case_decide as E; [subst; by rewrite lookup_insert_eq|].
  by rewrite lookup_insert_ne.
Qed.

Lemma cache_set_coherent u t w :
  coherent w -> (exists row, pg_users (dview w) !! u = Some row /\ u_tier row = t) ->
  let p := cache_Set u t w in
  sys_pg p.2 = sys_pg w /\ coherent p.2.
Proof.
  intros Hc (row & Hrow & Ht). cbv zeta. unfold cache_Set. rewrite bind_unfold, ret_unfold.
  pose proof (sys_call (SET_PX (buildUserTierCacheKey u) (BStr t) userTierCacheTTL) w)
    as [Hp Hs].
  destruct (rc_run (call (SET_PX _ _ _)) w) as [r w']. cbn [fst snd] in *.
  split; [done|].
  assert (Hd : dview w' = dview w) by (unfold dview; by rewrite Hp).
  destruct Hs as [(e & _ & Hr & _)|[Hr _]]; [by eapply coherent_same|].
  intros v b. rewrite Hd. unfold cached. rewrite Hr. cbn [doc_exec]. change (userTierCacheTTL <=? 0)%Z with false.
  cbn [snd]. rewrite rstr_set. case_decide as E; [|by apply Hc].
  apply tier_key_inj in E as <-. intros [= <-]. exists row. by rewrite Ht.
Qed.

Lemma tier_coherent u w :
  coherent w ->
  let p := UserUseCase_Tier u w in
  (p.1 = table_tier w u \/ (exists e, p.1 = Err e) /\ pg_lost w)
  /\ coherent p.2 /\ dview p.2 = dview w.
Proof.
  intros Hc. cbv zeta. unfold UserUseCase_Tier. rewrite bind_unfold.
  change (tc_Get u w) with (cache_Get u w).
  pose proof (cache_get u w) as (Hr & Hq & Ht).
  destruct (cache_Get u w) as [c w1]. cbn [fst snd] in *.
  assert (Hd : dview w1 = dview w) by (unfold dview; by rewrite Hq).
  assert (Hc1 : coherent w1) by (by eapply coherent_same).
  set (t := match c with Ok t => t | Err _ => "" end) in *.
  destruct (str_empty t) eqn:Ee.
  - rewrite bind_unfold. change (ur_FindByID u w1) with (FindByID u w1).
    pose proof (find_by_id u w1) as (Hr2 & Hd2 & Hf). unfold pg_lost in Hf. rewrite Hq in Hf.
    fold (pg_lost w) in Hf.
    destruct (FindByID u w1) as [f w2]. cbn [fst snd] in *.
    assert (Hc2 : coherent w2) by (by eapply coherent_same).
    assert (Hd3 : dview w2 = dview w) by (by rewrite Hd2).
    destruct Hf as [->|[[e ->] Hl]];
      [|rewrite ret_unfold; cbn [fst snd]; split; [right; eauto|done]].
    rewrite Hd. unfold table_tier. destruct (pg_users (dview w) !! u) as [row|] eqn:Erow.
    + rewrite bind_unfold. change (tc_Set u ?t w2) with (cache_Set u t w2).
      cbn [usr_Tier].
      destruct (cache_set_coherent u (u_tier row) w2 Hc2) as [Hq3 Hc3].
      { exists row. by rewrite Hd3. }
      rewrite ret_unfold. cbn [fst snd]. split; [by left|]. split; [done|].
      unfold dview in *. by rewrite Hq3.
    + rewrite ret_unfold. cbn [fst snd]. split; [by left|done].
  - destruct Ht as [Ht|Ht]; [rewrite Ht in Ee; discriminate|].
    rewrite ret_unfold. cbn [fst snd]. split; [left|done].
    subst c. subst t. unfold table_tier. destruct (cached w u) as [b|] eqn:Eb; [|done].
    apply Hc in Eb as (row & -> & ->). done.
Qed.

(** *** Writing to the table *)

(** A statement on the table alone that changes no cached user. *)
Lemma sql_coherent {A} (c : sql A) w :
  coherent w ->
  (forall u b row, cached w u = Some b -> pg_users (dview w) !! u = Some row ->
     exists row', pg_users (doc_sql c (dview w)).2 !! u = Some row'
                  /\ u_tier row' = u_tier row) ->
  coherent (pg_run false c w).2.
Proof.
  intros Hc Hk. destruct (sys_sql_cases c w) as (Hr & _ & _ & Hd).
  destruct (pg_run false c w) as [r w']. cbn [fst snd] in *.
  assert (Hv : rview w' = rview w) by (unfold rview; by rewrite Hr).
  assert (Hd' : dview w' = dview w \/ dview w' = (doc_sql c (dview w)).2).
  { destruct Hd as [[_ ?]|(e & _ & [[? _]|[? _]])]; auto. }
  destruct Hd' as [Hd'|Hd']; [by eapply coherent_same|].
  intros u b Hb. unfold cached in Hb. rewrite Hv in Hb.
  destruct (Hc u b Hb) as (row & Hrow & ->). rewrite Hd'.
  destruct (Hk u _ row Hb Hrow) as (row' & -> & <-). eauto.
Qed.

Lemma register_coherent u w :
  coherent w -> coherent (UserUseCase_Register false u w).2.
Proof.
  intros Hc. unfold UserUseCase_Register. rewrite bind_unfold, ret_unfold.
  change (ur_Save false u w) with (user_Save false u w). unfold user_Save.
  rewrite bind_unfold, ret_unfold. cbn [fst snd].
  apply sql_coherent; [done|]. intros v b row Hb Hrow. cbn [doc_sql].
  case_match eqn:E; cbn [snd]; [|eauto].
  apply andb_true_iff in E as [_ E]. apply bool_decide_eq_true in E.
  cbn. rewrite lookup_insert_ne by congruence. eauto.
Qed.

Lemma create_admin_coherent `{!Uuid W} w :
  coherent w ->
  (let p := uuid_New w in
   rview p.2 = rview w /\ sys_pg p.2 = sys_pg w /\ pg_users (dview w) !! p.1 = None) ->
  coherent (CreateAdmin w).2.
Proof.
  intros Hc Hu. cbv zeta in *. unfold CreateAdmin. rewrite bind_unfold.
  destruct (uuid_New w) as [u w1]. cbn [fst snd] in Hu. destruct Hu as (Hr & Hq & Hn).
  assert (Hd : dview w1 = dview w) by (unfold dview; by rewrite Hq).
  rewrite bind_unfold, ret_unfold. cbn [fst snd].
  change (as_SetUserAsAdmin u w1) with (SetUserAsAdmin u w1). unfold SetUserAsAdmin.
  rewrite bind_unfold, ret_unfold. cbn [fst snd].
  apply sql_coherent; [by eapply coherent_same|].
  intros v b row Hb Hrow. cbn [doc_sql]. case_match; cbn [snd]; [|eauto].
  cbn. rewrite Hd in Hrow |- *. rewrite lookup_insert_ne by congruence. eauto.
Qed.

(** The next request to Redis is not lost on its way, and the next reply of
    PostgreSQL is not lost on its own. *)
Definition redis_reached w : Prop :=
  match sys_rfaults w with Refused _ :: _ => False | _ => True end.
Definition pg_reported w : Prop :=
  match pw_faults (sys_pg w) with ReplyLost _ :: _ => False | _ => True end.

Lemma update_tier_coherent req w :
  coherent w -> redis_reached w -> pg_reported w ->
  coherent (AdminUseCase_UpdateUserTier req w).2.
Proof.
  intros Hc Hre Hpg. destruct req as [u t]. unfold AdminUseCase_UpdateUserTier.
  cbn [ut_UserID ut_Tier]. rewrite bind_unfold.
  change (as_UpdateUserTier u t w) with (repo_UpdateUserTier u t w).
  unfold repo_UpdateUserTier. rewrite bind_unfold, ret_unfold.
  destruct (sys_sql_cases (UPDATE_TIER u t) w) as (Hr & Hf & _ & Hcase).
  destruct (pg_run false (UPDATE_TIER u t) w) as [r w1]. cbn [fst snd] in *.
  assert (Hv : rview w1 = rview w) by (unfold rview; by rewrite Hr).
  assert (Hsame : dview w1 = dview w -> coherent w1) by (intros; by eapply coherent_same).
  destruct Hcase as [[-> Hd]|(e & -> & [[Hd _]|[_ Hl]])].
  2:{ rewrite ret_unfold. cbn [snd]. auto. }
  2:{ exfalso. unfold pg_reported in Hpg. by destruct (pw_faults (sys_pg w)) as [|[]]. }
  cbn [doc_sql] in Hd |- *.
  destruct (user_tier t); [|cbn [lift_res fst snd]; rewrite ret_unfold; cbn [fst snd]; auto].
  destruct (pg_users (dview w) !! u) as [row|] eqn:Erow; [|cbn [lift_res fst snd Z.eqb]; rewrite ret_unfold; cbn [fst snd]; auto].
  cbn [lift_res fst snd Z.eqb] in *. rewrite bind_unfold, ret_unfold. cbn [fst snd].
  change (tc_Invalidate u w1) with (Invalidate u w1). unfold Invalidate.
  rewrite bind_unfold, ret_unfold. cbn [snd].
  pose proof (sys_call (DEL (buildUserTierCacheKey u)) w1) as [Hq Hs].
  destruct (rc_run (call (DEL (buildUserTierCacheKey u))) w1) as [r2 w2]. cbn [fst snd] in *.
  destruct Hs as [(e & _ & _ & e' & os & Hlost)|[Hr2 _]].
  { unfold redis_reached in Hre. rewrite <- Hf, Hlost in Hre. done. }
  intros v b Hb. assert (Hdd : dview w2 = dview w1) by (unfold dview; by rewrite Hq).
  rewrite Hdd, Hd. unfold cached in Hb. rewrite Hr2, Hv in Hb. cbn in Hb.
  unfold rstr, del_key in Hb. cbn in Hb.
  destruct (decide (u = v)) as [->|Hne]; [by rewrite lookup_delete_eq in Hb|].
  rewrite lookup_delete_ne in Hb by (intros E; by apply tier_key_inj in E).
  destruct (Hc v b Hb) as (row' & Hrow' & ->). exists row'. split; [|done].
  cbn. by rewrite lookup_insert_ne.
Qed.

Lemma wait_coherent dt w : coherent w -> coherent (sys_wait dt w).2.
Proof.
  intros Hc u b Hb. change (dview (sys_wait dt w).2) with (dview w).
  apply Hc. unfold cached in *. rewrite rview_wait in Hb. unfold rstr, doc_wait in *.
  cbn in Hb. destruct (filter _ (r_strs (rview w)) !! _) as [p|] eqn:E; [|done].
  apply map_lookup_filter_Some in E as [-> _]. done.
Qed.

(** *** Sequences of operations *)

Inductive user_op : Type :=
| ORegister (u : string)
| OTier (u : string)
| OCreateAdmin (uuid : string)
| OUpdateTier (req : UpdateUserTierRequest)
| OWait (dt : Z).

Definition run_user_op (o : user_op) : M W unit :=
  match o with
  | ORegister u => _ ← UserUseCase_Register false u; skip
  | OTier u => _ ← UserUseCase_Tier u; skip
  | OCreateAdmin u => _ ← @CreateAdmin W _ {| uuid_New := mret u |}; skip
  | OUpdateTier req => _ ← AdminUseCase_UpdateUserTier req; skip
  | OWait dt => sys_wait dt
  end.

Fixpoint run_user_ops (ops : list user_op) (w : W) : W :=
  match ops with
  | [] => w
  | o :: ops => run_user_ops ops (run_user_op o w).2
  end.

(** The identifiers of administrators are fresh; a change of tier that
    PostgreSQL has made is reported as made, and the request that then
    invalidates the cache reaches Redis.  Any other request or reply may be
    lost. *)
Definition permitted (o : user_op) w : Prop :=
  match o with
  | OCreateAdmin u => pg_users (dview w) !! u = None
  | OUpdateTier _ => redis_reached w /\ pg_reported w
  | _ => True
  end.

Fixpoint all_permitted (ops : list user_op) w : Prop :=
  match ops with
  | [] => True
  | o :: ops => permitted o w /\ all_permitted ops (run_user_op o w).2
  end.

Lemma op_coherent o w : coherent w -> permitted o w -> coherent (run_user_op o w).2.
Proof.
  intros Hc Ho. destruct o as [u|u|u|req|dt]; cbn [run_user_op];
    rewrite ?bind_unfold; unfold skip; rewrite ?ret_unfold; cbn [snd].
  - by apply register_coherent.
  - by apply tier_coherent.
  - by apply create_admin_coherent.
  - by apply update_tier_coherent; destruct Ho.
  - by apply wait_coherent.
Qed.

(** C20: the cache of tiers is transparent.  From a coherent state, whatever
    registrations, look-ups, new administrators, tier changes and waits
    follow one another, and whichever of their requests to Redis and to
    PostgreSQL are lost or lose their reply, the cache holds no tier that the
    table does not, and [Tier] answers the tier of the table, or the error of
    an unknown user, or the error of its own look-up when that is lost.  The
    exceptions are in a change of tier: the reply of PostgreSQL to the change
    must not be lost, nor the request that then invalidates the cache.  New
    administrators get fresh identifiers. *)
Theorem tier_coherence (ops : list user_op) (u : string) w
    (Hc : coherent w) (Ho : all_permitted ops w) :
  let w' := run_user_ops ops w in
  ((UserUseCase_Tier u w').1 = table_tier w' u
   \/ (exists e, (UserUseCase_Tier u w').1 = Err e) /\ pg_lost w')
  /\ coherent w'.
Proof.
  cbv zeta. revert w Hc Ho. induction ops as [|o ops IH]; intros w Hc Ho.
  - split; [by apply tier_coherent|done].
  - destruct Ho as [Ho Hos]. by apply IH; [apply op_coherent|].
Qed.

(** [Tier] with something else running between its look-up in the table and
    its write to the cache. *)
Definition interleaved_tier (other : M W unit) (userUUID : string) : M W (res goerr string) :=
  cached ← tc_Get userUUID;
  let cachedUserTier := match cached with Ok t => t | Err _ => "" end in
  if str_empty cachedUserTier then
    user ← ur_FindByID userUUID;
    match user with
    | Err err => mret (Err (NewAppError ErrCodeTierFetchFailed ErrTypeUser (Some err)))
    | Ok user =>
        _ ← other;
        _ ← tc_Set userUUID (usr_Tier user);
        mret (Ok (usr_Tier user))
    end
  else mret (Ok cachedUserTier).
End cache.

Section examples.
#[local] Abbreviation S0 := (MkSystem rdata_empty [] (MkPgWorld pgdata_empty None [])).
#[local] Abbreviation premium u := (MkUpdateUserTierRequest u "premium").

Lemma tier_coherence_witness :
  let ops := [ORegister "u1"; OTier "u1"; OCreateAdmin "a1"; OUpdateTier (premium "u1");
              OUpdateTier (premium "u1"); OTier "u1"; OWait 5] in
  let w : system rdata pgdata :=
    MkSystem rdata_empty [Refused DeadlineExceeded; ReplyLost DeadlineExceeded]
      (MkPgWorld pgdata_empty None
         [ReplyLost DeadlineExceeded; Delivered; Delivered; Refused DeadlineExceeded]) in
  (UserUseCase_Tier "u1" (run_user_ops ops w)).1 = Ok "premium".
Proof.
  cbv zeta.
  destruct (tier_coherence
    [ORegister "u1"; OTier "u1"; OCreateAdmin "a1"; OUpdateTier (premium "u1");
     OUpdateTier (premium "u1"); OTier "u1"; OWait 5] "u1"
    (MkSystem rdata_empty [Refused DeadlineExceeded; ReplyLost DeadlineExceeded]
      (MkPgWorld pgdata_empty None
         [ReplyLost DeadlineExceeded; Delivered; Delivered; Refused DeadlineExceeded])
       : system rdata pgdata)) as [[Ht|[_ [e [He|He]]]] _].
  - intros u b Hb. discriminate Hb.
  - cbn [all_permitted permitted]. repeat split; vm_compute; reflexivity.
  - rewrite Ht. vm_compute. reflexivity.
  - vm_compute in He. discriminate He.
  - vm_compute in He. discriminate He.
Defined.

(** A change of tier that falls between the two halves of a look-up: the old
    tier is cached after the invalidation, and stays until it expires. *)
Example tier_cache_race :
  let w : system rdata pgdata := run_user_ops [ORegister "u1"] S0 in
  let other := run_user_op (OUpdateTier (premium "u1")) in
  let w' := (interleaved_tier other "u1" w).2 in
  interleaved_tier skip "u1" w = UserUseCase_Tier "u1" w
  /\ table_tier w' "u1" = Ok "premium" /\ (UserUseCase_Tier "u1" w').1 = Ok "free"
  /\ (UserUseCase_Tier "u1" (run_user_ops [OWait (899 * 10 ^ 6)] w')).1 = Ok "free"
  /\ (UserUseCase_Tier "u1" (run_user_ops [OWait (900 * 10 ^ 6)] w')).1 = Ok "premium".
Proof. vm_compute. done. Qed.

(** A change of tier whose reply is lost: the table has the new tier, the
    caller an error, and the cache is not invalidated. *)
Example tier_reply_lost :
  let w : system rdata pgdata := run_user_ops [ORegister "u1"; OTier "u1"] S0 in
  let w1 := MkSystem (sys_redis w) []
              (MkPgWorld (pw_db (sys_pg w)) None [ReplyLost DeadlineExceeded]) in
  let p := AdminUseCase_UpdateUserTier (premium "u1") w1 in
  p.1 <> None /\ table_tier p.2 "u1" = Ok "premium"
  /\ (UserUseCase_Tier "u1" p.2).1 = Ok "free".
Proof. vm_compute. done. Qed.

(** A lost invalidation is only logged: the same. *)
Example tier_invalidation_lost :
  let w : system rdata pgdata := run_user_ops [ORegister "u1"; OTier "u1"] S0 in
  let w1 := MkSystem (sys_redis w) [Refused DeadlineExceeded] (sys_pg w) in
  let p := AdminUseCase_UpdateUserTier (premium "u1") w1 in
  p.1 = None /\ table_tier p.2 "u1" = Ok "premium"
  /\ (UserUseCase_Tier "u1" p.2).1 = Ok "free".
Proof. vm_compute. done. Qed.
End examples.
