(* ===== verification/AdminThms.v ===== *)
(** * Theorems about the routes of administrators *)

From S2P Require Import Prelude GoText GoErr Redis Env Postgres System Job Admission Http HttpThms.
From S2P Require Import User.
From stdpp Require Import base gmap list strings.
From Stdlib Require Import ZArith Lia Ascii.

Section admin.
Context {G V : Type} `{!Gin G, !GinDoc G}.
Context `{!AdminService V, !UserTokenManager V, !UserTierCache V, !Uuid V}.

(** What a request for another tier comes to: the tier, or the error that
    stops it, and what the services have done. *)
Definition tier_outcome (s : gin_state) (v : V) : res goerr string * V :=
  match cut " "%char (header s "Authorization") with
  | None => (Err bad_scheme, v)
  | Some (scheme, token) =>
      if String.eqb (lower scheme) "bearer" then
        match ut_ValidateAccessToken token v with
        | (Err err, v) => (Err (AppError ErrCodeUnauthorized "INVALID_ACCESS_TOKEN" (Some err)), v)
        | (Ok (adminID, role), v) =>
            if String.eqb role "admin" then
              match bind_tier (g_bind s ["tier"]) with
              | Err err => (Err err, v)
              | Ok tier =>
                  let userID := default "" (g_params s !! "user_id") in
                  match AdminUseCase_UpdateUserTier (MkUpdateUserTierRequest userID tier) v with
                  | (Some err, v) => (Err err, v)
                  | (None, v) => (Ok tier, v)
                  end
              end
            else (Err (not_authorized adminID role), v)
        end
      else (Err bad_scheme, v)
  end.

Definition tier_changed (tier : string) (s' : gin_state) : Prop :=
  g_status s' = Some 200%Z /\ g_bodies s' = [UpdateUserTierResponse tier].

Lemma update_tier_left (s : gin_state) (g : G) (v : V) :
  unanswered (gin_view g) ->
  g_values (gin_view g) !! "request_id" = g_values s !! "request_id" ->
  g_bind (gin_view g) = g_bind s -> g_params (gin_view g) = g_params s ->
  g_limit (gin_view g) = None ->
  let o := match bind_tier (g_bind s ["tier"]) with
           | Err err => (Err err, v)
           | Ok tier =>
               let userID := default "" (g_params s !! "user_id") in
               match AdminUseCase_UpdateUserTier (MkUpdateUserTierRequest userID tier) v with
               | (Some err, v) => (Err err, v)
               | (None, v) => (Ok tier, v)
               end
           end in
  let w := (HandleUpdateUserTier (g, v)).2 in
  w.2 = o.2 /\ left_by tier_changed s (gin_view w.1) o.1.
Proof.
  intros Hu Hid Hb Hp Hl. cbv zeta. unfold HandleUpdateUserTier. run_gin.
  rewrite Hl, Hb, Hp. cbn [from_option id].
  set (g2 := (gin_call (ShouldBind ["tier"]) _).2).
  assert (Hv2 : gin_view g2 = gin_view g) by (unfold g2; by rewrite !gin_run_view).
  destruct (bind_tier (g_bind s ["tier"])) as [tier|err].
  2: { destruct (fail_left tier_changed s g2 v err) as (? & ? & _); rewrite ?Hv2; done. }
  rewrite bind_unfold, svc_run. cbn [fst snd]. unfold id.
  destruct (AdminUseCase_UpdateUserTier _ v) as [[err|] v1]; cbn [fst snd].
  - destruct (fail_left tier_changed s g2 v1 err) as (? & ? & _); rewrite ?Hv2; done.
  - destruct Hu as (He & Hs & Hbd). run_gin. unfold tier_changed. cbn.
    rewrite Hv2, He, Hs, Hbd. done.
Qed.

(** C26: PUT /admin/users/:user_id/tier.  The route does to the services what
    the ordered checks of [tier_outcome] do: it asks the token service about
    the bearer token, stops unless the role is admin, stops unless the tier
    is free or premium, and only then updates the tier of the user of the
    path; the answer is 200 with the tier, or the status, code and message
    that the registry of the module gives the error. *)
Theorem tier_update_guarded (g : G) (v : V)
    (Hu : unanswered (gin_view g)) (Hl : g_limit (gin_view g) = None) :
  let s := gin_view g in
  let w := (user_RegisterRoutes PUT_user_tier (g, v)).2 in
  w.2 = (tier_outcome s v).2
  /\ answered tier_changed UserCodeRegistry "USER_REQUEST_FAILED" s (gin_view w.1)
       (tier_outcome s v).1.
Proof.
  apply (module_answers tier_changed UserCodeRegistry "USER_REQUEST_FAILED" (5 * second)
           (admin_handler PUT_user_tier)).
  intros g0 Hv0. cbn [admin_handler chain foldr]. unfold AdminAuthMiddleware, tier_outcome, header.
  set (s := gin_view g) in *.
  rewrite bind_unfold, gin_run. cbn [doc_gin fst snd]. rewrite Hv0. cbn [doc_gin snd set_timeout g_headers].
  set (g1 := (gin_call (GetHeader "Authorization") g0).2).
  assert (Hv1 : gin_view g1 = (doc_gin (WithTimeout (5 * second)) s).2)
    by (unfold g1; rewrite gin_run_view, Hv0; done).
  assert (Hfail : forall (g' : G) (v' : V) e, gin_view g' = gin_view g1 ->
    (fail_abort e (g', v')).2.2 = v'
    /\ left_by tier_changed s (gin_view (fail_abort e (g', v')).2.1) (Err e)).
  { intros g' v' e E. destruct (fail_left tier_changed s g' v' e) as (_ & _ & ? & ?);
      rewrite ?E, ?Hv1; done. }
  destruct (cut _ _) as [[scheme token]|]; [|by apply Hfail].
  destruct (String.eqb (lower scheme) "bearer"); cbn [negb]; [|by apply Hfail].
  rewrite bind_unfold, svc_run. cbn [fst snd].
  destruct (ut_ValidateAccessToken token v) as [[[adminID role]|err] v1]; cbn [fst snd];
    [|by apply Hfail].
  unfold RoleAdmin. destruct (String.eqb_spec role "admin") as [->|]; cbn [negb orb];
    [|by apply Hfail].
  change (str_empty "admin") with false. cbn iota. run_gin.
  match goal with |- context [HandleUpdateUserTier (?g2, v1)] =>
    apply (update_tier_left s g2 v1) end;
    repeat (rewrite ?gin_run_view; progress cbn [doc_gin fst snd]); rewrite ?Hv1; try done.
  cbn. by rewrite lookup_insert_ne.
Qed.
End admin.

(** ** Requests *)

Section requests.
#[local] Existing Instance system_redis.
#[local] Existing Instance system_pg.
#[local] Abbreviation sys := (system rdata pgdata).

(** A token service that signs the user and the role as they are, and a
    generator of one identifier. *)
#[local] Instance plain_tokens : UserTokenManager sys := {|
  ut_Generate := fun userID role => mret (Ok (userID +:+ ":" +:+ role));
  ut_ValidateAccessToken := fun token =>
    mret (match cut ":"%char token with
          | Some p => Ok p
          | None => Err (errors_New "token is malformed")
          end);
|}.
#[local] Instance one_uuid : Uuid sys := {| uuid_New := mret "a1" |}.

Definition admin_request (headers params : list (string * string)) (body : list string)
  : gin_state :=
  MkGin (list_to_map headers) (list_to_map params) (fun _ => Ok body) 20 "api.example"
    "/api/admin" ∅ {["request_id" := "req-1"]} None None [] false ∅ None [] [] [].

(** A database with one user. *)
Definition one_user : sys :=
  MkSystem rdata_empty []
    (MkPgWorld (MkPgData 0 {["u1" := MkUserRow "user" "free"]} ∅ ∅ ∅) None []).

Definition tier_request (token : string) : gin_state :=
  admin_request [("Authorization", "Bearer " +:+ token)] [("user_id", "u1")] ["premium"].

Lemma tier_update_guarded_witness :
  let w := (user_RegisterRoutes PUT_user_tier (tier_request "a1:admin", one_user)).2 in
  pg_users (dview w.2) !! "u1" = Some (MkUserRow "user" "premium")
  /\ g_status w.1 = Some 200%Z.
Proof.
  destruct (tier_update_guarded (tier_request "a1:admin" : gin_state) one_user) as [Hw Ha];
    [split_and!; reflexivity|reflexivity|].
  split.
  - rewrite Hw. vm_compute. reflexivity.
  - change ((tier_outcome (gin_view (tier_request "a1:admin")) one_user).1)
      with (@Ok goerr string "premium") in Ha.
    destruct Ha as [Hs _]. exact Hs.
Defined.

(** A token of a user changes nothing. *)
Example tier_update_refused :
  let w := (user_RegisterRoutes PUT_user_tier (tier_request "u1:user", one_user)).2 in
  w.2 = one_user /\ g_status w.1 = Some 403%Z.
Proof. vm_compute. done. Qed.

(** But the route that registers administrators asks for nothing: without
    any credential, three requests change the tier of a user. *)
Example admin_registration_open :
  let r1 := user_RegisterRoutes POST_register (admin_request [] [] [], one_user) in
  let r2 := user_RegisterRoutes POST_login (admin_request [] [] ["a1"], r1.2.2) in
  let r3 := user_RegisterRoutes PUT_user_tier (tier_request "a1:admin", r2.2.2) in
  g_bodies r1.2.1 = [CreateAdminResponse "a1"]
  /\ g_bodies r2.2.1 = [AdminAuthLoginResponse "a1:admin"]
  /\ g_status r3.2.1 = Some 200%Z
  /\ pg_users (dview r3.2.2) !! "u1" = Some (MkUserRow "user" "premium").
Proof. vm_compute. done. Qed.

(** The statuses of the two refusals of the login are swapped: a user that
    does not exist is 403, one that is no administrator 404. *)
Example login_statuses :
  let login u := g_status (user_RegisterRoutes POST_login (admin_request [] [] [u], one_user)).2.1 in
  login "nobody" = Some 403%Z /\ login "u1" = Some 404%Z.
Proof. vm_compute. done. Qed.
End requests.
