(* ===== verification/Auth.v ===== *)
(** * Authentication (internal/auth)

    The OAuth flow with GitHub, its state parameters in Redis, the accounts
    in PostgreSQL, and the access tokens.  The network ([HttpClient]), the
    source of randomness ([Rand]) and the JWT library ([Jwt]) are
    parameters. *)

From S2P Require Import Prelude GoText GoErr Redis Env Postgres Job Http User.
From stdpp Require Import base gmap list strings pretty.
From Stdlib Require Import ZArith NArith Lia Ascii.

(** ** domain *)

Record OAuthUser := MkOAuthUser { ou_Provider : string; ou_ProviderUserID : string }.
Record AuthenticatedUser := MkAuthenticatedUser { au_UserID : string; au_Role : string }.

Definition ErrOauthAccountNotFound : goerr :=
  Leaf (Sentinel "auth.ErrOauthAccountNotFound") "oauth account not found".
Definition ErrStateParameterNotFound : goerr :=
  Leaf (Sentinel "auth.ErrStateParameterNotFound") "state parameter not found".

Class OAuthStateGenerator (W : Type) := { sg_Generate : M W (res goerr string) }.

Class OAuthStateStore (W : Type) := {
  ss_Store : string -> string -> Z -> M W (option goerr);
  ss_Exists : string -> string -> M W (option goerr);
  ss_Delete : string -> string -> M W (option goerr);
}.

Class OAuthAuthorizer (W : Type) := {
  oa_AuthorizationURL : string -> string;
  oa_ExchangeCode : string -> M W (res goerr string);
  oa_GetUserInfo : string -> M W (res goerr OAuthUser);
}.

Class AuthTokenManager (W : Type) := {
  tm_Generate : AuthenticatedUser -> M W (res goerr string);
  tm_ValidateAccessToken : string -> M W (res goerr (string * string));
}.

Class OAuthAccountRepository (W : Type) := {
  ar_FindByProviderUserID : string -> string -> M W (res goerr AuthenticatedUser);
  ar_Create : bool -> string -> string -> string -> M W (res goerr AuthenticatedUser);
}.

(** ** public *)

Definition ErrCodeStateNotGenerated := "OAUTH_STATE_PARAM_NOT_GENERATED".
Definition ErrCodeFetchUserInfoFailed := "OAUTH_USER_INFO_FAILED".
Definition ErrCodeUnauthorizedCallBack := "OAUTH_STATE_PARAM_NOT_FOUND".
Definition ErrCodeTokenExchangeFailed := "OAUTH_TOKEN_EXCHANGE_FAILED".

Record Claims := MkClaims { cl_UserID : string; cl_Role : string }.

(** ** infrastructure/config/config.go *)

Record GitHubConfig := MkGitHubConfig {
  GitHubClientID : string; GitHubClientSecret : string; GitHubCallbackURL : string }.
Record JwtTokenConfig := MkJwtTokenConfig {
  JWTAccessSecret : string; JWTIssuer : string; JWTAccessExpiry : Z;
  JWTAudience : string; JWTSubject : string }.
Record HttpClientConfig := MkHttpClientConfig {
  TransportDialTimeout : Z; MaxIdleConnections : Z; MaxConnsPerHost : Z;
  ConnectionIdleTimeout : Z; TLSHandshakeTimeout : Z; ResponseHeaderTimeout : Z;
  RetryCount : Z; RetryBaseDelay : Z }.
Record AuthConfig := MkAuthConfig {
  ac_GitHub : GitHubConfig; ac_JwtToken : JwtTokenConfig; ac_HttpClient : HttpClientConfig }.

(** ** infrastructure/security/oauth_state_manager.go *)

(** [crypto/rand]: random bytes, and a random integer below a bound. *)
Class Rand (W : Type) := {
  rand_Read : nat -> M W (res goerr (list N));
  rand_Int : Z -> M W (res goerr Z);
}.

Definition stateSize : nat := 32.

(** [base64.RawURLEncoding]: groups of six bits, no padding. *)
Definition base64_url_digit (n : N) : ascii :=
  ascii_of_N (if (n <? 26)%N then 65 + n
              else if (n <? 52)%N then 71 + n
              else if (n <? 62)%N then n - 4
              else if (n =? 62)%N then 45 else 95).

Fixpoint base64_url (bs : list N) : string :=
  let digit n := base64_url_digit (N.land n 63) in
  match bs with
  | [] => ""
  | [a] => String (digit (N.shiftr a 2)) (String (digit (N.shiftl a 4)) "")
  | [a; b] =>
      String (digit (N.shiftr a 2))
        (String (digit (N.lor (N.shiftl a 4) (N.shiftr b 4)))
          (String (digit (N.shiftl b 2)) ""))
  | a :: b :: c :: rest =>
      String (digit (N.shiftr a 2))
        (String (digit (N.lor (N.shiftl a 4) (N.shiftr b 4)))
          (String (digit (N.lor (N.shiftl b 2) (N.shiftr c 6)))
            (String (digit c) (base64_url rest))))
  end.

Definition StateToken_Generate {W} `{!Rand W} : M W (res goerr string) :=
  b ← rand_Read stateSize;
  mret match b with
       | Err err => Err (errorf_w "generate state param: " (Some err))
       | Ok bs => Ok (base64_url bs)
       end.

#[global] Instance DefaultStateTokenManager {W} `{!Rand W} : OAuthStateGenerator W := {|
  sg_Generate := StateToken_Generate |}.

(** ** infrastructure/persistence/redis.go *)

Definition stateKey (provider state : string) : string :=
  "oauth2:" +:+ provider +:+ ":" +:+ state.

Section state_store.
Context {W : Type} `{!RedisClient W}.

(** [client.Set(key, value, ttl)]: a time to live that is not positive means
    none. *)
Definition set_ttl (key value : string) (ttl : Z) : script unit :=
  if (0 <? ttl)%Z then call (SET_PX key (BStr value) (ttl / 10 ^ 6))
  else call (SET key (BStr value)).

Definition state_Store (state provider : string) (ttl : Z) : M W (option goerr) :=
  r ← rc_run (set_ttl (stateKey provider state) "1" ttl);
  mret match r with
       | Err err => Some (errorf_w "cache OAuth state param: " (Some err))
       | Ok _ => None
       end.

Definition state_Exists (state provider : string) : M W (option goerr) :=
  r ← rc_run (call (GET (stateKey provider state)));
  mret match r with
       | Err err => Some (if errors_Is (Some err) redis_Nil then ErrStateParameterNotFound
                          else errorf_w "retrieve OAuth state param: " (Some err))
       | Ok None => Some ErrStateParameterNotFound
       | Ok (Some _) => None
       end.

Definition state_Delete (state provider : string) : M W (option goerr) :=
  r ← rc_run (call (DEL (stateKey provider state)));
  mret match r with
       | Err err => Some (errorf_w "clear OAuth state param: " (Some err))
       | Ok _ => None
       end.

#[global] Instance RedisStateTokenManager : OAuthStateStore W := {|
  ss_Store := state_Store;
  ss_Exists := state_Exists;
  ss_Delete := state_Delete;
|}.
End state_store.

(** ** infrastructure/persistence/postgres.go *)

Section oauth_repository.
Context {W : Type} `{!PgClient W}.

Definition FindByProviderUserID (provider providerUserID : string)
  : M W (res goerr AuthenticatedUser) :=
  r ← pg_run false (SELECT_OAUTH provider providerUserID);
  mret match r with
       | Err err => Err (errorf_w "oauth account lookup: " (Some err))
       | Ok None => Err ErrOauthAccountNotFound
       | Ok (Some userUUID) => Ok (MkAuthenticatedUser userUUID "")
       end.

Definition oauth_Create (tx : bool) (providerUserID provider userUUID : string)
  : M W (res goerr AuthenticatedUser) :=
  r ← pg_run tx (INSERT_OAUTH userUUID provider providerUserID);
  mret match r with
       | Err err => Err (errorf_w "create OAuth account: " (Some err))
       | Ok _ => Ok (MkAuthenticatedUser userUUID "")
       end.

#[global] Instance oauthRepository : OAuthAccountRepository W := {|
  ar_FindByProviderUserID := FindByProviderUserID;
  ar_Create := oauth_Create;
|}.
End oauth_repository.

(** ** infrastructure/security/jwt_manager.go *)

(** [customClaims] with its registered claims; times in seconds. *)
Record customClaims := MkCustomClaims {
  cc_UserID : string; cc_Role : string;
  cc_Issuer : string; cc_Subject : string; cc_Audience : list string;
  cc_ExpiresAt : Z; cc_IssuedAt : Z }.

(** The JWT library: signing with HS256, and parsing with a function that
    gives the key for the algorithm of the token, an audience, an issuer and
    the current time (nanoseconds); a parsed token says whether it is
    valid. *)
Class Jwt := {
  jwt_SignedString : customClaims -> string -> res goerr string;
  jwt_ParseWithClaims : string -> (string -> res goerr string) -> string -> string -> Z
    -> res goerr (customClaims * bool);
}.

(** [jwt.NewNumericDate]: whole seconds. *)
Definition NewNumericDate (t : Z) : Z := (t / second)%Z.

Section jwt.
Context {W : Type} `{!Jwt, !GoClock W} (config : JwtTokenConfig).

Definition generateToken (claims : AuthenticatedUser) (secret : string) (expiry : Z)
  : M W (res goerr string) :=
  now ← time_Now;
  let tokenClaims := MkCustomClaims (au_UserID claims) (au_Role claims) (JWTIssuer config)
    (JWTSubject config) [JWTAudience config] (NewNumericDate (now + expiry))
    (NewNumericDate now) in
  mret match jwt_SignedString tokenClaims secret with
       | Err err => Err (errorf_w "jwt signing: " (Some err))
       | Ok tokenString => Ok tokenString
       end.

Definition Jwt_Generate (claims : AuthenticatedUser) : M W (res goerr string) :=
  generateToken claims (JWTAccessSecret config) (JWTAccessExpiry config).

Definition signing_key (secret alg : string) : res goerr string :=
  if negb (String.eqb alg "HS256")
  then Err (errors_New ("unexpected signing method: " +:+ alg)) else Ok secret.

Definition validateToken (tokenString secret : string) : M W (res goerr customClaims) :=
  now ← time_Now;
  mret match jwt_ParseWithClaims tokenString (signing_key secret) (JWTAudience config)
               (JWTIssuer config) now with
       | Err err => Err (errorf_w "jwt parsing: " (Some err))
       | Ok (claims, valid) =>
           if negb valid then
             Err (errors_New "jwt token valid but claims assertion failed")
           else if negb (String.eqb (cc_Subject claims) (JWTSubject config)) then
             Err (errors_New ("invalid token subject: expected 'access-token', got '"
                              +:+ cc_Subject claims +:+ "'"))
           else Ok claims
       end.

Definition Jwt_ValidateAccessToken (tokenString : string) : M W (res goerr (string * string)) :=
  r ← validateToken tokenString (JWTAccessSecret config);
  mret (res_map (fun claims => (cc_UserID claims, cc_Role claims)) r).

Definition NewJWTService : AuthTokenManager W := {|
  tm_Generate := Jwt_Generate;
  tm_ValidateAccessToken := Jwt_ValidateAccessToken;
|}.
End jwt.

(** ** infrastructure/github/client.go *)

Record http_request := MkHttpRequest {
  hq_method : string; hq_url : string; hq_headers : list (string * string); hq_body : string }.

(** A response: its status, what decoding its body into a struct of strings
    or of one integer gives, and what discarding the body gives. *)
Record http_response := MkHttpResponse {
  hr_status : Z;
  hr_strings : list string -> res goerr (list string);
  hr_int64 : string -> res goerr Z;
  hr_discard : option goerr }.

(** [client.Do]; [unread] says that the body of the request has not been
    read yet: sending a request reads its body. *)
Class HttpClient (W : Type) := {
  http_Do : http_request -> bool -> M W (res goerr http_response) }.

(** [url.QueryEscape] and the encoding of sorted pairs. *)
Definition hex_digit (n : N) : ascii :=
  ascii_of_N (if (n <? 10)%N then 48 + n else 55 + n).

Definition unreserved (c : ascii) : bool :=
  GoText.between 48 57 c || GoText.between 65 90 c || GoText.between 97 122 c
  || bool_decide (N_of_ascii c ∈ [45; 95; 46; 126]%N).

Fixpoint QueryEscape (s : string) : string :=
  match s with
  | "" => ""
  | String c s' =>
      let n := N_of_ascii c in
      if unreserved c then String c (QueryEscape s')
      else if (n =? 32)%N then String "+" (QueryEscape s')
      else String "%" (String (hex_digit (N.shiftr n 4))
                        (String (hex_digit (N.land n 15)) (QueryEscape s')))
  end.

Definition query_pair (p : string * string) : string :=
  QueryEscape p.1 +:+ "=" +:+ QueryEscape p.2.

Fixpoint query_Encode (ps : list (string * string)) : string :=
  match ps with
  | [] => ""
  | [p] => query_pair p
  | p :: ps' => query_pair p +:+ "&" +:+ query_Encode ps'
  end.

(** [*net.OpError] is a network error that carries this mark. *)
Definition net_OpError : leaf := Sentinel "net.OpError".

Definition isNetworkTransient (err : goerr) : bool :=
  errors_Is (Some err) DeadlineExceeded
  || (match as_net_error err with Some timeout => timeout | None => false end)
  || as_leaf net_OpError err.

Record GithubRetryPolicy := MkGithubRetryPolicy {
  gr_MaxRetries : Z; gr_BaseDelay : Z; gr_ShouldRetry : Z -> option goerr -> bool }.

Record HTTPClient := MkHTTPClient {
  gh_clientID : string; gh_clientSecret : string; gh_callbackURL : string;
  gh_retryCount : Z; gh_retryBaseDelay : Z }.

Definition NewHTTPClient (cfg : AuthConfig) : HTTPClient :=
  MkHTTPClient (GitHubClientID (ac_GitHub cfg)) (GitHubClientSecret (ac_GitHub cfg))
    (GitHubCallbackURL (ac_GitHub cfg)) (RetryCount (ac_HttpClient cfg))
    (RetryBaseDelay (ac_HttpClient cfg)).

(** [time.Duration(float64(base) * math.Pow(2, attempt))]; exact for a base
    below 2^53, and the least integer when the product does not fit. *)
Definition github_delay (base attempt : Z) : Z :=
  let d := (base * 2 ^ attempt)%Z in if (d <=? int64_max)%Z then d else int64_min.

Section github.
Context {W : Type} `{!HttpClient W, !Rand W, !GoContext W} (c : HTTPClient).

Definition AuthorizationURL (state : string) : string :=
  "https://github.com/login/oauth/authorize?" +:+ query_Encode
    [("client_id", gh_clientID c); ("redirect_uri", gh_callbackURL c);
     ("scope", "read"); ("state", state)].

Definition github_sleepWithContext (base attempt : Z) : M W (option goerr) :=
  let delay := github_delay base attempt in
  let maxJitter := Z.quot delay 5 in
  j ← (if (0 <? maxJitter)%Z then rand_Int maxJitter else mret (Ok 0%Z));
  match j with
  | Err err => mret (Some (errorf_w "generate jitter: " (Some err)))
  | Ok jitter => ctx_sleep (wrap64 (delay + jitter))
  end.

(** The loop from attempt [attempt] on; [left] attempts remain. *)
Fixpoint do_loop {T} (left : nat) (attempt : Z) (req : http_request)
    (policy : GithubRetryPolicy) (decode : http_response -> res goerr T)
    (lastErr : option goerr) : M W (res goerr T) :=
  match left with
  | O => mret (Err (errorf_w "github request failed after retries: " lastErr))
  | S left' =>
      r ← http_Do req (attempt =? 0)%Z;
      let again (err : goerr) : M W (res goerr T) :=
        if (attempt <? gr_MaxRetries policy)%Z then
          s ← github_sleepWithContext (gr_BaseDelay policy) attempt;
          match s with
          | Some e => mret (Err (errorf_w "github API retry: " (Some e)))
          | None => do_loop left' (attempt + 1)%Z req policy decode (Some err)
          end
        else do_loop left' (attempt + 1)%Z req policy decode (Some err) in
      match r with
      | Ok resp =>
          if negb (gr_ShouldRetry policy (hr_status resp) None) then
            mret match decode resp with
                 | Err err => Err (errorf_w ("github request decode status="
                                             +:+ pretty (hr_status resp) +:+ ": ") (Some err))
                 | Ok v => Ok v
                 end
          else
            match hr_discard resp with
            | Some err => mret (Err (errorf_w "failed to consume response body: " (Some err)))
            | None => again (errors_New ("github request retryable: status="
                                         +:+ pretty (hr_status resp)))
            end
      | Err err =>
          if negb (gr_ShouldRetry policy 0 (Some err))
          then mret (Err (errorf_w "github request failed: " (Some err)))
          else again err
      end
  end.

Definition doWithRetry {T} (req : http_request) (policy : GithubRetryPolicy)
    (decode : http_response -> res goerr T) : M W (res goerr T) :=
  do_loop (Z.to_nat (gr_MaxRetries policy + 1)) 0 req policy decode None.

Definition exchange_request (code : string) : http_request :=
  MkHttpRequest "POST" "https://github.com/login/oauth/access_token"
    [("Accept", "application/json"); ("Content-Type", "application/x-www-form-urlencoded")]
    (query_Encode [("client_id", gh_clientID c); ("client_secret", gh_clientSecret c);
                   ("code", code); ("redirect_uri", gh_callbackURL c)]).

Definition exchange_policy : GithubRetryPolicy :=
  MkGithubRetryPolicy 1 (200 * millisecond)
    (fun status err => match err with
                       | Some e => isNetworkTransient e
                       | None => (status =? 503)%Z
                       end).

Definition exchange_decode (r : http_response) : res goerr string :=
  if negb (hr_status r =? 200)%Z then
    Err (errors_New ("github token response: status=" +:+ pretty (hr_status r)))
  else
    match hr_strings r ["access_token"; "scope"; "token_type"; "error"] with
    | Err err => Err (errorf_w "decode github token response: " (Some err))
    | Ok [AccessToken; _; _; error] =>
        if negb (str_empty error) then Err (errors_New ("github oauth error: " +:+ error))
        else if str_empty AccessToken
        then Err (errors_New "missing access_token in github response")
        else Ok AccessToken
    | Ok _ => Err (errors_New "missing access_token in github response")
    end.

Definition ExchangeCode (code : string) : M W (res goerr string) :=
  doWithRetry (exchange_request code) exchange_policy exchange_decode.

Definition user_request (token : string) : http_request :=
  MkHttpRequest "GET" "https://api.github.com/user"
    [("Authorization", "Bearer " +:+ token); ("Accept", "application/vnd.github+json")] "".

Definition user_policy : GithubRetryPolicy :=
  MkGithubRetryPolicy (gh_retryCount c) (gh_retryBaseDelay c)
    (fun status err => match err with
                       | Some e => isNetworkTransient e
                       | None => ((status =? 502) || (status =? 503) || (status =? 504)
                                  || (status =? 429))%Z
                       end).

Definition user_decode (r : http_response) : res goerr OAuthUser :=
  if negb (hr_status r =? 200)%Z then
    Err (errors_New ("github token response: status=" +:+ pretty (hr_status r)))
  else
    match hr_int64 r "id" with
    | Err err => Err (errorf_w "decode github token response: " (Some err))
    | Ok id =>
        if (id =? 0)%Z || (id <? 0)%Z
        then Err (errors_New "invalid github user id in response")
        else Ok (MkOAuthUser "github" (pretty id))
    end.

Definition GetUserInfo (token : string) : M W (res goerr OAuthUser) :=
  doWithRetry (user_request token) user_policy user_decode.

Definition github_OAuthAuthorizer : OAuthAuthorizer W := {|
  oa_AuthorizationURL := AuthorizationURL;
  oa_ExchangeCode := ExchangeCode;
  oa_GetUserInfo := GetUserInfo;
|}.
End github.

(** ** usecases *)

Definition ErrTypeOAuth := "OAUTH_FAILED".

Section oauth.
Context {W : Type} `{!OAuthStateGenerator W, !OAuthStateStore W, !OAuthAuthorizer W,
  !AuthTokenManager W, !OAuthAccountRepository W, !UserService W, !PgClient W, !Uuid W}.

(** oauth.go *)
Definition GenerateAuthURL : M W (res goerr string) :=
  g ← sg_Generate;
  match g with
  | Err err => mret (Err (ensure_app err ErrCodeStateNotGenerated ErrTypeOAuth))
  | Ok state =>
      rdberr ← ss_Store state "github" (5 * 60 * second);
      mret match rdberr with
           | Some err => Err (ensure_app err ErrCodeCacheWriteFailed ErrTypeOAuth)
           | None => Ok (oa_AuthorizationURL state)
           end
  end.

Definition generateAuthResponse (user : AuthenticatedUser) : M W (res goerr string) :=
  accessToken ← tm_Generate user;
  mret match accessToken with
       | Err err => Err (ensure_app err ErrCodeJWTTokenGenerationFailed ErrTypeOAuth)
       | Ok accessToken => Ok accessToken
       end.

(** The function of the transaction. *)
Definition link_new_user (oauthUser : OAuthUser) : M W (res goerr string) :=
  userUUID ← uuid_New;
  err ← us_Register true userUUID;
  match err with
  | Some err => mret (Err err)
  | None =>
      r ← ar_Create true (ou_ProviderUserID oauthUser) (ou_Provider oauthUser) userUUID;
      mret (res_map au_UserID r)
  end.

Definition createNewUserAndLinkOAuth (oauthUser : OAuthUser) : M W (res goerr string) :=
  result ← Execute (link_new_user oauthUser);
  match result with
  | Err err => mret (Err (ensure_app err ErrCodeDBQueryFailed ErrTypeOAuth))
  | Ok result =>
      role ← us_Role result;
      match role with
      | Err err => mret (Err (ensure_app err ErrCodeDBQueryFailed ErrTypeOAuth))
      | Ok role => generateAuthResponse (MkAuthenticatedUser result role)
      end
  end.

(** The callback once its state has been accepted. *)
Definition callback_sign_in (code : string) : M W (res goerr string) :=
  token ← oa_ExchangeCode code;
  match token with
  | Err err => mret (Err (ensure_app err ErrCodeTokenExchangeFailed ErrTypeOAuth))
  | Ok oauthAccessToken =>
      info ← oa_GetUserInfo oauthAccessToken;
      match info with
      | Err err => mret (Err (ensure_app err ErrCodeFetchUserInfoFailed ErrTypeOAuth))
      | Ok oauthUser =>
          found ← ar_FindByProviderUserID (ou_Provider oauthUser) (ou_ProviderUserID oauthUser);
          match found with
          | Err err =>
              if errors_Is (Some err) ErrOauthAccountNotFound
              then createNewUserAndLinkOAuth oauthUser
              else mret (Err (ensure_app err ErrCodeDBQueryFailed ErrTypeOAuth))
          | Ok authenticatedUser =>
              role ← us_Role (au_UserID authenticatedUser);
              match role with
              | Err err => mret (Err (ensure_app err ErrCodeDBQueryFailed ErrTypeOAuth))
              | Ok role =>
                  generateAuthResponse (MkAuthenticatedUser (au_UserID authenticatedUser) role)
              end
          end
      end
  end.

Definition HandleCallback (code state : string) : M W (res goerr string) :=
  err ← ss_Exists state "github";
  match err with
  | Some err => mret (Err (ensure_app err ErrCodeUnauthorizedCallBack ErrTypeOAuth))
  | None => _ ← ss_Delete state "github"; callback_sign_in code
  end.

(** auth_token.go *)
Definition Authenticator_Generate (sessionUser : Claims) : M W (res goerr string) :=
  token ← tm_Generate (MkAuthenticatedUser (cl_UserID sessionUser) (cl_Role sessionUser));
  mret match token with
       | Err err => Err (ensure_app err ErrCodeJWTTokenGenerationFailed ErrTypeOAuth)
       | Ok token => Ok token
       end.

Definition Authenticator_ValidateAccessToken (tokenString : string) : M W (res goerr Claims) :=
  r ← tm_ValidateAccessToken tokenString;
  mret match r with
       | Err err => Err (ensure_app err ErrCodeJWTTokenValidationFailed ErrTypeOAuth)
       | Ok (userID, role) => Ok (MkClaims userID role)
       end.
End oauth.

(** The adapters of the token service in the modules that use it
    (user/adapters, inference/adapters and stream/adapters, auth_adapter.go). *)
Section adapters.
Context {W : Type} `{!AuthTokenManager W}.

Definition TokenAdapter_Generate (userID role : string) : M W (res goerr string) :=
  Authenticator_Generate (MkClaims userID role).

Definition TokenAdapter_ValidateAccessToken (tokenString : string)
  : M W (res goerr (string * string)) :=
  r ← Authenticator_ValidateAccessToken tokenString;
  mret (res_map (fun c => (cl_UserID c, cl_Role c)) r).

Definition TokenAuthenticatorAdapter : UserTokenManager W := {|
  ut_Generate := TokenAdapter_Generate;
  ut_ValidateAccessToken := TokenAdapter_ValidateAccessToken;
|}.
End adapters.

(** ** transport *)

Definition MsgSignInFetchFailed :=
  "We were unable to retrieve your GitHub account information. Please retry the sign-in process. If the issue continues, try again later.".
Definition MsgSignInVerificationFailed :=
  "Your sign-in session could not be verified. For security, please restart the sign-in process.".

Definition AuthErrCodeRegistry : CodeRegistry := list_to_map [
  (ErrCodeStateNotGenerated, MkErrorMeta 500 MsgServerError);
  (ErrCodeFetchUserInfoFailed, MkErrorMeta 502 MsgSignInFetchFailed);
  (ErrCodeJWTTokenGenerationFailed, MkErrorMeta 500 MsgServerError);
  (ErrCodeUnauthorizedCallBack, MkErrorMeta 401 MsgSignInVerificationFailed);
  (ErrCodeTokenExchangeFailed, MkErrorMeta 502 MsgSignInFetchFailed);
  (ErrCodeJWTTokenValidationFailed, MkErrorMeta 401 MsgSignInVerificationFailed);
  (ErrCodeCacheWriteFailed, MkErrorMeta 500 MsgServerError);
  (ErrCodeDBQueryFailed, MkErrorMeta 500 MsgServerError)].

Definition OauthCallbackResponse (token : string) : json :=
  jobject [("message", jstr "Authentication successful"); ("access_token", jstr token)].

Section transport.
Context {G V : Type} `{!Gin G}.
Context `{!OAuthStateGenerator V, !OAuthStateStore V, !OAuthAuthorizer V,
  !AuthTokenManager V, !OAuthAccountRepository V, !UserService V, !PgClient V, !Uuid V}.

Definition auth_TimeoutMiddleware : Z -> middleware G V := TimeoutMiddleware.
Definition auth_ErrorHandler : middleware G V := ErrorHandler AuthErrCodeRegistry "OAUTH_FAILED".

Definition HandleOauthRedirectGithub : handler G V :=
  authURL ← svc GenerateAuthURL;
  match authURL with
  | Err err => fail err
  | Ok authURL => gin (RedirectTo 302 authURL)
  end.

Definition HandleOauthCallback : handler G V :=
  req ← gin (ShouldBind ["code"; "state"]);
  match req with
  | Err err => fail err
  | Ok [code; state] =>
      authOutput ← svc (HandleCallback code state);
      match authOutput with
      | Err err => fail err
      | Ok token =>
          _ ← gin (SetHeader "Authorization" ("Bearer " +:+ token));
          gin (WriteJSON 200 (OauthCallbackResponse token))
      end
  | Ok _ => skip
  end.

Inductive auth_route : Type := GET_login_github | GET_github_callback.

Definition RegisterAuthRoutes (r : auth_route) : handler G V :=
  chain [auth_TimeoutMiddleware (20 * second); auth_ErrorHandler]
    match r with
    | GET_login_github => HandleOauthRedirectGithub
    | GET_github_callback => HandleOauthCallback
    end.
End transport.

(** ** module.go *)

Definition auth_config_error (msg : string) : res goerr unit :=
  Err (errors_New ("authentication configuration: " +:+ msg)).

(** [url.ParseRequestURI]: the scheme and the host, if it parses. *)
Definition validateAuthConfig (ParseRequestURI : string -> option (string * string))
    (cfg : AuthConfig) : res goerr unit :=
  let gh := ac_GitHub cfg in
  let jwt := ac_JwtToken cfg in
  let http := ac_HttpClient cfg in
  let empty s := str_empty (TrimSpace s) in
  if empty (GitHubClientID gh) || empty (GitHubClientSecret gh) then
    auth_config_error "GitHub client credentials must not be empty"
  else if match ParseRequestURI (GitHubCallbackURL gh) with
          | Some (scheme, host) => str_empty scheme || str_empty host
          | None => true
          end then auth_config_error "GitHub callback URL must be an absolute URL"
  else if empty (JWTAccessSecret jwt) then
    auth_config_error "JWT access secret must not be empty"
  else if empty (JWTIssuer jwt) || empty (JWTAudience jwt) || empty (JWTSubject jwt) then
    auth_config_error "JWT issuer, audience, and subject must not be empty"
  else if (JWTAccessExpiry jwt <=? 0)%Z then
    auth_config_error "JWT access expiry must be greater than zero"
  else if ((TransportDialTimeout http <=? 0) || (TLSHandshakeTimeout http <=? 0)
           || (ResponseHeaderTimeout http <=? 0) || (ConnectionIdleTimeout http <=? 0))%Z then
    auth_config_error "HTTP client timeouts must be greater than zero"
  else if ((MaxIdleConnections http <=? 0) || (MaxConnsPerHost http <=? 0))%Z then
    auth_config_error "HTTP client connection limits must be greater than zero"
  else if ((RetryCount http <? 0) || (RetryBaseDelay http <=? 0))%Z then
    auth_config_error "HTTP client retry count must be non-negative and base delay must be greater than zero"
  else Ok tt.

(** Whether each dependency is there. *)
Definition NewAuthenticationModule (ParseRequestURI : string -> option (string * string))
    (pgPool redisClient userService logger : bool) (cfg : AuthConfig) : res goerr unit :=
  if negb pgPool then
    Err (errors_New "authentication dependencies: postgres pool must not be nil")
  else if negb redisClient then
    Err (errors_New "authentication dependencies: redis client must not be nil")
  else if negb userService then
    Err (errors_New "authentication dependencies: user service must not be nil")
  else if negb logger then Err (errors_New "authentication logger must not be nil")
  else validateAuthConfig ParseRequestURI cfg.
