(* ===== verification/AuthThms.v ===== *)
(** * Theorems about authentication *)

From S2P Require Import Prelude GoText GoErr Redis Env Postgres Job JobThms Http User Auth.
From stdpp Require Import base gmap countable list strings pretty.
From Stdlib Require Import ZArith NArith Lia Ascii.

(** ** A new account is created as a whole *)

Section signup.
Context {D : Type} `{!Postgres D, !PostgresDoc D}.
#[local] Abbreviation W := (pgworld D).
Context `{!Uuid W, !AuthTokenManager W, !UserTierCache W}.
Context (Huuid : forall w : W, same_pg w (uuid_New w).2).
Context (Htokens : forall u (w : W), same_pg w (tm_Generate u w).2).

(** The two rows of a new account. *)
Definition linked (oauthUser : OAuthUser) (id : string) (d d' : pgdata) : Prop :=
  let account := (ou_Provider oauthUser, ou_ProviderUserID oauthUser) in
  pg_users d !! id = None /\ pg_oauth d !! account = None
  /\ pg_users d' = <[id := MkUserRow "user" "free"]> (pg_users d)
  /\ pg_oauth d' = <[account := id]> (pg_oauth d)
  /\ pg_jobs d' = pg_jobs d /\ pg_requests d' = pg_requests d.

Lemma insert_user_ok u d a :
  (doc_sql (INSERT_USER u) d).1 = Ok a ->
  pg_users d !! u = None
  /\ (doc_sql (INSERT_USER u) d).2 = upd_users <[u := MkUserRow "user" "free"]> d.
Proof.
  cbn [doc_sql]. intros H. case_match eqn:E; [|done].
  by apply andb_true_iff in E as [_ E%bool_decide_eq_true].
Qed.

Lemma insert_oauth_ok u p i d a :
  (doc_sql (INSERT_OAUTH u p i) d).1 = Ok a ->
  pg_oauth d !! (p, i) = None
  /\ (doc_sql (INSERT_OAUTH u p i) d).2 = upd_oauth <[(p, i) := u]> d.
Proof.
  cbn [doc_sql]. intros H. case_match eqn:E; [|done].
  by apply andb_true_iff in E as [[_ E%bool_decide_eq_true]%andb_true_iff _].
Qed.

Lemma link_spec oauthUser (w : W) :
  let p := link_new_user oauthUser w in
  pw_db p.2 = pw_db w /\
  forall t a, pw_tx w = Some (t, false) -> p.1 = Ok a ->
    exists t', pw_tx p.2 = Some (t', false) /\ linked oauthUser a (pg_view t) (pg_view t').
Proof.
  cbv zeta. unfold link_new_user. rewrite bind_unfold.
  destruct (Huuid w) as [Hi1 Hi2]. destruct (uuid_New w) as [id w0]; cbn [fst snd] in *.
  cbn [us_Register NewUserService]. unfold UserUseCase_Register. rewrite !bind_unfold.
  cbn [ur_Save pg_UserRepository]. unfold user_Save. rewrite !bind_unfold, !ret_unfold.
  cbn [fst snd]. destruct (pg_run_tx (INSERT_USER id) w0) as [Hdb1 Hr1].
  destruct (pg_run true (INSERT_USER id) w0) as [[[]|e] w1]; cbn [fst snd] in *;
    [|rewrite ret_unfold; cbn; by rewrite Hdb1, Hi1].
  destruct Hr1 as (t & Htx & Hok1 & Htx1).
  rewrite bind_unfold, ret_unfold. cbn [ar_Create oauthRepository]. unfold oauth_Create.
  rewrite bind_unfold, ret_unfold. cbn [fst snd].
  set (c2 := INSERT_OAUTH _ _ _). destruct (pg_run_tx c2 w1) as [Hdb2 Hr2].
  destruct (pg_run true c2 w1) as [[[]|e] w2]; cbn [fst snd res_map] in *;
    [|by rewrite Hdb2, Hdb1, Hi1].
  destruct Hr2 as (t1 & Htx1' & Hok2 & Htx2). rewrite Htx1 in Htx1'. simplify_eq.
  split; [by rewrite Hdb2, Hdb1|]. intros t0 a Ht [= <-]. rewrite <- Hi2, Htx in Ht. simplify_eq.
  eexists. split; [exact Htx2|]. cbn [au_UserID].
  rewrite pg_call_reply, pg_call_view in Hok2. rewrite !pg_call_view.
  rewrite pg_call_reply in Hok1. subst c2.
  apply insert_user_ok in Hok1 as [Hu Hd1]. apply insert_oauth_ok in Hok2 as [Ho Hd2].
  rewrite Hd2, Hd1. rewrite Hd1 in Ho. done.
Qed.

(** A read outside transactions. *)
Lemma select_user_same u (w : W) : pg_view (pw_db (pg_run false (SELECT_USER u) w).2) = pg_view (pw_db w).
Proof.
  assert (Hx : forall w : W, pg_view (pw_db (pw_exec false (SELECT_USER u) w).2)
                             = pg_view (pw_db w)).
  { intros w0. unfold pw_exec. pose proof (pg_call_view (SELECT_USER u) (pw_db w0)) as Hv.
    by destruct (pg_call (SELECT_USER u) (pw_db w0)). }
  cbn. unfold pw_request, next_outcome.
  destruct (pw_faults w) as [|[|e|e] fs]; [apply Hx|apply (Hx (MkPgWorld _ _ fs))|done|].
  pose proof (Hx (MkPgWorld (pw_db w) (pw_tx w) fs)) as H.
  by destruct (pw_exec false (SELECT_USER u) _).
Qed.

Lemma role_same u (w : W) : pg_view (pw_db (us_Role u w).2) = pg_view (pw_db w).
Proof.
  cbn [us_Role NewUserService]. unfold UserUseCase_Role. rewrite bind_unfold, ret_unfold.
  cbn [snd ur_FindByID pg_UserRepository]. unfold FindByID. rewrite bind_unfold, ret_unfold.
  apply select_user_same.
Qed.

(** C19: signing up is atomic.  Whatever requests to PostgreSQL are refused
    or lose their reply, and whatever constraint fails, afterwards the
    tables are unchanged or have gained both rows of the account, the user
    (role user, tier free) and its link to the provider; and when an access
    token is answered, they have. *)
Theorem signup_atomic (oauthUser : OAuthUser) (w : W) :
  let p := createNewUserAndLinkOAuth oauthUser w in
  let d := pg_view (pw_db w) in
  let d' := pg_view (pw_db p.2) in
  match p.1 with
  | Ok _ => exists id, linked oauthUser id d d'
  | Err _ => d' = d \/ exists id, linked oauthUser id d d'
  end.
Proof.
  cbv zeta. unfold createNewUserAndLinkOAuth. rewrite bind_unfold.
  pose proof (execute_atomic (link_new_user oauthUser) (linked oauthUser) w) as He.
  lapply He; [clear He; cbv zeta; intros He|].
  2: { intros w2 Hdb Htx. destruct (link_spec oauthUser w2) as [H1 H2].
       split; [done|]. intros a Ha. destruct (H2 _ a Htx Ha) as (t' & ? & ?). eauto. }
  destruct (Execute (link_new_user oauthUser) w) as [[id|e] w1]; cbn [fst snd] in *;
    [|by rewrite ret_unfold].
  rewrite bind_unfold. pose proof (role_same id w1) as Hr.
  destruct (us_Role id w1) as [[role|e] w2]; cbn [fst snd] in *;
    [|rewrite ret_unfold; cbn; rewrite Hr; eauto].
  unfold generateAuthResponse. rewrite bind_unfold, ret_unfold. cbn [fst snd].
  destruct (Htokens (MkAuthenticatedUser id role) w2) as [Ht _]. rewrite Ht, Hr.
  destruct (tm_Generate _ w2).1; eauto.
Qed.
End signup.

(** ** A state parameter is accepted once, within five minutes *)

Section state.
Context {R : Type} `{!Redis R, !RedisDoc R}.
Context `{!OAuthStateGenerator R, !OAuthAuthorizer R, !AuthTokenManager R,
  !OAuthAccountRepository R, !UserService R, !PgClient R, !Uuid R}.
Implicit Types r : R.

Definition stored (d : rdata) (state : string) : option bulk :=
  rstr d (stateKey "github" state).

Definition refused_callback : goerr :=
  ensure_app ErrStateParameterNotFound ErrCodeUnauthorizedCallBack ErrTypeOAuth.

Lemma exists_direct state r :
  (ss_Exists state "github" r).1
    = match stored (redis_view r) state with
      | Some _ => None
      | None => Some ErrStateParameterNotFound
      end
  /\ redis_view (ss_Exists state "github" r).2 = redis_view r.
Proof.
  cbn [ss_Exists RedisStateTokenManager]. unfold state_Exists.
  rewrite bind_unfold, ret_unfold.
  destruct (rc_cmd_direct (GET (stateKey "github" state)) r) as [Hc Hd]. rewrite Hc.
  cbn [fst snd]. rewrite Hd. cbn [doc_exec fst snd]. unfold stored. by destruct (rstr _ _).
Qed.

(** Without its state, a callback is refused and does nothing else. *)
Lemma callback_refused code state r :
  stored (redis_view r) state = None ->
  (HandleCallback code state r).1 = Err refused_callback
  /\ redis_view (HandleCallback code state r).2 = redis_view r.
Proof.
  intros Hs. unfold HandleCallback. rewrite bind_unfold.
  destruct (exists_direct state r) as [He Hv]. rewrite He, Hs, ret_unfold. done.
Qed.

Lemma callback_accepted code state r b :
  stored (redis_view r) state = Some b ->
  exists r', HandleCallback code state r = callback_sign_in code r'
    /\ redis_view r' = del_key (stateKey "github" state) (redis_view r).
Proof.
  intros Hs. unfold HandleCallback. rewrite bind_unfold.
  destruct (exists_direct state r) as [He Hv]. rewrite He, Hs. rewrite bind_unfold.
  eexists. split; [reflexivity|]. cbn [ss_Delete RedisStateTokenManager]. unfold state_Delete.
  rewrite bind_unfold, ret_unfold. cbn [snd].
  destruct (rc_cmd_direct (DEL (stateKey "github" state)) (ss_Exists state "github" r).2)
    as [Hc Hd]. rewrite Hc. cbn [fst snd]. rewrite Hd, Hv. done.
Qed.

(** C24: the state of a login.  When the generator gives [state], the login
    answers the URL of GitHub with that state; a callback with it during the
    next five minutes is carried on, from a Redis that no longer holds the
    state, so that any second callback with it is refused from then on;
    after five minutes the first one is refused too.  A refused callback
    changes nothing, and the client is told OAUTH_STATE_PARAM_NOT_FOUND. *)
Theorem oauth_state_single_use (state code : string) r (dt : Z)
    (Hg : (sg_Generate r).1 = Ok state)
    (Hv : redis_view (sg_Generate r).2 = redis_view r)
    (Hdt : (0 <= dt)%Z) :
  let login := GenerateAuthURL r in
  let later := redis_wait dt login.2 in
  login.1 = Ok (oa_AuthorizationURL state)
  /\ Code (Some refused_callback) = ErrCodeUnauthorizedCallBack
  /\ if (dt <? 5 * 60 * 10 ^ 6)%Z then
       exists r', HandleCallback code state later = callback_sign_in code r'
         /\ redis_view r' = del_key (stateKey "github" state) (redis_view later)
         /\ forall r2 code2, stored (redis_view r2) state = stored (redis_view r') state ->
              (HandleCallback code2 state r2).1 = Err refused_callback
              /\ redis_view (HandleCallback code2 state r2).2 = redis_view r2
     else
       (HandleCallback code state later).1 = Err refused_callback
       /\ redis_view (HandleCallback code state later).2 = redis_view later.
Proof.
  cbv zeta. unfold GenerateAuthURL. rewrite bind_unfold, Hg. rewrite bind_unfold, ret_unfold.
  cbn [fst snd ss_Store RedisStateTokenManager]. unfold state_Store.
  rewrite bind_unfold, ret_unfold. unfold set_ttl.
  change (0 <? 5 * 60 * second)%Z with true.
  change (5 * 60 * second / 10 ^ 6)%Z with 300000%Z.
  set (c := SET_PX _ _ _). destruct (rc_cmd_direct c (sg_Generate r).2) as [Hc Hd].
  cbn [fst snd]. rewrite Hc. cbn [doc_exec c Z.leb Z.compare fst snd].
  split; [done|]. split; [done|].
  set (r1 := (run_script (call c) (sg_Generate r).2).2) in *.
  cbn in Hd. rewrite Hv in Hd.
  assert (Hs : stored (redis_view (redis_wait dt r1)) state
               = if (dt <? 5 * 60 * 10 ^ 6)%Z then Some (BStr "1") else None).
  { rewrite redis_wait_doc, Hd. unfold stored, rstr, doc_wait. cbn.
    change (5 * 60 * 10 ^ 6)%Z with 300000000%Z.
    destruct (decide (dt < 300000000)%Z) as [Hlt|Hge].
    - replace (dt <? 300000000)%Z with true by lia.
      rewrite map_lookup_filter, lookup_insert_eq. cbn. rewrite option_guard_True; [done|].
      unfold live. cbn. lia.
    - replace (dt <? 300000000)%Z with false by lia.
      rewrite map_lookup_filter, lookup_insert_eq. cbn. rewrite option_guard_False; [done|].
      unfold live. cbn. lia. }
  destruct (dt <? 5 * 60 * 10 ^ 6)%Z.
  - destruct (callback_accepted code state _ _ Hs) as (r' & Hcb & Hr').
    exists r'. split; [done|]. split; [done|]. intros r2 code2 H2. apply callback_refused.
    rewrite H2, Hr'. unfold stored, rstr, del_key. cbn. by rewrite lookup_delete_eq.
  - by apply callback_refused.
Qed.
End state.

(** ** Access tokens *)

(** The documented behaviour of the JWT library on tokens it has signed:
    parsing with the same key gives the claims back, as valid, if they name
    the audience and the issuer and are not expired, and an error of its own
    otherwise. *)
Class JwtDoc `{!Jwt} : Prop := {
  jwt_signs : forall c secret, exists token, jwt_SignedString c secret = Ok token;
  jwt_parses : forall c secret token kf aud iss now,
    jwt_SignedString c secret = Ok token -> kf "HS256" = Ok secret ->
    if (now <? cc_ExpiresAt c * second)%Z && bool_decide (aud ∈ cc_Audience c)
       && String.eqb iss (cc_Issuer c)
    then jwt_ParseWithClaims token kf aud iss now = Ok (c, true)
    else exists e, jwt_ParseWithClaims token kf aud iss now = Err e
                   /\ as_app_error e = None;
}.

Section tokens.
Context {W : Type} `{!Jwt, !JwtDoc, !GoClock W} (config : JwtTokenConfig).
#[local] Instance jwt_service : AuthTokenManager W := NewJWTService config.

(** When a token issued now expires. *)
Definition expires (w : W) : Z :=
  (((time_Now w).1 + JWTAccessExpiry config) / second * second)%Z.

Lemma token_issued (user : AuthenticatedUser) (w : W) :
  exists token, (tm_Generate user w).1 = Ok token.
Proof.
  cbn [tm_Generate jwt_service NewJWTService]. unfold Jwt_Generate, generateToken.
  rewrite !bind_unfold, !ret_unfold. cbn [fst snd].
  edestruct jwt_signs as [token Ht]. rewrite Ht. by exists token.
Qed.

(** The token of a user validates to the user and the role, in any state of
    the world, until the second in which it expires. *)
Lemma token_accepted (user : AuthenticatedUser) (w w' : W) token :
  (tm_Generate user w).1 = Ok token ->
  if ((time_Now w').1 <? expires w)%Z
  then (TokenAdapter_ValidateAccessToken token w').1 = Ok (au_UserID user, au_Role user)
  else exists e, (TokenAdapter_ValidateAccessToken token w').1 = Err e
                 /\ Code (Some e) = ErrCodeJWTTokenValidationFailed.
Proof.
  cbn [tm_Generate jwt_service NewJWTService]. unfold Jwt_Generate, generateToken.
  rewrite !bind_unfold, !ret_unfold. cbn [fst snd]. set (c := MkCustomClaims _ _ _ _ _ _ _).
  destruct (jwt_signs c (JWTAccessSecret config)) as [token' Ht]. rewrite Ht. intros [= ->].
  pose proof (jwt_parses c _ token (signing_key (JWTAccessSecret config)) (JWTAudience config)
    (JWTIssuer config) (time_Now w').1 Ht eq_refl) as Hp.
  unfold TokenAdapter_ValidateAccessToken, Authenticator_ValidateAccessToken.
  cbn [tm_ValidateAccessToken jwt_service NewJWTService].
  unfold Jwt_ValidateAccessToken, validateToken.
  rewrite !bind_unfold, !ret_unfold. cbn [fst snd].
  change (cc_ExpiresAt c * second)%Z with (expires w) in Hp.
  rewrite (bool_decide_true (JWTAudience config ∈ cc_Audience c)) in Hp by set_solver.
  replace (String.eqb (JWTIssuer config) (cc_Issuer c)) with true in Hp
    by (symmetry; by apply String.eqb_eq).
  rewrite !andb_true_r in Hp.
  destruct (_ <? _)%Z.
  - rewrite Hp. cbn [negb cc_Subject c]. by rewrite String.eqb_refl.
  - destruct Hp as (e & -> & He). cbn [res_map]. eexists. split; [done|].
    unfold ensure_app, EnsureAppError, errorf_w. cbn [default].
    rewrite as_app_error_Errorf, He. done.
Qed.

(** The same of the tokens that other modules ask for. *)
Lemma token_roundtrip (userID role : string) (w w' : W) :
  exists token, (TokenAdapter_Generate userID role w).1 = Ok token /\
  if ((time_Now w').1 <? expires w)%Z
  then (TokenAdapter_ValidateAccessToken token w').1 = Ok (userID, role)
  else exists e, (TokenAdapter_ValidateAccessToken token w').1 = Err e
                 /\ Code (Some e) = ErrCodeJWTTokenValidationFailed.
Proof.
  destruct (token_issued (MkAuthenticatedUser userID role) w) as [token Ht].
  exists token. split; [|exact (token_accepted _ w w' token Ht)].
  unfold TokenAdapter_Generate, Authenticator_Generate. rewrite bind_unfold, ret_unfold.
  cbn [fst cl_UserID cl_Role]. by rewrite Ht.
Qed.
End tokens.

(** ** Witnesses *)

(** A JWT library that signs by writing the key and the claims as bits. *)
Module AuthDemo.
#[export] Instance claims_eq_dec : EqDecision customClaims.
Proof. solve_decision. Defined.

Definition claims_tuple (c : customClaims) : (string * string * string * string) * list string * Z * Z :=
  (cc_UserID c, cc_Role c, cc_Issuer c, cc_Subject c, cc_Audience c, cc_ExpiresAt c, cc_IssuedAt c).

#[export] Program Instance claims_countable : Countable customClaims :=
  inj_countable' claims_tuple
    (fun '(u, r, i, s, a, e, t) => MkCustomClaims u r i s a e t) _.
Next Obligation. by intros []. Qed.

Fixpoint bits (p : positive) : string :=
  match p with
  | xH => ""
  | xO p => String "0" (bits p)
  | xI p => String "1" (bits p)
  end.

Fixpoint of_bits (s : string) : positive :=
  match s with
  | "" => xH
  | String c s => if Ascii.eqb c "0" then xO (of_bits s) else xI (of_bits s)
  end.

Lemma of_bits_bits p : of_bits (bits p) = p.
Proof. by induction p as [p IH|p IH|]; cbn; rewrite ?IH. Qed.

#[export] Instance jwt : Jwt := {|
  jwt_SignedString := fun c secret => Ok (bits (encode (secret, c)));
  jwt_ParseWithClaims := fun token kf aud iss now =>
    match decode (of_bits token), kf "HS256" with
    | Some (secret, c), Ok key =>
        if String.eqb secret key && (now <? cc_ExpiresAt c * second)%Z
           && bool_decide (aud ∈ cc_Audience c) && String.eqb iss (cc_Issuer c)
        then Ok (c, true) else Err (errors_New "token has invalid claims")
    | _, _ => Err (errors_New "token is malformed")
    end;
|}.

#[export] Instance jwt_doc : JwtDoc.
Proof.
  split; [eauto|]. intros c secret token kf aud iss now Ht Hk. injection Ht as <-.
  cbn [jwt_ParseWithClaims jwt]. rewrite of_bits_bits, decode_encode, Hk, String.eqb_refl.
  rewrite andb_true_l. destruct (_ && _); eauto.
Qed.

#[export] Instance clock : GoClock Z := {| time_Now := fun now => (now, now) |}.

Definition config : JwtTokenConfig :=
  MkJwtTokenConfig "secret" "issuer" (3600 * second) "audience" "access-token".
End AuthDemo.

Section witnesses.
Import AuthDemo.

(** A token of half past one second lives until the second 3601 begins. *)
Example token_lifetime :
  exists token,
    (@TokenAdapter_Generate Z (NewJWTService config) "u1" "user" (1500 * millisecond)%Z).1
      = Ok token
    /\ (@TokenAdapter_ValidateAccessToken Z (NewJWTService config) token
          (3600999 * millisecond)%Z).1 = Ok ("u1", "user")
    /\ is_ok (@TokenAdapter_ValidateAccessToken Z (NewJWTService config) token
          (3601 * second)%Z).1 = false.
Proof.
  destruct (token_roundtrip config "u1" "user" (1500 * millisecond)%Z (3600999 * millisecond)%Z)
    as (token & Ht & Hv).
  exists token. split; [exact Ht|]. split; [exact Hv|].
  destruct (token_roundtrip config "u1" "user" (1500 * millisecond)%Z (3601 * second)%Z)
    as (token' & Ht' & Hv').
  rewrite Ht in Ht'. injection Ht' as <-.
  destruct Hv' as (e & He & _). exact (f_equal is_ok He).
Defined.

#[local] Instance demo_uuid : Uuid (pgworld pgdata) := {| uuid_New := mret "u1" |}.
#[local] Instance demo_cache : UserTierCache (pgworld pgdata) := {|
  tc_Invalidate := fun _ => mret None; tc_Get := fun _ => mret (Ok "");
  tc_Set := fun _ _ => mret None |}.
#[local] Instance demo_tokens {W} : AuthTokenManager W := {|
  tm_Generate := fun u => mret (Ok (au_UserID u)); tm_ValidateAccessToken := fun t => mret (Ok (t, "user")) |}.

(** A lost commit reply: the client gets an error, both rows are there. *)
Lemma signup_atomic_witness :
  let w := MkPgWorld pgdata_empty None [Delivered; Delivered; Delivered; ReplyLost Canceled] in
  let p := createNewUserAndLinkOAuth (MkOAuthUser "github" "42") w in
  is_ok p.1 = false
  /\ (pg_view (pw_db p.2) = pgdata_empty
      \/ exists id, linked (MkOAuthUser "github" "42") id pgdata_empty (pg_view (pw_db p.2))).
Proof.
  split; [reflexivity|].
  exact (signup_atomic (D := pgdata) (fun w => conj eq_refl eq_refl)
    (fun u w => conj eq_refl eq_refl) (MkOAuthUser "github" "42")
    (MkPgWorld pgdata_empty None [Delivered; Delivered; Delivered; ReplyLost Canceled])).
Defined.

#[local] Instance demo_state : OAuthStateGenerator rdata := {| sg_Generate := mret (Ok "s") |}.
#[local] Instance demo_github : OAuthAuthorizer rdata := {|
  oa_AuthorizationURL := fun s => "https://github.com/?state=" +:+ s;
  oa_ExchangeCode := fun c => mret (Ok c);
  oa_GetUserInfo := fun t => mret (Ok (MkOAuthUser "github" t)) |}.
#[local] Instance demo_accounts : OAuthAccountRepository rdata := {|
  ar_FindByProviderUserID := fun _ i => mret (Ok (MkAuthenticatedUser i ""));
  ar_Create := fun _ _ _ u => mret (Ok (MkAuthenticatedUser u "")) |}.
#[local] Instance demo_users : UserService rdata := {|
  us_Register := fun _ _ => mret None; us_Tier := fun _ => mret (Ok "free");
  us_Role := fun _ => mret (Ok "user") |}.
#[local] Instance demo_pg : PgClient rdata := {|
  pg_run := fun A _ _ => mret (Err Canceled);
  pg_Begin := mret (Some Canceled); pg_Commit := mret None; pg_Rollback := mret None |}.
#[local] Instance demo_uuid_r : Uuid rdata := {| uuid_New := mret "u1" |}.

Lemma oauth_state_single_use_witness :
  let login := GenerateAuthURL (rdata_empty : rdata) in
  let later := doc_wait (10 ^ 6) login.2 in
  login.1 = Ok "https://github.com/?state=s"
  /\ exists r', HandleCallback "c" "s" later = callback_sign_in "c" r'
       /\ (callback_sign_in "c" r').1 = Ok "c"
       /\ (HandleCallback "c" "s" r').1 = Err refused_callback.
Proof.
  pose proof (oauth_state_single_use "s" "c" (rdata_empty : rdata) (10 ^ 6)) as H.
  destruct (H eq_refl eq_refl) as (Hurl & _ & Hd); [lia|].
  split; [exact Hurl|].
  destruct Hd as (r' & Hcb & _ & Hagain). exists r'. split; [exact Hcb|].
  split; [reflexivity|]. exact (proj1 (Hagain r' "c" eq_refl)).
Defined.

(** A body can be sent once: sent again it is not there, and the transport
    fails without being a timeout.  GitHub answers 503 once. *)
#[local] Instance demo_http : HttpClient nat := {|
  http_Do := fun req unread n =>
    (if negb (str_empty (hq_body req)) && negb unread
     then Err (NetError "Post: http: ContentLength=50 with Body length 0" false None)
     else if (n =? 0)%nat then Ok (MkHttpResponse 503 (fun _ => Ok []) (fun _ => Ok 0%Z) None)
     else Ok (MkHttpResponse 200 (fun _ => Ok ["tok"; "read"; "bearer"; ""])
                (fun _ => Ok 7%Z) None), S n);
|}.
#[local] Instance demo_rand : Rand nat := {|
  rand_Read := fun n => mret (Ok (List.repeat 255%N n)); rand_Int := fun _ => mret (Ok 0%Z) |}.
#[local] Instance demo_context : GoContext nat := {|
  ctx_Err := mret None; ctx_sleep := fun _ => mret None |}.
#[local] Abbreviation client := (MkHTTPClient "id" "secret" "https://app/cb" 1 second).

(** The retry of the request for the profile, which has no body, works; the
    retry of the exchange of the code never can. *)
Example exchange_retry_broken :
  (GetUserInfo client "tok" 0).1 = Ok (MkOAuthUser "github" "7")
  /\ is_ok (ExchangeCode client "code" 0).1 = false
  /\ (ExchangeCode client "code" 0).2 = 2
  /\ (ExchangeCode client "code" 1).1 = Ok "tok".
Proof. vm_compute. done. Qed.

(** 32 random bytes are 43 characters of the URL alphabet, which the query
    does not escape. *)
Example state_in_url :
  match (StateToken_Generate 0).1 with
  | Ok s => String.length s = 43 /\ QueryEscape s = s
            /\ AuthorizationURL client s =
                 "https://github.com/login/oauth/authorize?client_id=id&redirect_uri=https%3A%2F%2Fapp%2Fcb&scope=read&state=" +:+ s
  | Err _ => False
  end.
Proof. vm_compute. done. Qed.
End witnesses.
