(* ===== verification/Transport.v ===== *)
(** * The HTTP interface of inference requests (internal/inference/transport)

    The middleware of POST /request, its handler, and the table from error
    codes to responses.  The validator of access tokens and the use case are
    parameters of the routes. *)

From S2P Require Import Prelude GoText GoErr Redis Env Http Admission Scheduler Idempotency Inference.
From stdpp Require Import base gmap list strings.
From Stdlib Require Import ZArith Lia Ascii.

(** ** http_errors.go *)

Definition MsgValidationFailed :=
  "Your inference request contains invalid or missing fields. Verify that the prompt is non-empty, the model name is correct, and all required parameters are provided.".
Definition MsgUnauthorized :=
  "Authentication is required to submit inference requests. Your session may have expired or the provided token is invalid. Please sign in again and include a valid authentication token.".
Definition MsgIdempotencyConflict :=
  "A request with the same idempotency key is already in progress. Wait for the current request to complete before retrying, or submit a new request with a different idempotency key.".
Definition MsgRateLimited :=
  "You have exceeded your allowed request rate. Please wait a moment before submitting another request. Consider upgrading your tier for higher rate limits.".
Definition MsgModelNotAllowed :=
  "The requested model is not available for your current access tier. Please choose a different model or upgrade your tier to access this model.".
Definition MsgInputTokenExceeded :=
  "Your prompt exceeds the maximum allowed input token count for your access tier. Shorten your prompt or upgrade your tier for higher limits.".
Definition MsgCostExceeded :=
  "The estimated cost of this request (input tokens plus maximum output tokens) exceeds your tier's capacity. Reduce the prompt size, lower the max output tokens, or upgrade your tier.".
Definition MsgJobIdempotencyConflict :=
  "This request is already being processed. Please wait for it to complete.".
Definition MsgMaximumConcurrentRequests :=
  "Service is unavailable for your tier now. Please wait.".
Definition MsgCoalescingRejected :=
  "A request with identical content is currently being processed. Please retry shortly.".
Definition MsgIdempotencyKeyRequired :=
  "The Idempotency-Key header is required for this endpoint. Include a unique key to safely retry requests without duplication.".
Definition MsgIdempotencyFailed :=
  "A previous request with this Idempotency-Key failed. Submit a new request with a new key.".
Definition MsgSubmitDeadlineExceeded :=
  "The request could not be processed in time. Please retry your request.".

Definition InferenceCodeRegistry : CodeRegistry := list_to_map [
  (Inference.ErrCodeIdempotencyConflict, MkErrorMeta 409 MsgIdempotencyConflict);
  (Inference.ErrCodeCheckIdempotencyFailed, MkErrorMeta 500 MsgServerError);
  (Inference.ErrCodeTryCoalescingFailed, MkErrorMeta 500 MsgServerError);
  (Inference.ErrCodeCoalescingRejected, MkErrorMeta 409 MsgCoalescingRejected);
  (Inference.ErrCodeRequestValidation, MkErrorMeta 400 MsgValidationFailed);
  (Inference.ErrCodeJobCreationFailed, MkErrorMeta 500 MsgServerError);
  (Inference.ErrCodeIdempotencyKeyMissing, MkErrorMeta 400 MsgIdempotencyKeyRequired);
  (Inference.ErrCodeIdempotencyUnknown, MkErrorMeta 500 MsgServerError);
  (Inference.ErrCodeAdmissionFailed, MkErrorMeta 500 MsgServerError);
  (Inference.ErrCodeIdempotencyJobFailed, MkErrorMeta 409 MsgIdempotencyFailed);
  (Inference.ErrCodeSubmitDeadlineExceeded, MkErrorMeta 503 MsgSubmitDeadlineExceeded);

  (Admission.ErrCodeInputToken, MkErrorMeta 413 MsgInputTokenExceeded);
  (Admission.ErrCodeModelNotAllowed, MkErrorMeta 403 MsgModelNotAllowed);
  (Admission.ErrCodeRateLimited, MkErrorMeta 429 MsgRateLimited);
  (Admission.ErrCodeCostExceeded, MkErrorMeta 402 MsgCostExceeded);
  (Admission.ErrCodePolicyFetchFailed, MkErrorMeta 500 MsgServerError);

  (Scheduler.ErrCodeDuplicatedJob, MkErrorMeta 409 MsgJobIdempotencyConflict);
  (Scheduler.ErrCodeEnqueueFailed, MkErrorMeta 500 MsgServerError);
  (Scheduler.ErrCodeQueueFull, MkErrorMeta 503 MsgMaximumConcurrentRequests);

  (ErrCodeInternal, MkErrorMeta 500 MsgServerError);
  (ErrCodeUnauthorized, MkErrorMeta 401 MsgUnauthorized)].

Section transport.
Context {G V : Type} `{!Gin G}.

(** ** middleware.go *)

(** Reasons to refuse a request before the handler. *)
Definition bad_auth_header : goerr :=
  AppError ErrCodeUnauthorized "INVALID_AUTH_HEADER"
    (Some (errors_New "authorization header must be in the format 'Bearer <token>'")).
Definition empty_token : goerr :=
  AppError ErrCodeUnauthorized "INVALID_AUTH_HEADER" (Some (errors_New "bearer token is empty")).
Definition invalid_token (err : goerr) : goerr :=
  AppError ErrCodeUnauthorized "INVALID_ACCESS_TOKEN" (Some err).
Definition missing_key : goerr :=
  AppError Inference.ErrCodeIdempotencyKeyMissing "MISSING_IDEMPOTENCY_KEY"
    (Some (errors_New "Idempotency-Key header is required for this endpoint")).

Definition AuthenticateMiddleware
    (ValidateAccessToken : string -> M V (res goerr (string * string))) : middleware G V :=
  fun next =>
    authHeader ← gin (GetHeader "Authorization");
    match cut " "%char authHeader with
    | None => fail_abort bad_auth_header
    | Some (scheme, rest) =>
        if negb (EqualFold scheme "Bearer") then fail_abort bad_auth_header
        else
          let tokenString := TrimSpace rest in
          if str_empty tokenString then fail_abort empty_token
          else
            r ← svc (ValidateAccessToken tokenString);
            match r with
            | Err err => fail_abort (invalid_token err)
            | Ok (userID, _) =>
                _ ← gin (SetKey "userID" userID);
                _ ← gin (WithValue "user_id" userID);
                next
            end
    end.

Definition IdempotencyKeyMiddleware : middleware G V :=
  fun next =>
    idempotencyHeader ← gin (GetHeader "Idempotency-Key");
    if str_empty idempotencyHeader then fail_abort missing_key
    else _ ← gin (SetKey "Idempotency-Header" idempotencyHeader); next.

Definition MaxBodySizeMiddleware (limit : Z) : middleware G V :=
  fun next => _ ← gin (MaxBytesReader limit); next.

(** ** handler.go and dto.go *)

Definition InferenceResponse (jobID message url : string) : json :=
  jobject [("job_id", jstr jobID); ("message", jstr message); ("url", jstr url)].

Definition accepted_response (jobID : string) : json :=
  InferenceResponse jobID "Inference request accepted and queued for processing."
    ("/api/stream/" +:+ jobID).

(** [Submit] is the method of the use case.  [c.Request.URL.Scheme] is empty
    on a server. *)
Definition HandleUserRequests
    (Submit : InferenceInput -> string -> string -> M V submit_result) : handler G V :=
  r ← gin (ShouldBind ["prompt"; "model"]);
  match r with
  | Ok [prompt; model] =>
      userID ← gin (GetString "userID");
      idempotencyHeader ← gin (GetString "Idempotency-Header");
      s ← svc (Submit (MkInferenceInput prompt model) userID idempotencyHeader);
      match s with
      | (_, Some err) => fail err
      | (jobID, None) =>
          host ← gin RequestHost;
          _ ← gin (SetHeader "Location" ("://" +:+ host +:+ "/api/stream/" +:+ jobID));
          gin (WriteJSON 202 (accepted_response jobID))
      end
  | Ok _ => skip
  | Err err => fail err
  end.

(** ** routes.go: POST /request *)

Definition RegisterInferenceRoutes
    (ValidateAccessToken : string -> M V (res goerr (string * string)))
    (Submit : InferenceInput -> string -> string -> M V submit_result) : handler G V :=
  chain [TimeoutMiddleware (25 * second);
         ErrorHandler InferenceCodeRegistry "INFERENCE_FAILED";
         AuthenticateMiddleware ValidateAccessToken;
         IdempotencyKeyMiddleware;
         MaxBodySizeMiddleware (10 * 1024)]
    (HandleUserRequests Submit).
End transport.
