(* ===== verification/TransportThms.v ===== *)
(** * Theorems about the HTTP interface of inference requests *)

From S2P Require Import Prelude GoText GoErr Redis Env Http HttpThms Admission Scheduler.
From S2P Require Import Idempotency Inference Transport.
From stdpp Require Import base gmap list strings.
From Stdlib Require Import ZArith Lia Ascii.

Section transport.
Context {G V : Type} `{!Gin G, !GinDoc G}.
Context (ValidateAccessToken : string -> M V (res goerr (string * string))).
Context (Submit : InferenceInput -> string -> string -> M V submit_result).

(** What a request comes to: the id of its job or the error that stops it,
    first in the order of the checks; and what the services have done. *)
Definition bound_request (s : gin_state) : res goerr (list string) :=
  if (10 * 1024 <? g_size s)%Z then Err (Leaf MaxBytesError "http: request body too large")
  else g_bind s ["prompt"; "model"].

Definition request_outcome (s : gin_state) (v : V) : res goerr string * V :=
  match cut " "%char (header s "Authorization") with
  | None => (Err bad_auth_header, v)
  | Some (scheme, rest) =>
      if negb (EqualFold scheme "Bearer") then (Err bad_auth_header, v)
      else if str_empty (TrimSpace rest) then (Err empty_token, v)
      else
        match ValidateAccessToken (TrimSpace rest) v with
        | (Err err, v) => (Err (invalid_token err), v)
        | (Ok (userID, _), v) =>
            let key := header s "Idempotency-Key" in
            if str_empty key then (Err missing_key, v)
            else
              match bound_request s with
              | Err err => (Err err, v)
              | Ok [prompt; model] =>
                  match Submit (MkInferenceInput prompt model) userID key v with
                  | ((jobID, None), v) => (Ok jobID, v)
                  | ((_, Some err), v) => (Err err, v)
                  end
              | Ok _ => (Ok "", v)
              end
        end
  end.

(** The answer to a request whose job is [jobID]. *)
Definition accepted (host jobID : string) (s' : gin_state) : Prop :=
  g_status s' = Some 202%Z /\ g_bodies s' = [accepted_response jobID]
  /\ g_out s' !! "Location" = Some ("://" +:+ host +:+ "/api/stream/" +:+ jobID).

#[local] Abbreviation left_by s := (left_by (accepted (g_host s)) s).
#[local] Abbreviation fail_left s := (fail_left (accepted (g_host s)) s).

(** The handlers behind the error handler. *)
Definition guarded : handler G V :=
  chain [AuthenticateMiddleware ValidateAccessToken; IdempotencyKeyMiddleware;
         MaxBodySizeMiddleware (10 * 1024)] (HandleUserRequests Submit).

Lemma handler_left (s : gin_state) (g : G) (v : V) userID key :
  unanswered (gin_view g) ->
  g_values (gin_view g) !! "request_id" = g_values s !! "request_id" ->
  g_bind (gin_view g) = g_bind s -> g_size (gin_view g) = g_size s ->
  g_host (gin_view g) = g_host s ->
  g_limit (gin_view g) = Some (10 * 1024)%Z ->
  g_keys (gin_view g) !! "userID" = Some userID ->
  g_keys (gin_view g) !! "Idempotency-Header" = Some key ->
  (forall fs, g_bind s ["prompt"; "model"] = Ok fs -> length fs = 2) ->
  let o := match bound_request s with
           | Err err => (Err err, v)
           | Ok [prompt; model] =>
               match Submit (MkInferenceInput prompt model) userID key v with
               | ((jobID, None), v) => (Ok jobID, v)
               | ((_, Some err), v) => (Err err, v)
               end
           | Ok _ => (Ok "", v)
           end in
  let w := (HandleUserRequests Submit (g, v)).2 in
  w.2 = o.2 /\ left_by s (gin_view w.1) o.1.
Proof.
  intros Hu Hid Hb Hz Hh Hl Hk1 Hk2 Hlen. cbv zeta.
  unfold HandleUserRequests. rewrite bind_unfold, gin_run.
  cbn [doc_gin fst snd]. rewrite Hl, Hz, Hb. unfold bound_request.
  set (g1 := (gin_call (ShouldBind ["prompt"; "model"]) g).2).
  assert (Hv1 : gin_view g1 = gin_view g) by (unfold g1; by rewrite gin_run_view).
  destruct (10 * 1024 <? g_size s)%Z.
  { destruct (fail_left s g1 v (Leaf MaxBytesError "http: request body too large")) as (? & ? & _);
      rewrite ?Hv1; done. }
  destruct (g_bind s ["prompt"; "model"]) as [fs|err] eqn:Ef.
  2: { destruct (fail_left s g1 v err) as (? & ? & _); rewrite ?Hv1; done. }
  specialize (Hlen fs eq_refl). destruct fs as [|prompt [|model [|]]]; try discriminate.
  run_gin. rewrite Hv1, Hk1, Hk2. cbn [from_option id].
  destruct (Submit _ userID key v) as [[jobID [err|]] v1]; cbn [fst snd].
  - match goal with |- context [fail err (?g2, v1)] =>
      destruct (fail_left s g2 v1 err) as (? & ? & _) end;
      repeat (rewrite ?gin_run_view; progress cbn [doc_gin fst snd]); rewrite ?Hv1; done.
  - destruct Hu as (He & Hs & Hbd). run_gin. unfold accepted. cbn.
    rewrite Hv1, He, Hs, Hbd, Hh. split_and!; try done. by rewrite lookup_insert_eq.
Qed.

Lemma guarded_left (s : gin_state) (g : G) (v : V) :
  unanswered (gin_view g) ->
  g_values (gin_view g) !! "request_id" = g_values s !! "request_id" ->
  g_bind (gin_view g) = g_bind s -> g_size (gin_view g) = g_size s ->
  g_host (gin_view g) = g_host s -> g_headers (gin_view g) = g_headers s ->
  (forall fs, g_bind s ["prompt"; "model"] = Ok fs -> length fs = 2) ->
  let w := (guarded (g, v)).2 in
  w.2 = (request_outcome s v).2 /\ left_by s (gin_view w.1) (request_outcome s v).1.
Proof.
  intros Hu Hid Hb Hz Hh Hhd Hlen. cbv zeta.
  unfold guarded, chain, request_outcome, header. cbn [foldr].
  unfold AuthenticateMiddleware.
  rewrite bind_unfold, gin_run. cbn [doc_gin fst snd]. rewrite Hhd.
  set (g1 := (gin_call (GetHeader "Authorization") g).2).
  assert (Hv1 : gin_view g1 = gin_view g) by (unfold g1; by rewrite gin_run_view).
  assert (Hfail : forall (g' : G) (v' : V) e, gin_view g' = gin_view g ->
    (fail_abort e (g', v')).2.2 = v' /\ left_by s (gin_view (fail_abort e (g', v')).2.1) (Err e)).
  { intros g' v' e E. destruct (fail_left s g' v' e) as (_ & _ & ? & ?); rewrite ?E; done. }
  destruct (cut _ _) as [[scheme rest]|]; [|by apply Hfail].
  destruct (negb _); [by apply Hfail|].
  destruct (str_empty (TrimSpace rest)); [by apply Hfail|].
  rewrite bind_unfold, svc_run. cbn [fst snd].
  destruct (ValidateAccessToken _ v) as [[[userID role]|err] v1]; cbn [fst snd];
    [|by apply Hfail].
  unfold IdempotencyKeyMiddleware, MaxBodySizeMiddleware.
  run_gin. rewrite Hv1. cbn [set_keys set_values g_headers]. rewrite Hhd.
  destruct (str_empty _).
  - match goal with |- context [fail_abort ?e (?g2, v1)] =>
      destruct (fail_left s g2 v1 e) as (_ & _ & ? & ?) end; [| |done];
      repeat (rewrite !gin_run_view; cbn [doc_gin fst snd]); rewrite ?Hv1; [done|].
    cbn. by rewrite lookup_insert_ne.
  - run_gin.
    match goal with |- context [HandleUserRequests Submit (?g2, v1)] =>
      apply (handler_left s g2 v1 userID _) end; try done;
      repeat (rewrite !gin_run_view; cbn [doc_gin fst snd]); rewrite ?Hv1; cbn; try done.
    + by rewrite lookup_insert_ne.
    + rewrite lookup_insert_ne by done. by rewrite lookup_insert_eq.
    + by rewrite lookup_insert_eq.
Qed.

(** The whole route. *)
Lemma route_answers (g : G) (v : V) :
  unanswered (gin_view g) ->
  (forall fs, g_bind (gin_view g) ["prompt"; "model"] = Ok fs -> length fs = 2) ->
  let s := gin_view g in
  let w := (RegisterInferenceRoutes ValidateAccessToken Submit (g, v)).2 in
  w.2 = (request_outcome s v).2
  /\ answered (accepted (g_host s)) InferenceCodeRegistry "INFERENCE_FAILED"
       s (gin_view w.1) (request_outcome s v).1.
Proof.
  intros Hu Hlen. apply (module_answers (accepted (g_host (gin_view g))) InferenceCodeRegistry
    "INFERENCE_FAILED" (25 * second) guarded).
  intros g1 Hv1. apply guarded_left; rewrite ?Hv1; done.
Qed.

(** The response tells the job id. *)
Lemma response_inj j1 j2 m u1 u2 :
  InferenceResponse j1 m u1 = InferenceResponse j2 m u2 -> j1 = j2.
Proof.
  unfold InferenceResponse, jobject, jstr. cbn. intros [= Hj _].
  rewrite <- (String.string_of_list_ascii_of_string j1), Hj.
  apply String.string_of_list_ascii_of_string.
Qed.

(** C22: POST /request.  On a request that nothing has answered yet, with a
    binder that returns the fields it is asked for, the route does to the
    services exactly what the ordered checks of [request_outcome] do (the
    header and the token, then the idempotency key, then the size and the
    fields of the body, then the submission), and answers once: 202 with the
    location of the stream of the job, or the status, code and message that
    the registry gives the error, with the id of the request. *)
Theorem submit_response (g : G) (v : V)
    (Hu : unanswered (gin_view g))
    (Hlen : forall fs, g_bind (gin_view g) ["prompt"; "model"] = Ok fs -> length fs = 2) :
  let s := gin_view g in
  let w := (RegisterInferenceRoutes ValidateAccessToken Submit (g, v)).2 in
  w.2 = (request_outcome s v).2
  /\ answered (accepted (g_host s)) InferenceCodeRegistry "INFERENCE_FAILED"
       s (gin_view w.1) (request_outcome s v).1.
Proof.
  exact (route_answers g v Hu Hlen).
Qed.
End transport.

(** ** Requests *)

(** A request with the given headers and body, whose id is req-1. *)
Definition request (headers : list (string * string)) (size : Z)
    (body : res goerr (list string)) : gin_state :=
  MkGin (list_to_map headers) ∅ (fun _ => body) size "api.example" "/api/request"
    ∅ {["request_id" := "req-1"]} None None [] false ∅ None [] [] [].

Definition good_request : gin_state :=
  request [("Authorization", "bearer tok"); ("Idempotency-Key", "key-1")] 40
    (Ok ["hi"; "m"]).

(** Services that count the submissions. *)
Definition any_token (token : string) : M nat (res goerr (string * string)) :=
  mret (Ok ("u1", "user")).
Definition submit_as (r : submit_result) (input : InferenceInput) (userID key : string)
  : M nat submit_result := fun n => (r, S n).

Lemma submit_response_witness :
  unanswered good_request
  /\ let w := (RegisterInferenceRoutes any_token (submit_as ("job-1", None)) (good_request, 0)).2 in
     w.2 = 1 /\ g_status w.1 = Some 202%Z /\ g_bodies w.1 = [accepted_response "job-1"].
Proof.
  assert (Hu : unanswered good_request) by (split_and!; reflexivity).
  split; [exact Hu|].
  destruct (submit_response any_token (submit_as ("job-1", None))
              (good_request : gin_state) 0) as [Hw Ha]; [exact Hu| |].
  { intros fs E. vm_compute in E. by injection E as <-. }
  split; [rewrite Hw; vm_compute; reflexivity|].
  change ((request_outcome any_token (submit_as ("job-1", None)) (gin_view good_request) 0).1)
    with (@Ok goerr string "job-1") in Ha.
  destruct Ha as (Hs & Hb & _). exact (conj Hs Hb).
Defined.

(** A body over 10 KiB is refused before anything is submitted. *)
Example large_body :
  let g := request [("Authorization", "Bearer tok"); ("Idempotency-Key", "key-1")] 10241
             (Ok ["hi"; "m"]) in
  let w := (RegisterInferenceRoutes any_token (submit_as ("job-1", None)) (g, 0)).2 in
  w.2 = 0 /\ g_status w.1 = Some 413%Z.
Proof. vm_compute. done. Qed.

(** A full queue: the use case wraps the error of the scheduler's adapter
    under the code of the enqueue step, which the registry does not have, so
    that the answer is 500 although the registry has 503 for a full queue. *)
Example full_queue_status :
  let full := submit_error (Some Idempotency.ErrQueueFull) Inference.ErrCodeEnqueueFailed in
  let w := (RegisterInferenceRoutes any_token (submit_as full) (good_request, 0)).2 in
  g_status w.1 = Some 500%Z
  /\ em_status <$> (InferenceCodeRegistry !! Scheduler.ErrCodeQueueFull) = Some 503%Z.
Proof. vm_compute. done. Qed.
