(* ===== verification/Metrics.v ===== *)
(** * Metrics (internal/observability/metrics, the metrics adapters)

    The Prometheus client is a library outside the repository: the class
    [Prometheus], one typed operation per method the code calls, with the
    documented behaviour on [prom_data].  The recorders of infrastructure/prom
    are built by a [MetricBuilder] and called by the adapters of the modules. *)

From S2P Require Import Prelude GoText GoErr Env Http.
From S2P Require Scheduler Admission Worker Recovery.
From stdpp Require Import base gmap list strings pretty.
From Stdlib Require Import ZArith QArith Lia Ascii.
#[local] Open Scope list_scope.

(** ** The Prometheus client *)

(** A [float64]; the values of the source are decimal literals. *)
Inductive gofloat : Type := Float (q : Q) | NotANumber | Infinite.

Inductive collector_kind : Type :=
| CounterKind
| GaugeKind
| HistogramKind (buckets : list gofloat).

(** A collector: what its constructor is given. *)
Record collector := MkCollector {
  c_kind : collector_kind; c_namespace : string; c_name : string; c_help : string;
  c_labels : list string }.

(** [prometheus.BuildFQName]. *)
Definition full_name (c : collector) : string := c_namespace c +:+ "_" +:+ c_name c.

(** [Registry.Register]; [vec.WithLabelValues(values...)] alone, which makes
    the series, and followed by [Inc], [Dec] or [Observe], a duration standing
    for its seconds; and the use of a nil vector. *)
Inductive prom_op : Type -> Type :=
| Register (c : collector) : prom_op (option goerr)
| WithLabelValues (c : collector) (values : list string) : prom_op unit
| Inc (c : collector) (values : list string) : prom_op unit
| Dec (c : collector) (values : list string) : prom_op unit
| Observe (c : collector) (values : list string) (d : Z) : prom_op unit
| NilVec : prom_op unit.

Class Prometheus (W : Type) := { prom : forall {A : Type}, prom_op A -> M W A }.

(** The registered collectors, the values and the samples of the series, and
    whether a call has panicked. *)
Record prom_data := MkProm {
  p_registered : list collector;
  p_values : gmap (string * list string) Z;
  p_samples : gmap (string * list string) (list Z);
  p_panicked : bool }.

Definition empty_registry : prom_data := MkProm [] ∅ ∅ false.

Definition panicked (s : prom_data) : prom_data :=
  MkProm (p_registered s) (p_values s) (p_samples s) true.

(** A number of values other than the number of labels panics. *)
Definition arity_ok (c : collector) (values : list string) : bool :=
  (length values =? length (c_labels c))%nat.

Definition add_to (c : collector) (values : list string) (n : Z) (s : prom_data) : prom_data :=
  if arity_ok c values then
    let k := (full_name c, values) in
    MkProm (p_registered s) (<[k := default 0 (p_values s !! k) + n]> (p_values s))%Z
      (p_samples s) (p_panicked s)
  else panicked s.

Definition sample (c : collector) (values : list string) (ds : list Z) (s : prom_data)
  : prom_data :=
  if arity_ok c values then
    let k := (full_name c, values) in
    MkProm (p_registered s) (p_values s)
      (<[k := default [] (p_samples s !! k) ++ ds]> (p_samples s)) (p_panicked s)
  else panicked s.

(** A name is registered once, if it is valid. *)
Definition doc_register (valid_name : string -> bool) (c : collector) (s : prom_data)
  : option goerr * prom_data :=
  if negb (valid_name (full_name c)) then
    (Some (errors_New ("descriptor is invalid: " +:+ full_name c)), s)
  else if existsb (fun c' => String.eqb (full_name c') (full_name c)) (p_registered s) then
    (Some (errors_New "duplicate metrics collector registration attempted"), s)
  else (None, MkProm (p_registered s ++ [c]) (p_values s) (p_samples s) (p_panicked s)).

Definition doc_prom (valid_name : string -> bool) {A : Type} (op : prom_op A) (s : prom_data)
  : A * prom_data :=
  match op in prom_op A return A * prom_data with
  | Register c => doc_register valid_name c s
  | WithLabelValues c vs =>
      (tt, match c_kind c with
           | HistogramKind _ => sample c vs [] s
           | _ => add_to c vs 0 s
           end)
  | Inc c vs => (tt, add_to c vs 1 s)
  | Dec c vs => (tt, add_to c vs (-1) s)
  | Observe c vs d => (tt, sample c vs [d] s)
  | NilVec => (tt, panicked s)
  end.

(** The validity of names is the library's. *)
Class PrometheusDoc (W : Type) `{!Prometheus W} (valid_name : string -> bool) := {
  prom_view : W -> prom_data;
  prom_doc : forall {A : Type} (op : prom_op A) (w : W),
    (prom op w).1 = (doc_prom valid_name op (prom_view w)).1
    /\ prom_view (prom op w).2 = (doc_prom valid_name op (prom_view w)).2;
}.

(** ** infrastructure/prom/normalize.go *)

Definition admissionTokenLimit := "token_limit".
Definition admissionModelNotAllowed := "model_not_allowed".
Definition admissionRateLimited := "rate_limited".
Definition admissionOther := "other".
Definition jobStatusSucceeded := "succeeded".
Definition jobStatusFailed := "failed".
Definition retryModelFailure := "model_failure".
Definition retryLeaseExpired := "lease_expired".
Definition retryRecovery := "recovery".
Definition recoveryRequeued := "requeued".
Definition recoveryFailed := "failed".
Definition processingSuccess := "succeeded".
Definition processingFailed := "failed".

Definition http_methods : list string :=
  ["GET"; "POST"; "PUT"; "PATCH"; "DELETE"; "HEAD"; "OPTIONS"].

Definition normalizeHTTPMethod (method : string) : string :=
  let method := ToUpper (TrimSpace method) in
  if existsb (String.eqb method) http_methods then method else "OTHER".

Definition http_routes : list string :=
  ["/request"; "/health"; "/metrics"; "/stream/:jobID"; "/auth/login/github";
   "/auth/github/callback"; "/admin/register"; "/admin/login"; "/admin/users/:user_id/tier"].

Definition normalizeHTTPRoute (route : string) : string :=
  let route := TrimPrefix route "/api" in
  if existsb (String.eqb route) http_routes then route else "other".

Definition normalizeHTTPStatus (status : Z) : string :=
  if ((status <? 100) || (599 <? status))%Z then "other"
  else pretty (Z.quot status 100) +:+ "xx".

(** ** infrastructure/prom/builder.go *)

Definition lit (n : Z) (d : positive) : gofloat := Float (n # d).

Definition shortDurationBuckets : list gofloat :=
  [lit 5 10000; lit 1 1000; lit 25 10000; lit 5 1000; lit 1 100; lit 25 1000; lit 5 100;
   lit 1 10; lit 25 100; lit 5 10; lit 1 1].
Definition ttftDurationBuckets : list gofloat :=
  [lit 5 100; lit 1 10; lit 25 100; lit 5 10; lit 1 1; lit 25 10; lit 5 1; lit 75 10; lit 10 1;
   lit 15 1; lit 20 1; lit 30 1].
Definition longDurationBuckets : list gofloat :=
  [lit 1 10; lit 25 100; lit 5 10; lit 1 1; lit 25 10; lit 5 1; lit 10 1; lit 15 1; lit 20 1;
   lit 30 1; lit 45 1; lit 60 1; lit 90 1; lit 120 1; lit 180 1; lit 300 1].

(** From bucket [i] on; [previous] is the bucket before it. *)
Fixpoint check_buckets (i : Z) (previous : option Q) (buckets : list gofloat) : option goerr :=
  match buckets with
  | [] => None
  | NotANumber :: _ | Infinite :: _ =>
      Some (errors_New ("histogram bucket " +:+ pretty i +:+ " must be finite"))
  | Float bucket :: rest =>
      if Qle_bool bucket 0 then
        Some (errors_New ("histogram bucket " +:+ pretty i +:+ " must be greater than zero"))
      else if match previous with Some p => Qle_bool bucket p | None => false end then
        Some (errors_New "histogram buckets must be strictly increasing")
      else check_buckets (i + 1) (Some bucket) rest
  end.

Definition validateBuckets (buckets : list gofloat) : option goerr :=
  match buckets with
  | [] => Some (errors_New "histogram buckets must not be empty")
  | _ => check_buckets 0 None buckets
  end.

Record MetricBuilder := MkMetricBuilder { mb_namespace : string; mb_firstErr : option goerr }.

(** [reg] says whether there is a registry. *)
Definition NewMetricBuilder (reg : bool) (namespace : string) : res goerr MetricBuilder :=
  if negb reg then Err (errors_New "prometheus registerer must not be nil")
  else Ok (MkMetricBuilder (if str_empty namespace then "inference" else namespace) None).

(** A vector is [nil] when its constructor failed. *)
Definition prom_vec : Type := option collector.

Section builder.
Context {W : Type} `{!Prometheus W}.
#[local] Abbreviation B := (MetricBuilder * W)%type.

Definition lib {A : Type} (m : M W A) : M B A :=
  fun s => let '(a, w) := m s.2 in (a, (s.1, w)).

Definition set_firstErr (err : goerr) : M B unit :=
  modify_world (fun s => (MkMetricBuilder (mb_namespace s.1) (Some err), s.2)).

Definition register (c : collector) : M B unit :=
  s ← get_world;
  match mb_firstErr s.1 with
  | Some _ => skip
  | None =>
      err ← lib (prom (Register c));
      match err with Some err => set_firstErr err | None => skip end
  end.

Definition builder_err : M B (option goerr) := s ← get_world; mret (mb_firstErr s.1).

Definition new_collector (kind : collector_kind) (name help : string) (labels : list string)
  : M B prom_vec :=
  s ← get_world;
  let c := MkCollector kind (mb_namespace s.1) name help labels in
  _ ← register c; mret (Some c).

Definition newCounterVec (name help : string) (labels : list string) : M B prom_vec :=
  new_collector CounterKind name help labels.
Definition newGaugeVec (name help : string) (labels : list string) : M B prom_vec :=
  new_collector GaugeKind name help labels.
Definition newGauge (name help : string) : M B prom_vec := new_collector GaugeKind name help [].

Definition newHistogramVecWithBuckets (name help : string) (buckets : list gofloat)
    (labels : list string) : M B prom_vec :=
  match validateBuckets buckets with
  | Some err =>
      s ← get_world;
      _ ← match mb_firstErr s.1 with
          | None => set_firstErr (errorf_w ("histogram " +:+ dq +:+ name +:+ dq +:+ ": ") (Some err))
          | Some _ => skip
          end;
      mret None
  | None => new_collector (HistogramKind buckets) name help labels
  end.

(** The use of a vector; and [observe(vec.WithLabelValues(values...), d)]. *)
Definition on_vec (v : prom_vec) (op : collector -> prom_op unit) : M W unit :=
  match v with Some c => prom (op c) | None => prom NilVec end.

Definition observe (v : prom_vec) (values : list string) (d : Z) : M W unit :=
  if (0 <=? d)%Z then on_vec v (fun c => Observe c values d)
  else on_vec v (fun c => WithLabelValues c values).

(** [for _, value := range values { vec.WithLabelValues(value) }] *)
Fixpoint preset (v : prom_vec) (values : list string) : M W unit :=
  match values with
  | [] => skip
  | x :: rest => _ ← on_vec v (fun c => WithLabelValues c [x]); preset v rest
  end.

(** The end of a constructor. *)
Definition built {A : Type} (what : string) (k : M W A) : M B (res goerr A) :=
  err ← builder_err;
  match err with
  | Some err => mret (Err (errorf_w ("register " +:+ what +:+ " metrics: ") (Some err)))
  | None => a ← lib k; mret (Ok a)
  end.

(** ** The recorders of infrastructure/prom *)

(** http_metrics.go *)
Record HTTPMetrics := MkHTTPMetrics { hm_requests : prom_vec; hm_duration : prom_vec; hm_inFlight : prom_vec }.

Definition NewHTTPMetrics : M B (res goerr HTTPMetrics) :=
  requests ← newCounterVec "http_requests_total" "Total HTTP requests received"
               ["method"; "route"; "status"];
  duration ← newHistogramVecWithBuckets "http_request_duration_seconds" "HTTP request duration."
               longDurationBuckets ["method"; "route"];
  inFlight ← newGaugeVec "http_requests_in_flight" "HTTP requests currently being handled."
               ["method"; "route"];
  built "HTTP" (mret (MkHTTPMetrics requests duration inFlight)).

Definition HTTPMetrics_record (m : HTTPMetrics) (x : http_metric) : M W unit :=
  match x with
  | ObserveHTTPRequest method route status =>
      on_vec (hm_requests m) (fun c => Inc c [normalizeHTTPMethod method;
        normalizeHTTPRoute route; normalizeHTTPStatus status])
  | ObserveHTTPRequestDuration method route d =>
      observe (hm_duration m) [normalizeHTTPMethod method; normalizeHTTPRoute route] d
  | IncHTTPInFlight method route =>
      on_vec (hm_inFlight m) (fun c => Inc c [normalizeHTTPMethod method;
        normalizeHTTPRoute route])
  | DecHTTPInFlight method route =>
      on_vec (hm_inFlight m) (fun c => Dec c [normalizeHTTPMethod method;
        normalizeHTTPRoute route])
  end.

(** admission_metrics.go *)
Record AdmissionMetrics := MkAdmissionMetrics { am_duration : prom_vec; am_rejections : prom_vec }.

Definition NewAdmissionMetrics : M B (res goerr AdmissionMetrics) :=
  duration ← newHistogramVecWithBuckets "admission_duration_seconds"
               "Admission decision duration." shortDurationBuckets [];
  rejections ← newCounterVec "admission_rejections_total" "Requests rejected by admission."
                 ["reason"];
  built "admission" (
    _ ← preset rejections [admissionTokenLimit; admissionModelNotAllowed;
                           admissionRateLimited; admissionOther];
    mret (MkAdmissionMetrics duration rejections)).

Definition AdmissionMetrics_recorder (m : AdmissionMetrics)
  : Admission.AdmissionMetricsRecorder W :=
  Admission.MkAdmissionRecorder W
    (on_vec (am_rejections m) (fun c => Inc c [admissionTokenLimit]))
    (on_vec (am_rejections m) (fun c => Inc c [admissionModelNotAllowed]))
    (on_vec (am_rejections m) (fun c => Inc c [admissionRateLimited]))
    (on_vec (am_rejections m) (fun c => Inc c [admissionOther]))
    (observe (am_duration m) []).

(** workload_metrics.go, scheduler_metrics.go *)
Definition NewWorkloadMetrics : M B (res goerr prom_vec) :=
  accepted ← newCounterVec "jobs_accepted_total" "Jobs accepted for processing." [];
  built "workload" (_ ← on_vec accepted (fun c => WithLabelValues c []); mret accepted).
Definition ObserveJobAccepted (accepted : prom_vec) : M W unit := on_vec accepted (fun c => Inc c []).

Definition NewSchedulerMetrics : M B (res goerr prom_vec) :=
  wait ← newHistogramVecWithBuckets "job_queue_wait_seconds"
           "Time from job enqueue until successful worker claim." longDurationBuckets [];
  built "scheduler" (mret wait).
Definition ObserveJobQueueWait (wait : prom_vec) (d : Z) : M W unit := observe wait [] d.

(** worker_metrics.go *)
Record WorkerMetrics := MkWorkerMetrics { wm_inFlight : prom_vec; wm_processing : prom_vec }.

Definition NewWorkerMetrics : M B (res goerr WorkerMetrics) :=
  inFlight ← newGauge "worker_inflight_jobs" "Jobs currently being processed by workers.";
  processing ← newHistogramVecWithBuckets "job_processing_seconds"
                 "Duration of an individual worker attempt." longDurationBuckets ["status"];
  built "worker" (
    _ ← preset processing [processingSuccess; processingFailed];
    mret (MkWorkerMetrics inFlight processing)).

Definition JobClaimed (m : WorkerMetrics) : M W unit := on_vec (wm_inFlight m) (fun c => Inc c []).
Definition JobAttemptEnded (m : WorkerMetrics) : M W unit :=
  on_vec (wm_inFlight m) (fun c => Dec c []).
Definition ObserveJobProcessingSuccess (m : WorkerMetrics) (d : Z) : M W unit :=
  observe (wm_processing m) [processingSuccess] d.
Definition ObserveJobProcessingFailure (m : WorkerMetrics) (d : Z) : M W unit :=
  observe (wm_processing m) [processingFailed] d.

(** job_lifecycle_metrics.go and recovery_metrics.go *)
Record JobLifecycleMetrics := MkJobLifecycleMetrics {
  jm_terminal : prom_vec; jm_retried : prom_vec; jm_recovered : prom_vec }.

Definition NewJobLifecycleMetrics : M B (res goerr JobLifecycleMetrics) :=
  terminal ← newCounterVec "jobs_terminal_total" "Jobs reaching a terminal state." ["status"];
  retried ← newCounterVec "jobs_retried_total" "Jobs scheduled for another attempt." ["reason"];
  recovered ← newCounterVec "jobs_recovered_total" "Jobs handled by recovery." ["result"];
  built "job lifecycle" (
    _ ← preset terminal [jobStatusSucceeded; jobStatusFailed];
    _ ← preset retried [retryModelFailure; retryLeaseExpired; retryRecovery];
    _ ← preset recovered [recoveryRequeued; recoveryFailed];
    mret (MkJobLifecycleMetrics terminal retried recovered)).

Definition ObserveJobSucceeded (m : JobLifecycleMetrics) : M W unit :=
  on_vec (jm_terminal m) (fun c => Inc c [jobStatusSucceeded]).
Definition ObserveJobFailed (m : JobLifecycleMetrics) : M W unit :=
  on_vec (jm_terminal m) (fun c => Inc c [jobStatusFailed]).
Definition ObserveJobRetriedModelFailure (m : JobLifecycleMetrics) : M W unit :=
  on_vec (jm_retried m) (fun c => Inc c [retryModelFailure]).
Definition ObserveJobRetriedLeaseExpired (m : JobLifecycleMetrics) : M W unit :=
  on_vec (jm_retried m) (fun c => Inc c [retryLeaseExpired]).
Definition ObserveJobRetriedByRecovery (m : JobLifecycleMetrics) : M W unit :=
  on_vec (jm_retried m) (fun c => Inc c [retryRecovery]).

Definition NewRecoveryMetrics (m : JobLifecycleMetrics) : prom_vec := jm_recovered m.
Definition ObserveJobRecoveredRequeued (recovered : prom_vec) : M W unit :=
  on_vec recovered (fun c => Inc c [recoveryRequeued]).
Definition ObserveJobRecoveredFailed (recovered : prom_vec) : M W unit :=
  on_vec recovered (fun c => Inc c [recoveryFailed]).

(** llm_metrics.go *)
Record LLMMetrics := MkLLMMetrics { lm_timeToFirstToken : prom_vec; lm_generation : prom_vec }.

Definition NewLLMMetrics : M B (res goerr LLMMetrics) :=
  timeToFirstToken ← newHistogramVecWithBuckets "llm_time_to_first_token_seconds"
    "Time from generation start until the first non-empty output chunk." ttftDurationBuckets [];
  generation ← newHistogramVecWithBuckets "llm_generation_seconds"
    "End-to-end language model generation duration." longDurationBuckets [];
  built "LLM" (mret (MkLLMMetrics timeToFirstToken generation)).

Definition ObserveTimeToFirstToken (m : LLMMetrics) (d : Z) : M W unit :=
  observe (lm_timeToFirstToken m) [] d.
Definition ObserveGenerationDuration (m : LLMMetrics) (d : Z) : M W unit :=
  observe (lm_generation m) [] d.

(** stream_metrics.go *)
Record StreamMetrics := MkStreamMetrics { sm_delivery : prom_vec; sm_endToEnd : prom_vec }.

Definition NewStreamMetrics : M B (res goerr StreamMetrics) :=
  delivery ← newHistogramVecWithBuckets "stream_delivery_seconds"
    "Duration of writing a stream event to the HTTP response." shortDurationBuckets [];
  endToEnd ← newHistogramVecWithBuckets "job_end_to_end_seconds"
    "Time from job creation until terminal event delivery." longDurationBuckets [];
  built "stream" (mret (MkStreamMetrics delivery endToEnd)).

Definition ObserveStreamDelivery (m : StreamMetrics) (d : Z) : M W unit :=
  observe (sm_delivery m) [] d.
Definition ObserveJobEndToEnd (m : StreamMetrics) (d : Z) : M W unit :=
  observe (sm_endToEnd m) [] d.

(** ** module.go *)

Record MetricsModule := MkMetricsModule {
  mm_HTTP : HTTPMetrics; mm_Admission : AdmissionMetrics; mm_Workload : prom_vec;
  mm_Scheduler : prom_vec; mm_Worker : WorkerMetrics; mm_Job : JobLifecycleMetrics;
  mm_Recovery : prom_vec; mm_LLM : LLMMetrics; mm_Stream : StreamMetrics }.

(** [x, err := New(builder); if err != nil { return nil, err }] *)
Definition try {A C : Type} (m : M B (res goerr A)) (k : A -> M B (res goerr C))
  : M B (res goerr C) :=
  r ← m;
  match r with Err err => mret (Err err) | Ok a => k a end.

Definition build_metrics : M B (res goerr MetricsModule) :=
  try NewHTTPMetrics (fun httpMetrics =>
  try NewAdmissionMetrics (fun admissionMetrics =>
  try NewWorkloadMetrics (fun workloadMetrics =>
  try NewSchedulerMetrics (fun schedulerMetrics =>
  try NewWorkerMetrics (fun workerMetrics =>
  try NewJobLifecycleMetrics (fun jobMetrics =>
  try NewLLMMetrics (fun llmMetrics =>
  try NewStreamMetrics (fun streamMetrics =>
    mret (Ok (MkMetricsModule httpMetrics admissionMetrics workloadMetrics schedulerMetrics
                workerMetrics jobMetrics (NewRecoveryMetrics jobMetrics) llmMetrics
                streamMetrics)))))))))).

(** The world holds the registry the module makes; [logger] says whether
    there is one. *)
Definition NewMetricsModule (Namespace : string) (logger : bool)
  : M W (res goerr MetricsModule) :=
  fun w =>
    if negb logger then (Err (errors_New "metrics logger must not be nil"), w)
    else
      match NewMetricBuilder true Namespace with
      | Err err => (Err (errorf_w "create prometheus metric builder: " (Some err)), w)
      | Ok builder => let '(r, (_, w')) := build_metrics (builder, w) in (r, w')
      end.
End builder.

(** The construction of the module on its fresh registry. *)
Definition prom_data_lib (valid_name : string -> bool) : Prometheus prom_data :=
  {| prom := fun _ op => doc_prom valid_name op |}.
Definition prom_data_doc (valid_name : string -> bool)
  : @PrometheusDoc prom_data (prom_data_lib valid_name) valid_name :=
  @Build_PrometheusDoc prom_data (prom_data_lib valid_name) valid_name (fun s => s)
    (fun _ _ _ => conj eq_refl eq_refl).

Definition metrics_error (valid_name : string -> bool) (Namespace : string) : option goerr :=
  match (@NewMetricsModule _ (prom_data_lib valid_name) Namespace true empty_registry).1 with
  | Ok _ => None
  | Err err => Some err
  end.

(** ** transport: GET /metrics *)

Section transport.
Context {G V : Type} `{!Gin G}.
(** [promhttp.HandlerFor] of the registry that the world holds, without
    options, as it serves a request. *)
Context (promhttp_HandlerFor : handler G V).

(** transport/handler.go *)
Definition HandleMetrics : handler G V := promhttp_HandlerFor.

(** transport/routes.go *)
Inductive metrics_route : Type := GET_metrics.
Definition RegisterMetricsRoutes (r : metrics_route) : handler G V :=
  match r with GET_metrics => HandleMetrics end.

(** module.go *)
Definition RegisterRootRoutes : metrics_route -> handler G V := RegisterMetricsRoutes.
End transport.

(** ** The adapters of the modules: their recorders may be [nil] *)

Section adapters.
Context {W : Type} `{!Prometheus W}.

Definition recorded {R : Type} (recorder : option R) (call : R -> M W unit) : M W unit :=
  match recorder with Some r => call r | None => skip end.

(** admission/adapters/metrics_adapter.go is in Admission.v. *)
Definition admission_MetricsAdapter (recorder : option AdmissionMetrics)
  : option (Admission.AdmissionMetricsRecorder W) :=
  match recorder with Some r => Some (AdmissionMetrics_recorder r) | None => None end.

(** scheduler/adapters/metrics_adapter.go *)
Definition scheduler_MetricsAdapter (recorder : option prom_vec) : Scheduler.SchedulerMetrics W := {|
  Scheduler.ObserveQueueWaitDuration := fun d => recorded recorder (fun r => ObserveJobQueueWait r d);
|}.

(** inference/adapters/metrics_adapter.go *)
Definition inference_MetricsAdapter (recorder : option prom_vec) : M W unit :=
  recorded recorder ObserveJobAccepted.

(** worker/adapters/metrics_adapter.go *)
Definition worker_MetricsAdapter (recorder : option WorkerMetrics)
    (retryRecorder terminalRecorder : option JobLifecycleMetrics) : Worker.WorkerMetrics W := {|
  Worker.wm_observe := fun x =>
    match x with
    | Worker.JobStarted => recorded recorder JobClaimed
    | Worker.JobEnded => recorded recorder JobAttemptEnded
    | Worker.JobCompleted => recorded terminalRecorder ObserveJobSucceeded
    | Worker.JobFailed => recorded terminalRecorder ObserveJobFailed
    | Worker.JobRetriedModelFailure => recorded retryRecorder ObserveJobRetriedModelFailure
    | Worker.JobRetriedLeaseExpired => recorded retryRecorder ObserveJobRetriedLeaseExpired
    | Worker.ObserveJobProcessingSuccess d =>
        recorded recorder (fun r => ObserveJobProcessingSuccess r d)
    | Worker.ObserveJobProcessingFailure d =>
        recorded recorder (fun r => ObserveJobProcessingFailure r d)
    end;
|}.

(** recovery/adapters/metrics_adapter.go *)
Definition recovery_MetricsAdapter (recorder : option prom_vec)
    (retryRecorder terminalRecorder : option JobLifecycleMetrics)
  : Recovery.RecoveryMetrics W := {|
  Recovery.r_observe := fun x =>
    match x with
    | Recovery.JobRequeued => recorded recorder ObserveJobRecoveredRequeued
    | Recovery.JobRetried => recorded retryRecorder ObserveJobRetriedByRecovery
    | Recovery.JobCompleted => recorded terminalRecorder ObserveJobSucceeded
    | Recovery.JobFailed =>
        _ ← recorded recorder ObserveJobRecoveredFailed;
        recorded terminalRecorder ObserveJobFailed
    end;
|}.

(** inference_server/adapters/metrics_adapter.go and the recorder of
    stream/adapters/metrics_adapter.go *)
Definition llm_ObserveDuration (recorder : option LLMMetrics) (d : Z) : M W unit :=
  recorded recorder (fun r => ObserveGenerationDuration r d).
Definition llm_ObserveTimeToFirstToken (recorder : option LLMMetrics) (d : Z) : M W unit :=
  recorded recorder (fun r => ObserveTimeToFirstToken r d).
Definition stream_ObserveStreamDelivery (recorder : option StreamMetrics) (d : Z) : M W unit :=
  recorded recorder (fun r => ObserveStreamDelivery r d).
Definition stream_ObserveJobEndToEnd (recorder : option StreamMetrics) (d : Z) : M W unit :=
  recorded recorder (fun r => ObserveJobEndToEnd r d).
End adapters.


(** The recorders down to the operations of the library. *)
Create HintDb recorders.
#[export] Hint Unfold recorded inference_MetricsAdapter llm_ObserveDuration
  llm_ObserveTimeToFirstToken stream_ObserveStreamDelivery stream_ObserveJobEndToEnd
  ObserveJobAccepted ObserveJobQueueWait ObserveGenerationDuration ObserveTimeToFirstToken
  ObserveStreamDelivery ObserveJobEndToEnd JobClaimed JobAttemptEnded
  ObserveJobProcessingSuccess ObserveJobProcessingFailure ObserveJobSucceeded ObserveJobFailed
  ObserveJobRetriedModelFailure ObserveJobRetriedLeaseExpired ObserveJobRetriedByRecovery
  ObserveJobRecoveredRequeued ObserveJobRecoveredFailed HTTPMetrics_record : recorders.
