(* ===== verification/MetricsThms.v ===== *)
(** * Theorems about metrics *)

From S2P Require Import Prelude GoText GoErr Env Http HttpThms Metrics.
From S2P Require Admission Worker Recovery.
From stdpp Require Import base gmap list strings pretty.
From Stdlib Require Import ZArith QArith Lia Ascii.
#[local] Open Scope list_scope.

(** ** The series that exist *)

(** The metrics, each with the values every label can have. *)
Definition vocabulary : list (string * list (list string)) :=
  let methods := http_methods ++ ["OTHER"] in
  let routes := http_routes ++ ["other"] in
  [("http_requests_total", [methods; routes; ["1xx"; "2xx"; "3xx"; "4xx"; "5xx"; "other"]]);
   ("http_request_duration_seconds", [methods; routes]);
   ("http_requests_in_flight", [methods; routes]);
   ("admission_duration_seconds", []);
   ("admission_rejections_total", [["token_limit"; "model_not_allowed"; "rate_limited"; "other"]]);
   ("jobs_accepted_total", []);
   ("job_queue_wait_seconds", []);
   ("worker_inflight_jobs", []);
   ("job_processing_seconds", [["succeeded"; "failed"]]);
   ("jobs_terminal_total", [["succeeded"; "failed"]]);
   ("jobs_retried_total", [["model_failure"; "lease_expired"; "recovery"]]);
   ("jobs_recovered_total", [["requeued"; "failed"]]);
   ("llm_time_to_first_token_seconds", []);
   ("llm_generation_seconds", []);
   ("stream_delivery_seconds", []);
   ("job_end_to_end_seconds", [])].

(** Membership in a closed list. *)
Ltac in_vocabulary := by apply (bool_decide_unpack _).

Definition metric_names : list string := vocabulary.*1.

Fixpoint product (ls : list (list string)) : list (list string) :=
  match ls with
  | [] => [[]]
  | l :: rest => x ← l; (fun xs => x :: xs) <$> product rest
  end.

(** All series of a namespace. *)
Definition known_series (ns : string) : list (string * list string) :=
  m ← vocabulary; (fun vs => (ns +:+ "_" +:+ m.1, vs)) <$> product m.2.

Lemma elem_of_product vs ls : Forall2 (fun x l => x ∈ l) vs ls -> vs ∈ product ls.
Proof.
  induction 1 as [|x l vs ls Hx _ IH]; cbn; [by left|].
  apply list_elem_of_bind. exists x. split; [|done]. apply list_elem_of_fmap. eauto.
Qed.

Lemma elem_of_series ns m ls vs :
  (m, ls) ∈ vocabulary -> Forall2 (fun x l => x ∈ l) vs ls ->
  (ns +:+ "_" +:+ m, vs) ∈ known_series ns.
Proof.
  intros Hm Hvs. apply list_elem_of_bind. exists (m, ls). split; [|done].
  apply list_elem_of_fmap. eauto using elem_of_product.
Qed.

(** ** Labels are normalised *)

Lemma existsb_eqb_elem x l : existsb (String.eqb x) l = true -> x ∈ l.
Proof.
  intros (y & Hy & ->%String.eqb_eq)%existsb_exists. by apply list_elem_of_In.
Qed.

Lemma method_known m : normalizeHTTPMethod m ∈ http_methods ++ ["OTHER"].
Proof.
  unfold normalizeHTTPMethod. case_match eqn:H; apply elem_of_app.
  - left. by apply existsb_eqb_elem.
  - right. by left.
Qed.

Lemma route_known r : normalizeHTTPRoute r ∈ http_routes ++ ["other"].
Proof.
  unfold normalizeHTTPRoute. case_match eqn:H; apply elem_of_app.
  - left. by apply existsb_eqb_elem.
  - right. by left.
Qed.

Lemma status_known z :
  normalizeHTTPStatus z ∈ ["1xx"; "2xx"; "3xx"; "4xx"; "5xx"; "other"].
Proof.
  unfold normalizeHTTPStatus. case_match eqn:H.
  - do 5 right. by left.
  - apply orb_false_iff in H as [Hl%Z.ltb_ge Hu%Z.ltb_ge].
    assert (Hq : (1 <= Z.quot z 100 <= 5)%Z).
    { split; [apply Z.quot_le_lower_bound|apply Z.lt_succ_r, Z.quot_lt_upper_bound]; lia. }
    assert (Hc : (Z.quot z 100 = 1 \/ Z.quot z 100 = 2 \/ Z.quot z 100 = 3
                  \/ Z.quot z 100 = 4 \/ Z.quot z 100 = 5)%Z) by lia.
    destruct Hc as [-> | [-> | [-> | [-> | ->]]]]; by apply (bool_decide_unpack _).
Qed.

(** ** Operations on known series *)

Section metrics.
Context {W : Type} `{!Prometheus W} {valid_name : string -> bool}
  `{!PrometheusDoc W valid_name}.
Context (ns : string).

(** Nothing has panicked, only known series exist, no sample is negative. *)
Definition sound_registry (s : prom_data) : Prop :=
  p_panicked s = false
  /\ (forall k, is_Some (p_values s !! k) \/ is_Some (p_samples s !! k) -> k ∈ known_series ns)
  /\ map_Forall (fun _ ds => Forall (fun d => 0 <= d)%Z ds) (p_samples s).

Definition sound_world (regs : list collector) (w : W) : Prop :=
  sound_registry (prom_view w) /\ p_registered (prom_view w) = regs.

(** The use of a collector of the namespace with known labels. *)
Definition labelled (c : collector) (vs : list string) : Prop :=
  c_namespace c = ns /\ length vs = length (c_labels c) /\
  exists ls, (c_name c, ls) ∈ vocabulary /\ Forall2 (fun x l => x ∈ l) vs ls.

Lemma labelled_known c vs : labelled c vs ->
  arity_ok c vs = true /\ (full_name c, vs) ∈ known_series ns.
Proof.
  intros (Hns & Hl & ls & Hm & Hvs). split; [by apply Nat.eqb_eq|].
  unfold full_name. rewrite Hns. by eapply elem_of_series.
Qed.

Lemma add_sound c vs n s :
  labelled c vs -> sound_registry s ->
  sound_registry (add_to c vs n s) /\ p_registered (add_to c vs n s) = p_registered s.
Proof.
  intros [Ha Hk]%labelled_known (Hp & Hs & Hd). unfold add_to. rewrite Ha. split; [|done].
  split; [done|]. split; [|done]. intros k [H|H]; cbn in H; [|by apply Hs; right].
  destruct (decide (k = (full_name c, vs))) as [->|Hne]; [done|].
  rewrite lookup_insert_ne in H by congruence. apply Hs. by left.
Qed.

Lemma sample_sound c vs ds s :
  labelled c vs -> Forall (fun d => 0 <= d)%Z ds -> sound_registry s ->
  sound_registry (sample c vs ds s) /\ p_registered (sample c vs ds s) = p_registered s.
Proof.
  intros [Ha Hk]%labelled_known Hds (Hp & Hs & Hd). unfold sample. rewrite Ha. split; [|done].
  split; [done|]. split.
  - intros k [H|H]; cbn in H; [by apply Hs; left|].
    destruct (decide (k = (full_name c, vs))) as [->|Hne]; [done|].
    rewrite lookup_insert_ne in H by congruence. apply Hs. by right.
  - apply map_Forall_insert_2; [|done]. apply Forall_app. split; [|done].
    destruct (p_samples s !! _) eqn:H; [by apply Hd in H|constructor].
Qed.

(** What the recorders call on a vector. *)
Definition sound_op {A} (op : prom_op A) : Prop :=
  match op with
  | Register _ => False
  | WithLabelValues c vs | Inc c vs | Dec c vs => labelled c vs
  | Observe c vs d => labelled c vs /\ (0 <= d)%Z
  | NilVec => False
  end.

Lemma op_sound {A} regs (op : prom_op A) : sound_op op -> Preserves (sound_world regs) (prom op).
Proof.
  intros Hop w [Hw Hr]. unfold sound_world. rewrite (proj2 (prom_doc op w)), <- Hr.
  destruct op as [c|c vs|c vs|c vs|c vs d|]; cbn in Hop |- *; try done.
  - destruct (c_kind c); auto using add_sound, sample_sound.
  - by apply add_sound.
  - by apply add_sound.
  - destruct Hop. apply sample_sound; [done|by repeat constructor|done].
Qed.

(** A vector of the namespace for the metric [m] with [n] labels. *)
Definition known_vec (m : string) (n : nat) (v : prom_vec) : Prop :=
  exists c, v = Some c /\ c_namespace c = ns /\ c_name c = m /\ length (c_labels c) = n.

Lemma known_labelled m n c vs ls :
  known_vec m n (Some c) -> (m, ls) ∈ vocabulary -> Forall2 (fun x l => x ∈ l) vs ls ->
  n = length vs -> labelled c vs.
Proof. intros (c' & [= <-] & Hns & <- & <-) Hm Hvs Hl. repeat split; eauto. Qed.

(** The uses of a known vector with known values. *)
Lemma use_sound regs m n v ls vs (op : collector -> prom_op unit) :
  known_vec m n v -> (m, ls) ∈ vocabulary -> Forall2 (fun x l => x ∈ l) vs ls ->
  n = length vs -> (forall c, labelled c vs -> sound_op (op c)) ->
  Preserves (sound_world regs) (on_vec v op).
Proof.
  intros Hv Hm Hvs Hl Hop. pose proof Hv as (c & -> & _).
  apply op_sound, Hop. by eapply known_labelled.
Qed.

Lemma observe_sound regs m n v ls vs d :
  known_vec m n v -> (m, ls) ∈ vocabulary -> Forall2 (fun x l => x ∈ l) vs ls ->
  n = length vs -> Preserves (sound_world regs) (observe v vs d).
Proof.
  intros. unfold observe. destruct (Z.leb_spec 0 d);
    eapply use_sound; cbn; eauto.
Qed.

Lemma preset_sound regs m v l :
  known_vec m 1 v -> (m, [l]) ∈ vocabulary -> Preserves (sound_world regs) (preset v l).
Proof.
  intros Hv Hm. assert (Hl : l ⊆ l) by done. revert Hl. generalize l at 1 3 as xs.
  induction xs as [|x xs IH]; intros Hl; [by intros w|]. apply Preserves_bind.
  - eapply (use_sound _ _ _ _ _ [x]); [exact Hv|exact Hm| |reflexivity|intros c Hc; exact Hc].
    apply Forall2_cons.
    split; [apply Hl; by left|constructor].
  - intros _. apply IH. intros y Hy. apply Hl. by right.
Qed.

Lemma preset_result v xs w : (preset v xs w).1 = tt.
Proof. by destruct (preset v xs w) as [[] ?]. Qed.

(** ** Building the recorders *)

(** [names] have been registered by the builder, which has no error. *)
Definition registering (names : list string) (s : MetricBuilder * W) : Prop :=
  s.1 = MkMetricBuilder ns None /\ exists regs, sound_world regs s.2
  /\ c_name <$> regs = names /\ Forall (fun c => c_namespace c = ns) regs.

Context (Hvalid : forall m, m ∈ metric_names -> valid_name (ns +:+ "_" +:+ m) = true).

Lemma full_name_inj c m :
  c_namespace c = ns -> full_name c = ns +:+ "_" +:+ m -> c_name c = m.
Proof.
  unfold full_name. intros ->. by intros ?%(inj (String.app ns))%(inj (String.app "_")).
Qed.

#[local] Arguments String.app : simpl never.

Lemma new_collector_ok kind name help labels names :
  name ∈ metric_names -> name ∉ names ->
  Triple (registering names) (new_collector kind name help labels)
    (fun v s => known_vec name (length labels) v /\ registering (names ++ [name]) s).
Proof.
  intros Hm Hnew [b w] (Hb & regs & [Hw Hregs] & Hnames & Hns). cbn in Hb, Hw, Hregs. subst b.
  unfold new_collector, register, lib, get_world, skip. rewrite bind_unfold. cbn [fst snd].
  rewrite !bind_unfold. cbn [fst snd mb_firstErr mb_namespace].
  set (c := MkCollector kind ns name help labels).
  destruct (prom_doc (Register c) w) as [E1 E2].
  rewrite bind_unfold. cbn [fst snd].
  destruct (prom (Register c) w) as [err w']. cbn in E1, E2 |- *.
  unfold doc_register in E1, E2. rewrite Hregs in E1, E2.
  replace (valid_name (full_name c)) with true in E1, E2 by (symmetry; by apply Hvalid).
  assert (Hfree : existsb (fun c' => String.eqb (full_name c') (full_name c)) regs = false).
  { apply not_true_iff_false. intros (c' & Hin & He%String.eqb_eq)%existsb_exists.
    apply Hnew. rewrite <- Hnames. apply list_elem_of_fmap. exists c'.
    apply list_elem_of_In in Hin. split; [|done]. rewrite Forall_forall in Hns.
    symmetry. apply full_name_inj; [by apply Hns|exact He]. }
  rewrite Hfree in E1, E2. cbn in E1, E2. subst err. cbn. split; [by exists c|]. split; [done|].
  exists (regs ++ [c]). unfold sound_world. cbn. rewrite E2. cbn. split; [done|].
  rewrite fmap_app, Hnames. split; [done|]. apply Forall_app; eauto.
Qed.

Lemma new_histogram_ok name help buckets labels names :
  validateBuckets buckets = None -> name ∈ metric_names -> name ∉ names ->
  Triple (registering names) (newHistogramVecWithBuckets name help buckets labels)
    (fun v s => known_vec name (length labels) v /\ registering (names ++ [name]) s).
Proof.
  intros Hb. unfold newHistogramVecWithBuckets. rewrite Hb. apply new_collector_ok.
Qed.

(** The end of a constructor, whose series are known. *)
Lemma built_ok {A : Type} what (k : M W A) (a : A) names :
  (forall w, (k w).1 = a) -> (forall regs, Preserves (sound_world regs) k) ->
  Triple (registering names) (built what k) (fun r s => r = Ok a /\ registering names s).
Proof.
  intros Ha Hk [b w] (Hb & regs & Hw & Hnames & Hns). cbn in Hb, Hw. subst b.
  unfold built, builder_err, get_world, lib. rewrite !bind_unfold. cbn.
  rewrite bind_unfold. cbn. specialize (Ha w). specialize (Hk regs w Hw).
  destruct (k w) as [a' w']. cbn in *. subst a'. split; [done|].
  split; [done|]. by exists regs.
Qed.

Lemma Triple_known {A C : Type} (P R : MetricBuilder * W -> Prop) (known : A -> Prop) m
    (k : A -> M (MetricBuilder * W) C) Q :
  Triple P m (fun v s => known v /\ R s) -> (forall v, known v -> Triple R (k v) Q) ->
  Triple P (v ← m; k v) Q.
Proof.
  intros Hm Hk. eapply Triple_bind; [exact Hm|]. intros v s [Hv Hs]. by apply (Hk v Hv).
Qed.

(** What a constructor of recorders promises. *)
Definition constructs {A : Type} (m : M (MetricBuilder * W) (res goerr A))
    (known : A -> Prop) (before after : list string) : Prop :=
  Triple (registering before) m (fun r s => (exists a, r = Ok a /\ known a) /\ registering after s).

Lemma built_known {A : Type} what (k : M W A) (a : A) (known : A -> Prop) names :
  (forall w, (k w).1 = a) -> known a -> (forall regs, Preserves (sound_world regs) k) ->
  constructs (built what k) known names names.
Proof.
  intros Ha Hknown Hk. eapply Triple_conseq; [by apply (built_ok what k a)|done|].
  intros r s [-> Hs]. eauto.
Qed.

(** One more collector, whose name is new. *)
Ltac new_one :=
  eapply Triple_known;
  [ first [apply new_collector_ok | apply new_histogram_ok; [vm_compute; reflexivity|..]];
    by apply (bool_decide_unpack _) | cbn [length app]; intros ? ? ].
Ltac result := intros w; step_prog; cbn [fst]; reflexivity.

Record known_http (m : HTTPMetrics) : Prop := {
  kh_requests : known_vec "http_requests_total" 3 (hm_requests m);
  kh_duration : known_vec "http_request_duration_seconds" 2 (hm_duration m);
  kh_inFlight : known_vec "http_requests_in_flight" 2 (hm_inFlight m) }.

Record known_admission (m : AdmissionMetrics) : Prop := {
  ka_duration : known_vec "admission_duration_seconds" 0 (am_duration m);
  ka_rejections : known_vec "admission_rejections_total" 1 (am_rejections m) }.

Record known_worker (m : WorkerMetrics) : Prop := {
  kw_inFlight : known_vec "worker_inflight_jobs" 0 (wm_inFlight m);
  kw_processing : known_vec "job_processing_seconds" 1 (wm_processing m) }.

Record known_job (m : JobLifecycleMetrics) : Prop := {
  kj_terminal : known_vec "jobs_terminal_total" 1 (jm_terminal m);
  kj_retried : known_vec "jobs_retried_total" 1 (jm_retried m);
  kj_recovered : known_vec "jobs_recovered_total" 1 (jm_recovered m) }.

Record known_llm (m : LLMMetrics) : Prop := {
  kl_first : known_vec "llm_time_to_first_token_seconds" 0 (lm_timeToFirstToken m);
  kl_generation : known_vec "llm_generation_seconds" 0 (lm_generation m) }.

Record known_stream (m : StreamMetrics) : Prop := {
  ks_delivery : known_vec "stream_delivery_seconds" 0 (sm_delivery m);
  ks_endToEnd : known_vec "job_end_to_end_seconds" 0 (sm_endToEnd m) }.

Lemma http_constructed : constructs NewHTTPMetrics known_http [] (take 3 metric_names).
Proof.
  unfold constructs, NewHTTPMetrics. do 3 new_one.
  eapply (built_known "HTTP"); [result|by constructor|by intros regs w].
Qed.

(** The series that are made in advance. *)
Ltac presets :=
  intros regs;
  repeat (apply Preserves_bind; [eapply preset_sound; [eassumption|in_vocabulary]|intros _]);
  by intros w.

Lemma admission_constructed :
  constructs NewAdmissionMetrics known_admission (take 3 metric_names) (take 5 metric_names).
Proof.
  unfold constructs, NewAdmissionMetrics. do 2 new_one.
  eapply (built_known "admission"); [result|by constructor|presets].
Qed.

Lemma workload_constructed :
  constructs NewWorkloadMetrics (known_vec "jobs_accepted_total" 0)
    (take 5 metric_names) (take 6 metric_names).
Proof.
  unfold constructs, NewWorkloadMetrics. new_one.
  eapply (built_known "workload"); [result|eassumption|].
  intros regs. apply Preserves_bind; [|by intros _ w].
  eapply (use_sound _ _ _ _ []); [eassumption|in_vocabulary|constructor|done|by intros c].
Qed.

Lemma scheduler_constructed :
  constructs NewSchedulerMetrics (known_vec "job_queue_wait_seconds" 0)
    (take 6 metric_names) (take 7 metric_names).
Proof.
  unfold constructs, NewSchedulerMetrics. new_one.
  eapply (built_known "scheduler"); [result|eassumption|by intros regs w].
Qed.

Lemma worker_constructed :
  constructs NewWorkerMetrics known_worker (take 7 metric_names) (take 9 metric_names).
Proof.
  unfold constructs, NewWorkerMetrics. do 2 new_one.
  eapply (built_known "worker"); [result|by constructor|presets].
Qed.

Lemma job_constructed :
  constructs NewJobLifecycleMetrics known_job (take 9 metric_names) (take 12 metric_names).
Proof.
  unfold constructs, NewJobLifecycleMetrics. do 3 new_one.
  eapply (built_known "job lifecycle"); [result|by constructor|presets].
Qed.

Lemma llm_constructed :
  constructs NewLLMMetrics known_llm (take 12 metric_names) (take 14 metric_names).
Proof.
  unfold constructs, NewLLMMetrics. do 2 new_one.
  eapply (built_known "LLM"); [result|by constructor|by intros regs w].
Qed.

Lemma stream_constructed :
  constructs NewStreamMetrics known_stream (take 14 metric_names) metric_names.
Proof.
  unfold constructs, NewStreamMetrics. do 2 new_one.
  eapply (built_known "stream"); [result|by constructor|by intros regs w].
Qed.

Lemma try_constructed {A C : Type} m (k : A -> M (MetricBuilder * W) (res goerr C))
    (known : A -> Prop) (known' : C -> Prop) before between after :
  constructs m known before between ->
  (forall a, known a -> constructs (k a) known' between after) ->
  constructs (try m k) known' before after.
Proof.
  intros Hm Hk. eapply Triple_bind; [exact Hm|].
  intros r s [(a & -> & Ha) Hs]. by apply (Hk a Ha).
Qed.

Record known_module (m : MetricsModule) : Prop := {
  km_HTTP : known_http (mm_HTTP m);
  km_Admission : known_admission (mm_Admission m);
  km_Workload : known_vec "jobs_accepted_total" 0 (mm_Workload m);
  km_Scheduler : known_vec "job_queue_wait_seconds" 0 (mm_Scheduler m);
  km_Worker : known_worker (mm_Worker m);
  km_Job : known_job (mm_Job m);
  km_Recovery : known_vec "jobs_recovered_total" 1 (mm_Recovery m);
  km_LLM : known_llm (mm_LLM m);
  km_Stream : known_stream (mm_Stream m) }.

Lemma module_constructed : constructs build_metrics known_module [] metric_names.
Proof.
  unfold build_metrics.
  eapply try_constructed; [apply http_constructed|intros http Hhttp].
  eapply try_constructed; [apply admission_constructed|intros admission Hadmission].
  eapply try_constructed; [apply workload_constructed|intros workload Hworkload].
  eapply try_constructed; [apply scheduler_constructed|intros scheduler Hscheduler].
  eapply try_constructed; [apply worker_constructed|intros worker Hworker].
  eapply try_constructed; [apply job_constructed|intros job Hjob].
  eapply try_constructed; [apply llm_constructed|intros llm Hllm].
  eapply try_constructed; [apply stream_constructed|intros stream Hstream].
  intros s Hs. split; [|exact Hs]. eexists. split; [reflexivity|].
  constructor; try done. exact (kj_recovered _ Hjob).
Qed.
End metrics.

(** ** The recorders in use *)

(** A call of a module's adapter, on the recorders that the composition of
    the application gives it. *)
Inductive metrics_call : Type :=
| CallHTTP (x : http_metric)
| CallRequestRejected (reason : Admission.RejectionReason)
| CallRequestFinished (d : Z)
| CallJobAccepted
| CallQueueWait (d : Z)
| CallWorker (x : Worker.worker_metric)
| CallRecovery (x : Recovery.recovery_metric)
| CallGeneration (d : Z)
| CallFirstToken (d : Z)
| CallDelivery (d : Z)
| CallEndToEnd (d : Z).

Section calls.
Context {W : Type} `{!Prometheus W} {valid_name : string -> bool}
  `{!PrometheusDoc W valid_name}.

Definition run_call (m : MetricsModule) (c : metrics_call) : M W unit :=
  let job := Some (mm_Job m) in
  match c with
  | CallHTTP x => HTTPMetrics_record (mm_HTTP m) x
  | CallRequestRejected reason =>
      Admission.MetricsAdapter_RequestRejected
        (admission_MetricsAdapter (Some (mm_Admission m))) reason
  | CallRequestFinished d =>
      Admission.MetricsAdapter_RequestFinished
        (admission_MetricsAdapter (Some (mm_Admission m))) d
  | CallJobAccepted => inference_MetricsAdapter (Some (mm_Workload m))
  | CallQueueWait d =>
      @Scheduler.ObserveQueueWaitDuration _ (scheduler_MetricsAdapter (Some (mm_Scheduler m))) d
  | CallWorker x => @Worker.wm_observe _ (worker_MetricsAdapter (Some (mm_Worker m)) job job) x
  | CallRecovery x =>
      @Recovery.r_observe _ (recovery_MetricsAdapter (Some (mm_Recovery m)) job job) x
  | CallGeneration d => llm_ObserveDuration (Some (mm_LLM m)) d
  | CallFirstToken d => llm_ObserveTimeToFirstToken (Some (mm_LLM m)) d
  | CallDelivery d => stream_ObserveStreamDelivery (Some (mm_Stream m)) d
  | CallEndToEnd d => stream_ObserveJobEndToEnd (Some (mm_Stream m)) d
  end.

(** The use of a known vector, whose labels are found in the vocabulary. *)
Ltac known_value :=
  first [apply method_known | apply route_known | apply status_known | in_vocabulary].
Ltac known_values :=
  first [apply Forall2_nil_2 | apply Forall2_cons; split; [cbv beta; known_value|known_values]].
Ltac find_labels :=
  unfold vocabulary; cbv zeta; repeat first [apply list_elem_of_here | apply list_elem_of_further].
Ltac known_on vs :=
  eapply (use_sound _ _ _ _ _ _ vs);
  [eassumption | find_labels | known_values | reflexivity | intros c Hc; exact Hc].
Ltac known_use :=
  lazymatch goal with
  | |- Preserves _ (on_vec _ (fun c => Inc c ?vs)) => known_on vs
  | |- Preserves _ (on_vec _ (fun c => Dec c ?vs)) => known_on vs
  | |- Preserves _ (observe _ _ _) =>
      eapply observe_sound; [eassumption | find_labels | known_values | reflexivity]
  end.

Lemma call_sound ns regs m c :
  known_module ns m -> Preserves (sound_world ns regs) (run_call m c).
Proof.
  intros [[] [] ? ? [] [] ? [] []].
  destruct c as [x|reason|d| |d|x|x|d|d|d|d]; try destruct x; try destruct reason;
    cbn; autounfold with recorders; cbn; try known_use.
  (* a failed recovery is counted twice *)
  apply Preserves_bind; [|intros _]; known_use.
Qed.

Definition run_calls (m : MetricsModule) (cs : list metrics_call) : M W unit :=
  for_each (run_call m) cs.

Definition namespace (cfg : string) : string := if str_empty cfg then "inference" else cfg.

(** C27: the metrics are well-typed and bounded.  On a registry that accepts
    the names of the module, its construction succeeds; from then on,
    whatever the modules report, in any order and with any method, route,
    status or duration, no call has the wrong number of label values (which
    would panic), no negative duration is observed, and the series that exist
    are among the 661 that the vocabulary of labels allows. *)
Theorem metrics_bounded (cfg : string) (calls : list metrics_call) (w : W)
    (Hw : prom_view w = empty_registry)
    (Hvalid : forall m, m ∈ metric_names -> valid_name (namespace cfg +:+ "_" +:+ m) = true) :
  exists m, (NewMetricsModule cfg true w).1 = Ok m /\
  let s := prom_view (run_calls m calls (NewMetricsModule cfg true w).2).2 in
  p_panicked s = false
  /\ map_Forall (fun _ ds => Forall (fun d => 0 <= d)%Z ds) (p_samples s)
  /\ (forall k, is_Some (p_values s !! k) \/ is_Some (p_samples s !! k) ->
       k ∈ known_series (namespace cfg))
  /\ length (known_series (namespace cfg)) = 661%nat.
Proof.
  unfold NewMetricsModule, NewMetricBuilder. cbn [negb]. fold (namespace cfg).
  destruct (module_constructed (namespace cfg) Hvalid (MkMetricBuilder (namespace cfg) None, w))
    as [(m & Hm & Hknown) (_ & regs & Hs & _)].
  { split; [done|]. exists []. unfold sound_world. cbn. rewrite Hw.
    split; [|by repeat constructor]. split; [|done].
    split; [done|]. split; [|apply map_Forall_empty].
    intros k [[? H]|[? H]]; cbn in H; by apply lookup_empty_Some in H. }
  destruct (build_metrics _) as [r [b w1]]. cbn in Hm, Hs |- *. subst r.
  exists m. split; [done|].
  assert (Preserves (sound_world (namespace cfg) regs) (run_calls m calls)) as Hp.
  { apply Preserves_for_each. intros c. by apply call_sound. }
  destruct (Hp w1 Hs) as [(H1 & H2 & H3) _]. repeat split; try done.
Qed.
End calls.

(** A registry that accepts every name. *)
#[local] Instance any_name : Prometheus prom_data := prom_data_lib (fun _ => true).

Lemma metrics_bounded_witness :
  exists m, (NewMetricsModule "" true (empty_registry : prom_data)).1 = Ok m /\
  let s := (run_calls m [CallHTTP (ObserveHTTPRequest "brew" "/api/health/live" 418);
                         CallWorker Worker.JobFailed; CallDelivery (-5)]
              (NewMetricsModule "" true empty_registry).2).2 in
  p_panicked s = false
  /\ map_Forall (fun _ ds => Forall (fun d => 0 <= d)%Z ds) (p_samples s)
  /\ (forall k, is_Some (p_values s !! k) \/ is_Some (p_samples s !! k) ->
      k ∈ known_series "inference")
  /\ length (known_series "inference") = 661%nat.
Proof.
  exact (@metrics_bounded prom_data any_name (fun _ => true)
           (prom_data_doc (fun _ => true)) ""
           [CallHTTP (ObserveHTTPRequest "brew" "/api/health/live" 418);
            CallWorker Worker.JobFailed; CallDelivery (-5)]
           empty_registry eq_refl (fun _ _ => eq_refl)).
Defined.

(** The routes of the health checks are not in the vocabulary: their requests
    are counted as those of unknown routes. *)
Example health_route_other :
  normalizeHTTPRoute "/api/health/live" = "other"
  /\ normalizeHTTPRoute "/api/health/ready" = "other"
  /\ normalizeHTTPRoute "/api/stream/:jobID" = "/stream/:jobID".
Proof. vm_compute. done. Qed.

(** ** The middleware of requests *)

Definition value (s : prom_data) (k : string * list string) : Z := default 0%Z (p_values s !! k).

Lemma add_value c vs n s k : arity_ok c vs = true ->
  value (add_to c vs n s) k = (value s k + if decide (k = (full_name c, vs)) then n else 0)%Z.
Proof.
  intros Ha. unfold value, add_to. rewrite Ha. cbn. case_decide as Hk.
  - subst k. by rewrite lookup_insert_eq.
  - rewrite lookup_insert_ne by congruence. lia.
Qed.

Lemma sample_value c vs ds s k : value (sample c vs ds s) k = value s k.
Proof. unfold value, sample. by case_match. Qed.

Section http.
Context {W : Type} `{!Prometheus W} {valid_name : string -> bool}
  `{!PrometheusDoc W valid_name}.
Context {G : Type} `{!Gin G, !GinDoc G, !GoClock W}.
Context (ns : string) (m : HTTPMetrics) (Hm : known_http ns m).

Definition in_flight (w : W) (l : list string) : Z :=
  value (prom_view w) (ns +:+ "_" +:+ "http_requests_in_flight", l).
Definition requests (w : W) (l : list string) : Z :=
  value (prom_view w) (ns +:+ "_" +:+ "http_requests_total", l).

Definition count {A} `{!EqDecision A} (x y : A) : Z := if decide (x = y) then 1 else 0.

Lemma inc_value name v vs (w : W) k : known_vec ns name (length vs) v ->
  value (prom_view (on_vec v (fun c => Inc c vs) w).2) k
  = (value (prom_view w) k + count k (ns +:+ "_" +:+ name, vs))%Z.
Proof.
  intros (c & -> & Hns & Hname & Hl). cbn. rewrite (proj2 (prom_doc _ w)). cbn.
  rewrite add_value by (apply Nat.eqb_eq; lia). unfold count, full_name.
  rewrite Hns, Hname. by case_decide.
Qed.

Lemma dec_value name v vs (w : W) k : known_vec ns name (length vs) v ->
  value (prom_view (on_vec v (fun c => Dec c vs) w).2) k
  = (value (prom_view w) k - count k (ns +:+ "_" +:+ name, vs))%Z.
Proof.
  intros (c & -> & Hns & Hname & Hl). cbn. rewrite (proj2 (prom_doc _ w)). cbn.
  rewrite add_value by (apply Nat.eqb_eq; lia). unfold count, full_name.
  rewrite Hns, Hname. case_decide; lia.
Qed.

Lemma value_same c vs ds (s : prom_data) k :
  value (add_to c vs 0 s) k = value s k /\ value (sample c vs ds s) k = value s k.
Proof.
  split; [|apply sample_value]. destruct (arity_ok c vs) eqn:Ha.
  - rewrite add_value by done. case_decide; lia.
  - unfold add_to. by rewrite Ha.
Qed.

Lemma observe_value v vs d (w : W) k :
  value (prom_view (observe v vs d w).2) k = value (prom_view w) k.
Proof.
  unfold observe, on_vec. destruct (Z.leb_spec 0 d), v as [c|]; cbn;
    rewrite (proj2 (prom_doc _ w)); cbn; try done.
  - apply (value_same c vs [d]).
  - destruct (c_kind c); first [apply (value_same c vs []) | done].
Qed.

(** Series of different metrics, or with different values, are different. *)
Lemma count_ne (a b : string) (l vs : list string) :
  a <> b -> count (ns +:+ "_" +:+ a, l) (ns +:+ "_" +:+ b, vs) = 0%Z.
Proof.
  intros Hab. unfold count. rewrite decide_False; [done|].
  by intros [= H%(inj (String.app ns))%(inj (String.app "_")) _].
Qed.

Lemma count_labels (a : string) (l vs : list string) :
  count (ns +:+ "_" +:+ a, l) (ns +:+ "_" +:+ a, vs) = count l vs.
Proof. unfold count. repeat case_decide; congruence. Qed.

(** What a report of the middleware does to the two metrics. *)
Lemma record_effect x (w : W) l :
  let w' := (HTTPMetrics_record m x w).2 in
  in_flight w' l = (in_flight w l + match x with
      | IncHTTPInFlight me r => count l [normalizeHTTPMethod me; normalizeHTTPRoute r]
      | DecHTTPInFlight me r => - count l [normalizeHTTPMethod me; normalizeHTTPRoute r]
      | _ => 0
      end)%Z
  /\ requests w' l = (requests w l + match x with
      | ObserveHTTPRequest me r st =>
          count l [normalizeHTTPMethod me; normalizeHTTPRoute r; normalizeHTTPStatus st]
      | _ => 0
      end)%Z.
Proof.
  destruct Hm as [Hr _ Hf]. unfold in_flight, requests. cbv zeta.
  destruct x as [me r|me r|me r st|me r d]; cbn [HTTPMetrics_record].
  - rewrite !(inc_value _ _ [_; _] _ _ Hf).
    rewrite count_labels, count_ne by done. lia.
  - rewrite !(dec_value _ _ [_; _] _ _ Hf).
    rewrite count_labels, count_ne by done. lia.
  - rewrite !(inc_value _ _ [_; _; _] _ _ Hr).
    rewrite count_labels, count_ne by done. lia.
  - rewrite !observe_value. lia.
Qed.

Definition same_http (w w' : W) : Prop :=
  (forall l, in_flight w' l = in_flight w l) /\ forall l, requests w' l = requests w l.

Lemma same_view w w' : prom_view w' = prom_view w -> same_http w w'.
Proof. intros H. unfold same_http, in_flight, requests. by rewrite H. Qed.

(** What runs behind the middleware does so with the gauge one higher;
    afterwards the gauge is what it was, and the counter one higher. *)
Lemma middleware_counts {A} (method : string) (next : M (G * W) A) (g : G) (w : W)
    (Hclock : forall w, prom_view (time_Now w).2 = prom_view w)
    (Hpath : forall g w, g_path (gin_view (next (g, w)).2.1) = g_path (gin_view g))
    (Hnext : forall g w, same_http w (next (g, w)).2.2) :
  let labels := [normalizeHTTPMethod method;
                 normalizeHTTPRoute (matched_route (g_path (gin_view g)))] in
  let p := MetricsMiddleware method (Some (HTTPMetrics_record m)) next (g, w) in
  exists g1 w1,
    gin_view g1 = gin_view g
    /\ (forall l, in_flight w1 l = (in_flight w l + count l labels)%Z)
    /\ p.1 = (next (g1, w1)).1
    /\ gin_view p.2.1 = gin_view (next (g1, w1)).2.1
    /\ (forall l, in_flight p.2.2 l = in_flight w l)
    /\ (forall l, requests p.2.2 l = (requests w l + count l
          (labels ++ [normalizeHTTPStatus (default 200%Z (g_status (gin_view p.2.1)))]))%Z).
Proof.
  cbv zeta. unfold MetricsMiddleware.
  set (route := matched_route (g_path (gin_view g))).
  set (w0 := (time_Now w).2). set (g1 := (gin_call FullPath g).2).
  set (w1 := (HTTPMetrics_record m (IncHTTPInFlight method route) w0).2).
  exists g1, w1.
  assert (Hg1 : gin_view g1 = gin_view g) by (unfold g1; by rewrite gin_run_view).
  assert (H0 : same_http w w0) by (apply same_view, Hclock).
  pose proof (record_effect (IncHTTPInFlight method route) w0) as H1.
  rewrite bind_unfold, svc_run. cbn [fst snd].
  rewrite bind_unfold, gin_run. cbn [doc_gin fst snd]. fold route w0 g1.
  rewrite bind_unfold, svc_run. cbn [fst snd]. fold w1. rewrite bind_unfold.
  pose proof (Hpath g1 w1) as Hp2. pose proof (Hnext g1 w1) as H2.
  destruct (next (g1, w1)) as [r [g2 w2]]. cbn [fst snd] in Hp2, H2 |- *.
  gin_step. cbn [doc_gin]. rewrite !gin_run_view. cbn [doc_gin fst snd]. rewrite Hp2, Hg1.
  fold route. set (w3 := (HTTPMetrics_record m (DecHTTPInFlight method route) w2).2).
  assert (H3 : same_http w3 (time_Now w3).2) by (apply same_view, Hclock).
  assert (Ef : forall l, in_flight w1 l = _) by (intros l; exact (proj1 (H1 l))).
  assert (Er : forall l, requests w1 l = _) by (intros l; exact (proj2 (H1 l))).
  cbn [app]. split; [done|]. split; [intros l|split; [done|split; [done|split; intros l]]].
  - rewrite Ef. by rewrite (proj1 H0).
  - rewrite !(proj1 (record_effect _ _ _)), (proj1 H3). unfold w3.
    rewrite (proj1 (record_effect _ _ _)), (proj1 H2), Ef, (proj1 H0). lia.
  - rewrite !(proj2 (record_effect _ _ _)), (proj2 H3). unfold w3.
    rewrite (proj2 (record_effect _ _ _)), (proj2 H2), Er, (proj2 H0). lia.
Qed.

(** C28: every request under /api is answered and counted once, whatever its
    handler does.  Let the handler of a route return or panic, after any
    writes to the response and any effects that leave the two metrics of
    requests and the matched route alone.  It runs once, with the id of the
    request in its context and in the header of the response, and with the
    gauge of requests in flight one higher for its method and route.  No panic
    escapes the middleware; the response is the one the handler left, with
    status 500 if it panicked before the status was sent.  Afterwards the
    gauge is what it was, and the counter of the method, the route and the
    status that was answered has gone up by one; no other series of the two
    metrics has changed. *)
Theorem request_counted (method : string) uuid (next : M (G * W) exit) (g : G) (w : W)
    (Hclock : forall w, prom_view (time_Now w).2 = prom_view w)
    (Huuid : forall w, prom_view (uuid w).2 = prom_view w)
    (Hpath : forall g w, g_path (gin_view (next (g, w)).2.1) = g_path (gin_view g))
    (Hnext : forall g w, same_http w (next (g, w)).2.2) :
  let labels := [normalizeHTTPMethod method;
                 normalizeHTTPRoute (matched_route (g_path (gin_view g)))] in
  let p := api_Use method (Some (HTTPMetrics_record m)) uuid next (g, w) in
  exists g1 w1 id,
    gin_view g1 = set_out <["X-Request-Id" := id]> (set_values <["request_id" := id]> (gin_view g))
    /\ (header (gin_view g) "X-Request-Id" <> "" -> id = header (gin_view g) "X-Request-Id")
    /\ (forall l, in_flight w1 l = (in_flight w l + count l labels)%Z)
    /\ p.1 = Returned
    /\ gin_view p.2.1 = recovered (next (g1, w1)).1 (gin_view (next (g1, w1)).2.1)
    /\ (forall l, in_flight p.2.2 l = in_flight w l)
    /\ (forall l, requests p.2.2 l = (requests w l + count l
          (labels ++ [normalizeHTTPStatus (default 200%Z (g_status (gin_view p.2.1)))]))%Z).
Proof.
  cbv zeta. unfold api_Use.
  set (inner := RecoveryMiddleware (RequestContextMiddleware uuid next)).
  assert (Hin : forall g w, exists g1 w1 id,
      gin_view g1 = set_out <["X-Request-Id" := id]> (set_values <["request_id" := id]> (gin_view g))
      /\ (header (gin_view g) "X-Request-Id" <> "" -> id = header (gin_view g) "X-Request-Id")
      /\ prom_view w1 = prom_view w /\ (inner (g, w)).1 = Returned
      /\ gin_view (inner (g, w)).2.1 = recovered (next (g1, w1)).1 (gin_view (next (g1, w1)).2.1)
      /\ (inner (g, w)).2.2 = (next (g1, w1)).2.2).
  { intros g0 w0. destruct (request_context_runs uuid next g0 w0) as (g1 & w1 & id & E & Hg1 & Hid).
    exists g1, w1, id. unfold inner.
    destruct (recovery_runs (RequestContextMiddleware uuid next) g0 w0) as (H1 & H2 & H3).
    rewrite E in H2, H3. split; [exact Hg1|]. split; [|split; [|done]].
    - intros Hs. cbv zeta in Hid. destruct (header (gin_view g0) "X-Request-Id"); [done|].
      by injection Hid.
    - pose proof (Huuid w0) as Hu. cbv zeta in Hid. rewrite <- Hu.
      destruct (str_empty _); [by rewrite <- Hid|]. by injection Hid as _ ->. }
  destruct (middleware_counts method inner g w Hclock) as (g0 & w0 & Hg0 & Hf & Hp & Hv & Hg & Hr).
  - intros g0 w0. destruct (Hin g0 w0) as (g1 & w1 & id & Hg1 & _ & _ & _ & -> & _).
    transitivity (g_path (gin_view (next (g1, w1)).2.1)); [by destruct (next (g1, w1)) as [[] ?]|].
    by rewrite Hpath, Hg1.
  - intros g0 w0. destruct (Hin g0 w0) as (g1 & w1 & id & _ & _ & Hw1 & _ & _ & ->).
    destruct (Hnext g1 w1) as [H1 H2]. apply same_view in Hw1 as [H3 H4].
    split; intros l; [rewrite H1|rewrite H2]; auto.
  - destruct (Hin g0 w0) as (g1 & w1 & id & Hg1 & Hid & Hw1 & Hr1 & Hv1 & _). rewrite Hg0 in *.
    exists g1, w1, id. apply same_view in Hw1 as [H3 _]. split; [done|]. split; [done|].
    split; [intros l; by rewrite H3|]. split; [by rewrite Hp|]. split; [by rewrite Hv|]. done.
Qed.
End http.

Module MetricsDemo.
#[local] Instance clock : GoClock prom_data := {| time_Now := mret 0%Z |}.
#[local] Instance doc : PrometheusDoc prom_data (fun _ => true) := prom_data_doc (fun _ => true).

Definition m : HTTPMetrics :=
  match (NewMetricsModule "" true (empty_registry : prom_data)).1 with
  | Ok m => mm_HTTP m
  | Err _ => MkHTTPMetrics None None None
  end.

(** A handler that panics, and a request for the stream of a job. *)
Definition panicking : M (gin_state * prom_data) exit := mret (Panicked "index out of range").
Definition uuid : M prom_data string := mret "req-1".
Definition g : gin_state :=
  MkGin ∅ ∅ (fun _ => Ok []) 0 "h" "/api/stream/:jobID" ∅ ∅ None None [] false ∅ None [] [] [].

Lemma known : known_http "inference" m.
Proof. split; by eexists. Defined.
End MetricsDemo.
#[local] Existing Instance MetricsDemo.clock.
#[local] Existing Instance MetricsDemo.doc.

Lemma request_counted_witness :
  let p := api_Use "get" (Some (HTTPMetrics_record MetricsDemo.m)) MetricsDemo.uuid
              MetricsDemo.panicking (MetricsDemo.g, empty_registry) in
  g_status (gin_view p.2.1) = Some 500%Z
  /\ in_flight "inference" p.2.2 ["GET"; "/stream/:jobID"] = 0%Z
  /\ requests "inference" p.2.2 ["GET"; "/stream/:jobID"; "5xx"] = 1%Z.
Proof.
  destruct (@request_counted prom_data any_name (fun _ => true) MetricsDemo.doc gin_state _ _
              MetricsDemo.clock "inference" MetricsDemo.m MetricsDemo.known "get" MetricsDemo.uuid
              MetricsDemo.panicking MetricsDemo.g empty_registry)
    as (g1 & w1 & id & Hg1 & _ & _ & _ & Hv & Hf & Hr).
  - intros w. reflexivity.
  - intros w. reflexivity.
  - intros g w. reflexivity.
  - intros g w. split; reflexivity.
  - cbv zeta in Hv, Hr |- *. rewrite Hv in Hr |- *.
    change (gin_view (MetricsDemo.panicking (g1, w1)).2.1) with (gin_view g1) in *.
    rewrite Hg1 in Hr |- *.
    split; [reflexivity|]. split; [rewrite Hf; reflexivity|rewrite Hr; reflexivity].
Defined.
