(* ===== verification/Logging.v ===== *)
(** * Logging (internal/observability/logger)

    The handler of records that puts the ids of a request into them, over
    [log/slog], and what the records of a request hold.  The values of a
    context that have the package's keys are a map, as in Http.v. *)

From S2P Require Import Prelude GoText GoErr Env Http HttpThms.
From stdpp Require Import base gmap list strings.
From Stdlib Require Import ZArith.

(** ** public.go *)

Abbreviation log_context := (gmap string string).

Definition requestIDKey := "request_id".
Definition userIDKey := "user_id".

Definition WithRequestID (ctx : log_context) (requestID : string) : log_context :=
  <[requestIDKey := requestID]> ctx.
Definition RequestID (ctx : log_context) : string := default "" (ctx !! requestIDKey).
Definition WithUserID (ctx : log_context) (userID : string) : log_context :=
  <[userIDKey := userID]> ctx.
Definition UserID (ctx : log_context) : string := default "" (ctx !! userIDKey).

(** ** log/slog *)

Abbreviation Attr := (string * string)%type.

(** A [slog.Record]; the time and the program counter are those of the call. *)
Record LogRecord := MkLogRecord {
  lr_Level : Z; lr_Message : string; lr_Attrs : list Attr }.

Definition AddAttrs (attrs : list Attr) (r : LogRecord) : LogRecord :=
  MkLogRecord (lr_Level r) (lr_Message r) (lr_Attrs r ++ attrs).

(** The interface [slog.Handler]; a context may be [nil]. *)
Class SlogHandler (H W : Type) := {
  sl_Enabled : H -> option log_context -> Z -> M W bool;
  sl_Handle : H -> option log_context -> LogRecord -> M W (option goerr);
  sl_WithAttrs : H -> list Attr -> H;
  sl_WithGroup : H -> string -> H;
}.

(** [Logger.InfoContext] and the like: the answer of the handler is dropped. *)
Definition slog_Log {H W : Type} `{!SlogHandler H W} (h : H) (ctx : log_context) (level : Z)
    (message : string) (attrs : list Attr) : M W unit :=
  enabled ← sl_Enabled h (Some ctx) level;
  if (enabled : bool) then
    _ ← sl_Handle h (Some ctx) (MkLogRecord level message attrs); skip
  else skip.

(** ** handler.go *)

(** A [ContextHandler] embeds a handler. *)
Record ContextHandler (H : Type) := MkContextHandler { ch_Handler : H }.
Arguments MkContextHandler {H}.
Arguments ch_Handler {H}.

Section handler.
Context {H W : Type} `{!SlogHandler H W}.

Definition NewContextHandler (handler : H) : ContextHandler H := MkContextHandler handler.

Definition Handle (h : ContextHandler H) (ctx : option log_context) (record : LogRecord)
  : M W (option goerr) :=
  match ctx with
  | None => sl_Handle (ch_Handler h) None record
  | Some c =>
      let requestID := RequestID c in
      let record :=
        if str_empty requestID then record else AddAttrs [("request.id", requestID)] record in
      let userID := UserID c in
      let record :=
        if str_empty userID then record else AddAttrs [("user.id", userID)] record in
      sl_Handle (ch_Handler h) (Some c) record
  end.

Definition WithAttrs (h : ContextHandler H) (attrs : list Attr) : ContextHandler H :=
  MkContextHandler (sl_WithAttrs (ch_Handler h) attrs).

Definition WithGroup (h : ContextHandler H) (name : string) : ContextHandler H :=
  MkContextHandler (sl_WithGroup (ch_Handler h) name).

(** [Enabled] is that of the embedded handler. *)
#[global] Instance context_handler : SlogHandler (ContextHandler H) W := {|
  sl_Enabled := fun h => sl_Enabled (ch_Handler h);
  sl_Handle := Handle;
  sl_WithAttrs := WithAttrs;
  sl_WithGroup := WithGroup;
|}.
End handler.

(** ** logger.go *)

Record Config := MkConfig { Level : Z; AddSource : bool }.

(** [slog.NewJSONHandler] on the standard output, with these options. *)
Definition New {H : Type} (NewJSONHandler : Config -> H) (cfg : Config) : ContextHandler H :=
  NewContextHandler (NewJSONHandler cfg).

(** ** What a record is given of its context *)

Definition context_attrs (ctx : log_context) : list Attr :=
  (if str_empty (RequestID ctx) then [] else [("request.id", RequestID ctx)])
  ++ (if str_empty (UserID ctx) then [] else [("user.id", UserID ctx)]).

Definition in_context (ctx : option log_context) (r : LogRecord) : LogRecord :=
  match ctx with Some c => AddAttrs (context_attrs c) r | None => r end.

(** The ways to derive a handler from another: [Logger.With] and
    [Logger.WithGroup]. *)
Inductive derivation : Type := ByAttrs (attrs : list Attr) | ByGroup (name : string).

(** [W] is not determined by the derivations, and is given. *)
Definition derive {H : Type} (W : Type) `{!SlogHandler H W} (h : H) (ds : list derivation) : H :=
  foldl (fun h d => match d with
                    | ByAttrs attrs => sl_WithAttrs h attrs
                    | ByGroup name => sl_WithGroup h name
                    end) h ds.

Section theorems.
Context {H W : Type} `{!SlogHandler H W}.

Lemma AddAttrs_app a b r : AddAttrs b (AddAttrs a r) = AddAttrs (a ++ b) r.
Proof. unfold AddAttrs. cbn. by rewrite <- app_assoc. Qed.

Lemma AddAttrs_nil r : AddAttrs [] r = r.
Proof. destruct r. unfold AddAttrs. cbn. by rewrite app_nil_r. Qed.

Lemma Handle_in_context (h : ContextHandler H) ctx r :
  Handle h ctx r = sl_Handle (ch_Handler h) ctx (in_context ctx r).
Proof.
  destruct ctx as [c|]; [|done]. cbn [Handle in_context]. unfold context_attrs. cbv zeta.
  destruct (str_empty (RequestID c)), (str_empty (UserID c));
    by rewrite ?AddAttrs_app, ?AddAttrs_nil.
Qed.

Lemma derive_inner (h : ContextHandler H) ds :
  derive W h ds = MkContextHandler (derive W (ch_Handler h) ds).
Proof.
  unfold derive. revert h. induction ds as [|d ds IH]; intros h; [by destruct h|].
  cbn [foldl]. rewrite IH. by destruct d.
Qed.

(** However the logger of the program is derived further, it is the JSON
    logger derived in the same way, but for the ids: what is enabled is the
    same, and a record goes out with those of its context. *)
Theorem derived_logger (NewJSONHandler : Config -> H) cfg ds ctx level message attrs w :
  slog_Log (derive W (New NewJSONHandler cfg) ds) ctx level message attrs w
  = slog_Log (derive W (NewJSONHandler cfg) ds) ctx level message (attrs ++ context_attrs ctx) w.
Proof.
  rewrite derive_inner. unfold slog_Log. rewrite !bind_unfold.
  cbn [sl_Enabled sl_Handle context_handler ch_Handler New NewContextHandler].
  destruct (sl_Enabled _ _ _ w) as [[] w1]; [|done]. cbn [fst snd].
  by rewrite !bind_unfold, Handle_in_context.
Qed.

(** The ids of a context. *)
Lemma ids_round_trip ctx r u :
  RequestID (WithUserID (WithRequestID ctx r) u) = r /\ UserID (WithUserID (WithRequestID ctx r) u) = u.
Proof.
  unfold RequestID, UserID, WithUserID, WithRequestID, requestIDKey, userIDKey.
  by rewrite lookup_insert_ne, !lookup_insert_eq by done.
Qed.
End theorems.

(** ** The records of a request *)

Section request.
Context {H W G V : Type} `{!SlogHandler H W, !Gin G, !GinDoc G}.

(** Whatever is logged with the context of a request that is still not
    authenticated carries the id that the client finds in the header
    X-Request-Id of the response: the one it has sent, or a fresh one. *)
Theorem request_id_logged {A} uuid (next : M (G * V) A) (g : G) (v : V) :
  g_values (gin_view g) = ∅ ->
  exists g1 v1 id, RequestContextMiddleware uuid next (g, v) = next (g1, v1)
    /\ id = (let sent := header (gin_view g) "X-Request-Id" in
             if str_empty sent then (uuid v).1 else sent)
    /\ g_out (gin_view g1) !! "X-Request-Id" = Some id
    /\ forall (h : ContextHandler H) r,
         sl_Handle (W := W) h (Some (g_values (gin_view g1))) r
         = sl_Handle (ch_Handler h) (Some (g_values (gin_view g1)))
             (AddAttrs (if str_empty id then [] else [("request.id", id)]) r).
Proof.
  intros Hv. destruct (request_context_runs uuid next g v) as (g1 & v1 & id & E & Hg & Hid).
  exists g1, v1, id. split; [exact E|]. cbv zeta in *.
  split; [destruct (str_empty (header _ _)); [by rewrite <- Hid|by injection Hid]|].
  split; [rewrite Hg; apply lookup_insert_eq|]. intros h r.
  cbn [sl_Handle context_handler]. rewrite Handle_in_context. cbn [in_context].
  do 2 f_equal. rewrite Hg. cbn [g_values set_out set_values]. rewrite Hv.
  unfold context_attrs, RequestID, UserID, requestIDKey, userIDKey.
  rewrite lookup_insert_eq, lookup_insert_ne, lookup_empty by done. cbn [default].
  by rewrite app_nil_r.
Qed.
End request.

(** *** A logger that keeps its lines *)

Module LogDemo.
(** What is in front of the message, and the smallest level. *)
Record handler := MkHandler { prefix : list string; least : Z }.

#[global] Instance lines : SlogHandler handler (list (list string * LogRecord)) := {|
  sl_Enabled := fun h _ level => mret (least h <=? level)%Z;
  sl_Handle := fun h _ r => _ ← modify_world (fun w => w ++ [(prefix h, r)]); mret None;
  sl_WithAttrs := fun h attrs => MkHandler (prefix h ++ (fst <$> attrs)) (least h);
  sl_WithGroup := fun h name => MkHandler (prefix h ++ [name]) (least h) |}.

Definition log : ContextHandler handler := New (fun c => MkHandler [] (Level c)) (MkConfig 0 false).
End LogDemo.

(** An information and a record below the level, in a group. *)
Example logged :
  let ctx := WithUserID (WithRequestID (∅ : log_context) "r-1") "u" in
  let h := sl_WithGroup (W := list (list string * LogRecord)) LogDemo.log "job" in
  (_ ← slog_Log h ctx 0 "queued" [("id", "j")]; slog_Log h ctx (-4) "noise" []) []
  = (tt, [(["job"], MkLogRecord 0 "queued" [("id", "j"); ("request.id", "r-1"); ("user.id", "u")])]).
Proof. reflexivity. Qed.
