(* ===== verification/Health.v ===== *)
(** * Health checks (internal/health_checker) *)

From S2P Require Import Prelude GoText GoErr Redis Env Http.
From stdpp Require Import base gmap list strings.
From Stdlib Require Import ZArith Lia.

(** [pgPool.Ping]. *)
Class PgPing (W : Type) := { pg_Ping : M W (option goerr) }.

(** ** service/health_service.go *)

(** Whether the clients are there, and the timeout of a check. *)
Record HealthService := MkHealthService {
  hs_pgPool : bool; hs_redis : bool; hs_timeout : Z }.

Definition NewHealthService (pgPool redisClient : bool) (timeout : Z) : HealthService :=
  MkHealthService pgPool redisClient (if (timeout <=? 0)%Z then 5 * second else timeout)%Z.

Section service.
Context {W : Type} `{!PgPing W, !RedisClient W}.

Definition CheckPostgres (s : option HealthService) : M W (option goerr) :=
  if match s with Some s => hs_pgPool s | None => false end then
    err ← pg_Ping;
    mret match err with
         | Some err => Some (errorf_w "postgres health check failed: " (Some err))
         | None => None
         end
  else mret (Some (errors_New "postgres health check failed: client is not configured")).

Definition CheckRedis (s : option HealthService) : M W (option goerr) :=
  if match s with Some s => hs_redis s | None => false end then
    r ← rc_run (call PING);
    mret match r with
         | Err err => Some (errorf_w "redis health check failed: " (Some err))
         | Ok _ => None
         end
  else mret (Some (errors_New "redis health check failed: client is not configured")).

(** The two checks, goroutines of the code, run one after the other; the
    error of PostgreSQL comes first. *)
Definition Check (s : option HealthService) : M W (option goerr) :=
  postgresErr ← CheckPostgres s;
  redisErr ← CheckRedis s;
  mret match postgresErr with Some err => Some err | None => redisErr end.
End service.

(** ** handler/health_handler.go *)

Section handler.
Context {G V : Type} `{!Gin G, !PgPing V, !RedisClient V}.

Definition health_ok : json := jobject [("status", jstr "ok")].
Definition health_error (message : string) : json :=
  jobject [("status", jstr "error"); ("message", jstr message)].

Definition Liveness : handler G V := gin (WriteJSON 200 health_ok).

Definition Readiness (service : option HealthService) : handler G V :=
  match service with
  | None => gin (WriteJSON 503 (health_error "health service is not configured"))
  | Some s =>
      err ← svc (Check (Some s));
      match err with
      | Some err => gin (WriteJSON 503 (health_error (error_string err)))
      | None => gin (WriteJSON 200 health_ok)
      end
  end.

(** ** routes.go *)

Inductive health_route : Type := GET_live | GET_ready.

Definition RegisterHealthRoutes (service : option HealthService) (r : health_route)
  : handler G V :=
  match r with
  | GET_live => Liveness
  | GET_ready => Readiness service
  end.
End handler.

(** The module, given whether its dependencies are there. *)
Definition NewHealthCheckerModule (pgPool redisClient logger : bool) (Timeout : Z)
  : res goerr HealthService :=
  if negb pgPool then
    Err (errors_New "health checker dependencies: postgres pool must not be nil")
  else if negb redisClient then
    Err (errors_New "health checker dependencies: redis client must not be nil")
  else if (Timeout <=? 0)%Z then
    Err (errors_New "health checker config: timeout must be greater than zero")
  else if negb logger then Err (errors_New "health checker logger must not be nil")
  else Ok (NewHealthService pgPool redisClient Timeout).
