(* ===== verification/App.v ===== *)
(** * The application (internal/application, infra)

    The registry of modules with its start and its shutdown, the
    configuration, the clients of PostgreSQL and Redis, the composition of
    the modules and the run loop.  The operating system, the HTTP server and
    the connection pools are the classes of this file. *)

From S2P Require Import Prelude GoText GoErr Redis Env.
From S2P Require Retry Scheduler Admission Job Inference Idempotency Worker Recovery.
From S2P Require InferenceServer User Auth Stream Health Metrics Http.
From stdpp Require Import base list strings pretty.
From Stdlib Require Import ZArith Lia.

(** ** platform.go: what a module can do besides having a name *)

Record AppModule (W : Type) := MkModule {
  mod_Name : string;
  mod_RegisterRootRoutes : option (M W (option goerr));
  mod_RegisterRoutes : option (M W (option goerr));
  mod_Start : option (M W (option goerr));
  mod_Stop : option (M W (option goerr)) }.
Arguments MkModule {W}.
Arguments mod_Name {W}.
Arguments mod_RegisterRootRoutes {W}.
Arguments mod_RegisterRoutes {W}.
Arguments mod_Start {W}.
Arguments mod_Stop {W}.

(** ** registry.go *)

Section registry.
Context {W : Type}.

Definition Registry : Type := list (AppModule W).

Definition Register (r : Registry) (m : list (AppModule W)) : Registry := r ++ m.

(** The first error of an optional operation of the modules, in order. *)
Fixpoint register_all (operation : AppModule W -> option (M W (option goerr))) (what : string)
    (modules : Registry) : M W (option goerr) :=
  match modules with
  | [] => mret None
  | m :: rest =>
      match operation m with
      | None => register_all operation what rest
      | Some register =>
          err ← register;
          match err with
          | Some err => mret (Some (errorf_w (what +:+ mod_Name m +:+ ": ") (Some err)))
          | None => register_all operation what rest
          end
      end
  end.

Definition registry_RegisterRootRoutes : Registry -> M W (option goerr) :=
  register_all mod_RegisterRootRoutes "register root routes ".
Definition registry_RegisterRoutes : Registry -> M W (option goerr) :=
  register_all mod_RegisterRoutes "register routes ".

(** Stopping modules in the given order; the errors, each with its message. *)
Fixpoint stop_all (what : string) (modules : list (string * M W (option goerr)))
  : M W (list (option goerr)) :=
  match modules with
  | [] => mret []
  | (name, stop) :: rest =>
      err ← stop;
      errs ← stop_all what rest;
      mret match err with
           | Some err => Some (errorf_w (what +:+ name +:+ ": ") (Some err)) :: errs
           | None => errs
           end
  end.

(** [started]: the stoppable modules that have started. *)
Fixpoint start_modules (started : list (string * M W (option goerr))) (modules : Registry)
  : M W (option goerr) :=
  match modules with
  | [] => mret None
  | m :: rest =>
      match mod_Start m with
      | None => start_modules started rest
      | Some start =>
          err ← start;
          match err with
          | Some err =>
              rollbackErrs ← stop_all "rollback " (reverse started);
              mret (errors_Join
                      (Some (errorf_w ("start " +:+ mod_Name m +:+ ": ") (Some err))
                       :: rollbackErrs))
          | None =>
              start_modules
                (match mod_Stop m with
                 | Some stop => started ++ [(mod_Name m, stop)]
                 | None => started
                 end) rest
          end
      end
  end.

Definition registry_Start (modules : Registry) : M W (option goerr) := start_modules [] modules.

Definition stoppable (modules : Registry) : list (string * M W (option goerr)) :=
  omap (fun m => (fun stop => (mod_Name m, stop)) <$> mod_Stop m) modules.

Definition registry_Shutdown (modules : Registry) : M W (option goerr) :=
  errs ← stop_all "error shutting down " (reverse (stoppable modules));
  mret (errors_Join errs).
End registry.
Arguments Registry : clear implicits.

(** ** infra/pg_db and infra/redis *)

Record PostgresConfig := MkPostgresConfig {
  pc_Host : string; pc_Port : Z; pc_DB : string; pc_SSLMode : string;
  pc_MaxConns : Z; pc_MinConns : Z; pc_MaxIdleTime : Z; pc_MaxConnLifetime : Z;
  pc_ConnTimeout : Z; pc_User : string; pc_Password : string }.

Record RedisConfig := MkRedisConfig {
  rc_Host : string; rc_Port : Z; rc_DB : Z;
  rc_ReadTimeout : Z; rc_WriteTimeout : Z; rc_DialTimeout : Z;
  rc_MaxActiveConns : Z; rc_MinIdleConns : Z; rc_MaxIdleConns : Z;
  rc_ConnMaxIdleTime : Z; rc_ConnMaxLifetime : Z; rc_PoolTimeout : Z;
  rc_Password : string }.

(** [pgxpool]: parsing a connection string, opening a pool of the parsed
    configuration with the limits of ours, [Ping] and [Close]. *)
Class PgxPool (W : Type) := {
  pgx_ParseConfig : string -> option goerr;
  pgx_NewWithConfig : string -> PostgresConfig -> M W (option goerr);
  pgx_Ping : M W (option goerr);
  pgx_Close : M W unit;
}.

(** [go-redis]: a client for an address and options (here the password and
    the whole configuration), [Ping] and [Close]. *)
Class GoRedis (W : Type) := {
  gr_NewClient : string -> option string -> RedisConfig -> M W unit;
  gr_Ping : M W (option goerr);
  gr_Close : M W (option goerr);
}.

Section infra.
Context {W : Type} `{!PgxPool W, !GoRedis W}.

Definition postgres_dsn (cfg : PostgresConfig) : string :=
  "postgres://" +:+ pc_User cfg +:+ ":" +:+ pc_Password cfg +:+ "@" +:+ pc_Host cfg +:+ ":"
    +:+ pretty (pc_Port cfg) +:+ "/" +:+ pc_DB cfg +:+ "?sslmode=" +:+ pc_SSLMode cfg.

Definition CreatePostgresPool (cfg : PostgresConfig) : M W (option goerr) :=
  if (pc_MaxIdleTime cfg <=? 0)%Z then
    mret (Some (errors_New "postgres config: max_idle_time must be greater than zero"))
  else if (pc_MaxConnLifetime cfg <=? 0)%Z then
    mret (Some (errors_New "postgres config: max_conn_lifetime must be greater than zero"))
  else if (pc_ConnTimeout cfg <=? 0)%Z then
    mret (Some (errors_New "postgres config: conn_timeout must be greater than zero"))
  else
    match pgx_ParseConfig (postgres_dsn cfg) with
    | Some err => mret (Some (errorf_w "parse postgres config: " (Some err)))
    | None =>
        err ← pgx_NewWithConfig (postgres_dsn cfg) cfg;
        match err with
        | Some err => mret (Some (errorf_w "create postgres connection pool: " (Some err)))
        | None =>
            err ← pgx_Ping;
            match err with
            | Some err => _ ← pgx_Close; mret (Some (errorf_w "ping postgres: " (Some err)))
            | None => mret None
            end
        end
    end.

(** The options of the client do not set the password. *)
Definition ConnectToRedis (cfg : RedisConfig) : M W (option goerr) :=
  let addr := rc_Host cfg +:+ ":" +:+ pretty (rc_Port cfg) in
  _ ← gr_NewClient addr None cfg;
  err ← gr_Ping;
  match err with
  | Some err =>
      _ ← gr_Close; mret (Some (errorf_w ("ping redis at " +:+ addr +:+ ": ") (Some err)))
  | None => mret None
  end.

(** [client] says whether there is one. *)
Definition redis_Shutdown (client : bool) : M W (option goerr) :=
  if client then gr_Close else mret None.

(** application/infra.go *)
Definition newInfrastructure (pgCfg : PostgresConfig) (redisCfg : RedisConfig)
  : M W (option goerr) :=
  err ← CreatePostgresPool pgCfg;
  match err with
  | Some err => mret (Some err)
  | None => ConnectToRedis redisCfg
  end.
End infra.

(** ** config.go and infra/config *)

Record ServerSettings := MkServerSettings {
  ss_Host : string; ss_Port : Z; ss_ReadHeaderTimeout : Z; ss_ReadTimeout : Z;
  ss_WriteTimeout : Z; ss_IdleTimeout : Z; ss_ShutdownGrace : Z; ss_HTTPDrainTimeout : Z }.

Record RecoveryConfig := MkRecoveryConfig {
  rv_SweepInterval : Z; rv_BatchSize : Z; rv_OrphanGrace : Z; rv_QueueCapacity : Z }.

(** The configurations that have one key at the top are without it here; of
    the metrics there is the namespace. *)
Record AppConfig := MkAppConfig {
  PostgresCfg : PostgresConfig;
  RedisCfg : RedisConfig;
  AdmissionCfg : Admission.AdmissionConfig;
  AuthCfg : Auth.AuthConfig;
  ServerCfg : ServerSettings;
  JobCfg : Job.JobConfig;
  WorkerCfg : Worker.WorkerConfig;
  SchedulerCfg : Scheduler.SchedulerConfig;
  InferenceCfg : Idempotency.InferenceConfig;
  RecoveryCfg : RecoveryConfig;
  InferenceServerCfg : InferenceServer.InferenceClient;
  MetricsNamespace : string }.

(** [os.Getenv], [os.ReadFile], [filepath.Abs] and [filepath.Join], and
    [yaml.Unmarshal] into each type. *)
Class Os := {
  os_Getenv : string -> string;
  os_ReadFile : string -> res goerr string;
  filepath_Abs : string -> res goerr string;
  filepath_Join : string -> string -> string;
}.
Class Yaml (T : Type) := { yaml_Unmarshal : string -> res goerr T }.

Section config.
Context `{!Os}.

Definition LoadInto {T : Type} `{!Yaml T} (basePath fileName : string) : res goerr T :=
  let fullPath := filepath_Join basePath fileName in
  let quoted := dq +:+ fullPath +:+ dq in
  match os_ReadFile fullPath with
  | Err err => Err (errorf_w ("config reading " +:+ quoted +:+ ": ") (Some err))
  | Ok data =>
      match yaml_Unmarshal data with
      | Err err => Err (errorf_w ("config unmarshalling " +:+ quoted +:+ ": ") (Some err))
      | Ok out => Ok out
      end
  end.

Definition newLoaderFromEnv : res goerr string :=
  let cfgPath := os_Getenv "CFG_PATH" in
  let cfgPath := if str_empty cfgPath then "configs" else cfgPath in
  match filepath_Abs cfgPath with
  | Err err => Err (errorf_w "resolving config path: " (Some err))
  | Ok absPath => Ok absPath
  end.

Definition missing_envs (names : list string) : list string :=
  filter (fun n => str_empty (os_Getenv n) = true) names.

Definition requireEnvs (names : list string) : option goerr :=
  match missing_envs names with
  | [] => None
  | missing => Some (errors_New ("missing required environment variables: "
                                 +:+ String.concat ", " missing))
  end.
End config.

(** Sequencing of fallible steps: [if err != nil { return err }]. *)
#[local] Instance res_mbind : MBind (res goerr) := fun A B f r =>
  match r with Ok a => f a | Err err => Err err end.
#[local] Instance res_mret : MRet (res goerr) := fun A a => Ok a.

Section load.
Context `{!Os, !Yaml PostgresConfig, !Yaml RedisConfig, !Yaml Admission.AdmissionConfig,
  !Yaml Auth.AuthConfig, !Yaml ServerSettings, !Yaml Job.JobConfig, !Yaml Worker.WorkerConfig,
  !Yaml Scheduler.SchedulerConfig, !Yaml Idempotency.InferenceConfig, !Yaml RecoveryConfig,
  !Yaml InferenceServer.InferenceClient, !Yaml string}.

Definition required_envs : list string :=
  ["POSTGRES_USER"; "POSTGRES_PASSWORD"; "REDIS_PASSWORD"; "GITHUB_CLIENT_ID";
   "GITHUB_CLIENT_SECRET"; "JWT_ACCESS_SECRET"; "OPENAI_API"].

(** A variable of the environment overrides a field when it is set. *)
Definition env_or (name value : string) : string :=
  let v := os_Getenv name in if str_empty v then value else v.

Definition pg_from_env (c : PostgresConfig) : PostgresConfig :=
  MkPostgresConfig (env_or "POSTGRES_HOST" (pc_Host c)) (pc_Port c) (pc_DB c) (pc_SSLMode c)
    (pc_MaxConns c) (pc_MinConns c) (pc_MaxIdleTime c) (pc_MaxConnLifetime c) (pc_ConnTimeout c)
    (os_Getenv "POSTGRES_USER") (os_Getenv "POSTGRES_PASSWORD").

(** The password keeps the zero value. *)
Definition redis_from_env (c : RedisConfig) : RedisConfig :=
  MkRedisConfig (env_or "REDIS_HOST" (rc_Host c)) (rc_Port c) (rc_DB c) (rc_ReadTimeout c)
    (rc_WriteTimeout c) (rc_DialTimeout c) (rc_MaxActiveConns c) (rc_MinIdleConns c)
    (rc_MaxIdleConns c) (rc_ConnMaxIdleTime c) (rc_ConnMaxLifetime c) (rc_PoolTimeout c) "".

Definition auth_from_env (c : Auth.AuthConfig) : Auth.AuthConfig :=
  let gh := Auth.ac_GitHub c in
  let jwt := Auth.ac_JwtToken c in
  Auth.MkAuthConfig
    (Auth.MkGitHubConfig (os_Getenv "GITHUB_CLIENT_ID") (os_Getenv "GITHUB_CLIENT_SECRET")
       (Auth.GitHubCallbackURL gh))
    (Auth.MkJwtTokenConfig (os_Getenv "JWT_ACCESS_SECRET") (Auth.JWTIssuer jwt)
       (Auth.JWTAccessExpiry jwt) (Auth.JWTAudience jwt) (Auth.JWTSubject jwt))
    (Auth.ac_HttpClient c).

Definition engine_from_env (c : InferenceServer.InferenceClient)
  : InferenceServer.InferenceClient :=
  InferenceServer.MkInferenceClient (os_Getenv "OPENAI_API") (InferenceServer.BaseURL c)
    (InferenceServer.ic_MaxRetries c) (InferenceServer.DialTimeout c)
    (InferenceServer.TLSHandshakeTimeout c) (InferenceServer.ResponseHeaderTimeout c)
    (InferenceServer.StreamIdleTimeout c) (InferenceServer.StreamTotalTimeout c)
    (InferenceServer.MaxIdleConnections c) (InferenceServer.MaxIdleConnectionsHost c)
    (InferenceServer.ConnectionIdleTimeout c).

Definition loadConfigs (loader : string) : res goerr AppConfig :=
  match requireEnvs required_envs with
  | Some envErr => Err envErr
  | None =>
      pgCfg ← LoadInto loader "postgres.yml";
      rdsCfg ← LoadInto loader "redis.yml";
      admCfg ← LoadInto loader "admission.yml";
      authConfig ← LoadInto loader "auth.yml";
      serverCfg ← LoadInto loader "server.yml";
      jobConfig ← LoadInto loader "job.yml";
      workerConfig ← LoadInto loader "worker.yml";
      schedulerConfig ← LoadInto loader "scheduler.yml";
      inferenceConfig ← LoadInto loader "inference.yml";
      recoveryConfig ← LoadInto loader "recovery.yml";
      inferenceEngineCfg ← LoadInto loader "inference_server.yml";
      metricsConfig ← LoadInto loader "metrics.yml";
      Ok (MkAppConfig (pg_from_env pgCfg) (redis_from_env rdsCfg) admCfg
            (auth_from_env authConfig) serverCfg jobConfig workerConfig schedulerConfig
            inferenceConfig recoveryConfig (engine_from_env inferenceEngineCfg) metricsConfig)
  end.
End load.

(** ** composition.go *)

(** What the modules do when they are started and stopped is the code of the
    worker and of recovery; the registration of routes never fails.
    [valid_name] is the validity of names in the Prometheus client. *)
Section compose.
Context {W : Type}.
Context (valid_name : string -> bool)
  (ParseRequestURI : string -> option (string * string)).
Context (worker_Start worker_Stop : Worker.workerPool -> M W (option goerr)).
Context (recovery_Start recovery_Stop : Recovery.RecoveryService -> M W (option goerr)).

Definition plain_module (name : string) : AppModule W := MkModule name None None None None.
Definition http_module (name : string) : AppModule W :=
  MkModule name None (Some (mret None)) None None.

Definition of_option (err : option goerr) : res goerr unit :=
  match err with Some err => Err err | None => Ok tt end.

(** The pool and the client are there; so are the adapters and the logger.
    The token service given to the user module is the adapter of the
    authentication module. *)
Definition composeModules (cfg : AppConfig) : res goerr (Registry W) :=
  _ ← of_option (Metrics.metrics_error valid_name (MetricsNamespace cfg));
  um ← User.NewUserModule true true true;
  _ ← Auth.NewAuthenticationModule ParseRequestURI true true true true (AuthCfg cfg);
  _ ← User.SetTokenService true um;
  _ ← Admission.NewAdmissionModule true true true true (AdmissionCfg cfg);
  _ ← Job.NewJobModule true true true (JobCfg cfg);
  _ ← Scheduler.NewSchedulerModule true true (Worker.LeaseTimeout (WorkerCfg cfg))
        (SchedulerCfg cfg);
  _ ← of_option (Inference.NewInferenceModule true true true true true true (InferenceCfg cfg));
  _ ← InferenceServer.NewInferenceEngineModule (InferenceServerCfg cfg) true;
  _ ← Stream.NewStreamModule true true true;
  let rv := RecoveryCfg cfg in
  recovery ← Recovery.NewRecoveryModule true true true true true true true
               (rv_SweepInterval rv) (rv_BatchSize rv) (rv_OrphanGrace rv) (rv_QueueCapacity rv);
  pool ← Worker.NewWorkerModule true true true true true true true true (WorkerCfg cfg);
  _ ← Health.NewHealthCheckerModule true true true (5 * second);
  Ok (Register []
       [http_module "User"; http_module "Authentication Module"; plain_module "Admission";
        plain_module "Job"; plain_module "Scheduler"; http_module "Stream";
        http_module "Inference";
        MkModule "Worker" None None (Some (worker_Start pool)) (Some (worker_Stop pool));
        MkModule "Recovery" None None (Some (recovery_Start recovery))
          (Some (recovery_Stop recovery));
        http_module "Health Checker";
        MkModule "Metrics" (Some (mret None)) None None None]).
End compose.

(** ** app.go and http_server.go *)

(** What ends the wait of [Run]. *)
Inductive stop_reason : Type :=
| ShutdownSignal
| ServerFailed (err : goerr)
| RunCancelled.

(** [http.Server], whose handler is the engine of gin. *)
Record http_Server := MkHttpServer {
  srv_Addr : string; srv_ReadHeaderTimeout : Z; srv_ReadTimeout : Z;
  srv_WriteTimeout : Z; srv_IdleTimeout : Z }.

(** The host of the settings is not used: the server listens on every
    interface. *)
Definition newHTTPServer (cfg : ServerSettings) : http_Server :=
  MkHttpServer (":" +:+ pretty (ss_Port cfg)) (ss_ReadHeaderTimeout cfg) (ss_ReadTimeout cfg)
    (ss_WriteTimeout cfg) (ss_IdleTimeout cfg).

(** What ends first: [ListenAndServe], with its error, a signal, or the
    context. *)
Inductive run_event : Type :=
| ListenReturned (err : option goerr)
| SignalNotified
| ContextEnded.

(** [net/http] and [os/signal]: [http_Serve] starts the server in the
    background and is the first of the things above to happen; [http_Next] is
    the end of the wait when that was the server, closed without a failure.
    [http_Shutdown] waits for the requests within the drain timeout;
    [errors.Is] decides whether an error is [http.ErrServerClosed]. *)
Class HttpServer (W : Type) := {
  http_Serve : http_Server -> M W run_event;
  http_Next : M W stop_reason;
  http_Shutdown : Z -> M W (option goerr);
  is_ErrServerClosed : goerr -> bool;
}.

Section run.
Context {W : Type} `{!HttpServer W, !PgxPool W, !GoRedis W}.

(** [serve]: only a failure is sent on the channel. *)
Definition serve_failure (event : run_event) : option stop_reason :=
  match event with
  | ListenReturned (Some err) => if is_ErrServerClosed err then None else Some (ServerFailed err)
  | ListenReturned None => None
  | SignalNotified => Some ShutdownSignal
  | ContextEnded => Some RunCancelled
  end.

(** The select of [Run]. *)
Definition serve_and_wait (srv : http_Server) : M W stop_reason :=
  event ← http_Serve srv;
  match serve_failure event with
  | Some reason => mret reason
  | None => http_Next
  end.

Definition httpServer_shutdown (drain : Z) : M W (option goerr) := http_Shutdown drain.

(** The errors that [Run] collects from the shutdown of the HTTP server:
    the [else] belongs to [err != nil]. *)
Definition http_shutdown_errors (err : option goerr) : list (option goerr) :=
  match err with
  | Some _ => []
  | None => [Some (errorf_w "http server shutdown: " err)]
  end.

(** From the end of the wait on; [pgPool] and [redisClient] say whether they
    are there. *)
Definition shutdown_all (registry : Registry W) (cfg : ServerSettings)
    (pgPool redisClient : bool) (runErr : option goerr) : M W (option goerr) :=
  err ← httpServer_shutdown (ss_HTTPDrainTimeout cfg);
  let errs := (match runErr with Some e => [Some e] | None => [] end)
              ++ http_shutdown_errors err in
  err ← registry_Shutdown registry;
  let errs := errs ++ match err with
                      | Some e => [Some (errorf_w "module shutdown: " (Some e))]
                      | None => []
                      end in
  _ ← (if pgPool then pgx_Close else skip);
  err ← redis_Shutdown redisClient;
  let errs := errs ++ match err with
                      | Some e => [Some (errorf_w "redis shutdown: " (Some e))]
                      | None => []
                      end in
  mret (errors_Join errs).

Definition Run (registry : Registry W) (cfg : ServerSettings) (pgPool redisClient : bool)
  : M W (option goerr) :=
  err ← registry_RegisterRootRoutes registry;
  match err with
  | Some err => mret (Some err)
  | None =>
      err ← registry_RegisterRoutes registry;
      match err with
      | Some err => mret (Some err)
      | None =>
          err ← registry_Start registry;
          match err with
          | Some err => mret (Some err)
          | None =>
              reason ← serve_and_wait (newHTTPServer cfg);
              shutdown_all registry cfg pgPool redisClient
                match reason with ServerFailed err => Some err | _ => None end
          end
      end
  end.
End run.

(** ** build.go *)

Section build.
Context {W : Type} `{!HttpServer W, !PgxPool W, !GoRedis W, !Os}.
Context (load : string -> res goerr AppConfig) (compose : AppConfig -> res goerr (Registry W)).

(** After the environment is loaded; [load] is [loadConfigs] and [compose] is
    [composeModules]. *)
Definition build_from_env : M W (res goerr (Registry W * ServerSettings)) :=
  match newLoaderFromEnv with
  | Err err => mret (Err err)
  | Ok loader =>
      match load loader with
      | Err err => mret (Err err)
      | Ok appCfg =>
          err ← newInfrastructure (PostgresCfg appCfg) (RedisCfg appCfg);
          match err with
          | Some err => mret (Err err)
          | None =>
              match compose appCfg with
              | Err err => _ ← pgx_Close; _ ← redis_Shutdown true; mret (Err err)
              | Ok moduleRegistry => mret (Ok (moduleRegistry, ServerCfg appCfg))
              end
          end
      end
  end.

(** [godotenv.Load], whose error is ignored when there is no file; the
    configuration; the clients; the modules. *)
Definition BuildApplication (godotenv_Load : option goerr) (is_not_exist : goerr -> bool)
  : M W (res goerr (Registry W * ServerSettings)) :=
  match godotenv_Load with
  | Some err => if negb (is_not_exist err) then mret (Err err) else build_from_env
  | None => build_from_env
  end.

(** ** cmd/main.go *)

(** [panic(err)] ends the process with the text of the error. *)
Definition main (godotenv_Load : option goerr) (is_not_exist : goerr -> bool)
  : M W Http.exit :=
  app ← BuildApplication godotenv_Load is_not_exist;
  match app with
  | Err err => mret (Http.Panicked (error_string err))
  | Ok (registry, cfg) =>
      err ← Run registry cfg true true;
      mret match err with
           | Some err => Http.Panicked (error_string err)
           | None => Http.Returned
           end
  end.
End build.
