(* ===== verification/AppThms.v ===== *)
(** * Theorems about the application: starting, stopping, running *)

From S2P Require Import Prelude GoErr App.
From stdpp Require Import base sets list strings pretty.
From Stdlib Require Import ZArith Lia.

(** ** The registry on modules that record their calls *)

Inductive lifecycle_call : Type :=
| Started (name : string)
| Stopped (name : string)
| Serving (addr : string)
| Drained
| PgClosed
| RedisClosed.

(** A module by its name and, where it has routes, a start or a stop, what
    that answers: every behaviour of modules that are started or stopped
    once. *)
Record behaviour := MkBehaviour {
  b_name : string;
  b_root : option (option goerr);
  b_routes : option (option goerr);
  b_start : option (option goerr);
  b_stop : option (option goerr) }.

#[local] Abbreviation W := (list lifecycle_call).

Definition recording (c : lifecycle_call) (answer : option goerr) : M W (option goerr) :=
  fun w => (answer, w ++ [c]).

Definition recorded (b : behaviour) : AppModule W :=
  MkModule (b_name b) (mret <$> b_root b) (mret <$> b_routes b)
    (recording (Started (b_name b)) <$> b_start b)
    (recording (Stopped (b_name b)) <$> b_stop b).

(** The modules before the first whose start fails, and that one. *)
Fixpoint until_failure (bs : list behaviour) : list behaviour * option (string * goerr) :=
  match bs with
  | [] => ([], None)
  | b :: rest =>
      match b_start b with
      | Some (Some err) => ([], Some (b_name b, err))
      | _ => let '(before, failed) := until_failure rest in (b :: before, failed)
      end
  end.

Definition startables (bs : list behaviour) : list behaviour :=
  filter (fun b => is_Some (b_start b)) bs.
Definition stoppables (bs : list behaviour) : list behaviour :=
  filter (fun b => is_Some (b_stop b)) bs.

(** The errors of the stops, in the order of the calls. *)
Definition stop_errors (what : string) (bs : list behaviour) : list (option goerr) :=
  omap (fun b => match b_stop b with
                 | Some (Some err) => Some (Some (Errorf (what +:+ b_name b +:+ ": ") err ""))
                 | _ => None
                 end) bs.

Definition stop_calls (bs : list behaviour) : list lifecycle_call :=
  (fun b => Stopped (b_name b)) <$> bs.

Definition stops (bs : list behaviour) : list (string * M W (option goerr)) :=
  omap (fun b => (fun stop => (b_name b, recording (Stopped (b_name b)) stop)) <$> b_stop b) bs.

Lemma stop_all_recorded what bs (w : W) :
  Forall (fun b => is_Some (b_stop b)) bs ->
  stop_all what (stops bs) w = (stop_errors what bs, w ++ stop_calls bs).
Proof.
  revert w. induction bs as [|b bs IH]; intros w Hb; cbn.
  - by rewrite app_nil_r.
  - apply Forall_cons in Hb as [[r Hr] Hb]. rewrite Hr. cbn [fmap option_fmap option_map].
    cbn [stop_all]. rewrite bind_unfold. cbn [recording fst snd].
    rewrite bind_unfold, ret_unfold. cbn [fst snd]. fold (stops bs). rewrite IH by done.
    cbn [fst snd]. rewrite <- app_assoc. by destruct r.
Qed.

Lemma stops_app bs1 bs2 : stops (bs1 ++ bs2) = stops bs1 ++ stops bs2.
Proof. apply omap_app. Qed.

Lemma stops_reverse bs : stops (reverse bs) = reverse (stops bs).
Proof.
  induction bs as [|b bs IH]; [done|]. rewrite reverse_cons, stops_app, IH.
  change (stops (b :: bs)) with (stops ([b] ++ bs)). rewrite stops_app, reverse_app. f_equal.
  unfold stops. cbn. by destruct (b_stop b).
Qed.

Lemma stoppables_stops bs : stops (stoppables bs) = stops bs.
Proof.
  induction bs as [|b bs IH]; [done|]. change (b :: bs) with ([b] ++ bs).
  unfold stoppables in *. rewrite filter_app, !stops_app, IH. f_equal.
  destruct (b_stop b) as [r|] eqn:E.
  - by rewrite filter_cons_True by (rewrite E; eauto).
  - rewrite filter_cons_False by (rewrite E; intros [? ?]; discriminate).
    unfold stops. cbn. by rewrite E.
Qed.

Lemma start_recorded started bs (w : W) :
  Forall (fun b => is_Some (b_stop b)) started ->
  let '(before, failed) := until_failure bs in
  let started' := started ++ stoppables (startables before) in
  let w1 := w ++ ((fun b => Started (b_name b)) <$> startables before) in
  start_modules (stops started) (recorded <$> bs) w
  = match failed with
    | None => (None, w1)
    | Some (name, err) =>
        (errors_Join (Some (Errorf ("start " +:+ name +:+ ": ") err "")
                      :: stop_errors "rollback " (reverse started')),
         w1 ++ Started name :: stop_calls (reverse started'))
    end.
Proof.
  revert started w. induction bs as [|b bs IH]; intros started w Hs; cbn.
  - by rewrite app_nil_r.
  - destruct (b_start b) as [[err|]|] eqn:E; cbn.
    + rewrite bind_unfold. cbn [recording fst snd]. rewrite bind_unfold, ret_unfold.
      rewrite <- stops_reverse, stop_all_recorded
        by (by rewrite Forall_reverse). cbn [fst snd]. rewrite !app_nil_r.
      by rewrite <- app_assoc.
    + rewrite bind_unfold. cbn [recording fst snd].
      set (started1 := started ++ stoppables [b]).
      replace (match _ <$> b_stop b with Some stop => _ | None => _ end) with (stops started1).
      2: { unfold started1. rewrite stops_app, stoppables_stops. unfold stops at 2. cbn.
           destruct (b_stop b); cbn; [done|by rewrite app_nil_r]. }
      specialize (IH started1 (w ++ [Started (b_name b)])).
      destruct (until_failure bs) as [before failed]. cbn [fst snd].
      rewrite IH.
      2: { unfold started1. apply Forall_app. split; [done|]. unfold stoppables.
           apply Forall_forall. intros x Hx. by apply list_elem_of_filter in Hx as [Hx _]. }
      unfold startables. rewrite filter_cons_True by (rewrite E; eauto).
      unfold started1. rewrite fmap_cons, <- !app_assoc.
      assert (stoppables (b :: filter (fun b => is_Some (b_start b)) before)
              = stoppables [b] ++ stoppables (filter (fun b => is_Some (b_start b)) before))
        as -> by (unfold stoppables; by rewrite <- filter_app).
      by destruct failed as [[name err]|].
    + specialize (IH started w Hs). destruct (until_failure bs) as [before failed].
      rewrite IH. unfold startables.
      rewrite filter_cons_False by (rewrite E; intros [? ?]; discriminate). done.
Qed.

Lemma stoppable_recorded (bs : list behaviour) : stoppable (recorded <$> bs) = stops bs.
Proof.
  induction bs as [|b bs IH]; [done|]. unfold stoppable, stops in *. cbn.
  destruct (b_stop b); cbn; by rewrite IH.
Qed.

(** The start and the shutdown of the registry. *)
Lemma registry_lifecycle (bs : list behaviour) (w : W) :
  let '(before, failed) := until_failure bs in
  let started := stoppables (startables before) in
  let starts := (fun b => Started (b_name b)) <$> startables before in
  registry_Start (recorded <$> bs) w
  = match failed with
    | None => (None, w ++ starts)
    | Some (name, err) =>
        (errors_Join (Some (Errorf ("start " +:+ name +:+ ": ") err "")
                      :: stop_errors "rollback " (reverse started)),
         w ++ starts ++ Started name :: stop_calls (reverse started))
    end
  /\ registry_Shutdown (recorded <$> bs) w
     = (errors_Join (stop_errors "error shutting down " (reverse (stoppables bs))),
        w ++ stop_calls (reverse (stoppables bs))).
Proof.
  pose proof (start_recorded [] bs w (List.Forall_nil _)) as Hs.
  destruct (until_failure bs) as [before failed]. cbv zeta in *. split.
  - unfold registry_Start. change (stops []) with (@nil (string * M W (option goerr))) in Hs.
    rewrite Hs. destruct failed as [[name err]|]; [|done]. by rewrite <- app_assoc.
  - unfold registry_Shutdown. rewrite bind_unfold, ret_unfold, stoppable_recorded.
    rewrite <- stoppables_stops, <- stops_reverse, stop_all_recorded; [done|].
    apply Forall_reverse, Forall_forall. intros b Hb. by apply list_elem_of_filter in Hb as [Hb _].
Qed.

(** Recovery fails to start, and the worker fails to stop. *)
Example rollback_example :
  registry_Start (recorded <$>
    [MkBehaviour "Job" None None None None;
     MkBehaviour "Worker" None None (Some None) (Some (Some Canceled));
     MkBehaviour "Recovery" None None (Some (Some DeadlineExceeded)) (Some None)]) []
  = (Some (GoErr.Join [Errorf "start Recovery: " DeadlineExceeded "";
                 Errorf "rollback Worker: " Canceled ""]),
     [Started "Worker"; Started "Recovery"; Stopped "Worker"]).
Proof. reflexivity. Qed.

(** ** A run of the application *)

(** The first module whose registration fails. *)
Fixpoint register_failure (what : string) (f : behaviour -> option (option goerr))
    (bs : list behaviour) : option goerr :=
  match bs with
  | [] => None
  | b :: rest =>
      match f b with
      | Some (Some err) => Some (Errorf (what +:+ b_name b +:+ ": ") err "")
      | _ => register_failure what f rest
      end
  end.

Lemma register_recorded what f operation bs (w : W) :
  (forall b, operation (recorded b) = mret <$> f b) ->
  register_all operation what (recorded <$> bs) w = (register_failure what f bs, w).
Proof.
  intros Hf. induction bs as [|b bs IH]; [done|]. cbn [fmap list_fmap register_all register_failure].
  rewrite Hf. destruct (f b) as [[err|]|]; cbn [fmap option_fmap option_map]; [done|exact IH..].
Qed.

(** The error of a step, with what it is wrapped in. *)
Definition step_error (what : string) (err : option goerr) : list (option goerr) :=
  match err with Some e => [Some (Errorf what e "")] | None => [] end.

Section lifecycle.
(** What ends the wait, and what the server and Redis answer. *)
Context (event : run_event) (next : stop_reason) (closed : goerr -> bool)
  (drain redis_close : option goerr).

#[local] Instance recording_http : HttpServer W := {|
  http_Serve := fun srv w => (event, w ++ [Serving (srv_Addr srv)]);
  http_Next := mret next;
  http_Shutdown := fun _ => recording Drained drain;
  is_ErrServerClosed := closed |}.
#[local] Instance recording_pgx : PgxPool W := {|
  pgx_ParseConfig := fun _ => None; pgx_NewWithConfig := fun _ _ => mret None;
  pgx_Ping := mret None; pgx_Close := fun w => (tt, w ++ [PgClosed]) |}.
#[local] Instance recording_redis : GoRedis W := {|
  gr_NewClient := fun _ _ _ => skip; gr_Ping := mret None;
  gr_Close := recording RedisClosed redis_close |}.

(** The error with which the server has failed. *)
Definition run_error : option goerr :=
  match default next (serve_failure event) with ServerFailed err => Some err | _ => None end.

Definition shutdown_errors (bs : list behaviour) (redisClient : bool) : list (option goerr) :=
  (match run_error with Some err => [Some err] | None => [] end)
  ++ http_shutdown_errors drain
  ++ step_error "module shutdown: "
       (errors_Join (stop_errors "error shutting down " (reverse (stoppables bs))))
  ++ step_error "redis shutdown: " (if redisClient then redis_close else None).

Lemma serve_and_wait_recorded srv (w : W) :
  serve_and_wait srv w = (default next (serve_failure event), w ++ [Serving (srv_Addr srv)]).
Proof.
  unfold serve_and_wait. rewrite bind_unfold. cbn [http_Serve recording_http fst snd].
  destruct (serve_failure event); cbn [default from_option]; [by rewrite ret_unfold|done].
Qed.

Lemma shutdown_recorded (bs : list behaviour) cfg pgPool redisClient (w : W) :
  shutdown_all (recorded <$> bs) cfg pgPool redisClient run_error w
  = (errors_Join (shutdown_errors bs redisClient),
     w ++ Drained :: stop_calls (reverse (stoppables bs))
       ++ (if pgPool then [PgClosed] else []) ++ (if redisClient then [RedisClosed] else [])).
Proof.
  unfold shutdown_all, httpServer_shutdown. rewrite bind_unfold.
  cbn [http_Shutdown recording_http recording fst snd]. rewrite bind_unfold.
  pose proof (registry_lifecycle bs (w ++ [Drained])) as H.
  destruct (until_failure bs) as [before failed]. destruct H as [_ ->]. cbn [fst snd].
  rewrite bind_unfold. set (w1 := (w ++ [Drained]) ++ _).
  assert (Hpg : (if pgPool then pgx_Close else skip : M W unit) w1
    = (tt, w1 ++ if pgPool then [PgClosed] else [])).
  { destruct pgPool; [done|]. by rewrite app_nil_r. }
  rewrite Hpg. cbn [fst snd]. rewrite bind_unfold, ret_unfold. unfold redis_Shutdown.
  unfold shutdown_errors, step_error. rewrite !app_assoc. unfold w1.
  destruct redisClient; cbn [fst snd gr_Close recording_redis recording].
  - rewrite <- !app_assoc. by destruct redis_close.
  - rewrite ret_unfold. cbn [fst snd]. rewrite <- !app_assoc. by rewrite !app_nil_r.
Qed.

(** C25: the life of a process, whatever its modules, its server and Redis
    answer and whatever ends it.  If no registration of routes fails, the
    startable modules are started in order.  If one fails, those started
    before it are stopped in the reverse order, each once and even when
    another stop fails, nothing is served, and the answer joins the failure
    with the errors of those stops.  Otherwise the server is started, and at
    the end, however it comes: the server is drained, every module that can be
    stopped is stopped in the reverse order of registration, and only then
    the pool of PostgreSQL and the client of Redis are closed, each once and
    whatever failed before.  The answer joins the errors that [Run] collects:
    all of them, but of the drain its success. *)
Theorem run_lifecycle (bs : list behaviour) (cfg : ServerSettings) (pgPool redisClient : bool)
    (w : W) :
  let '(before, failed) := until_failure bs in
  let started := stoppables (startables before) in
  let starts := (fun b => Started (b_name b)) <$> startables before in
  Run (recorded <$> bs) cfg pgPool redisClient w
  = match register_failure "register root routes " b_root bs,
          register_failure "register routes " b_routes bs, failed with
    | Some err, _, _ | None, Some err, _ => (Some err, w)
    | None, None, Some (name, err) =>
        (errors_Join (Some (Errorf ("start " +:+ name +:+ ": ") err "")
                      :: stop_errors "rollback " (reverse started)),
         w ++ starts ++ Started name :: stop_calls (reverse started))
    | None, None, None =>
        (errors_Join (shutdown_errors bs redisClient),
         w ++ starts ++ Serving (":" +:+ pretty (ss_Port cfg)) :: Drained
           :: stop_calls (reverse (stoppables bs))
           ++ (if pgPool then [PgClosed] else []) ++ (if redisClient then [RedisClosed] else []))
    end.
Proof.
  pose proof (registry_lifecycle bs w) as H. destruct (until_failure bs) as [before failed].
  destruct H as [Hs _]. cbv zeta. unfold Run. rewrite bind_unfold.
  unfold registry_RegisterRootRoutes. rewrite (register_recorded _ b_root) by done. cbn [fst snd].
  destruct (register_failure "register root routes " b_root bs) as [err|]; [done|].
  rewrite bind_unfold. unfold registry_RegisterRoutes.
  rewrite (register_recorded _ b_routes) by done. cbn [fst snd].
  destruct (register_failure "register routes " b_routes bs) as [err|]; [done|].
  rewrite bind_unfold, Hs. destruct failed as [[name err]|]; cbn [fst snd].
  - unfold errors_Join at 1. cbn [omap list_omap id]. by rewrite ret_unfold.
  - rewrite bind_unfold, serve_and_wait_recorded. cbn [fst snd]. fold run_error.
    rewrite shutdown_recorded. by rewrite <- !app_assoc.
Qed.
End lifecycle.

(** ** The errors of a run *)

Section run.
Context {W : Type} `{!HttpServer W, !PgxPool W, !GoRedis W}.
Implicit Types w : W.

Definition clean_stop_error : goerr := errors_New "http server shutdown: %!w(<nil>)".

(** The error of a stop is inverted.  When the HTTP server shuts down
    cleanly, [Run] answers an error, which says so and wraps nothing,
    whatever the modules and Redis answer; and when the server does not shut
    down in time, its error is dropped: if nothing else failed, [Run]
    answers nil. *)
Theorem run_error_inverted (registry : Registry W) (cfg : ServerSettings)
    (pgPool redisClient : bool) (runErr : option goerr) w :
  let http := http_Shutdown (ss_HTTPDrainTimeout cfg) w in
  let modules := registry_Shutdown registry http.2 in
  let closed := if pgPool then (pgx_Close modules.2).2 else modules.2 in
  let redis := redis_Shutdown redisClient closed in
  let answer := (shutdown_all registry cfg pgPool redisClient runErr w).1 in
  match http.1 with
  | None => exists es, answer = Some (GoErr.Join es) /\ clean_stop_error ∈ es
  | Some _ => runErr = None -> modules.1 = None -> redis.1 = None -> answer = None
  end.
Proof.
  cbv zeta. unfold shutdown_all, httpServer_shutdown.
  rewrite bind_unfold. destruct (http_Shutdown (ss_HTTPDrainTimeout cfg) w) as [herr w1].
  cbn [fst snd]. rewrite bind_unfold.
  destruct (registry_Shutdown registry w1) as [merr w2]. cbn [fst snd].
  rewrite bind_unfold.
  replace ((if pgPool then pgx_Close else skip) w2).2
    with (if pgPool then (pgx_Close w2).2 else w2) by (by destruct pgPool).
  rewrite bind_unfold, ret_unfold.
  destruct (redis_Shutdown redisClient _) as [rerr w3]. cbn [fst snd].
  destruct herr as [err|]; cbn [http_shutdown_errors].
  - by intros -> -> ->.
  - destruct runErr, merr, rerr; eexists; (split; [reflexivity|set_solver]).
Qed.

(** [Run] answers nil only when the server did not shut down in time. *)
Lemma run_nil (registry : Registry W) (cfg : ServerSettings) (pgPool redisClient : bool) w :
  (Run registry cfg pgPool redisClient w).1 = None ->
  exists w', is_Some (http_Shutdown (ss_HTTPDrainTimeout cfg) w').1.
Proof.
  unfold Run. rewrite bind_unfold. destruct (registry_RegisterRootRoutes _ _) as [[e|] w1]; [done|].
  cbn [fst snd]. rewrite bind_unfold. destruct (registry_RegisterRoutes _ _) as [[e|] w2]; [done|].
  cbn [fst snd]. rewrite bind_unfold. destruct (registry_Start _ _) as [[e|] w3]; [done|].
  cbn [fst snd]. rewrite bind_unfold. destruct (serve_and_wait _ _) as [reason w4]. cbn [fst snd].
  intros Hn. exists w4.
  pose proof (run_error_inverted registry cfg pgPool redisClient
    match reason with ServerFailed err => Some err | _ => None end w4) as H. cbv zeta in H.
  destruct (http_Shutdown _ w4).1 as [err|]; [by eexists|].
  destruct H as (es & H & _). by rewrite Hn in H.
Qed.

(** A process never ends well after a clean stop.  [main] returns, instead of
    panicking, only if the application was built and its HTTP server failed
    to shut down. *)
Theorem main_returns_unclean `{!Os} load compose godotenv_Load is_not_exist w :
  (main (W := W) load compose godotenv_Load is_not_exist w).1 = Http.Returned ->
  exists registry cfg w',
    (BuildApplication load compose godotenv_Load is_not_exist w).1 = Ok (registry, cfg)
    /\ is_Some (http_Shutdown (ss_HTTPDrainTimeout cfg) w').1.
Proof.
  unfold main. rewrite bind_unfold.
  destruct (BuildApplication _ _ _ _ w) as [[[registry cfg]|err] w1]; [|done]. cbn [fst snd].
  rewrite bind_unfold, ret_unfold. cbn [fst snd].
  destruct (Run registry cfg true true w1).1 as [err|] eqn:E; [done|]. intros _.
  destruct (run_nil registry cfg true true w1 E) as [w' Hw']. by exists registry, cfg, w'.
Qed.
End run.

(** *** A process that stops cleanly *)

Section example.
#[local] Instance demo_http : HttpServer nat := {|
  http_Serve := fun _ => mret SignalNotified; http_Next := mret ShutdownSignal;
  http_Shutdown := fun _ => mret None; is_ErrServerClosed := fun _ => false |}.
#[local] Instance demo_pgx : PgxPool nat := {|
  pgx_ParseConfig := fun _ => None; pgx_NewWithConfig := fun _ _ => mret None;
  pgx_Ping := mret None; pgx_Close := modify_world S |}.
#[local] Instance demo_redis : GoRedis nat := {|
  gr_NewClient := fun _ _ _ => skip; gr_Ping := mret (Some Canceled);
  gr_Close := mret None |}.
#[local] Abbreviation settings := (MkServerSettings "" 8080 0 0 0 0 second second).

Lemma run_error_inverted_witness :
  exists es, (Run ([] : Registry nat) settings true true 0).1 = Some (GoErr.Join es)
             /\ clean_stop_error ∈ es.
Proof.
  exact (run_error_inverted ([] : Registry nat) settings true true None 0).
Defined.

(** When Redis cannot be reached the pool of PostgreSQL, already open, is
    not closed; when the modules cannot be composed it is. *)
Example infra_leak :
  let pg := MkPostgresConfig "h" 5432 "db" "disable" 5 1 second second second "u" "p" in
  let rd := MkRedisConfig "h" 6379 0 0 0 0 0 0 0 0 0 0 "" in
  is_Some (newInfrastructure pg rd 0).1 /\ (newInfrastructure pg rd 0).2 = 0.
Proof. vm_compute. split; [by eexists|done]. Qed.
End example.

(** ** The password of Redis is required and not used *)

(** Whatever the environment says, the configuration and the client have no
    password. *)
Lemma redis_password_unused `{!Os} (c : RedisConfig) :
  rc_Password (redis_from_env c) = "" /\ "REDIS_PASSWORD" ∈ required_envs.
Proof. split; [done|]. unfold required_envs. set_solver. Qed.
