(* ===== verification/JobOutcome.v ===== *)
(** * The outcome of a job

    What the worker leaves behind when it has processed a job, whatever the
    engine, the heartbeat and the lease do: the row of the job and the events
    of its stream agree, unless a request to PostgreSQL is lost.  The theorem is proved against an interface,
    [JobWorld], that says what each service of the worker does to the row and
    to the stream; EndToEnd.v shows that the composed program has it. *)

From S2P Require Import Prelude GoErr Redis Env Postgres.
From S2P Require Retry Stream Job.
From S2P Require Import Worker.
From stdpp Require Import base gmap sets list strings pretty.
From Stdlib Require Import ZArith Lia.

#[local] Abbreviation event := Stream.StreamEvent.

(** ** What can be seen of a world, from one job *)

(** [jv_obs es w w']: from [w] to [w'] the events [es] were published on the
    stream of the job.  [jv_reliable]: no event is ever lost; [jv_stored]: no
    request to the database is.  [jv_valid]: what is known of every event. *)
Class JobView (W : Type) := {
  jv_inv : W -> Prop;
  jv_obs : list event -> W -> W -> Prop;
  jv_row : W -> option job_row;
  jv_reliable : Prop;
  jv_stored : Prop;
  jv_valid : event -> Prop }.

Class JobViewLaws (W : Type) `{!JobView W} : Prop := {
  jv_refl (w : W) : jv_obs [] w w;
  jv_trans es1 es2 (w1 w2 w3 : W) :
    jv_obs es1 w1 w2 -> jv_obs es2 w2 w3 -> jv_obs (es1 ++ es2) w1 w3 }.

(** A program that keeps the invariant and the row, and publishes some
    events. *)
Definition effect {W} `{!JobView W} {A} (m : M W A) (E : A -> list event -> Prop) : Prop :=
  forall w, jv_inv w ->
    jv_inv (m w).2 /\ jv_row (m w).2 = jv_row w
    /\ exists es, jv_obs es w (m w).2 /\ E (m w).1 es.

Definition silent {W} `{!JobView W} {A} (m : M W A) : Prop := effect m (fun _ es => es = []).

(** The event is on the stream if the call answers no error; if it does, it
    may be. *)
Definition published {W} `{!JobView W} (e : event) (err : option goerr) (es : list event) : Prop :=
  match err with
  | None => es = [e]
  | Some _ => ~ jv_reliable /\ (es = [] \/ es = [e])
  end.

(** The row after a write of the final status over [r], which answered [err]:
    an error, which needs a lost request, leaves the row or hides the write. *)
Definition marked {W} `{!JobView W} (final : string) (n : Z) (r : job_row) (err : option goerr)
    (row : option job_row) : Prop :=
  match err with
  | None => row = Some (set_status final n r)
  | Some _ => ~ jv_stored /\ (row = Some r \/ row = Some (set_status final n r))
  end.

(** A write of the final status of the job. *)
Definition marks {W} `{!JobView W} (mark : Z -> M W (option goerr)) (final : string) : Prop :=
  forall n w r, jv_inv w -> (0 <= n < 2 ^ 31)%Z -> jv_row w = Some r ->
    j_status r = "created" -> (0 <= j_retry r < 256)%Z ->
    marked final n r (mark n w).1 (jv_row (mark n w).2)
    /\ jv_inv (mark n w).2 /\ jv_obs [] w (mark n w).2.

(** The programs that keep the row compose. *)
Section compose.
Context {W : Type} `{!JobView W, !JobViewLaws W}.

Lemma effect_ret {A} (a : A) (E : A -> list event -> Prop) : E a [] -> effect (mret a : M W A) E.
Proof. intros Ha w Hw. split; [done|]. split; [done|]. exists []. split; [apply jv_refl|done]. Qed.

Lemma effect_bind {A B} (m : M W A) (k : A -> M W B) E1 (E2 : A -> B -> list event -> Prop)
    (E : B -> list event -> Prop) :
  effect m E1 -> (forall a, effect (k a) (E2 a)) ->
  (forall a b es1 es2, E1 a es1 -> E2 a b es2 -> E b (es1 ++ es2)) ->
  effect (x ← m; k x) E.
Proof.
  intros Hm Hk HE w Hw. rewrite bind_unfold. destruct (Hm w Hw) as (I1 & R1 & es1 & O1 & X1).
  destruct (Hk (m w).1 (m w).2 I1) as (I2 & R2 & es2 & O2 & X2).
  split; [done|]. split; [by rewrite R2|]. exists (es1 ++ es2).
  split; [by eapply jv_trans|by eapply HE].
Qed.

Lemma effect_weaken {A} (m : M W A) (E E' : A -> list event -> Prop) :
  effect m E -> (forall a es, E a es -> E' a es) -> effect m E'.
Proof. intros Hm HE w Hw. destruct (Hm w Hw) as (Hi & Hr & es & Ho & He). eauto 8. Qed.

Lemma silent_ret {A} (a : A) : silent (mret a : M W A).
Proof. by apply effect_ret. Qed.

(** Quiet steps before an effect. *)
Lemma silent_then {A B} (m : M W A) (k : A -> M W B) E :
  silent m -> (forall a, effect (k a) E) -> effect (x ← m; k x) E.
Proof.
  intros Hm Hk. apply (effect_bind _ _ (fun _ es => es = []) (fun _ => E)); [done..|].
  by intros a b es1 es2 ->.
Qed.

Lemma silent_bind {A B} (m : M W A) (k : A -> M W B) :
  silent m -> (forall a, silent (k a)) -> silent (x ← m; k x).
Proof. apply silent_then. Qed.

Lemma silent_when c (m : M W unit) : silent m -> silent (when c m).
Proof. intros Hm. destruct c; [exact Hm|apply silent_ret]. Qed.

(** The answer of a program is an answer it gives in some state. *)
Lemma effect_result {A} (m : M W A) E :
  effect m E -> effect m (fun a es => E a es /\ exists w, jv_inv w /\ (m w).1 = a).
Proof.
  intros Hm w Hw. destruct (Hm w Hw) as (Hi & Hr & es & Ho & He).
  split; [done|]. split; [done|]. exists es. split; [done|]. split; [done|]. by exists w.
Qed.
End compose.

Definition chunk (text : string) : event := Stream.MkStreamEvent "chunk" text.

(** ** The events of a job *)

Definition is_terminal (e : event) : bool := Stream.isTerminalEvent (Stream.ev_Type e).

(** The events of one generation, each chunk answered by its publication. *)
Inductive delivers {W} `{!JobView W} : generation -> list event -> option goerr -> Prop :=
| delivers_end err : delivers (GenEnd err) [] err
| delivers_chunk c k answer es1 es2 err :
    published (chunk (sc_Text c)) answer es1 -> delivers (k answer) es2 err ->
    delivers (GenChunk c k) (es1 ++ es2) err.

(** Events that do not end the stream. *)
Definition quiet_events {W} `{!JobView W} (es : list event) : Prop :=
  existsb is_terminal es = false /\ Forall jv_valid es.

(** The events of the attempts before: nothing, or they end with the news
    that the generation starts again (unless that was lost). *)
Definition restarts {W} `{!JobView W} (es : list event) : Prop :=
  quiet_events es
  /\ (es = [] \/ ~ jv_reliable \/ exists es' d, es = es' ++ [Stream.MkStreamEvent "retrying" d]).

(** A generation that the engine answers. *)
Definition engine_answers {W} `{!InferenceEngine W, !JobView W} (input : GenerationInput)
    (g : generation) : Prop :=
  exists w, jv_inv w /\ (we_GenerateStream input w).1 = g.

(** What the worker says of its own. *)
Definition retrying (ev : Retry.RetryEvent) : event :=
  Stream.MkStreamEvent "retrying" (retrying_message ev).
Definition completed_event : event := Stream.MkStreamEvent "completed" "".
Definition failed_event : event := Stream.MkStreamEvent "failed" failed_message.

(** ** What the services do *)

Class JobWorld (W : Type) `{!JobRepository W, !InferenceEngine W, !StreamPublisher W, !Queue W,
    !IdempotencyStatusUpdater W, !WorkerMetrics W, !JobEnv W} (claim : JobClaimResult)
    (maxAttempts : Z) `{!JobView W, !JobViewLaws W} : Prop := {
  jw_policy : effect (wj_GetRetryPolicy (jc_UserID claim)) (fun r es => es = [] /\
    match r with Ok p => (0 <= irp_MaxAttempts p <= maxAttempts)%Z | Err _ => True end);
  jw_payload : silent (wj_Payload claim);
  jw_generate i : silent (we_GenerateStream i);
  jw_chunk c : effect (ws_Publish (jc_JobID claim) c) (published (chunk (sc_Text c)));
  jw_event t d : Stream.domain_event t = t ->
    effect (ws_PublishEvent (jc_JobID claim) t d) (published (Stream.MkStreamEvent t d));
  jw_close : effect (ws_Close (jc_JobID claim)) (published (Stream.MkStreamEvent "completed" ""));
  jw_release : silent (wq_Release (jc_JobID claim));
  jw_extend : silent (wq_ExtendLease (jc_JobID claim));
  jw_marker : silent (wq_MarkCompleted (jc_JobID claim));
  jv_transition st : silent (wi_TransitionStatus (jc_UserID claim) (jc_JobID claim) st);
  jw_metric x : silent (wm_observe x);
  jw_sleep d : silent (time_Sleep d);
  jw_schedule : silent beat_schedule;
  jw_completed : marks (wj_MarkCompleted (jc_JobID claim)) "completed";
  jw_failed : marks (wj_MarkFailed (jc_JobID claim)) "failed";
  jw_valid : jv_valid completed_event /\ jv_valid failed_event /\ forall ev, jv_valid (retrying ev);
  jw_texts i g es err : engine_answers i g -> delivers g es err -> Forall jv_valid es;
}.

Section outcome.
Context {W : Type} `{!JobRepository W, !InferenceEngine W, !StreamPublisher W, !Queue W,
  !IdempotencyStatusUpdater W, !WorkerMetrics W, !JobEnv W}.
Context (pool : workerPool) (claim : JobClaimResult) (maxAttempts : Z).
Context `{!JobView W, !JobViewLaws W, !JobWorld W claim maxAttempts}.
#[local] Abbreviation S := (jobscope W).
Implicit Types s : S.

(** From [s] to [s'] the events [es] were published and the row stayed. *)
Definition moves (es : list event) (s s' : S) : Prop :=
  jv_inv (sc_world s') /\ jv_row (sc_world s') = jv_row (sc_world s)
  /\ jv_obs es (sc_world s) (sc_world s').

Lemma moves_refl s s' : jv_inv (sc_world s) -> sc_world s' = sc_world s -> moves [] s s'.
Proof. intros Hi E. unfold moves. rewrite E. split; [done|]. split; [done|]. apply jv_refl. Qed.

Lemma moves_trans es1 es2 s1 s2 s3 : moves es1 s1 s2 -> moves es2 s2 s3 -> moves (es1 ++ es2) s1 s3.
Proof.
  intros (_ & R1 & O1) (I2 & R2 & O2). split; [done|]. split; [by rewrite R2|].
  by eapply jv_trans.
Qed.

(** A program of the job that publishes some events and counts no attempt. *)
Definition emits {A} (m : M S A) (E : A -> list event -> Prop) : Prop :=
  forall s, jv_inv (sc_world s) ->
    (exists es, moves es s (m s).2 /\ E (m s).1 es) /\ sc_attempts (m s).2 = sc_attempts s.

Class Still {A} (m : M S A) : Prop := still : emits m (fun _ es => es = []).

Lemma emits_ret {A} (a : A) (E : A -> list event -> Prop) : E a [] -> emits (mret a) E.
Proof. intros Ha s Hs. split; [|done]. exists []. split; [by apply moves_refl|done]. Qed.

Lemma emits_bind {A B} (m : M S A) (k : A -> M S B) E1 (E2 : A -> B -> list event -> Prop)
    (E : B -> list event -> Prop) :
  emits m E1 -> (forall a, emits (k a) (E2 a)) ->
  (forall a b es1 es2, E1 a es1 -> E2 a b es2 -> E b (es1 ++ es2)) ->
  emits (x ← m; k x) E.
Proof.
  intros Hm Hk HE s Hs. rewrite bind_unfold. destruct (Hm s Hs) as [(es1 & M1 & X1) A1].
  destruct (Hk (m s).1 (m s).2 (proj1 M1)) as [(es2 & M2 & X2) A2].
  split; [|by rewrite A2]. exists (es1 ++ es2). split; [by eapply moves_trans|by eapply HE].
Qed.

Lemma emits_weaken {A} (m : M S A) (E E' : A -> list event -> Prop) :
  emits m E -> (forall a es, E a es -> E' a es) -> emits m E'.
Proof. intros Hm HE s Hs. destruct (Hm s Hs) as [(es & Mv & X) Ha]. eauto. Qed.

#[local] Instance Still_ret {A} (a : A) : Still (mret a).
Proof. by apply emits_ret. Qed.

#[local] Instance Still_bind {A B} (m : M S A) (k : A -> M S B) :
  Still m -> (forall a, Still (k a)) -> Still (x ← m; k x).
Proof. intros Hm Hk. apply (emits_bind _ _ (fun _ es => es = []) (fun _ _ es => es = [])); [done..|].
  by intros a b es1 es2 -> ->. Qed.

#[local] Instance Still_when c (m : M S unit) : Still m -> Still (when c m).
Proof. intros Hm. destruct c; [exact Hm|apply Still_ret]. Qed.

#[local] Instance Still_get : Still (get_world : M S S).
Proof. intros s Hs. split; [|done]. exists []. split; [by apply moves_refl|done]. Qed.

(** A change of the scope that leaves the world and the count alone. *)
Lemma Still_modify (f : S -> S) :
  (forall s, sc_world (f s) = sc_world s /\ sc_attempts (f s) = sc_attempts s) ->
  Still (modify_world f).
Proof.
  intros Hf s Hs. destruct (Hf s) as [E Ha]. split; [|exact Ha]. exists [].
  split; [by apply moves_refl|done].
Qed.

Lemma emits_lift {A} (m : M W A) E : effect m E -> emits (lift m) E.
Proof.
  intros Hm s Hs. destruct (Hm (sc_world s) Hs) as (Hi & Hr & es & Ho & He).
  unfold lift. destruct (m (sc_world s)) as [a w]. cbn [fst snd sc_world sc_attempts] in *.
  split; [|done]. exists es. done.
Qed.

#[local] Instance Still_set_beat b : Still (set_beat b).
Proof. by apply Still_modify. Qed.
#[local] Instance Still_jobCancel c : Still (jobCancel c).
Proof. by apply Still_modify. Qed.

(** *** The heartbeat *)

#[local] Instance Still_tick : Still (heartbeat_tick pool claim).
Proof.
  unfold heartbeat_tick. apply Still_bind; [apply _|]. intros s. destruct (sc_beat s); [|apply _].
  apply Still_bind; [apply emits_lift, jw_extend|]. intros [e|]; [|apply _].
  destruct (errors_Is _ _); [apply _|]. destruct (_ <=? _)%Z; apply _.
Qed.

#[local] Instance Still_beats : Still (beats pool claim).
Proof.
  unfold beats. apply Still_bind; [apply _|]. intros s. destruct (sc_sched s) as [|n rest]; [apply _|].
  apply Still_bind; [by apply Still_modify|]. intros _.
  induction n as [|n IH]; [apply Still_ret|]. cbn [ticks]. by apply Still_bind; [apply _|].
Qed.

Lemma emits_op {A} (m : M W A) E : effect m E -> emits (op pool claim m) E.
Proof.
  intros Hm. apply (emits_bind _ _ (fun _ es => es = []) (fun _ => E));
    [apply Still_beats|intros _; by apply emits_lift|]. by intros a b es1 es2 ->.
Qed.

Lemma Still_op {A} (m : M W A) : silent m -> Still (op pool claim m).
Proof. apply emits_op. Qed.

#[local] Instance Still_observe x : Still (observe pool x).
Proof. apply Still_when. apply emits_lift, jw_metric. Qed.

#[local] Instance Still_ctx_Err : Still (job_ctx_Err pool claim).
Proof. unfold job_ctx_Err. apply _. Qed.

#[local] Instance Still_sleep d : Still (@Retry.sleepWithContext S (job_ctx pool claim) d).
Proof.
  unfold Retry.sleepWithContext. destruct (d <=? 0)%Z; [apply _|]. cbn.
  apply Still_bind; [apply Still_op, jw_sleep|apply _].
Qed.

#[local] Instance Still_stop : Still (stopHeartbeatAndWait pool claim).
Proof. unfold stopHeartbeatAndWait. apply _. Qed.

#[local] Instance Still_lost : Still (lease_lost : M S bool).
Proof. unfold lease_lost. apply _. Qed.

(** *** The generation *)

Lemma quiet_nil : quiet_events [].
Proof. done. Qed.

Lemma quiet_app es1 es2 : quiet_events es1 -> quiet_events es2 -> quiet_events (es1 ++ es2).
Proof.
  intros [H1 V1] [H2 V2]. split; [by rewrite existsb_app, H1, H2|by apply Forall_app].
Qed.

Lemma retrying_quiet ev err es : published (retrying ev) err es -> quiet_events es.
Proof.
  intros Hp. pose proof (proj2 (proj2 jw_valid) ev) as Hv.
  destruct err; cbn in Hp; [destruct Hp as [_ [->| ->]]|subst es]; split; try done; by constructor.
Qed.

Lemma delivers_quiet input g es err :
  engine_answers input g -> delivers g es err -> quiet_events es.
Proof.
  intros Hg Hd. split; [|by eapply jw_texts]. clear Hg.
  induction Hd as [|c k answer es1 es2 err Hp _ IH]; [done|].
  rewrite existsb_app, IH, orb_false_r.
  destruct answer; cbn in Hp; [destruct Hp as [_ [->| ->]]|subst es1]; done.
Qed.

Lemma emits_publishing (m : M W (option goerr)) e :
  streamPublisher pool = true -> effect m (published e) ->
  emits (publishing pool claim m) (fun _ es => exists err, published e err es).
Proof.
  intros Hpub Hm. unfold publishing. rewrite Hpub. cbn.
  apply (emits_bind _ _ (published e) (fun _ _ es => es = [])).
  - by apply emits_op.
  - intros _. apply Still_ret.
  - intros a _ es1 es2 Hp ->. rewrite app_nil_r. eauto.
Qed.

Lemma emits_generation g :
  streamPublisher pool = true ->
  emits (run_generation pool claim g) (fun err es => delivers g es err).
Proof.
  intros Hpub. induction g as [err|c k IH]; cbn [run_generation].
  - apply (emits_bind _ _ (fun _ es => es = []) (fun _ e es => es = [] /\ e = err));
      [apply Still_beats|intros _; by apply emits_ret|].
    intros _ e es1 es2 -> [-> ->]. constructor.
  - unfold onChunk. rewrite Hpub.
    apply (emits_bind _ _ (published (chunk (sc_Text c))) (fun a err es => delivers (k a) es err));
      [apply emits_op, jw_chunk|exact IH|].
    intros a err es1 es2 Hp Hd. by econstructor.
Qed.

(** One attempt: a generation that the engine answers, its events, and one
    more in the count. *)
Lemma generate_effect input s :
  streamPublisher pool = true -> jv_inv (sc_world s) ->
  let p := generate pool claim input s in
  sc_attempts p.2 = (sc_attempts s + 1)%Z
  /\ exists g es err, engine_answers input g /\ moves es s p.2 /\ delivers g es err
     /\ p.1 = match err with Some e => Err (Errorf2 ErrInferenceFailed e) | None => Ok tt end.
Proof.
  intros Hpub Hs. cbv zeta. unfold generate. rewrite bind_unfold. cbn [get_world fst snd].
  rewrite bind_unfold. set (s0 := (set_attempts (sc_attempts s + 1) s).2).
  assert (Hs0 : jv_inv (sc_world s0)) by exact Hs.
  assert (M0 : moves [] s s0) by by apply moves_refl.
  assert (A0 : sc_attempts s0 = (sc_attempts s + 1)%Z) by done. clearbody s0.
  unfold op. rewrite !bind_unfold, ret_unfold.
  destruct (Still_beats s0 Hs0) as [(es0 & M1 & ->) A1].
  destruct (beats pool claim s0) as [[] s1]. cbn [fst snd] in *.
  destruct (emits_lift _ _ (jw_generate input) s1 (proj1 M1)) as [(es1 & M2 & ->) A2].
  assert (Hg : engine_answers input (lift (we_GenerateStream input) s1).1).
  { exists (sc_world s1). split; [exact (proj1 M1)|]. unfold lift.
    by destruct (we_GenerateStream input (sc_world s1)). }
  destruct (lift (we_GenerateStream input) s1) as [g s2]. cbn [fst snd] in *.
  destruct (emits_generation g Hpub s2 (proj1 M2)) as [(es & M3 & Hd) A3].
  split; [by rewrite A3, A2, A1, A0|]. exists g, es, (run_generation pool claim g s2).1.
  split; [done|]. split; [|done].
  pose proof (moves_trans _ _ _ _ _ M0 (moves_trans _ _ _ _ _ M1 (moves_trans _ _ _ _ _ M2 M3))).
  done.
Qed.

(** The callback between two attempts. *)
Lemma attempt_failed_effect ev s :
  streamPublisher pool = true -> jv_inv (sc_world s) ->
  let p := on_attempt_failed pool claim ev s in
  sc_attempts p.2 = Z.of_nat (Retry.Attempt ev)
  /\ exists es, moves es s p.2 /\
       if Retry.WillRetry ev then exists err, published (retrying ev) err es else es = [].
Proof.
  intros Hpub Hs. cbv zeta. unfold on_attempt_failed. rewrite bind_unfold.
  set (s0 := (set_attempts (Z.of_nat (Retry.Attempt ev)) s).2).
  assert (M0 : moves [] s s0) by by apply moves_refl.
  assert (A0 : sc_attempts s0 = Z.of_nat (Retry.Attempt ev)) by done. clearbody s0.
  destruct (Retry.WillRetry ev); cbn [when].
  2:{ split; [exact A0|]. by exists []. }
  assert (He : emits (_ ← observe pool JobRetriedModelFailure;
    publishing pool claim (ws_PublishEvent (jc_JobID claim) "retrying" (retrying_message ev)))
    (fun _ es => exists err, published (retrying ev) err es)).
  { apply (emits_bind _ _ (fun _ es => es = [])
      (fun _ _ es => exists err, published (retrying ev) err es)).
    - apply Still_observe.
    - intros _. apply emits_publishing; [done|]. by apply jw_event.
    - by intros _ _ es1 es2 ->. }
  destruct (He s0 (proj1 M0)) as [(es & M1 & Hp) A1]. split; [by rewrite A1|].
  exists es. split; [|done]. exact (moves_trans [] _ _ _ _ M0 M1).
Qed.

Lemma restarts_app es1 es2 ev :
  quiet_events es1 -> (exists err, published (retrying ev) err es2) -> restarts (es1 ++ es2).
Proof.
  intros H1 [err Hp]. split; [apply quiet_app; [done|by eapply retrying_quiet]|].
  right. destruct err; cbn in Hp; [by left; destruct Hp|subst es2]. right. by eexists _, _.
Qed.

(** What the attempts leave: the events of the attempts that failed, and, on
    success, those of a complete generation. *)
Definition attempts_outcome (input : GenerationInput) (r : res goerr unit) (es : list event) : Prop :=
  match r with
  | Ok _ => exists pre es' g, es = pre ++ es' /\ restarts pre /\ engine_answers input g
              /\ delivers g es' None
  | Err _ => quiet_events es
  end.

Lemma retry_loop_effect (pol : Retry.RetryPolicy S) input left attempt lastErr s pre :
  streamPublisher pool = true -> jv_inv (sc_world s) ->
  Retry.OnAttemptFailed pol = Some (on_attempt_failed pool claim) ->
  sc_attempts s = Z.of_nat attempt -> restarts pre ->
  let p := @Retry.retry_loop S (job_ctx pool claim) unit pol (generate pool claim input) left
             (Datatypes.S attempt) lastErr s in
  exists es k, moves es s p.2 /\ sc_attempts p.2 = Z.of_nat (attempt + k) /\ (k <= left)%nat
    /\ attempts_outcome input p.1 (pre ++ es).
Proof.
  intros Hpub Hs Hcb Ha Hpre. cbv zeta. revert attempt lastErr s pre Hs Ha Hpre.
  induction left as [|left IH]; intros attempt lastErr s pre Hs Ha Hpre; cbn [Retry.retry_loop].
  { exists [], 0%nat. rewrite ret_unfold. cbn [fst snd]. rewrite app_nil_r, Nat.add_0_r.
    split; [by apply moves_refl|]. split; [done|]. split; [lia|]. apply Hpre. }
  rewrite bind_unfold.
  destruct (generate_effect input s Hpub Hs) as (A1 & g & es1 & err & Hg & M1 & Hd & Hr).
  destruct (generate pool claim input s) as [r s1]. cbn [fst snd] in *. subst r.
  assert (A1' : sc_attempts s1 = Z.of_nat (attempt + 1)) by lia.
  destruct err as [e|].
  2:{ exists es1, 1%nat. rewrite ret_unfold. cbn [fst snd].
      split; [done|]. split; [done|]. split; [lia|]. exists pre, es1, g. done. }
  assert (Hq : quiet_events (pre ++ es1)).
  { apply quiet_app; [apply Hpre|by eapply delivers_quiet]. }
  change (@ctx_Err S (job_ctx pool claim)) with (job_ctx_Err pool claim).
  rewrite bind_unfold. destruct (Still_ctx_Err s1 (proj1 M1)) as [(es0 & M2 & ->) A2].
  destruct (job_ctx_Err pool claim s1) as [c s2]. cbn [fst snd] in *.
  pose proof (moves_trans _ _ _ _ _ M1 M2) as M12. rewrite app_nil_r in M12.
  destruct c as [c|].
  { exists es1, 1%nat. rewrite ret_unfold. cbn [fst snd]. split; [done|]. split; [lia|].
    split; [lia|]. exact Hq. }
  rewrite bind_unfold, Hcb. set (ev := Retry.MkRetryEvent _ _ _ _ _).
  set (will := (_ && _)) in *.
  destruct (attempt_failed_effect ev s2 Hpub (proj1 M2)) as (A3 & es2 & M3 & Hp).
  destruct (on_attempt_failed pool claim ev s2) as [[] s3]. cbn [fst snd] in *.
  change (Retry.WillRetry ev) with will in Hp. change (Retry.Attempt ev) with (Datatypes.S attempt) in A3.
  pose proof (moves_trans _ _ _ _ _ M12 M3) as M13.
  destruct will; cbn [negb].
  2:{ subst es2. rewrite app_nil_r in M13. exists es1, 1%nat. rewrite ret_unfold. cbn [fst snd].
      split; [done|]. split; [lia|]. split; [lia|]. exact Hq. }
  assert (Hpre' : restarts (pre ++ es1 ++ es2)).
  { rewrite app_assoc. by eapply restarts_app. }
  rewrite bind_unfold.
  set (d := Retry.retryDelay _ _ _). destruct (Still_sleep d s3 (proj1 M3)) as [(es3 & M4 & ->) A4].
  destruct (Retry.sleepWithContext d s3) as [c s4]. cbn [fst snd] in *.
  pose proof (moves_trans _ _ _ _ _ M13 M4) as M14. rewrite app_nil_r in M14.
  destruct c as [c|].
  { exists (es1 ++ es2), 1%nat. rewrite ret_unfold. cbn [fst snd]. split; [done|].
    split; [lia|]. split; [lia|]. apply Hpre'. }
  destruct (IH (Datatypes.S attempt) (Some (Errorf2 ErrInferenceFailed e)) s4 (pre ++ es1 ++ es2))
    as (es & k & M5 & A5 & Hk & Ho); [apply M4|lia|done|].
  exists ((es1 ++ es2) ++ es), (Datatypes.S k). split; [by eapply moves_trans|].
  split; [rewrite A5; f_equal; lia|]. split; [lia|]. by rewrite <- !app_assoc in *.
Qed.

(** *** The ends *)

(** The job can be marked: its row is as it was created. *)
Definition open_row (r : job_row) : Prop :=
  j_status r = "created" /\ (0 <= j_retry r < 256)%Z.

(** From [s] to [s'] the final status was written, with the answer [err], and
    the event was published. *)
Definition finishes (final : string) (n : Z) (r : job_row) (e : event) (err : option goerr)
    (s s' : S) : Prop :=
  jv_inv (sc_world s') /\ marked final n r err (jv_row (sc_world s'))
  /\ exists fin perr, published e perr fin /\ jv_obs fin (sc_world s) (sc_world s').

Lemma still_finishes final n r e err s1 s2 s3 :
  moves [] s1 s2 -> finishes final n r e err s2 s3 -> finishes final n r e err s1 s3.
Proof.
  intros (_ & _ & O1) (I2 & R2 & fin & perr & Hp & O2). split; [done|]. split; [done|].
  exists fin, perr. split; [done|]. by eapply (jv_trans []).
Qed.

(** What follows the write publishes the event, and answers [f err]. *)
Lemma mark_finishes {B} (mark : Z -> M W (option goerr)) final n r e (k : option goerr -> M S B)
    (f : option goerr -> B) s :
  marks mark final ->
  (forall err, emits (k err) (fun b es => b = f err /\ exists perr, published e perr es)) ->
  jv_inv (sc_world s) -> jv_row (sc_world s) = Some r -> open_row r -> (0 <= n < 2 ^ 31)%Z ->
  let p := (x ← op pool claim (mark n); k x) s in
  exists err, p.1 = f err /\ finishes final n r e err s p.2.
Proof.
  intros Hmark Hk Hs Hrow [Hst Hr] Hn. cbv zeta. unfold op. rewrite !bind_unfold.
  destruct (Still_beats s Hs) as [(es0 & M1 & ->) _].
  destruct (beats pool claim s) as [[] s1]. cbn [fst snd] in *.
  destruct M1 as (I1 & R1 & O1). rewrite Hrow in R1.
  destruct (Hmark n (sc_world s1) r I1 Hn R1 Hst Hr) as (R2 & I2 & O2).
  unfold lift. destruct (mark n (sc_world s1)) as [err w]. cbn [fst snd] in *. exists err.
  set (s2 := MkScope w _ _ _ _). destruct (Hk err s2 I2) as [(es & (I3 & R3 & O3) & -> & perr & Hp) _].
  split; [done|]. split; [done|]. split; [by rewrite R3|]. exists es, perr. split; [done|].
  apply (jv_trans [] es _ _ _ O1). exact (jv_trans [] es _ _ _ O2 O3).
Qed.

(** A program of quiet steps before the event. *)
Lemma emits_after {A B} (m : M S A) (k : A -> M S B) E :
  Still m -> (forall a, emits (k a) E) -> emits (x ← m; k x) E.
Proof.
  intros Hm Hk. apply (emits_bind _ _ (fun _ es => es = []) (fun _ => E)); [done..|].
  by intros a b es1 es2 ->.
Qed.

(** The event, then quiet steps. *)
Lemma emits_before {A B} (m : M S A) (k : A -> M S B) E (b : B) :
  emits m (fun _ => E) -> (forall a, emits (k a) (fun b' es => b' = b /\ es = [])) ->
  emits (x ← m; k x) (fun b' es => b' = b /\ E es).
Proof.
  intros Hm Hk.
  apply (emits_bind _ _ (fun _ => E) (fun _ b' es => b' = b /\ es = [])); [done..|].
  intros a b' es1 es2 He [-> ->]. by rewrite app_nil_r.
Qed.

Lemma fail_job_finishes n count s r :
  streamPublisher pool = true -> jv_inv (sc_world s) -> jv_row (sc_world s) = Some r ->
  open_row r -> (0 <= n < 2 ^ 31)%Z ->
  exists err, finishes "failed" n r failed_event err s (fail_job pool claim n count s).2.
Proof.
  intros Hpub Hs Hrow Hopen Hn. unfold fail_job.
  assert (Hk : forall markErr : option goerr, emits
    (_ ← match markErr with Some _ => skip | None => when count (observe pool JobFailed) end;
     _ ← op pool claim (wi_TransitionStatus (jc_UserID claim) (jc_JobID claim) "failed");
     _ ← op pool claim (wq_Release (jc_JobID claim));
     publishing pool claim (ws_PublishEvent (jc_JobID claim) "failed" failed_message))
    (fun b es => b = tt /\ exists err, published failed_event err es)).
  { intros markErr. apply (emits_after _ (fun _ => _));
      [destruct markErr; [apply Still_ret|apply Still_when; apply _]|]. intros _.
    apply (emits_after _ (fun _ => _)); [apply Still_op, jv_transition|]. intros _.
    apply (emits_after _ (fun _ => _)); [apply Still_op, jw_release|]. intros _.
    eapply emits_weaken; [by apply emits_publishing, jw_event|]. by intros [] es. }
  destruct (mark_finishes (wj_MarkFailed (jc_JobID claim)) "failed" n r failed_event _ (fun _ => tt) s
    jw_failed Hk Hs Hrow Hopen Hn) as (err & _ & Hf). by exists err.
Qed.

(** The job after its row is written, whether it was or not. *)
Lemma close_emits {A} (m : M S A) (b : option goerr) :
  streamPublisher pool = true -> Still m ->
  emits (_ ← m; _ ← publishing pool claim (ws_Close (jc_JobID claim));
         _ ← op pool claim (wq_Release (jc_JobID claim)); mret b)
    (fun b' es => b' = b /\ exists err, published completed_event err es).
Proof.
  intros Hpub Hm. apply (emits_after _ (fun _ => _)); [exact Hm|]. intros _.
  apply (emits_before _ (fun _ => _) (fun es => exists err, published completed_event err es)).
  { apply emits_publishing; [done|]. apply jw_close. }
  intros _. apply (emits_after _ (fun _ => _)); [apply Still_op, jw_release|].
  intros _. by apply emits_ret.
Qed.

Lemma succeeded_finishes n s r :
  streamPublisher pool = true -> jv_inv (sc_world s) -> jv_row (sc_world s) = Some r ->
  open_row r -> (0 <= n < 2 ^ 31)%Z ->
  let p := inference_succeeded pool claim n s in finishes "completed" n r completed_event p.1 s p.2.
Proof.
  intros Hpub Hs Hrow Hopen Hn. cbv zeta. unfold inference_succeeded. rewrite bind_unfold.
  destruct (Still_op _ jw_marker s Hs) as [(es & M1 & ->) _].
  destruct (op pool claim (wq_MarkCompleted (jc_JobID claim)) s) as [x s1]. cbn [fst snd] in *.
  pose proof M1 as (I1 & R1 & _). rewrite Hrow in R1.
  match goal with |- finishes _ _ _ _ (mbind ?k _ _).1 _ _ =>
    destruct (mark_finishes (wj_MarkCompleted (jc_JobID claim)) "completed" n r completed_event k
      id s1 jw_completed) as (err & -> & Hf); [|exact I1|exact R1|done|done|
      exact (still_finishes _ _ _ _ _ _ _ _ M1 Hf)] end.
  intros [err|]; [apply (close_emits _ (Some err) Hpub), Still_stop|].
  apply (emits_after _ (fun _ => _)); [apply _|]. intros _.
  apply (emits_after _ (fun _ => _)); [apply _|]. intros _.
  apply (close_emits _ None Hpub), Still_op, jv_transition.
Qed.

(** *** The whole job *)

(** A quiet operation under a retry policy whose callback does nothing
    answers what one of its calls answered, or an error. *)
Lemma emits_retry {T} (pol : Retry.RetryPolicy S) (fn : M S (res goerr T)) (Q : T -> Prop) :
  emits fn (fun r es => es = [] /\ forall v, r = Ok v -> Q v) ->
  Retry.OnAttemptFailed pol = Some (fun _ => skip) ->
  emits (@Retry.DoWithRetry S (job_ctx pool claim) T pol fn)
    (fun r es => es = [] /\ forall v, r = Ok v -> Q v).
Proof.
  intros Hfn Hcb. unfold Retry.DoWithRetry.
  assert (Herr : forall e : goerr, emits (mret (Err e)) (fun (r : res goerr T) es => es = [] /\ forall v : T, r = Ok v -> Q v)).
  { intros e. by apply emits_ret. }
  destruct (_ <=? 0)%Z; [apply Herr|].
  generalize (None : option goerr) as lastErr. generalize 1%nat as attempt.
  induction (Z.to_nat (Retry.MaxAttempts pol)) as [|left IH]; intros attempt lastErr;
    [apply Herr|]. cbn [Retry.retry_loop].
  set (E := fun (r : res goerr T) (es : list event) => es = [] /\ forall v, r = Ok v -> Q v) in *.
  apply (emits_bind _ _ E (fun r r' es => E r [] -> E r' es)); [exact Hfn| |].
  2:{ intros a b es1 es2 [-> Ha] H2. by apply H2. }
  intros [v|err]; [by apply emits_ret|].
  eapply emits_weaken; [|intros a es H _; exact H].
  apply (emits_after _ (fun _ => _)); [apply Still_ctx_Err|]. intros [e|]; [apply Herr|].
  rewrite Hcb. apply (emits_after _ (fun _ => _)); [apply Still_ret|]. intros _.
  destruct (negb _); [apply Herr|].
  apply (emits_after _ (fun _ => _)); [apply _|]. intros [e|]; [apply Herr|apply IH].
Qed.

(** The payload is one the job service answered. *)
Definition served (payload : JobPayload) : Prop :=
  exists w, jv_inv w /\ (wj_Payload claim w).1 = Ok payload.

Lemma fetch_payload_emits policy :
  emits (fetch_payload pool claim policy) (fun r es => es = [] /\ forall p, r = Ok p -> served p).
Proof.
  apply emits_retry; [|done]. apply emits_op.
  intros w Hw. destruct (effect_result _ _ jw_payload w Hw) as (Hi & Hr & es & Ho & He & Hx).
  split; [done|]. split; [done|]. exists es. split; [done|]. split; [exact He|].
  intros p Hp. by rewrite Hp in Hx.
Qed.

Lemma retry_policy_emits :
  (0 <= defaultMaxAttempts pool <= maxAttempts)%Z ->
  emits (retry_policy pool claim)
    (fun p es => es = [] /\ (0 <= irp_MaxAttempts p.1 <= maxAttempts)%Z).
Proof.
  intros Hd. unfold retry_policy.
  apply (emits_bind _ _ (fun r es => es = [] /\
    match r with Ok p => (0 <= irp_MaxAttempts p <= maxAttempts)%Z | Err _ => True end)
    (fun r p es => es = [] /\ p = match r with
       | Ok p => (p, None)
       | Err err => (MkInferenceRetryPolicy (defaultMaxAttempts pool) (defaultBaseDelay pool)
                       (defaultMaxDelay pool), Some err) end)).
  - apply emits_op, jw_policy.
  - intros r. by apply emits_ret.
  - intros [p|e] b es1 es2 [-> Hp] [-> ->]; done.
Qed.

Definition input_of (payload : JobPayload) : GenerationInput :=
  MkGenerationInput (wp_Model payload) (wp_Prompt payload) (wp_MaxOutputTokens payload)
    (temperature pool).

(** The three ends of a job whose row was [r]. *)
Inductive job_outcome (r : job_row) (w w' : W) : option goerr -> Prop :=
| outcome_completed n pre es fin payload g err merr :
    (0 <= n <= maxAttempts)%Z -> marked "completed" n r merr (jv_row w') ->
    restarts pre -> served payload -> engine_answers (input_of payload) g -> delivers g es None ->
    published completed_event err fin -> jv_obs (pre ++ es ++ fin) w w' ->
    job_outcome r w w' merr
| outcome_failed n es fin err merr result :
    (0 <= n <= maxAttempts)%Z -> marked "failed" n r merr (jv_row w') ->
    quiet_events es -> published failed_event err fin ->
    jv_obs (es ++ fin) w w' -> job_outcome r w w' result
| outcome_abandoned es e :
    jv_row w' = Some r -> quiet_events es -> jv_obs es w w' ->
    errors_Is (Some e) ErrLeaseExtendFailed = true -> job_outcome r w w' (Some e).

(** After the heartbeat is stopped: the lease is lost or the job fails. *)
Lemma stopped_outcome (r : job_row) es s s1 n count (lost_res : goerr) (res : option goerr) (m : M S unit) :
  streamPublisher pool = true -> (0 <= n <= maxAttempts)%Z -> (maxAttempts < 2 ^ 31)%Z ->
  moves es s s1 -> jv_row (sc_world s) = Some r -> open_row r -> quiet_events es ->
  errors_Is (Some lost_res) ErrLeaseExtendFailed = true -> Still m ->
  let p := (_ ← stopHeartbeatAndWait pool claim; lost ← lease_lost;
    if lost : bool then _ ← m; mret (Some lost_res)
    else _ ← fail_job pool claim n count; mret res) s1 in
  jv_inv (sc_world p.2) /\ job_outcome r (sc_world s) (sc_world p.2) p.1.
Proof.
  intros Hpub Hn Hmax M1 Hrow Hopen Hq He Hm. cbv zeta.
  rewrite bind_unfold. destruct (Still_stop s1 (proj1 M1)) as [(es0 & M2 & ->) _].
  destruct (stopHeartbeatAndWait pool claim s1) as [[] s2]. cbn [fst snd] in *.
  rewrite bind_unfold. destruct (Still_lost s2 (proj1 M2)) as [(es0 & M3 & ->) _].
  destruct (lease_lost s2) as [lost s3]. cbn [fst snd] in *.
  pose proof (moves_trans _ _ _ _ _ M1 (moves_trans _ _ _ _ _ M2 M3)) as M13.
  rewrite !app_nil_r in M13. destruct lost; rewrite bind_unfold, ret_unfold; cbn [fst snd].
  - destruct (Hm s3 (proj1 M3)) as [(es0 & M4 & ->) _].
    destruct (moves_trans _ _ _ _ _ M13 M4) as (I & R & O). rewrite app_nil_r in O.
    split; [done|]. eapply outcome_abandoned; [by rewrite R|exact Hq|done|done].
  - destruct M13 as (I3 & R3 & O3). rewrite Hrow in R3.
    destruct (fail_job_finishes n count s3 r Hpub I3 R3 Hopen) as (merr & I4 & R4 & fin & err & Hp & O4);
      [lia|]. split; [done|].
    eapply outcome_failed; [exact Hn|done|exact Hq|exact Hp|by eapply jv_trans].
Qed.

(** The outcome of a claimed job. *)
Theorem process_claimed_outcome s r :
  streamPublisher pool = true -> (0 <= defaultMaxAttempts pool <= maxAttempts)%Z ->
  (maxAttempts < 2 ^ 31)%Z ->
  jv_inv (sc_world s) -> jv_row (sc_world s) = Some r -> open_row r -> sc_attempts s = 0%Z ->
  let p := process_claimed pool claim s in
  jv_inv (sc_world p.2) /\ job_outcome r (sc_world s) (sc_world p.2) p.1.
Proof.
  intros Hpub Hdef Hmax Hs Hrow Hopen Ha. cbv zeta. unfold process_claimed. rewrite bind_unfold.
  destruct (retry_policy_emits Hdef s Hs) as [(es0 & M1 & -> & Hpol) A1].
  destruct (retry_policy pool claim s) as [[policy err] s1]. cbn [fst snd] in *.
  rewrite bind_unfold.
  destruct (fetch_payload_emits policy s1 (proj1 M1)) as [(es0 & M2 & -> & Hpl) A2].
  destruct (fetch_payload pool claim policy s1) as [pl s2]. cbn [fst snd] in *.
  pose proof (moves_trans _ _ _ _ _ M1 M2) as M12. cbn [app] in M12.
  destruct pl as [payload|pe].
  2:{ unfold payload_failed. eapply stopped_outcome; try done. apply Still_observe. }
  specialize (Hpl payload eq_refl). rewrite bind_unfold. unfold run_inference, Retry.DoWithRetry.
  set (pol := Retry.MkRetryPolicy _ _ _ _ _).
  change (Retry.MaxAttempts pol) with (irp_MaxAttempts policy).
  fold (input_of payload). set (m := if (_ <=? 0)%Z then _ else _).
  assert (Hinf : exists es k, moves es s2 (m s2).2 /\ sc_attempts (m s2).2 = Z.of_nat k
    /\ (k <= Z.to_nat maxAttempts)%nat /\ attempts_outcome (input_of payload) (m s2).1 es).
  { unfold m. destruct (_ <=? 0)%Z.
    { exists [], 0%nat. rewrite ret_unfold. split; [by apply moves_refl; [apply M2|]|].
      split; [cbn; lia|]. split; [lia|done]. }
    destruct (retry_loop_effect pol (input_of payload) (Z.to_nat (irp_MaxAttempts policy)) 0 None
      s2 [] Hpub (proj1 M2) eq_refl) as (es & k & M3 & A3 & Hk & Ho);
      [lia|split; [done|by left]|].
    exists es, k. split; [exact M3|]. split; [exact A3|]. split; [lia|exact Ho]. }
  destruct Hinf as (es & k & M3 & A3 & Hk & Ho). clearbody m.
  destruct (m s2) as [res s3]. cbn [fst snd] in *.
  rewrite bind_unfold. cbn [get_world fst snd]. rewrite A3.
  pose proof (moves_trans _ _ _ _ _ M12 M3) as M13. cbn [app] in M13.
  destruct res as [[]|e].
  - destruct Ho as (pre & es' & g & -> & Hpre & Hg & Hd).
    pose proof M13 as (I3 & R3 & O3). rewrite Hrow in R3.
    destruct (succeeded_finishes (Z.of_nat k) s3 r Hpub I3 R3 Hopen) as
      (I4 & R4 & fin & err' & Hp & O4); [lia|].
    split; [done|]. eapply (outcome_completed _ _ _ (Z.of_nat k) pre es' fin payload g);
      try done; [lia|]. rewrite app_assoc. by eapply jv_trans.
  - unfold inference_failed.
    pose proof (stopped_outcome r es s s3 (Z.of_nat k) true (Errorf2 ErrLeaseExtendFailed e)
      (Some e) (mret tt) Hpub ltac:(lia) Hmax M13 Hrow Hopen Ho eq_refl (Still_ret tt)) as H.
    exact H.
Qed.
End outcome.
