(* ===== verification/Wiring.v ===== *)
(** * The modules wired together (application/composition.go)

    One world that runs all modules at once, and the instances that the
    composition of the program makes: every module talks to the real
    implementation of the others, through the adapters.

    The world has the two servers ([System]), what belongs to the process
    itself (clock, identifiers, metrics, the inference server), and the rest of
    the world: other requests, other workers, clients.  They act before any
    request of the process to a server, in any way on the servers' data: the
    next of a list of actions, chosen by the environment, is what they do. *)

From S2P Require Import Prelude GoText GoErr Redis Env Postgres System.
From S2P Require Scheduler Admission Job Idempotency Inference Worker Recovery.
From S2P Require Stream InferenceServer User Auth App.
From stdpp Require Import base gmap list strings.
From Stdlib Require Import ZArith.

(** ** The world *)

(** What the others have done: to the data of Redis, to that of PostgreSQL,
    and to their own state. *)
Definition action (R D P : Type) : Type := R * D * P -> R * D * P.

Record world (R D E P : Type) := MkApp {
  app_sys : system R D;
  app_proc : E;
  app_peers : P;
  app_next : list (action R D P);
}.
Arguments MkApp {R D E P}.
Arguments app_sys {R D E P}.
Arguments app_proc {R D E P}.
Arguments app_peers {R D E P}.
Arguments app_next {R D E P}.

(** What a process has besides the two servers. *)
Class Process (E : Type) := {
  pr_clock :: GoClock E;
  pr_context :: GoContext E;
  pr_uuid :: Job.Uuid E;
  pr_deadline :: Inference.GoDeadline E;
  pr_job :: Worker.JobEnv E;
  pr_openai :: InferenceServer.OpenAI E;
  pr_admission_metrics :: Admission.AdmissionMetrics E;
  pr_scheduler_metrics :: Scheduler.SchedulerMetrics E;
  pr_inference_metrics :: Inference.InferenceMetrics E;
  pr_worker_metrics :: Worker.WorkerMetrics E;
  pr_recovery_metrics :: Recovery.RecoveryMetrics E;
}.

Section services.
Context {R D E P : Type} `{!Redis R, !Postgres D}.
#[local] Abbreviation W := (world R D E P).

(** The others act.  Transactions are serialised: nobody acts on the tables
    while one of the process is open. *)
Definition interfere : M W unit := modify_world (fun w =>
  match app_next w with
  | [] => w
  | f :: rest =>
      let s := app_sys w in
      let p := sys_pg s in
      let '(r, d, peers) := f (sys_redis s, pw_db p, app_peers w) in
      MkApp (MkSystem r (sys_rfaults s) (MkPgWorld d (pw_tx p) (pw_faults p)))
        (app_proc w) peers rest
  end).

Definition on_sys {A} (m : M (system R D) A) : M W A := fun w =>
  let '(a, s) := m (app_sys w) in (a, MkApp s (app_proc w) (app_peers w) (app_next w)).

Definition on_proc {A} (m : M E A) : M W A := fun w =>
  let '(a, e) := m (app_proc w) in (a, MkApp (app_sys w) e (app_peers w) (app_next w)).

#[global] Instance app_redis : RedisClient W := {|
  rc_run := fun A s => _ ← interfere; on_sys (rc_run s) |}.

#[global] Instance app_pg : PgClient W := {|
  pg_run := fun A tx c => _ ← when (negb tx) interfere; on_sys (pg_run tx c);
  pg_Begin := _ ← interfere; on_sys pg_Begin;
  pg_Commit := on_sys pg_Commit;
  pg_Rollback := on_sys pg_Rollback |}.

(** The process's own services. *)
Context `{!Process E}.

#[global] Instance app_clock : GoClock W := {| time_Now := on_proc time_Now |}.
#[global] Instance app_context : GoContext W := {|
  ctx_Err := on_proc ctx_Err; ctx_sleep := fun d => on_proc (ctx_sleep d) |}.
#[global] Instance app_uuid : Job.Uuid W := {| Job.uuid_New := on_proc Job.uuid_New |}.
#[global] Instance app_deadline : Inference.GoDeadline W := {|
  Inference.ctx_TimeLeft := on_proc Inference.ctx_TimeLeft |}.
#[global] Instance app_job_env : Worker.JobEnv W := {|
  Worker.time_Sleep := fun d => on_proc (Worker.time_Sleep d);
  Worker.beat_schedule := on_proc Worker.beat_schedule |}.
#[global] Instance app_openai : InferenceServer.OpenAI W := {|
  InferenceServer.NewStreaming := fun req => on_proc (InferenceServer.NewStreaming req) |}.
#[global] Instance app_admission_metrics : Admission.AdmissionMetrics W := {|
  Admission.RequestRejected := fun r => on_proc (Admission.RequestRejected r);
  Admission.RequestFinished := fun d => on_proc (Admission.RequestFinished d) |}.
#[global] Instance app_scheduler_metrics : Scheduler.SchedulerMetrics W := {|
  Scheduler.ObserveQueueWaitDuration := fun d => on_proc (Scheduler.ObserveQueueWaitDuration d) |}.
#[global] Instance app_inference_metrics : Inference.InferenceMetrics W := {|
  Inference.JobAccepted := on_proc Inference.JobAccepted |}.
#[global] Instance app_worker_metrics : Worker.WorkerMetrics W := {|
  Worker.wm_observe := fun x => on_proc (Worker.wm_observe x) |}.
#[global] Instance app_recovery_metrics : Recovery.RecoveryMetrics W := {|
  Recovery.r_observe := fun x => on_proc (Recovery.r_observe x) |}.
End services.

(** ** The modules *)

(** What the constructors of the modules keep of their configuration. *)
Class Modules := MkModules {
  md_policy : Admission.AdmissionPolicyConfig;
  md_limits : Admission.RateLimitTiers;
  md_tiers : Job.JobPolicyConfig;
  md_queue : Scheduler.RedisSchedulerRepository;
  md_inference : Idempotency.InferenceConfig;
  md_recovery : Recovery.RecoveryService;
  md_pool : Worker.workerPool;
}.

(** The modules that [composeModules] builds. *)
Definition modules_of (cfg : App.AppConfig) : res goerr Modules :=
  match Job.NewJobModule true true true (App.JobCfg cfg) with
  | Err e => Err e
  | Ok tiers =>
  match Scheduler.NewSchedulerModule true true (Worker.LeaseTimeout (App.WorkerCfg cfg))
          (App.SchedulerCfg cfg) with
  | Err e => Err e
  | Ok repo =>
  let rv := App.RecoveryCfg cfg in
  match Recovery.NewRecoveryModule true true true true true true true (App.rv_SweepInterval rv)
          (App.rv_BatchSize rv) (App.rv_OrphanGrace rv) (App.rv_QueueCapacity rv) with
  | Err e => Err e
  | Ok recovery =>
  match Worker.NewWorkerModule true true true true true true true true (App.WorkerCfg cfg) with
  | Err e => Err e
  | Ok pool =>
      Ok (MkModules (Admission.BuildAdmissionPolicyConfig (App.AdmissionCfg cfg))
            (Admission.tierRateLimits (App.AdmissionCfg cfg)) tiers repo (App.InferenceCfg cfg)
            recovery pool)
  end end end end.

(** The program is composed only when all of them are built, and the modules
    that it starts and stops run on what they keep. *)
Lemma composed_modules {W} valid_name parse_uri wstart wstop rstart rstop cfg registry :
  App.composeModules (W := W) valid_name parse_uri wstart wstop rstart rstop cfg = Ok registry ->
  exists m, modules_of cfg = Ok m
    /\ App.MkModule "Worker" None None (Some (wstart (md_pool (Modules := m))))
         (Some (wstop (md_pool (Modules := m)))) ∈ registry
    /\ App.MkModule "Recovery" None None (Some (rstart (md_recovery (Modules := m))))
         (Some (rstop (md_recovery (Modules := m)))) ∈ registry.
Proof.
  unfold App.composeModules, modules_of, mbind, App.res_mbind.
  repeat (case_match; try discriminate; simplify_eq/=). intros [= <-].
  eexists. split; [reflexivity|]. cbn [md_pool md_recovery].
  split; repeat first [by left | right].
Qed.

Section wiring.
Context {W : Type} `{!RedisClient W, !PgClient W, !GoFmt, !Admission.LuaFloat}.
Context `{!GoClock W, !Job.Uuid W, !Admission.AdmissionMetrics W, !Scheduler.SchedulerMetrics W}.
Context `{!Modules}.

(** The users' tiers come from the user module, in admission and in jobs. *)
#[global] Instance wire_Limiter : Admission.Limiter W := {|
  Admission.Limiter_Allow := Admission.Allow md_limits |}.

#[global] Instance wire_Admitter : Inference.Admitter W := {|
  Inference.svc_Admit := Admission.Admit md_policy |}.

#[global] Instance wire_PublicJobService : Inference.PublicJobService W := {|
  Inference.svc_Create := Job.Create md_tiers;
  Inference.svc_MarkFailed := Job.MarkFailed |}.

#[global] Instance wire_JobQueue : Scheduler.JobQueue W := Scheduler.redis_JobQueue md_queue.
#[global] Instance wire_RecoveryQueue : Scheduler.RecoveryQueue W := Scheduler.redis_RecoveryQueue.

#[global] Instance wire_PublicQueueService : Inference.PublicQueueService W := {|
  Inference.svc_Enqueue := Scheduler.Enqueue |}.

#[global] Instance wire_IdempotencyStore : Inference.IdempotencyStore W :=
  Inference.redis_IdempotencyStore md_inference.
#[global] Instance wire_Coalescer : Inference.Coalescer W := Inference.redis_Coalescer.

#[global] Instance wire_JobClaimer : Worker.PublicJobClaimer W := {|
  Worker.svc_NextJob := Scheduler.NextJob |}.

#[global] Instance wire_Lease : Worker.PublicLeaseService W := {|
  Worker.svc_ReleaseProcessingJob := Scheduler.QueueService_ReleaseProcessingJob;
  Worker.svc_ExtendProcessingLease := Scheduler.QueueService_ExtendProcessingLease;
  Worker.svc_MarkJobCompleted := Scheduler.QueueService_MarkJobCompleted |}.

#[global] Instance wire_JobRunner : Worker.PublicJobRunner W := {|
  Worker.svc_PayloadByID := Job.PayloadByID;
  Worker.svc_GetRetryPolicy := Job.GetRetryPolicy md_tiers;
  Worker.svc_MarkJobRowCompleted := Job.MarkCompleted;
  Worker.svc_MarkJobRowFailed := Job.MarkFailed |}.

#[global] Instance wire_Idempotency : Worker.PublicIdempotencyService W := {|
  Worker.svc_TransitionStatus := Idempotency.TransitionStatus md_inference |}.

#[global] Instance wire_Stream : Worker.PublicStreamPublisher W := {|
  Worker.svc_Publish := Stream.UseCase_Publish;
  Worker.svc_Close := Stream.UseCase_Close |}.

#[global] Instance wire_recovery_Jobs : Recovery.JobReaderWriter W := {|
  Recovery.jsvc_GetByID := Job.GetByID;
  Recovery.jsvc_PendingOrphans := Job.PendingOrphans;
  Recovery.jsvc_MarkCompleted := Job.MarkCompleted;
  Recovery.jsvc_MarkFailed := Job.MarkFailed;
  Recovery.jsvc_UpdateStatusIfStatus := fun j n s e => Job.UpdateStatusIfStatus j n s e;
  Recovery.jsvc_GetRetryPolicy := Job.GetRetryPolicy md_tiers |}.

#[global] Instance wire_recovery_Idempotency : Recovery.PublicIdempotency W := {|
  Recovery.isvc_TransitionStatusIfInFlight :=
    Idempotency.TransitionStatusIfInFlight md_inference |}.

#[global] Instance wire_recovery_Events : Recovery.PublicEvents W := {|
  Recovery.esvc_Publish := Stream.UseCase_Publish;
  Recovery.esvc_Close := Stream.UseCase_Close |}.
End wiring.

(** ** The operations of the composed program *)

Section operations.
Context {R D E P : Type} `{!Redis R, !Postgres D, !Process E}.
Context `{!GoFmt, !Admission.LuaFloat, !InferenceServer.OpenAIError, !Modules}.
#[local] Abbreviation W := (world R D E P).

(** POST /request, behind its HTTP handler. *)
Definition app_Submit (input : Idempotency.InferenceInput) (userID idempotencyHeader : string)
  : M W (string * option goerr) :=
  Inference.Submit md_inference (Some Inference.JobAccepted) input userID idempotencyHeader.

(** A job that a worker has claimed. *)
Definition app_process_claimed (claim : Worker.JobClaimResult) : M W (option goerr) :=
  Worker.with_scope (Worker.process_claimed md_pool claim).

(** One turn of a worker, and one of the recovery loop. *)
Definition app_processJob (workerID : Z) : M W (option goerr) :=
  Worker.processJob md_pool workerID.
Definition app_worker_iteration (workerID : Z) : M W bool :=
  Worker.worker_iteration md_pool workerID.
Definition app_recovery_tick : M W unit := Recovery.recovery_tick md_recovery.
End operations.
