(* ===== verification/Footprint.v ===== *)
(** * The keys a script touches

    A command changes what is stored under its own key only, and so does a
    script with the keys of its commands.  The composition of the modules
    needs this: what one module keeps in Redis is out of reach of the
    scripts of the others. *)

From S2P Require Import Prelude Redis IdempotencyThms.
From stdpp Require Import base gmap sets list strings.
From Stdlib Require Import ZArith Lia.

(** The key a command may change. *)
Definition written {A} (c : cmd A) : option string :=
  match c with
  | ZADD k _ _ | ZADD_NX k _ _ | ZADD_XX k _ _ | ZREM k _ | LPUSH k _ | RPOP k | INCR k
  | HSET k _ | HDEL k _ | SET k _ | SET_PX k _ _ | SET_NX_EX k _ _ | EXPIRE k _
  | EXPIRE_NX k _ | DEL k | SADD k _ | SREM k _ | XADD k _ => Some k
  | _ => None
  end.

Lemma slot_put_zset k k' z d : k' <> k -> slot (put_zset k' z d) k = slot d k.
Proof.
  intros Hne. unfold slot, put_zset. cbn.
  destruct (decide _); [by rewrite lookup_delete_ne|by rewrite lookup_insert_ne].
Qed.

Lemma slot_put_list k k' l d : k' <> k -> slot (put_list k' l d) k = slot d k.
Proof.
  intros Hne. unfold slot, put_list. cbn.
  destruct (decide _); [by rewrite lookup_delete_ne|by rewrite lookup_insert_ne].
Qed.

Lemma slot_put_set k k' l d : k' <> k -> slot (put_set k' l d) k = slot d k.
Proof.
  intros Hne. unfold slot, put_set. cbn.
  destruct (decide _); [by rewrite lookup_delete_ne|by rewrite lookup_insert_ne].
Qed.

#[local] Create HintDb footprint.
#[local] Hint Resolve slot_put_zset slot_put_list slot_put_set slot_put_hash slot_set_str
  slot_do_expire slot_del_key : footprint.

Lemma doc_exec_slot {A} (c : cmd A) d k :
  written c <> Some k -> slot (doc_exec c d).2 k = slot d k.
Proof.
  destruct c; cbn [written doc_exec]; intros Hk; try reflexivity;
    (assert (Hne : k0 <> k) by congruence); repeat case_match; cbn [snd]; auto with footprint.
  unfold slot, upd_streams. cbn. by rewrite lookup_insert_ne.
Qed.

(** A script whose commands leave [k] alone. *)
Fixpoint avoids {A} (k : string) (s : script A) : Prop :=
  match s with
  | SRet _ | SError _ => True
  | SCall c next => written c <> Some k /\ forall x, avoids k (next x)
  end.

Lemma avoids_slot {A} k (s : script A) d :
  avoids k s ->
  slot (run_script s d).2 k = slot d k /\ r_now (run_script s d).2 = r_now d.
Proof.
  revert d. induction s as [a|B c next IH|m]; intros d; [done| |done].
  cbn [avoids run_script]. intros [Hc Hn].
  change (redis_call c d) with (doc_exec c d).
  pose proof (doc_exec_slot c d k Hc) as Hs. pose proof (doc_exec_now c d) as Ht.
  destruct (doc_exec c d) as [[b|e] d']; cbn [fst snd] in *; [|done].
  destruct (IH b d' (Hn b)) as [-> ->]. done.
Qed.

Lemma avoids_call {A} k (c : cmd A) : written c <> Some k -> avoids k (call c).
Proof. done. Qed.

Lemma avoids_bind {A B} k (s : script A) (f : A -> script B) :
  avoids k s -> (forall a, avoids k (f a)) -> avoids k (x ← s; f x).
Proof.
  intros Hs Hf. unfold mbind, script_mbind.
  induction s as [a|C c next IH|m]; cbn in *; [apply Hf| |done].
  destruct Hs as [Hc Hn]. split; [done|]. intros x. by apply IH.
Qed.

(** For a concrete script: one goal for each command that writes. *)
Ltac avoid :=
  repeat first
    [ apply avoids_bind; [|intros ?]
    | apply avoids_call
    | exact I
    | case_match ];
  try discriminate.
