(* ===== verification/WiringThms.v ===== *)
(** * The worker in the composed program

    The services that the composition gives to the worker keep the promises
    of [JobWorld]: reads and the other modules' scripts leave the row and the
    stream of the job alone, publishing appends its event, and marking the job
    writes its row.  The others may do anything to the rest of the data, and
    the subscriber of the job's stream is one of them. *)

From S2P Require Import Prelude GoText GoErr Redis Env Postgres System.
From S2P Require Import Wiring JobOutcome Footprint.
From S2P Require Scheduler Admission Job JobThms Idempotency IdempotencyThms Inference.
From S2P Require Worker Stream StreamThms SseThms InferenceServer InferenceServerThms User.
From stdpp Require Import base gmap list strings pretty.
From Stdlib Require Import ZArith Lia.

(** ** Texts *)

(** Printable ASCII is valid UTF-8, on one line. *)
Definition ascii_string (s : string) : Prop :=
  Forall (fun c => ((32 <=? Ascii.N_of_ascii c) && (Ascii.N_of_ascii c <? 128))%N = true)
    (String.list_ascii_of_string s).

Lemma ascii_valid s : ascii_string s -> ValidString s = true.
Proof.
  unfold ascii_string, ValidString.
  assert (Hlen : String.length s = length (String.list_ascii_of_string s)).
  { induction s; cbn; congruence. }
  rewrite Hlen. generalize (String.list_ascii_of_string s). intros l.
  induction 1 as [|c l [_ Hc]%andb_prop _ IH]; [done|]. apply N.ltb_lt in Hc.
  cbn [length valid_utf8].
  unfold code. rewrite (proj2 (N.ltb_lt _ _) Hc). cbn [orb andb].
  assert (Hw : rune_width c l = 1%nat).
  { assert (Hb : forall lo hi, (128 <= lo)%N -> GoText.between lo hi c = false).
    { intros lo hi Hlo. unfold GoText.between, code. apply andb_false_iff. left.
      apply N.leb_gt. lia. }
    unfold rune_width. cbv zeta. by rewrite !Hb by lia. }
  rewrite Hw. exact IH.
Qed.

Lemma ascii_no_CR s : ascii_string s -> SseThms.no_byte SseThms.CR s = true.
Proof.
  unfold ascii_string. induction s as [|c s IH]; [done|]. cbn [String.list_ascii_of_string].
  intros [Hc Hs]%Forall_cons. cbn [SseThms.no_byte]. rewrite IH by done.
  destruct (Ascii.eqb c SseThms.CR) eqn:E; [|done]. apply Ascii.eqb_eq in E as ->. discriminate.
Qed.

Lemma ascii_app s1 s2 : ascii_string s1 -> ascii_string s2 -> ascii_string (s1 +:+ s2).
Proof.
  unfold ascii_string. intros H1 H2.
  assert (E : String.list_ascii_of_string (s1 +:+ s2)
    = String.list_ascii_of_string s1 ++ String.list_ascii_of_string s2).
  { clear. induction s1 as [|a s1 IH]; [done|].
    change (String a s1 +:+ s2) with (String a (s1 +:+ s2)). cbn. by rewrite IH. }
  rewrite E. by apply Forall_app.
Qed.

Lemma ascii_pretty_N (n : N) : ascii_string (pretty n).
Proof.
  unfold pretty, pretty_N. case_decide; [by repeat constructor|].
  assert (Hgo : forall x s, ascii_string s -> ascii_string (pretty_N_go x s)).
  { intros x. induction (N.lt_wf_0 x) as [x _ IH]. intros s Hs.
    destruct (decide (x = 0)%N) as [->|Hx]; [by rewrite pretty_N_go_0|].
    rewrite pretty_N_go_step by lia. apply IH; [apply N.div_lt; lia|].
    constructor; [|exact Hs]. unfold pretty_N_char. repeat case_match; done. }
  apply Hgo. constructor.
Qed.

Lemma ascii_pretty_nat (n : nat) : ascii_string (pretty n).
Proof. apply ascii_pretty_N. Qed.

Lemma ascii_pretty_Z (z : Z) : ascii_string (pretty z).
Proof.
  destruct z; [by repeat constructor|apply ascii_pretty_N|].
  apply (ascii_app "-"); [by repeat constructor|apply ascii_pretty_N].
Qed.

(** Every chunk of a generation, whatever its callback answers. *)
Fixpoint chunks_ok (Q : string -> Prop) (g : Worker.generation) : Prop :=
  match g with
  | Worker.GenEnd _ => True
  | Worker.GenChunk c k => Q (Worker.sc_Text c) /\ forall a, chunks_ok Q (k a)
  end.

Fixpoint texts_ok (Q : string -> Prop) (g : InferenceServer.generation) : Prop :=
  match g with
  | InferenceServer.GenEnd _ => True
  | InferenceServer.GenChunk t k => Q t /\ forall a, texts_ok Q (k a)
  | InferenceServer.GenObserve _ g => texts_ok Q g
  end.

Lemma adapter_texts Q g : texts_ok Q g -> chunks_ok Q (InferenceServer.adapter_generation g).
Proof. induction g as [e|t k IH|m g IH]; cbn; [done| |exact IH]. intros [Ht Hk]. auto. Qed.

Lemma usecase_texts Q c b g : texts_ok Q g -> texts_ok Q (InferenceServer.usecase_generation c b g).
Proof.
  revert b. induction g as [e|t k IH|m g IH]; intros b; cbn; [done| |apply IH].
  intros [Ht Hk]. repeat case_match; cbn; auto.
Qed.

Section choices.
Context `{!InferenceServer.OpenAIError} (Q : string -> Prop).

Lemma choices_texts choices f next :
  Forall Q (InferenceServerThms.choice_texts choices) -> (forall f, texts_ok Q (next f)) ->
  texts_ok Q (InferenceServer.stream_choices choices f next).
Proof.
  intros Hq Hn. revert f Hq. induction choices as [|[r t] choices IH]; intros f Hq; [apply Hn|].
  cbn [InferenceServer.stream_choices]. unfold InferenceServerThms.choice_texts in *.
  cbn [fmap list_fmap snd] in Hq. destruct (str_empty t) eqn:Et.
  - rewrite filter_cons_False in Hq by (by rewrite Et). by apply IH.
  - rewrite filter_cons_True in Hq by done. apply Forall_cons in Hq as [Ht Hq].
    split; [exact Ht|]. intros [e|]; [done|]. by apply IH.
Qed.

Lemma events_texts events f st :
  Forall Q (InferenceServerThms.texts events) ->
  texts_ok Q (InferenceServer.stream_events events f st).
Proof.
  revert f. induction events as [|choices events IH]; intros f Hq; [done|].
  unfold InferenceServerThms.texts, InferenceServerThms.choice_texts in Hq. cbn [concat] in Hq.
  rewrite fmap_app, filter_app, Forall_app in Hq. destruct Hq as [H1 H2].
  cbn [InferenceServer.stream_events]. apply choices_texts; [exact H1|]. intros f'. by apply IH.
Qed.
End choices.

Section composed.
Context {R D E P : Type} `{!Redis R, !RedisDoc R, !Postgres D, !PostgresDoc D, !Process E}.
Context {gofmt : GoFmt} {luafloat : Admission.LuaFloat} {openai_error : InferenceServer.OpenAIError}.
Context {modules : Modules}.
#[local] Abbreviation W := (world R D E P).
Implicit Types w : W.

(** The job; what the others' state says of its subscriber: where it stands
    in the stream and what it has received; whether no request to Redis is
    lost, and whether none to PostgreSQL is; and the stored inference request
    of the job. *)
Context (claim : Worker.JobClaimResult) (subscriber : P -> option Z * list Stream.StreamEvent).
Context (calm stored : Prop) (request : option request_row).
#[local] Abbreviation job := (Worker.jc_JobID claim).

(** The stream of the job and its subscriber, as a system of StreamThms.v. *)
Definition stream_of (r : R) (p : P) : StreamThms.stream_sys :=
  StreamThms.MkSys r (subscriber p).1 (subscriber p).2.

Definition reaches (es : list Stream.StreamEvent) (x y : R * P) : Prop :=
  StreamThms.stream_trace job (stream_of x.1 x.2) es (stream_of y.1 y.2).

(** The job's reverse key, if it is there, does not name its stream. *)
Definition reverse_ok (d : rdata) : Prop :=
  forall b, rstr d (Idempotency.jobIDtoIdempotencyKey job) = Some b ->
    bulk_text b <> Stream.streamKey job.

(** The others read the stream, let time pass and change other keys; they
    leave the rows of the job alone. *)
Definition bystander (f : action R D P) : Prop := forall r d p,
  reverse_ok (redis_view r) ->
  let '(r', d', p') := f (r, d, p) in
  reverse_ok (redis_view r') /\ pg_jobs (pg_view d') !! job = pg_jobs (pg_view d) !! job
  /\ pg_requests (pg_view d') !! job = pg_requests (pg_view d) !! job
  /\ reaches [] (r, p) (r', p').

Definition job_inv w : Prop :=
  (stored -> pw_faults (sys_pg (app_sys w)) = []) /\ Forall bystander (app_next w) /\ reverse_ok (rview (app_sys w))
  /\ (calm -> sys_rfaults (app_sys w) = [])
  /\ pg_requests (dview (app_sys w)) !! job = request.

(** The inference server sends texts like these: UTF-8, or texts without
    carriage returns. *)
Definition engine_sends (Q : string -> Prop) : Prop := forall req (e : E),
  Forall Q (InferenceServerThms.texts
    (InferenceServer.st_events (InferenceServer.NewStreaming req e).1)).
Definition engine_utf8 : Prop := engine_sends (fun t => ValidString t = true).
Definition engine_no_CR : Prop := engine_sends (fun t => SseThms.no_byte SseThms.CR t = true).

#[local] Instance job_view : JobView W := {|
  jv_inv := job_inv;
  jv_obs := fun es w w' =>
    reaches es (sys_redis (app_sys w), app_peers w) (sys_redis (app_sys w'), app_peers w');
  jv_row := fun w => pg_jobs (dview (app_sys w)) !! job;
  jv_reliable := calm;
  jv_stored := stored;
  jv_valid := fun e =>
    (engine_utf8 -> StreamThms.valid_event e) /\ (engine_no_CR -> SseThms.readable e) |}.

#[local] Instance job_view_laws : JobViewLaws W.
Proof.
  split; cbn.
  - intros w. constructor.
  - intros es1 es2 w1 w2 w3. apply StreamThms.stream_trace_app.
Qed.

Lemma row_def w : jv_row w = pg_jobs (dview (app_sys w)) !! job.
Proof. reflexivity. Qed.

(** ** The primitives *)

Lemma silent_proc {A} (m : M E A) : silent (on_proc m : M W A).
Proof.
  intros w Hw. unfold on_proc. destruct (m (app_proc w)) as [a e]. cbn.
  split; [exact Hw|]. split; [done|]. exists []. split; [constructor|done].
Qed.

Lemma silent_interfere : silent (interfere : M W unit).
Proof.
  intros w (Hpg & Hn & Hr & Hf & Hq). unfold interfere, modify_world. cbn [fst snd].
  destruct (app_next w) as [|f rest] eqn:En.
  { cbn. split; [unfold job_inv; by rewrite En|]. split; [done|]. exists [].
    split; [constructor|done]. }
  apply Forall_cons in Hn as [Hb Hn].
  specialize (Hb (sys_redis (app_sys w)) (pw_db (sys_pg (app_sys w))) (app_peers w) Hr).
  destruct (f _) as [[r d] p]. destruct Hb as (Hr' & Hd & Hq' & Ho). cbn.
  split; [split; [exact Hpg|repeat split; try done; cbn; by rewrite <- Hq]|]. split; [exact Hd|]. exists []. done.
Qed.

(** A script that leaves the stream and the clock alone. *)
Definition harmless {A} (s : script A) : Prop := forall d, reverse_ok d ->
  let d' := (run_script s d).2 in
  reverse_ok d' /\ r_now d' = r_now d
  /\ IdempotencyThms.slot d' (Stream.streamKey job) = IdempotencyThms.slot d (Stream.streamKey job).

Lemma slot_reaches r r' p :
  r_now (redis_view r') = r_now (redis_view r) ->
  IdempotencyThms.slot (redis_view r') (Stream.streamKey job)
    = IdempotencyThms.slot (redis_view r) (Stream.streamKey job) ->
  reaches [] (r, p) (r', p).
Proof.
  intros Ht Hs. unfold reaches. cbn [fst snd].
  apply StreamThms.stream_trace_one, StreamThms.step_other; [|exact Ht].
  injection Hs as _ _ _ H1 H2 H3. unfold StreamThms.slot. cbn. by rewrite H1, H2, H3.
Qed.

(** What one request to Redis may do: nothing, or the whole script. *)
Lemma sys_script_cases {A} (s : script A) (x : system R D) :
  let p := sys_script s x in
  sys_pg p.2 = sys_pg x
  /\ (sys_rfaults x = [] -> sys_rfaults p.2 = [])
  /\ ((sys_redis p.2 = sys_redis x /\ sys_rfaults x <> [] /\ exists e, p.1 = Err e)
      \/ (sys_redis p.2 = (run_script s (sys_redis x)).2
          /\ ((exists e, p.1 = Err e) /\ sys_rfaults x <> []
              \/ p.1 = match (run_script s (sys_redis x)).1 with
                       | Ok a => Ok a | Err m => Err (errors_New m) end))).
Proof.
  cbv zeta. unfold sys_script. destruct (run_script s (sys_redis x)) as [a r]. cbn [fst snd].
  destruct (sys_rfaults x) as [|[|e|e] os]; cbn; split; [done| |done| |done| |done|];
    (split; [done|]); eauto 10.
Qed.

Lemma effect_sys {A} (s : script A) (X : res goerr A -> list Stream.StreamEvent -> Prop)
    (Hok : forall (r : R) p, reverse_ok (redis_view r) ->
       reverse_ok (redis_view (run_script s r).2)
       /\ exists es, reaches es (r, p) ((run_script s r).2, p)
          /\ X (match (run_script s r).1 with Ok a => Ok a | Err m => Err (errors_New m) end) es
          /\ (~ calm -> forall e, X (Err e) [] /\ X (Err e) es)) :
  effect (rc_run s : M W (res goerr A)) X.
Proof.
  cbn [rc_run app_redis]. apply silent_then; [apply silent_interfere|]. intros _ w (Hpg & Hn & Hr & Hf & Hq).
  unfold on_sys. change (@rc_run (system R D) system_redis A s) with (sys_script (D := D) s).
  destruct (sys_script_cases s (app_sys w)) as (E1 & E2 & Hcase).
  destruct (sys_script s (app_sys w)) as [a x]. cbn [fst snd] in *.
  destruct (Hok (sys_redis (app_sys w)) (app_peers w) Hr) as (Hr' & es & Ho & Hx & Hlost).
  unfold jv_inv, jv_row, jv_obs, job_view, job_inv, dview, rview. cbn [app_sys app_next app_peers].
  rewrite E1.
  assert (Hc : sys_rfaults (app_sys w) <> [] -> ~ calm) by tauto.
  destruct Hcase as [(-> & Hne & e & ->)|(-> & [([e ->] & Hne)| ->])].
  - split; [split; [exact Hpg|]; repeat split; try done; auto|]. split; [done|].
    exists []. split; [constructor|]. by apply Hlost, Hc.
  - split; [split; [exact Hpg|]; repeat split; try done; auto|]. split; [done|].
    exists es. split; [done|]. by apply Hlost, Hc.
  - split; [split; [exact Hpg|]; repeat split; try done; auto|]. split; [done|]. by exists es.
Qed.

Lemma silent_redis {A} (s : script A) : harmless s -> silent (rc_run s : M W (res goerr A)).
Proof.
  intros Hs. apply effect_sys. intros r p Hr. destruct (Hs (redis_view r) Hr) as (H1 & H2 & H3).
  rewrite <- run_script_view in H1, H2, H3. split; [done|]. exists [].
  split; [by apply slot_reaches|]. done.
Qed.

Lemma slot_reverse d d' :
  IdempotencyThms.slot d' (Idempotency.jobIDtoIdempotencyKey job)
    = IdempotencyThms.slot d (Idempotency.jobIDtoIdempotencyKey job) ->
  reverse_ok d -> reverse_ok d'.
Proof. intros [= _ _ _ _ E1 _] Hd b. unfold rstr. rewrite E1. apply Hd. Qed.

Lemma avoids_harmless {A} (s : script A) :
  avoids (Stream.streamKey job) s -> avoids (Idempotency.jobIDtoIdempotencyKey job) s -> harmless s.
Proof.
  intros Hs Hr d Hd. destruct (avoids_slot _ s d Hs) as [E1 E2].
  split; [|done]. by eapply slot_reverse; [apply avoids_slot|].
Qed.

(** The transition of the idempotency key writes the key that the reverse key
    names, which is not the stream; the reverse key itself keeps its value. *)
Lemma transition_harmless st t ttl :
  harmless (Idempotency.idempotencyTransitionStatusScript
              (Idempotency.jobIDtoIdempotencyKey job) st t ttl).
Proof.
  intros d Hd.
  destruct (IdempotencyThms.transition_frame (Idempotency.jobIDtoIdempotencyKey job)
    (Stream.streamKey job) st t ttl d) as [E1 E2]; [discriminate|exact Hd|].
  split; [|done]. intros b Hb%IdempotencyThms.transition_strings. by apply Hd.
Qed.

(** A statement on PostgreSQL: it answers and writes as documented, or it
    fails because a request is lost, and then it may have been run. *)
Lemma sql_run {A} (c : sql A) w :
  (forall d, pg_requests (doc_sql c d).2 = pg_requests d) -> jv_inv w ->
  let d := dview (app_sys (interfere w).2) in
  let p := (pg_run false c : M W (res goerr A)) w in
  pg_jobs d !! job = jv_row w /\ pg_requests d !! job = request
  /\ jv_inv p.2 /\ jv_obs [] w p.2
  /\ ((p.1 = lift_res (doc_sql c d).1 /\ dview (app_sys p.2) = (doc_sql c d).2)
      \/ (exists e, p.1 = Err e) /\ ~ stored
         /\ (dview (app_sys p.2) = d \/ dview (app_sys p.2) = (doc_sql c d).2)).
Proof.
  intros Hkeep Hw. cbv zeta. cbn [pg_run app_pg negb when]. rewrite bind_unfold.
  destruct (silent_interfere w Hw) as ((Hpg & Hn & Hr & Hf & Hq) & Hrow & es & Ho & ->).
  destruct (interfere w) as [[] w0]. cbn [fst snd] in *. unfold on_sys.
  destruct (sys_sql_cases c (app_sys w0)) as (E1 & E2 & E3 & Hcase).
  destruct (pg_run false c (app_sys w0)) as [a x]. cbn [fst snd app_sys] in *.
  assert (Hd : dview x = dview (app_sys w0) \/ dview x = (doc_sql c (dview (app_sys w0))).2).
  { destruct Hcase as [[_ ?]|(e & _ & [[? _]|[? _]])]; auto. }
  split; [exact Hrow|]. split; [exact Hq|]. split; [|split].
  - unfold jv_inv, job_view, job_inv. cbn [app_sys app_next]. unfold rview. rewrite E1, E2, E3.
    split; [intros Hs; by rewrite Hpg|]. split; [exact Hn|]. split; [exact Hr|]. split; [exact Hf|].
    destruct Hd as [->| ->]; [done|by rewrite Hkeep].
  - cbn in *. by rewrite E1.
  - destruct Hcase as [?|(e & -> & Hl)]; [by left|right]. split; [by eexists|]. split; [|exact Hd].
    intros Hs. specialize (Hpg Hs). rewrite Hpg in Hl. by destruct Hl as [[_ ?]|[_ ?]].
Qed.

Lemma silent_select {A} (c : sql A) :
  (forall d, (doc_sql c d).2 = d) -> silent (pg_run false c : M W (res goerr A)).
Proof.
  intros Hc w Hw.
  destruct (sql_run c w (fun d => f_equal pg_requests (Hc d)) Hw) as (Hrow & _ & Hi & Ho & Hd).
  split; [exact Hi|]. split; [|by exists []]. rewrite row_def. rewrite Hc in Hd.
  by destruct Hd as [[_ ->]|(_ & _ & [->| ->])].
Qed.

(** ** The services *)

Ltac quiet :=
  repeat lazymatch goal with
    | |- silent (rc_run _) => fail
    | |- silent (pg_run _ _) => fail
    | |- silent (mbind _ _) => apply silent_bind; [|intros ?]
    | |- silent (mret _) => apply silent_ret
    | |- silent (when _ _) => apply silent_when
    | |- silent (on_proc _) => apply silent_proc
    | |- silent time_Now => apply silent_proc
    | |- silent (match _ with _ => _ end) => case_match
    end.

Lemma silent_command {A} (c : cmd A) :
  written c <> Some (Stream.streamKey job) ->
  written c <> Some (Idempotency.jobIDtoIdempotencyKey job) ->
  silent (rc_run (call c) : M W (res goerr A)).
Proof. intros H1 H2. apply silent_redis, avoids_harmless; done. Qed.

Lemma silent_tier u : silent (User.us_Tier u : M W (res goerr string)).
Proof.
  cbn [User.us_Tier User.NewUserService]. unfold User.UserUseCase_Tier.
  cbn [User.tc_Get User.tc_Set User.Cacher User.ur_FindByID User.pg_UserRepository].
  unfold User.cache_Get, User.cache_Set, User.FindByID.
  quiet; first [by apply silent_command|by apply silent_select].
Qed.

Lemma silent_policy u : silent (Job.GetUserPolicy u : M W (res goerr Job.UserPolicy)).
Proof. cbn [Job.GetUserPolicy User.job_UserPolicyAdapter]. quiet. apply silent_tier. Qed.

(** The retry policies of the configuration. *)
Definition tiers_bounded (m : Z) : Prop :=
  map_Forall (fun _ p => 0 <= Job.MaxAttempts p <= m)%Z (md_tiers (Modules := modules)).

Lemma effect_retry_policy u m :
  tiers_bounded m ->
  effect (Worker.wj_GetRetryPolicy u : M W _) (fun r es => es = [] /\
    match r with Ok p => (0 <= Worker.irp_MaxAttempts p <= m)%Z | Err _ => True end).
Proof.
  intros Hm. cbn [Worker.wj_GetRetryPolicy Worker.adapted_JobRepository].
  unfold Worker.JobRepositoryAdapter_GetRetryPolicy.
  cbn [Worker.svc_GetRetryPolicy wire_JobRunner]. unfold Job.GetRetryPolicy.
  set (X := fun (r : res goerr Job.RetryPolicy) (es : list Stream.StreamEvent) => es = [] /\
    match r with Ok p => (0 <= Job.MaxAttempts p <= m)%Z | Err _ => True end).
  apply (effect_bind _ _ X (fun r r' es => es = [] /\ match r' with
    | Ok q => exists p, r = Ok p /\ Worker.irp_MaxAttempts q = Job.MaxAttempts p
    | Err _ => True end)).
  - apply silent_then; [apply silent_policy|]. intros [p|e]; apply effect_ret; [|done].
    split; [done|]. destruct (md_tiers !! Job.Tier p) as [pol|] eqn:Et; [|done].
    exact (Hm _ _ Et).
  - intros [p|e]; apply effect_ret; [|done]. split; [done|]. by exists p.
  - intros r [q|e] es1 es2 [-> Hp] [-> Hq]; [|done]. destruct Hq as (p & -> & ->). done.
Qed.

Lemma silent_payload : silent (Worker.wj_Payload claim : M W _).
Proof.
  cbn [Worker.wj_Payload Worker.adapted_JobRepository]. unfold Worker.JobRepositoryAdapter_Payload.
  cbn [Worker.svc_PayloadByID wire_JobRunner]. unfold Job.PayloadByID.
  cbn [Job.jr_PayloadByID Job.pg_JobRepository]. unfold Job.repo_PayloadByID.
  quiet. by apply silent_select.
Qed.

Lemma silent_generate i : silent (Worker.we_GenerateStream i : M W _).
Proof.
  cbn [Worker.we_GenerateStream InferenceServer.InferenceEngineAdapter].
  unfold InferenceServer.usecase_GenerateStream, InferenceServer.client_GenerateStream.
  cbn [InferenceServer.NewStreaming app_openai]. quiet.
Qed.

(** Through the adapters of the worker, to the scheduler's repository. *)
#[local] Create HintDb wiring.
#[local] Hint Unfold Worker.QueueAdapter_Release Worker.QueueAdapter_ExtendLease
  Worker.QueueAdapter_MarkCompleted Worker.IdempotencyStatusAdapter_TransitionStatus
  Scheduler.QueueService_ReleaseProcessingJob Scheduler.QueueService_ExtendProcessingLease
  Scheduler.QueueService_MarkJobCompleted Scheduler.ReleaseProcessingJob
  Scheduler.ExtendProcessingLease Scheduler.MarkJobCompleted Idempotency.TransitionStatus
  Idempotency.run_transition Idempotency.now_rfc3339 : wiring.
Ltac wired :=
  repeat progress (
    cbn [Worker.wq_Release Worker.wq_ExtendLease Worker.wq_MarkCompleted Worker.adapted_Queue
      Worker.svc_ReleaseProcessingJob Worker.svc_ExtendProcessingLease Worker.svc_MarkJobCompleted
      wire_Lease Scheduler.jq_ReleaseProcessingJob Scheduler.jq_ExtendProcessingLease
      Scheduler.jq_MarkJobCompleted wire_JobQueue Scheduler.redis_JobQueue
      Worker.wi_TransitionStatus Worker.adapted_IdempotencyStatusUpdater
      Worker.svc_TransitionStatus wire_Idempotency];
    autounfold with wiring).

Lemma silent_release : silent (Worker.wq_Release job : M W _).
Proof.
  wired. quiet. by apply silent_command.
Qed.

Lemma silent_extend : silent (Worker.wq_ExtendLease job : M W _).
Proof.
  wired. unfold rc_Int64, rc_Result. quiet. apply silent_redis, avoids_harmless; avoid.
Qed.

Lemma silent_marker : silent (Worker.wq_MarkCompleted job : M W _).
Proof.
  wired. quiet. by apply silent_command.
Qed.

Lemma silent_transition st : silent (Worker.wi_TransitionStatus (Worker.jc_UserID claim) job st : M W _).
Proof.
  wired. unfold rc_Result. quiet. apply silent_redis, transition_harmless.
Qed.

(** The payload a worker gets is the stored request of the job. *)
Lemma served_request payload :
  served claim payload -> exists q, request = Some q /\
    payload = Worker.MkJobPayload job (Worker.jc_UserID claim) (q_prompt q) (q_model q) (q_max q).
Proof.
  intros (w & Hw & Hp). revert Hp.
  cbn [Worker.wj_Payload Worker.adapted_JobRepository]. unfold Worker.JobRepositoryAdapter_Payload.
  cbn [Worker.svc_PayloadByID wire_JobRunner]. unfold Job.PayloadByID.
  cbn [Job.jr_PayloadByID Job.pg_JobRepository Job.pr_JobID]. unfold Job.repo_PayloadByID.
  rewrite !bind_unfold, !ret_unfold. cbn [fst].
  destruct (sql_run (SELECT_REQUEST job) w (fun d => eq_refl) Hw)
    as (_ & Hq & _ & _ & [[-> _]|[[e ->] _]]); [|by case_match].
  cbn [doc_sql lift_res fst]. rewrite Hq. destruct request as [q|]; [|by case_match].
  intros [= <-]. by exists q.
Qed.

(** The stream of the inference server for one request. *)
Definition asked (i : Worker.GenerationInput) (st : InferenceServer.llm_stream) : Prop :=
  exists e : E, (InferenceServer.NewStreaming (InferenceServer.MkGenerationRequest
    (Worker.gi_Model i) (Worker.gi_Prompt i) (Worker.gi_MaxTokens i) (Worker.gi_Temperature i)) e).1 = st.

Lemma engine_asked i g :
  engine_answers i g -> exists st, asked i st /\
    g = InferenceServerThms.seen false
          (InferenceServer.stream_events (InferenceServer.st_events st) "" st).
Proof.
  intros (w & _ & <-). cbn [Worker.we_GenerateStream InferenceServer.InferenceEngineAdapter].
  unfold InferenceServer.usecase_GenerateStream, InferenceServer.client_GenerateStream.
  rewrite !bind_unfold, !ret_unfold. cbn [fst InferenceServer.NewStreaming app_openai].
  unfold on_proc. set (req := InferenceServer.MkGenerationRequest _ _ _ _).
  exists (InferenceServer.NewStreaming req (app_proc w)).1. split; [by exists (app_proc w)|].
  by destruct (InferenceServer.NewStreaming req (app_proc w)).
Qed.

(** ** Publishing *)

(** A command that is a step of the stream's system. *)
Lemma effect_command {A} (c : cmd A) es :
  (forall r p, reaches es (r, p) (StreamThms.exec c r, p)) ->
  written c <> Some (Idempotency.jobIDtoIdempotencyKey job) ->
  (forall d, exists a, (doc_exec c d).1 = Ok a) ->
  effect (rc_run (call c) : M W (res goerr A)) (fun r es' =>
    match r with Ok _ => es' = es | Err _ => ~ calm /\ (es' = [] \/ es' = es) end).
Proof.
  intros Hs Hw Hok. apply effect_sys. intros r p Hr. split.
  { rewrite run_script_view. eapply slot_reverse; [|exact Hr]. by apply avoids_slot. }
  exists es. split; [apply Hs|]. split.
  - rewrite run_script_reply, run_tail. destruct (Hok (redis_view r)) as [a ->]. done.
  - intros Hc e. split; (split; [done|]); [by left|by right].
Qed.

Lemma publish_effect t d :
  effect (Stream.Publish job t d : M W (option goerr)) (published (Stream.MkStreamEvent t d)).
Proof.
  set (ev := Stream.MkStreamEvent t d).
  set (X := fun (r : option goerr) (es : list Stream.StreamEvent) =>
    match r with None => es = [] | Some _ => ~ calm /\ es = [] end).
  assert (Hret : forall c msg, StreamThms.retention job c ->
    effect (r ← (rc_run (call c) : M W (res goerr unit));
            mret (match r with Err err => Some (errorf_w msg (Some err)) | Ok _ => None end)) X).
  { intros c msg Hc.
    apply (effect_bind _ _ (fun r es' =>
      match r with Ok _ => es' = [] | Err _ => ~ calm /\ (es' = [] \/ es' = []) end)
      (fun r e es => es = [] /\ match r with Ok _ => e = None | Err _ => is_Some e end)).
    - apply effect_command; [|by destruct Hc|intros; destruct Hc; by eexists].
      intros r p. by apply StreamThms.stream_trace_one, StreamThms.step_retain.
    - intros [a|e]; by apply effect_ret.
    - intros [a|e] b es1 es2 H1 [-> H2]; rewrite app_nil_r; [by subst|].
      destruct H2 as [e' ->]. by destruct H1 as [H1 [-> | ->]]. }
  assert (Happ : effect (Stream.appendMessage job ev : M W (option goerr)) (published ev)).
  { unfold Stream.appendMessage.
    apply (effect_bind _ _ (fun r es' =>
      match r with Ok _ => es' = [ev] | Err _ => ~ calm /\ (es' = [] \/ es' = [ev]) end)
      (fun r e es => match r with Ok _ => X e es | Err _ => es = [] /\ is_Some e end)).
    - apply effect_command; [|discriminate|intros; by eexists].
      intros r p. apply StreamThms.stream_trace_one, (StreamThms.step_append job).
    - intros [a|e]; [|by apply effect_ret; split; [|eexists]]. apply Hret. constructor.
    - intros [a|e] b es1 es2 H1 H2; [|destruct H2 as [-> [e' ->]]; by rewrite app_nil_r].
      subst es1. destruct b as [e|]; cbn in *; [destruct H2 as [Hc ->]; auto|].
      by subst. }
  unfold Stream.Publish. fold ev.
  apply (effect_bind _ _ (published ev) (fun e e' es =>
    match e with Some _ => is_Some e' /\ es = [] | None => X e' es end)); [exact Happ| |].
  - intros [e|]; [apply effect_ret; by split; [eexists|]|].
    destruct (Stream.isTerminalEvent t); [apply Hret; constructor|by apply effect_ret].
  - intros [e|] b es1 es2 H1 H2; [destruct H2 as [[e' ->] ->]; by rewrite app_nil_r|].
    cbn in H1. subst es1. destruct b; cbn in *; [destruct H2 as [Hc ->]; auto|by subst].
Qed.

Lemma ensured_effect (m : M W (option goerr)) code ty e :
  effect m (published e) ->
  effect (err ← m; mret (EnsureAppError err code ty)) (published e).
Proof.
  intros Hm. apply (effect_bind _ _ (published e) (fun err err' es =>
    es = [] /\ match err with None => err' = None | Some _ => is_Some err' end)); [exact Hm| |].
  - intros [err|]; apply effect_ret; [|done]. split; [done|].
    destruct (EnsureAppError_some err code ty) as (e' & -> & _). by eexists.
  - intros [err|] b es1 es2 H1 [-> H2]; rewrite app_nil_r; [by destruct H2 as [e' ->]|by subst].
Qed.

Lemma usecase_publish_effect t d :
  Stream.domain_event t = t ->
  effect (Worker.svc_Publish job t d : M W (option goerr)) (published (Stream.MkStreamEvent t d)).
Proof.
  intros Ht. cbn [Worker.svc_Publish wire_Stream]. unfold Stream.UseCase_Publish.
  cbn [Stream.pub_Publish Stream.redis_Publisher]. rewrite Ht.
  apply ensured_effect, publish_effect.
Qed.

Lemma close_effect :
  effect (Worker.ws_Close job : M W (option goerr)) (published (Stream.MkStreamEvent "completed" "")).
Proof.
  cbn [Worker.ws_Close Worker.adapted_StreamPublisher Worker.svc_Close wire_Stream].
  unfold Stream.UseCase_Close. cbn [Stream.pub_Close Stream.redis_Publisher]. unfold Stream.Close.
  apply ensured_effect, publish_effect.
Qed.

(** ** Marking *)

Lemma mark_marks step final :
  (forall jb, Job.JobStatus jb = "created" -> step jb = (None, Job.set_job_status jb final)) ->
  job_status final = true ->
  marks (Job.mark step job : Z -> M W (option goerr)) final.
Proof.
  intros Hstep Hfin n w r Hw Hn Hrow Hst Hr. unfold Job.mark. rewrite bind_unfold.
  cbn [Job.jr_JobByID Job.pg_JobRepository]. unfold Job.JobByID. rewrite bind_unfold, ret_unfold.
  destruct (sql_run (SELECT_JOB job) w (fun d => eq_refl) Hw) as (Hd & _ & I1 & O1 & Hread).
  destruct (silent_select (SELECT_JOB job) (fun d => eq_refl) w Hw) as (_ & R1 & _).
  rewrite Hrow in Hd, R1. cbn [doc_sql fst] in Hread. rewrite Hd in Hread.
  destruct (pg_run false (SELECT_JOB job) w) as [a w1]. cbn [fst snd lift_res] in *.
  destruct Hread as [[-> _]|([e ->] & Hs & _)]; 
    [|unfold Job.mark_rest; cbn iota; rewrite ret_unfold; cbn [fst snd];
      split; [split; [exact Hs|by left]|done]].
  unfold Job.scan_job. rewrite (proj2 (andb_true_iff _ _)) by lia.
  unfold Job.mark_rest. rewrite Hstep by exact Hst.
  cbn [Job.jr_UpdateStatus Job.pg_JobRepository Job.JobStatus Job.set_job_status].
  unfold Job.repo_UpdateStatus. rewrite !bind_unfold, !ret_unfold. cbn [fst snd].
  assert (Hkeep : forall d, pg_requests (doc_sql (UPDATE_JOB job final n) d).2 = pg_requests d).
  { intros d. cbn. by repeat case_match. }
  destruct (sql_run (UPDATE_JOB job final n) w1 Hkeep I1) as (Hd1 & _ & I2 & O2 & Hwrite).
  rewrite R1 in Hd1. assert (Hi : int4 n = true) by (unfold int4; lia).
  cbn [doc_sql] in Hwrite. rewrite Hfin, Hi, Hd1 in Hwrite. cbn [andb fst snd] in Hwrite.
  destruct (pg_run false (UPDATE_JOB job final n) w1) as [a w2]. cbn [fst snd] in *.
  split; [|split; [exact I2|exact (jv_trans [] [] _ _ _ O1 O2)]]. rewrite row_def.
  destruct Hwrite as [[-> ->]|([e ->] & Hs & Hd2)]; cbn.
  - by rewrite lookup_insert_eq.
  - split; [exact Hs|]. destruct Hd2 as [->| ->]; [by left|right; cbn; by rewrite lookup_insert_eq].
Qed.

(** ** The interface *)

Lemma own_events_valid :
  jv_valid completed_event /\ jv_valid failed_event /\ forall ev, jv_valid (retrying ev).
Proof.
  assert (Ht : forall t d, t ∈ ["chunk"; "retrying"; "completed"; "failed"] -> ascii_string d ->
    jv_valid (Stream.MkStreamEvent t d)).
  { intros t d Ht Hd. split; intros _; split; cbn [Stream.ev_Type Stream.ev_Data];
      [|by apply ascii_valid|exact Ht|by apply ascii_no_CR].
    repeat (apply elem_of_cons in Ht as [->|Ht]; [done|]). by apply elem_of_nil in Ht. }
  split; [apply Ht; [repeat first [by left|right]|constructor]|].
  split; [apply Ht; [repeat first [by left|right]|by repeat constructor]|].
  intros ev. apply Ht; [repeat first [by left|right]|]. unfold Worker.retrying_message.
  repeat apply ascii_app; first [apply ascii_pretty_nat|apply ascii_pretty_Z|by repeat constructor].
Qed.

Lemma engine_texts i g es err :
  engine_answers i g -> delivers g es err -> Forall jv_valid es.
Proof.
  intros Hg Hd. destruct (engine_asked _ _ Hg) as (st & [e He] & ->).
  assert (Hall : forall Q : string -> Prop, engine_sends Q ->
    chunks_ok Q (InferenceServerThms.seen false
      (InferenceServer.stream_events (InferenceServer.st_events st) "" st))).
  { intros Q HQ. apply adapter_texts, usecase_texts, events_texts. rewrite <- He. apply HQ. }
  assert (Hq : forall Q : string -> Prop, chunks_ok Q (InferenceServerThms.seen false
      (InferenceServer.stream_events (InferenceServer.st_events st) "" st)) ->
    Forall (fun e => Stream.ev_Type e = "chunk" /\ Q (Stream.ev_Data e)) es).
  { intros Q. clear Hall Hg. induction Hd as [|c k answer es1 es2 err Hp _ IH]; [done|].
    cbn [chunks_ok]. intros [Hc Hk]. apply Forall_app. split; [|by eapply IH].
    destruct answer; cbn in Hp; [destruct Hp as [_ [->| ->]]|subst es1]; [done|..];
      by repeat constructor. }
  apply Forall_forall. intros ev Hev.
  split; intros Hu; specialize (Hq _ (Hall _ Hu)); rewrite Forall_forall in Hq;
    destruct (Hq ev Hev) as [Et Ed].
  - split; [by rewrite Et|exact Ed].
  - split; [rewrite Et; by left|exact Ed].
Qed.

#[local] Instance composed_job_world m :
  tiers_bounded m -> JobWorld W claim m.
Proof.
  intros Hm. split.
  - by apply effect_retry_policy.
  - apply silent_payload.
  - apply silent_generate.
  - intros c. by apply usecase_publish_effect.
  - intros t d Ht. by apply usecase_publish_effect.
  - apply close_effect.
  - apply silent_release.
  - apply silent_extend.
  - apply silent_marker.
  - apply silent_transition.
  - intros x. apply silent_proc.
  - intros d. apply silent_proc.
  - apply silent_proc.
  - apply mark_marks; [|done]. intros jb Hjb. unfold Job.Complete. by rewrite Hjb.
  - apply mark_marks; [|done]. intros jb Hjb. unfold Job.Fail. by rewrite Hjb.
  - apply own_events_valid.
  - apply engine_texts.
Qed.
End composed.

(** ** Who the others may be *)

Section others.
Context {R D : Type} `{!Redis R, !RedisDoc R, !Postgres D} (claim : Worker.JobClaimResult).
#[local] Abbreviation P := (option Z * list Stream.StreamEvent)%type.
#[local] Abbreviation job := (Worker.jc_JobID claim).
#[local] Abbreviation by_stander := (bystander (R := R) (D := D) (P := P) claim (fun p => p)).

(** The subscriber reads once. *)
Definition reads : action R D P := fun '(r, d, p) =>
  match p.1 with
  | Some last =>
      let x := Stream.subscribe_iter StreamThms.sub_emit job last (r, p.2) in
      (x.2.1, d, (x.1, x.2.2))
  | None => (r, d, p)
  end.

(** Time passes; somebody runs a script that does not touch the stream. *)
Definition waits (dt : Z) : action R D P := fun '(r, d, p) => (redis_wait dt r, d, p).
Definition runs {A} (s : script A) : action R D P := fun '(r, d, p) => ((run_script s r).2, d, p).

Lemma reads_bystander : by_stander reads.
Proof.
  intros r d [[last|] got] Hr; unfold reads; cbn [fst snd]; cbv zeta; [|by repeat split; [|constructor]].
  split; [unfold reverse_ok; by rewrite StreamThms.read_view|]. split; [done|]. split; [done|].
  unfold reaches, stream_of. cbn [fst snd].
  apply StreamThms.stream_trace_one, StreamThms.step_read.
Qed.

Lemma waits_bystander dt : by_stander (waits dt).
Proof.
  intros r d p Hr. cbn. split; [|split; [done|split; [done|]]].
  - rewrite redis_wait_doc. intros b. unfold rstr. cbn.
    destruct (filter _ _ !! _) as [v|] eqn:Ev; [|done].
    apply map_lookup_filter_Some in Ev as [Ev _]. intros Hb. apply Hr. unfold rstr. by rewrite Ev.
  - apply StreamThms.stream_trace_one, StreamThms.step_wait.
Qed.

Lemma runs_bystander {A} (s : script A) : harmless claim s -> by_stander (runs s).
Proof.
  intros Hs r d p Hr. cbn. destruct (Hs (redis_view r) Hr) as (H1 & H2 & H3).
  rewrite <- run_script_view in H1, H2, H3. repeat split; try done. by apply slot_reaches.
Qed.
End others.
