(* ===== verification/WiringDemo.v ===== *)
(** * A concrete program

    The modules wired together on the executable servers, with one user, one
    model and a scripted inference server: the world of the witnesses of
    EndToEnd.v and Submission.v. *)

From S2P Require Import Prelude GoErr Redis Env Postgres System Wiring Footprint WiringThms.
From S2P Require Scheduler Admission AdmissionThms Job Idempotency Inference.
From S2P Require Worker Recovery Stream StreamThms InferenceServer.
From stdpp Require Import base gmap list strings pretty.
From Stdlib Require Import ZArith QArith.

(** The process: how many generations the inference server was asked for.
    The first is cut by an overloaded server, the second is complete. *)
Definition process : Type := nat.

#[export] Instance demo_clock : GoClock process := {| time_Now := mret (60 * 10 ^ 9)%Z |}.
#[export] Instance demo_context : GoContext process := {|
  ctx_Err := mret None; ctx_sleep := fun _ => mret None |}.
#[export] Instance demo_uuid : Job.Uuid process := {| Job.uuid_New := mret "job-1" |}.
#[export] Instance demo_deadline : Inference.GoDeadline process := {|
  Inference.ctx_TimeLeft := mret (Some (30 * second)%Z) |}.
#[export] Instance demo_job_env : Worker.JobEnv process := {|
  Worker.time_Sleep := fun _ => skip; Worker.beat_schedule := mret [0; 1; 0; 0; 2; 0; 1]%nat |}.
#[export] Instance demo_openai : InferenceServer.OpenAI process := {|
  InferenceServer.NewStreaming := fun _ n =>
    (match n with
     | O => InferenceServer.MkLlmStream [[("", "Hel")]] false
              (Some (Leaf (Sentinel "openai 503") "unavailable"))
     | _ => InferenceServer.MkLlmStream [[("", "Hello")]; [("", ", world")]; [("stop", "")]] false None
     end, S n) |}.
#[export] Instance demo_admission_metrics : Admission.AdmissionMetrics process := {|
  Admission.RequestRejected := fun _ => skip; Admission.RequestFinished := fun _ => skip |}.
#[export] Instance demo_scheduler_metrics : Scheduler.SchedulerMetrics process := {|
  Scheduler.ObserveQueueWaitDuration := fun _ => skip |}.
#[export] Instance demo_inference_metrics : Inference.InferenceMetrics process := {|
  Inference.JobAccepted := skip |}.
#[export] Instance demo_worker_metrics : Worker.WorkerMetrics process := {|
  Worker.wm_observe := fun _ => skip |}.
#[export] Instance demo_recovery_metrics : Recovery.RecoveryMetrics process := {|
  Recovery.r_observe := fun _ => skip |}.
#[export] Instance demo_process : Process process := {}.

#[export] Instance demo_fmt : GoFmt := {|
  sscan_int64 := fun _ => None; parse_int64 := fun _ => None;
  format_rfc3339 := pretty;
  parse_rfc3339 := fun s => if String.eqb s "60" then Some 60%Z else None |}.
#[export] Instance demo_float : Admission.LuaFloat := {| Admission.rnd := fun q => q |}.
#[export] Instance demo_openai_error : InferenceServer.OpenAIError := {|
  InferenceServer.as_openai_error := fun e =>
    if as_leaf (Sentinel "openai 503") e then Some (503%Z, "unavailable") else None |}.

#[export] Instance demo_modules : Modules := {|
  md_policy := {[ "free" := Admission.MkTierPolicy 1000 256 {[ "m" ]} {[ "m" := 4096%Z ]} ]};
  md_limits := {[ "free" := Admission.MkTierRateLimit 1000 10 (60 * second) ]};
  md_tiers := {[ "free" := Job.MkRetryPolicy 3 second (60 * second) ]};
  md_queue := Scheduler.NewRedisSchedulerRepository (30 * second)
                (Scheduler.MkSchedulerConfig 10 (60 * second) second);
  md_inference := Idempotency.MkInferenceConfig (30 * second) (60 * second) (3600 * second);
  md_recovery := Recovery.MkRecoveryService (30 * second) 100 (60 * second) 10 true;
  md_pool := Worker.MkWorkerPool 4 second (30 * second) "0.7" 3 (60 * second) second 0 true true |}.

(** The others: a subscriber of the job's stream. *)
Definition peers : Type := option Z * list Stream.StreamEvent.
Definition demo : Type := world rdata pgdata process peers.

Definition with_others (fs : list (action rdata pgdata peers)) (rf pf : list outcome) (w : demo) : demo :=
  MkApp (MkSystem (sys_redis (app_sys w)) rf
           (MkPgWorld (pw_db (sys_pg (app_sys w))) None pf))
    (app_proc w) (app_peers w) fs.

Definition tables : pgdata := MkPgData 0 {[ "u" := MkUserRow "user" "free" ]} ∅ ∅ ∅.
Definition idle : demo :=
  MkApp (MkSystem rdata_empty [] (MkPgWorld tables None [])) O (Some 0%Z, []) [].

Definition hello : Idempotency.InferenceInput := Idempotency.MkInferenceInput "hello" "m".
Definition claim : Worker.JobClaimResult := Worker.MkJobClaimResult "job-1" "u".

(** After POST /request, and after a worker has claimed the job. *)
Definition submitted : demo := Eval vm_compute in (app_Submit hello "u" "h" idle).2.
Definition claimed : demo := Eval vm_compute in (Worker.wk_ClaimNextJob 0 submitted).2.

Example demo_flow :
  (app_Submit hello "u" "h" idle).1 = ("job-1", None)
  /\ (Worker.wk_ClaimNextJob 0 submitted).1 = Ok (Some claim).
Proof. vm_compute. done. Qed.

(** While the worker runs, the subscriber reads now and then, time passes, and
    another user's job is queued. *)
Definition audience : list (action rdata pgdata peers) :=
  [reads claim; waits (10 ^ 6); runs (call (LPUSH "queue:user:v" "job-2")); waits 5; waits 1;
   reads claim; waits (10 ^ 6); waits 1] ++ mjoin (repeat [waits 2; waits 3; reads claim] 4).
Definition working : demo := with_others audience [] [] claimed.

(** The same, with a request to Redis that is refused: the one that says that
    the job is completed. *)
Definition lossy : demo :=
  with_others audience (repeat Delivered 15 ++ [Refused (errors_New "connection reset")]) [] claimed.

Example demo_text :
  let w' := (app_process_claimed claim working).2 in
  (app_process_claimed claim working).1 = None
  /\ Stream.ev_Type <$> (app_peers w').2 = ["chunk"; "retrying"; "chunk"; "chunk"; "completed"].
Proof. vm_compute. done. Qed.

(** What the worker finds. *)
Definition row : job_row := MkJobRow "u" "created" 1 0.
Definition request : request_row := MkRequestRow "m" "hello" 256.
#[local] Abbreviation whole := (fun p : peers => p).

Lemma audience_bystanders : Forall (bystander claim whole) audience.
Proof.
  unfold audience. cbn [mjoin list_join repeat app].
  assert (Hl : bystander claim whole (runs (R := rdata) (D := pgdata) (call (LPUSH "queue:user:v" "job-2")))).
  { apply runs_bystander, avoids_harmless; apply avoids_call; cbn; discriminate. }
  repeat (apply Forall_cons; split;
    [solve [apply reads_bystander | apply waits_bystander | exact Hl]|]).
  by apply Forall_nil.
Qed.

Lemma claimed_reverse : reverse_ok claim (redis_view (sys_redis (app_sys claimed))).
Proof.
  assert (Hr : rstr (redis_view (sys_redis (app_sys claimed))) (Idempotency.jobIDtoIdempotencyKey "job-1")
    = Some (BStr "idempotent:u:inference:h")) by (vm_compute; done).
  unfold reverse_ok. cbn [claim Worker.jc_JobID]. intros b. rewrite Hr. by intros [= <-].
Qed.

(** The same again, with a request to PostgreSQL that is refused: the one that
    records that the job is completed. *)
Definition unrecorded : demo :=
  with_others audience [] [Delivered; Delivered; Refused (errors_New "connection reset")] claimed.

Lemma with_others_inv (calm stored : Prop) fs rf pf :
  Forall (bystander claim whole) fs -> (calm -> rf = []) -> (stored -> pf = []) ->
  job_inv claim whole calm stored (Some request) (with_others fs rf pf claimed).
Proof.
  intros Hf Hrf Hpf. unfold job_inv, with_others, rview. cbn [app_sys app_next sys_redis sys_pg sys_rfaults pw_faults].
  split; [exact Hpf|]. split; [exact Hf|]. split; [exact claimed_reverse|].
  split; [exact Hrf|]. by vm_compute.
Qed.

Lemma demo_utf8 : engine_utf8 (E := process).
Proof. intros req [|n]; cbn; repeat constructor. Qed.
