(* ===== verification/Server.v ===== *)
(** * The HTTP server of the composed program (application/app.go, module.go
    of the modules)

    The routes of all modules, behind the middleware of /api, over the world
    of Wiring.v: what the handlers ask are the use cases of the program, the
    tokens are those of the authentication module, through the adapters. *)

From S2P Require Import Prelude GoText GoErr Redis Env Postgres System Http Wiring.
From S2P Require Scheduler Admission Job Idempotency Inference Worker Recovery.
From S2P Require Stream InferenceServer User Auth Health App Metrics Transport.
From stdpp Require Import base gmap list strings.
From Stdlib Require Import ZArith.

(** What a server process has besides: randomness, the network, and the ping
    of the pool of connections. *)
Class ServerProcess (E : Type) := {
  sp_rand :: Auth.Rand E;
  sp_http :: Auth.HttpClient E;
  sp_ping :: Health.PgPing E;
}.

Section services.
Context {R D E P : Type} `{!ServerProcess E}.
#[local] Abbreviation W := (world R D E P).

#[global] Instance app_rand : Auth.Rand W := {|
  Auth.rand_Read := fun n => on_proc (Auth.rand_Read n);
  Auth.rand_Int := fun n => on_proc (Auth.rand_Int n) |}.
#[global] Instance app_http : Auth.HttpClient W := {|
  Auth.http_Do := fun req unread => on_proc (Auth.http_Do req unread) |}.
#[global] Instance app_ping : Health.PgPing W := {| Health.pg_Ping := on_proc Health.pg_Ping |}.
End services.

(** The settings of the authentication module. *)
Class AuthSettings := { auth_cfg : Auth.AuthConfig }.

Section wiring.
Context {W : Type} `{!GoClock W, !Auth.Rand W, !Auth.HttpClient W, !GoContext W}.
Context `{!Auth.Jwt, !AuthSettings}.

(** auth/module.go: the token manager and the client of GitHub. *)
#[global] Instance wire_AuthTokenManager : Auth.AuthTokenManager W :=
  Auth.NewJWTService (Auth.ac_JwtToken auth_cfg).
#[global] Instance wire_OAuthAuthorizer : Auth.OAuthAuthorizer W :=
  Auth.github_OAuthAuthorizer (Auth.NewHTTPClient auth_cfg).

(** user/adapters/auth_adapter.go: the tokens of administrators. *)
#[global] Instance wire_UserTokenManager : User.UserTokenManager W := Auth.TokenAuthenticatorAdapter.

(** inference/adapters and stream/adapters, auth_adapter.go. *)
Definition inference_ValidateAccessToken : string -> M W (res goerr (string * string)) :=
  Auth.TokenAdapter_ValidateAccessToken.
Definition stream_ValidateAccessToken : string -> M W (res goerr (string * string)) :=
  Auth.TokenAdapter_ValidateAccessToken.
End wiring.

(** ** The routes *)

Inductive api_route : Type :=
| AdminRoute (r : User.admin_route)
| AuthRoute (r : Auth.auth_route)
| StreamRoute
| RequestRoute
| HealthRoute (r : Health.health_route).

(** The lines of the modules' tables: the method, and the path below /api. *)
Definition user_line (r : User.admin_route) : string * string :=
  match r with
  | User.POST_register => ("POST", "/admin/register")
  | User.POST_login => ("POST", "/admin/login")
  | User.PUT_user_tier => ("PUT", "/admin/users/:user_id/tier")
  end.

Definition auth_line (r : Auth.auth_route) : string * string :=
  match r with
  | Auth.GET_login_github => ("GET", "/auth/login/github")
  | Auth.GET_github_callback => ("GET", "/auth/github/callback")
  end.

Definition stream_line : string * string := ("GET", "/stream/:jobID").
Definition inference_line : string * string := ("POST", "/request").

Definition health_line (r : Health.health_route) : string * string :=
  match r with
  | Health.GET_live => ("GET", "/health/live")
  | Health.GET_ready => ("GET", "/health/ready")
  end.

Definition module_line (r : api_route) : string * string :=
  match r with
  | AdminRoute r => user_line r
  | AuthRoute r => auth_line r
  | StreamRoute => stream_line
  | RequestRoute => inference_line
  | HealthRoute r => health_line r
  end.

(** The full path, as gin knows it: [app.engine.Group("/api")]. *)
Definition route_line (r : api_route) : string * string :=
  ((module_line r).1, "/api" +:+ (module_line r).2).

(** The metrics are served outside of /api. *)
Inductive engine_route : Type :=
| ApiRoute (r : api_route)
| RootRoute (r : Metrics.metrics_route).

Definition metrics_line (r : Metrics.metrics_route) : string * string :=
  match r with Metrics.GET_metrics => ("GET", "/metrics") end.

Definition engine_line (r : engine_route) : string * string :=
  match r with ApiRoute r => route_line r | RootRoute r => metrics_line r end.

Definition all_routes : list api_route :=
  [AdminRoute User.POST_register; AdminRoute User.POST_login; AdminRoute User.PUT_user_tier;
   AuthRoute Auth.GET_login_github; AuthRoute Auth.GET_github_callback; StreamRoute;
   RequestRoute; HealthRoute Health.GET_live; HealthRoute Health.GET_ready].
Definition engine_routes : list engine_route :=
  (ApiRoute <$> all_routes) ++ [RootRoute Metrics.GET_metrics].

(** No two routes collide, and all but those of the health checks are in the
    vocabulary of the metrics. *)
Lemma routes_distinct : NoDup (engine_line <$> engine_routes).
Proof. by apply (bool_decide_eq_true_1 _). Qed.

Lemma all_routes_complete r : r ∈ all_routes.
Proof. destruct r as [[]|[]| | |[]]; repeat first [by left | right]. Qed.

Lemma engine_routes_complete r : r ∈ engine_routes.
Proof.
  unfold engine_routes. destruct r as [r|[]]; apply elem_of_app; [left|by right; left].
  apply list_elem_of_fmap. exists r. split; [done|]. apply all_routes_complete.
Qed.

Lemma routes_labelled r :
  match r with
  | HealthRoute _ => Metrics.normalizeHTTPRoute (route_line r).2 = "other"
  | _ => Metrics.normalizeHTTPRoute (route_line r).2 ∈ Metrics.http_routes
         /\ Metrics.normalizeHTTPMethod (route_line r).1 = (route_line r).1
  end.
Proof. destruct r as [[]|[]| | |[]]; vm_compute; repeat split; repeat first [by left | right]. Qed.

Section server.
Context {R D E P G : Type} `{!Redis R, !Postgres D, !Process E, !ServerProcess E, !Gin G}.
Context `{!GoFmt, !Admission.LuaFloat, !Modules, !Auth.Jwt, !AuthSettings}.
#[local] Abbreviation W := (world R D E P).

(** What the streams need of net/http, of the uuid library and of the
    goroutines of a subscription: the occurrences that the selects of the
    handler find. *)
Context (uuid_ok : string -> bool) (SetWriteDeadline : M (G * W) (option goerr)) (flusher : bool).
Context (stream_metrics : option (Stream.stream_metric -> M E unit)).
Context (subscribe : string -> M W (res goerr (list Stream.occurrence))).
(** The recorder of the metrics of requests. *)
Context (recorder : option (http_metric -> M E unit)).

(** stream/adapters/metrics_adapter.go reads the acceptance time of a job from
    the job module. *)
Definition wire_JobAcceptedAtReader : string -> M W (res goerr Z) :=
  Stream.GetJobAcceptedAt Job.js_CreatedAt (Some Job.GetByID).

(** The routes that the modules register. *)
Definition api_handler (r : api_route) : handler G W :=
  match r with
  | AdminRoute r => User.user_RegisterRoutes r
  | AuthRoute r => Auth.RegisterAuthRoutes r
  | StreamRoute =>
      Stream.RegisterStreamRoutes uuid_ok SetWriteDeadline flusher
        ((fun f x => on_proc (f x)) <$> stream_metrics) (Some wire_JobAcceptedAtReader) subscribe
        stream_ValidateAccessToken
  | RequestRoute => Transport.RegisterInferenceRoutes inference_ValidateAccessToken app_Submit
  | HealthRoute r => Health.RegisterHealthRoutes (Some (Health.NewHealthService true true (5 * second))) r
  end.

(** A request that gin has matched with a route. *)
Definition serve (r : api_route) : M (G * W) exit :=
  api_Use (route_line r).1 ((fun f x => on_proc (f x)) <$> recorder) Job.uuid_New
    (returning (api_handler r)).

(** The engine: the middleware of /api is not that of the root. *)
Context (promhttp_HandlerFor : handler G W).

Definition serve_engine (r : engine_route) : M (G * W) exit :=
  match r with
  | ApiRoute r => serve r
  | RootRoute r => returning (Metrics.RegisterRootRoutes promhttp_HandlerFor r)
  end.
End server.
