(* ===== verification/CrashRecovery.v ===== *)
(** * What a crash leaves behind is recovered

    The composed program at rest: no request is lost and the others do
    nothing, so that every call has one outcome.  A sweep of the recovery
    loop puts every job whose worker has disappeared back in the queue of its
    user, and loses none. *)

From S2P Require Import Prelude GoErr Redis Env Postgres System Wiring Footprint WiringDemo.
From S2P Require Import SchedulerSpec.
From S2P Require Scheduler Admission Job Idempotency IdempotencyThms Recovery User UserThms.
From stdpp Require Import base gmap list strings sorting.
From Stdlib Require Import ZArith Lia.

(** ** Calls at rest *)

Section rest.
Context {R D E P : Type} `{!Redis R, !RedisDoc R, !Postgres D, !PostgresDoc D, !Process E}.
#[local] Abbreviation W := (world R D E P).
Implicit Types (w : W) (rd : rdata) (pd : pgdata).

(** The servers hold [rd] and [pd], and nothing will happen to them but what
    the process asks. *)
Definition at_rest w rd pd : Prop :=
  app_next w = [] /\ sys_rfaults (app_sys w) = [] /\ pg_calm (app_sys w)
  /\ rview (app_sys w) = rd /\ dview (app_sys w) = pd.

(** The call answers [a] and leaves [rd] and [pd]. *)
Definition outcome {A} (m : M W A) w (a : A) rd pd : Prop := (m w).1 = a /\ at_rest (m w).2 rd pd.

Lemma out_ret {A} (a : A) w rd pd : at_rest w rd pd -> outcome (mret a) w a rd pd.
Proof. done. Qed.

Lemma out_bind {A B} (m : M W A) (k : A -> M W B) w a rd1 pd1 b rd2 pd2 :
  outcome m w a rd1 pd1 -> (forall w1, at_rest w1 rd1 pd1 -> outcome (k a) w1 b rd2 pd2) ->
  outcome (mbind k m) w b rd2 pd2.
Proof.
  intros [<- Hm] Hk. unfold outcome. rewrite bind_unfold. by apply Hk.
Qed.

Lemma out_redis {A} (s : script A) w rd pd :
  at_rest w rd pd ->
  outcome (rc_run s) w (lift_res (run_script s rd).1) (run_script s rd).2 pd.
Proof.
  intros (Hn & Hf & Hp & <- & <-). unfold outcome. cbn [rc_run app_redis]. rewrite bind_unfold.
  unfold interfere, modify_world. rewrite Hn. cbn [fst snd]. unfold on_sys.
  change (@rc_run (system R D) system_redis A s) with (sys_script (D := D) s). unfold sys_script.
  rewrite Hf. unfold rview. rewrite <- run_script_reply, <- run_script_view.
  destruct (run_script s (sys_redis (app_sys w))) as [x r] eqn:Ex. cbn [fst snd].
  split; [by destruct x|]. split; [done|]. split; [done|]. split; [exact Hp|]. done.
Qed.

Lemma out_sql {A} (c : sql A) w rd pd :
  at_rest w rd pd ->
  outcome (pg_run false c) w (lift_res (doc_sql c pd).1) rd (doc_sql c pd).2.
Proof.
  intros (Hn & Hf & Hp & <- & <-). unfold outcome.
  change (pg_run (W := W) false c) with
    (_ ← (interfere : M W unit); on_sys (pg_run (W := system R D) false c)).
  rewrite bind_unfold. unfold interfere, modify_world. rewrite Hn. cbn [fst snd]. unfold on_sys.
  destruct (sys_sql c (app_sys w) Hp) as (Hr & Hf' & Hc & Ha & Hd).
  destruct (pg_run false c (app_sys w)) as [a x]. cbn [fst snd] in *.
  split; [exact Ha|]. unfold at_rest. cbn [fst snd app_next app_sys]. rewrite Hf'. done.
Qed.

Lemma rest_proc {A} (m : M E A) w rd pd : at_rest w rd pd -> at_rest (on_proc m w).2 rd pd.
Proof. unfold on_proc. by destruct (m (app_proc w)). Qed.
End rest.

(** ** The services of recovery at rest *)

Section recovery.
Context {R D E P : Type} `{!Redis R, !RedisDoc R, !Postgres D, !PostgresDoc D, !Process E}.
Context {gofmt : GoFmt} {luafloat : Admission.LuaFloat} {modules : Modules}.
#[local] Abbreviation W := (world R D E P).
Implicit Types (w : W) (rd : rdata) (pd : pgdata) (row : job_row).

(** What is cached of the users is what the table says. *)
Definition coherent rd pd : Prop := forall u b,
  rstr rd (User.buildUserTierCacheKey u) = Some b ->
  exists urow, pg_users pd !! u = Some urow /\ b = BStr (u_tier urow).

Lemma coherent_slots rd rd' pd pd' :
  (forall u, IdempotencyThms.slot rd' (User.buildUserTierCacheKey u)
           = IdempotencyThms.slot rd (User.buildUserTierCacheKey u)) ->
  pg_users pd' = pg_users pd -> coherent rd pd -> coherent rd' pd'.
Proof.
  intros Hs Hu Hc u b. rewrite Hu. pose proof (Hs u) as [= _ _ _ _ Es _]. unfold rstr. rewrite Es.
  apply Hc.
Qed.

(** The job [id] as recovery sees it. *)
Definition job_of id row : Recovery.RecoveryJob :=
  Recovery.MkRecoveryJob id (j_user row) (j_status row) (j_retry row).

Lemma out_job id row w rd pd :
  at_rest w rd pd -> pg_jobs pd !! id = Some row -> (0 <= j_retry row < 256)%Z ->
  outcome (Recovery.j_ByID id) w (Ok (job_of id row)) rd pd.
Proof.
  intros Hw Hrow Hr. eapply out_bind.
  { eapply out_bind; [eapply out_bind; [by apply out_sql|]|].
    - intros w1 H1. by apply out_ret.
    - intros w1 H1. apply out_ret. exact H1. }
  intros w1 H1. cbn [doc_sql fst snd lift_res] in *. rewrite Hrow in *. unfold Job.scan_job.
  replace ((0 <=? j_retry row) && (j_retry row <? 256))%Z with true by lia.
  by apply out_ret.
Qed.

Lemma out_cache_get u w rd pd :
  at_rest w rd pd ->
  outcome (User.cache_Get u) w
    (Ok (default "" (bulk_text <$> rstr rd (User.buildUserTierCacheKey u)))) rd pd.
Proof.
  intros Hw. eapply out_bind; [by apply out_redis|]. intros w1 H1. rewrite run_tail in *.
  cbn [doc_exec fst snd lift_res] in *. destruct (rstr rd _); by apply out_ret.
Qed.

Lemma out_find u urow w rd pd :
  at_rest w rd pd -> pg_users pd !! u = Some urow ->
  outcome (User.FindByID u) w (Ok (User.MkUser u (u_role urow) (u_tier urow))) rd pd.
Proof.
  intros Hw Hu. eapply out_bind; [by apply out_sql|]. intros w1 H1.
  cbn [doc_sql fst snd lift_res] in *. rewrite Hu in *. by apply out_ret.
Qed.

Lemma out_cache_set u t w rd pd :
  at_rest w rd pd ->
  outcome (User.cache_Set u t) w None
    (upd_strs <[User.buildUserTierCacheKey u := (BStr t, Some (r_now rd + User.userTierCacheTTL * 1000)%Z)]> rd) pd.
Proof.
  intros Hw. eapply out_bind; [by apply out_redis|]. intros w1 H1. rewrite run_tail in *.
  by apply out_ret.
Qed.

(** The tier of a user; the cache may learn it. *)
Lemma out_tier u urow rd pd :
  coherent rd pd -> pg_users pd !! u = Some urow ->
  exists rd', (forall w, at_rest w rd pd ->
      outcome (User.us_Tier u) w (Ok (u_tier urow)) rd' pd)
    /\ same_sched rd rd' /\ coherent rd' pd.
Proof.
  intros Hc Hu. cbn [User.us_Tier User.NewUserService]. unfold User.UserUseCase_Tier.
  cbn [User.tc_Get User.tc_Set User.Cacher User.ur_FindByID User.pg_UserRepository].
  set (key := User.buildUserTierCacheKey u). set (t := default "" (bulk_text <$> rstr rd key)).
  destruct (str_empty t) eqn:Et.
  - eexists. split; [|split].
    + intros w Hw. eapply out_bind; [by apply out_cache_get|]. intros w1 H1. cbv beta iota zeta. fold key. fold t. rewrite Et.
      eapply out_bind; [by apply out_find|]. intros w2 H2.
      eapply out_bind; [by apply out_cache_set|]. intros w3 H3. by apply out_ret.
    + split; try done. cbn. by rewrite lookup_insert_ne.
    + intros v b. rewrite UserThms.rstr_set. case_decide as Ek; [|by apply Hc].
      apply UserThms.tier_key_inj in Ek as <-. intros [= <-]. by exists urow.
  - exists rd. split; [|split; [by split|done]].
    intros w Hw. eapply out_bind; [by apply out_cache_get|]. intros w1 H1. cbv beta iota zeta.
    fold key. fold t. rewrite Et. replace (u_tier urow) with t; [by apply out_ret|]. subst t key.
    destruct (rstr rd _) as [b|] eqn:Eb; [|done].
    apply Hc in Eb as (urow' & Hu' & ->). rewrite Hu in Hu'. by injection Hu' as <-.
Qed.

Lemma out_policy u urow p rd pd :
  coherent rd pd -> pg_users pd !! u = Some urow -> md_tiers !! u_tier urow = Some p ->
  exists rd', (forall w, at_rest w rd pd ->
      outcome (Recovery.p_GetRetryPolicy u) w (Ok (Job.MaxAttempts p)) rd' pd)
    /\ same_sched rd rd' /\ coherent rd' pd.
Proof.
  intros Hc Hu Hp. destruct (out_tier u urow rd pd Hc Hu) as (rd' & Ht & Hs & Hc').
  exists rd'. split; [|done]. intros w Hw. eapply out_bind.
  { eapply out_bind; [eapply out_bind; [by apply Ht|]|].
    - intros w1 H1. by apply out_ret.
    - intros w1 H1. apply out_ret. exact H1. }
  intros w1 H1. cbn [res_map Job.Tier] in *. rewrite Hp. by apply out_ret.
Qed.

(** A script that answers a number. *)
Lemma out_int64 (s : script resp) n w rd pd rd' :
  at_rest w rd pd -> run_script s rd = (Ok (RInt n), rd') ->
  outcome (rc_Int64 s : M W _) w (Ok n) rd' pd.
Proof.
  intros Hw Hrun. pose proof (out_redis s w rd pd Hw) as Ho. rewrite Hrun in Ho.
  unfold rc_Int64, rc_Result. eapply (out_bind _ _ _ (Ok (RInt n))).
  - eapply out_bind; [exact Ho|]. intros w1 Hw1. by apply out_ret.
  - intros w1 Hw1. by apply out_ret.
Qed.

(** The two scripts of a sweep. *)
Lemma out_requeue id u cutoff rd pd :
  wf rd -> (rotseq rd < int64_max)%Z -> lease_expired rd id cutoff = true ->
  exists rd', (forall w, at_rest w rd pd ->
      outcome (Recovery.q_RequeueIfExpired id u cutoff) w (Ok true) rd' pd)
    /\ pushed rd u id rd' /\ processing rd' = delete id (processing rd) /\ enq rd' = enq rd
    /\ (forall k, avoids k (sched_requeueScript id u cutoff) ->
        IdempotencyThms.slot rd' k = IdempotencyThms.slot rd k).
Proof.
  intros Hwf Hs He. destruct (requeue_ok id u cutoff rd Hwf Hs He) as (rd' & Hrun & H1 & H2 & H3 & _).
  exists rd'. split; [|split; [done|split; [done|split; [done|]]]].
  - intros w Hw. eapply (out_bind _ _ _ (Ok 1%Z)); [exact (out_int64 _ _ _ _ _ _ Hw Hrun)|].
    intros w1 Hw1. by apply out_ret.
  - intros k Hk. pose proof (avoids_slot k _ rd Hk) as [Hk1 _]. by rewrite Hrun in Hk1.
Qed.

Lemma out_remove id cutoff rd pd :
  lease_expired rd id cutoff = true ->
  exists rd', (forall w, at_rest w rd pd ->
      outcome (Recovery.q_RemoveIfExpired id cutoff) w (Ok true) rd' pd)
    /\ processing rd' = delete id (processing rd) /\ active rd' = active rd
    /\ (forall v, queue rd' v = queue rd v) /\ enq rd' = delete id (enq rd)
    /\ r_strs rd' !! Scheduler.rotationSequenceKey = r_strs rd !! Scheduler.rotationSequenceKey
    /\ (forall k, avoids k (sched_removeScript id cutoff) ->
        IdempotencyThms.slot rd' k = IdempotencyThms.slot rd k).
Proof.
  intros He. destruct (remove_ok id cutoff rd He) as (rd' & Hrun & H1 & H2 & H3 & H4 & _ & _ & H5).
  exists rd'. split; [|split_and!; try done].
  - intros w Hw. eapply (out_bind _ _ _ (Ok 1%Z)); [exact (out_int64 _ _ _ _ _ _ Hw Hrun)|].
    intros w1 Hw1. by apply out_ret.
  - intros k Hk. pose proof (avoids_slot k _ rd Hk) as [Hk1 _]. by rewrite Hrun in Hk1.
Qed.

Lemma out_observe x w rd pd :
  at_rest w rd pd -> outcome (Recovery.r_observe x : M W unit) w tt rd pd.
Proof. intros Hw. split; [by destruct (_ w).1|by apply rest_proc]. Qed.

(** The new attempt is recorded. *)
Lemma out_update id n row w rd pd :
  at_rest w rd pd -> pg_jobs pd !! id = Some row -> j_status row = "created" ->
  (0 <= n < 2 ^ 31)%Z ->
  outcome (Recovery.s_UpdateCreated id n) w (Ok true) rd
    (upd_jobs <[id := set_status "created" n row]> pd).
Proof.
  intros Hw Hrow Hst Hn.
  pose proof (out_sql (UPDATE_JOB_IF id "created" n "created") w rd pd Hw) as Ho.
  cbn [doc_sql] in Ho. replace (int4 n) with true in Ho by (unfold int4; lia).
  rewrite Hrow, Hst in Ho. eapply out_bind; [exact Ho|]. intros w1 H1. by apply out_ret.
Qed.

(** ** One job, and all of them *)

(** An expired job that recovery can settle: it is recorded, and if it is not
    terminal its user has a tier whose attempts are not used up. *)
Definition recoverable pd id row : Prop :=
  pg_jobs pd !! id = Some row /\ (0 <= j_retry row < 256)%Z
  /\ (j_status row = "created" -> exists urow p, pg_users pd !! j_user row = Some urow
      /\ md_tiers !! u_tier urow = Some p /\ (j_retry row < Job.MaxAttempts p)%Z).

Definition retried row : job_row := set_status "created" (j_retry row + 1) row.

Record one_swept id row rd pd rd' pd' : Prop := {
  os_processing : processing rd' = delete id (processing rd);
  os_queue : forall v, queue rd' v =
    if decide (j_status row = "created" /\ v = j_user row) then id :: queue rd v else queue rd v;
  os_jobs : pg_jobs pd' =
    if decide (j_status row = "created") then <[id := retried row]> (pg_jobs pd) else pg_jobs pd;
  os_users : pg_users pd' = pg_users pd;
  os_wf : wf rd';
  os_coherent : coherent rd' pd';
  os_seq : (rotseq rd' <= rotseq rd + 1)%Z;
}.

Lemma requeue_avoids_tiers u id v cutoff :
  avoids (User.buildUserTierCacheKey u) (sched_requeueScript id v cutoff).
Proof. unfold sched_requeueScript, Scheduler.Lua.requeueExpiredScript. avoid. Qed.

Lemma remove_avoids_tiers u id cutoff :
  avoids (User.buildUserTierCacheKey u) (sched_removeScript id cutoff).
Proof. unfold sched_removeScript, Scheduler.Lua.removeExpiredScript. avoid. Qed.

Lemma recover_one id row cutoff rd pd :
  wf rd -> coherent rd pd -> (rotseq rd < int64_max)%Z ->
  lease_expired rd id cutoff = true -> recoverable pd id row ->
  exists rd' pd', (forall w, at_rest w rd pd ->
      outcome (Recovery.recoverOne id cutoff) w None rd' pd')
    /\ one_swept id row rd pd rd' pd'.
Proof.
  intros Hwf Hc Hs He (Hrow & Hr & Hp).
  destruct (decide (j_status row = "created")) as [Hst|Hst].
  - destruct (Hp Hst) as (urow & p & Hu & Hpol & Hlt).
    destruct (out_policy (j_user row) urow p rd pd Hc Hu Hpol) as (rd1 & Ho1 & Hs1 & Hc1).
    assert (He1 : lease_expired rd1 id cutoff = true).
    { unfold lease_expired. by rewrite (ss_processing _ _ Hs1). }
    destruct (out_requeue id (j_user row) cutoff rd1 pd (wf_same _ _ Hs1 Hwf)
      ltac:(by rewrite (seq_same _ _ Hs1)) He1) as (rd2 & Ho2 & Hpu & Hpr & Hen & Hsl).
    exists rd2, (upd_jobs <[id := retried row]> pd). split.
    + intros w Hw. unfold Recovery.recoverOne.
      eapply out_bind; [by apply out_job|]. intros w1 H1.
      cbn [job_of Recovery.rj_Status Recovery.rj_UserID Recovery.rj_RetryCount].
      rewrite Hst. cbn [negb String.eqb]. change (negb _) with false. cbv iota.
      eapply out_bind; [by apply Ho1|]. intros w2 H2. cbv beta iota.
      replace (Job.MaxAttempts p <=? j_retry row)%Z with false by lia.
      unfold Recovery.recover_retry. eapply out_bind; [by apply Ho2|]. intros w3 H3. cbv beta iota.
      eapply out_bind; [apply (out_update id (j_retry row + 1) row); [done|done|done|lia]|].
      intros w4 H4. cbv beta iota.
      eapply out_bind; [by apply out_observe|]. intros w5 H5.
      eapply out_bind; [by apply out_observe|]. intros w6 H6.
      by apply out_ret.
    + split.
      * by rewrite Hpr, (ss_processing _ _ Hs1).
      * intros v. rewrite (pu_queue _ _ _ _ Hpu), !(ss_queue _ _ Hs1).
        destruct (decide (j_user row = v)) as [<-|Hne].
        -- by rewrite decide_True.
        -- rewrite decide_False; [done|]. intros [_ ->]. done.
      * by rewrite decide_True.
      * done.
      * apply (wf_pushed rd1 (j_user row) id); [by eapply wf_same|done|]. rewrite Hen.
        apply (wf_enq rd1). by eapply wf_same.
      * eapply coherent_slots; [|done|exact Hc1]. intros u. apply Hsl, requeue_avoids_tiers.
      * rewrite (pu_seq _ _ _ _ Hpu), (seq_same _ _ Hs1). case_decide; lia.
  - destruct (out_remove id cutoff rd pd He) as (rd2 & Ho & Hpr & Ha & Hq & Hen & Hsq & Hsl).
    exists rd2, pd. split.
    + intros w Hw. unfold Recovery.recoverOne.
      eapply out_bind; [by apply out_job|]. intros w1 H1.
      cbn [job_of Recovery.rj_Status].
      replace (String.eqb (j_status row) Recovery.StatusCreated) with false
        by (symmetry; by apply String.eqb_neq). cbn [negb]. cbv iota.
      eapply out_bind; [by apply Ho|]. intros w2 H2. by apply out_ret.
    + assert (Hseq : rotseq rd2 = rotseq rd) by (unfold rotseq, rstr; by rewrite Hsq).
      split; try done.
      * intros v. rewrite Hq. rewrite decide_False; [done|]. by intros [? _].
      * by rewrite decide_False.
      * destruct Hwf as [W1 W2 W3 W4 W5]. split.
        -- intros u. by rewrite Ha, Hq.
        -- intros u x. rewrite Ha, Hseq. apply W2.
        -- intros u u' x. rewrite Ha. apply W3.
        -- unfold seq_ok. rewrite Hsq. exact W4.
        -- intros j b. rewrite Hen. intros [_ Hj]%lookup_delete_Some. by eapply W5.
      * eapply coherent_slots; [|done|exact Hc]. intros u. apply Hsl, remove_avoids_tiers.
      * lia.
Qed.

(** What a sweep leaves: of the expired jobs none is in processing, those that
    were created are in the queues of their users with one more attempt, and
    nothing else has changed. *)
Record all_swept (ids : list string) rd pd rd' pd' : Prop := {
  as_processing : forall id, processing rd' !! id =
    if decide (id ∈ ids) then None else processing rd !! id;
  as_queued : forall id row, id ∈ ids -> pg_jobs pd !! id = Some row -> j_status row = "created" ->
    id ∈ queue rd' (j_user row) /\ pg_jobs pd' !! id = Some (retried row);
  as_jobs : forall id, (id ∈ ids -> exists row, pg_jobs pd !! id = Some row /\ j_status row <> "created") ->
    pg_jobs pd' !! id = pg_jobs pd !! id;
  as_kept : forall v, exists l, queue rd' v = l ++ queue rd v /\ forall id, id ∈ l -> id ∈ ids;
  as_wf : wf rd';
  as_coherent : coherent rd' pd';
}.

Lemma swept_then id row ids rd pd rd1 pd1 rd2 pd2 :
  id ∉ ids -> pg_jobs pd !! id = Some row ->
  one_swept id row rd pd rd1 pd1 -> all_swept ids rd1 pd1 rd2 pd2 ->
  all_swept (id :: ids) rd pd rd2 pd2.
Proof.
  intros Hid Hrow [P1 Q1 J1 U1 _ _ _] [P2 Q2 J2 K2 W2 C2].
  assert (Hother : forall id', id' <> id -> pg_jobs pd1 !! id' = pg_jobs pd !! id').
  { intros id' Hne. rewrite J1. case_decide; [by rewrite lookup_insert_ne|done]. }
  split; [| | | |done|done].
  - intros id'. rewrite P2, P1. destruct (decide (id' = id)) as [->|Hne].
    + destruct (decide (id ∈ ids)); [done|].
      destruct (decide (id ∈ id :: ids)) as [_|Hn]; [apply lookup_delete_eq|destruct Hn; by left].
    + rewrite lookup_delete_ne by done. destruct (decide (id' ∈ ids)).
      * rewrite decide_True; [done|by right].
      * rewrite decide_False; [done|]. by intros [?|?]%elem_of_cons.
  - intros id' row' Hin Hrow' Hst. destruct (decide (id' = id)) as [->|Hne].
    + rewrite Hrow in Hrow'. injection Hrow' as <-. rewrite J2 by done. rewrite J1, decide_True by done.
      split; [|by rewrite lookup_insert_eq]. destruct (K2 (j_user row)) as (l & -> & _).
      apply elem_of_app. right. rewrite Q1, decide_True by done. by left.
    + apply elem_of_cons in Hin as [?|Hin]; [done|]. apply Q2; [done|by rewrite Hother|done].
  - intros id' Hin. destruct (decide (id' = id)) as [->|Hne].
    + destruct Hin as (row' & Hrow' & Hst); [by left|]. rewrite Hrow in Hrow'. injection Hrow' as <-.
      rewrite J2 by done. by rewrite J1, decide_False.
    + rewrite J2, Hother; [done|done|]. intros Hin'. rewrite Hother by done. apply Hin. by right.
  - intros v. destruct (K2 v) as (l & -> & Hl). rewrite Q1.
    destruct (decide (j_status row = "created" /\ v = j_user row)).
    + exists (l ++ [id]). split; [by rewrite <- app_assoc|]. intros id' [Hin|Hin]%elem_of_app.
      * right. by apply Hl.
      * apply list_elem_of_singleton in Hin as ->. by left.
    + exists l. split; [done|]. intros id' Hin. right. by apply Hl.
Qed.

Lemma sweep_list cutoff ids rd pd :
  NoDup ids -> wf rd -> coherent rd pd -> (rotseq rd + Z.of_nat (length ids) <= int64_max)%Z ->
  (forall id, id ∈ ids -> lease_expired rd id cutoff = true /\ exists row, recoverable pd id row) ->
  exists rd' pd', (forall w, at_rest w rd pd ->
      outcome (for_each (fun id => _ ← Recovery.recoverOne id cutoff; skip) ids) w tt rd' pd')
    /\ all_swept ids rd pd rd' pd'.
Proof.
  intros Hnd. revert rd pd. induction Hnd as [|id ids Hid Hnd IH]; intros rd pd Hwf Hc Hs Hids.
  - exists rd, pd. split; [by intros w Hw|]. split; try done.
    + intros id row Hin. by apply not_elem_of_nil in Hin.
    + intros v. exists []. split; [done|]. intros id Hin. by apply not_elem_of_nil in Hin.
  - destruct (Hids id) as (He & row & Hr); [by left|]. cbn [length] in Hs.
    destruct (recover_one id row cutoff rd pd Hwf Hc ltac:(lia) He Hr) as (rd1 & pd1 & Ho1 & H1).
    destruct (IH rd1 pd1) as (rd2 & pd2 & Ho2 & H2).
    + apply H1.
    + apply H1.
    + pose proof (os_seq _ _ _ _ _ _ H1). lia.
    + intros id' Hin. destruct (Hids id') as (He' & row' & Hrow' & Hr' & Hp'); [by right|].
      assert (Hne : id' <> id) by congruence. split.
      * unfold lease_expired in *. rewrite (os_processing _ _ _ _ _ _ H1), lookup_delete_ne; done.
      * exists row'. split; [|split; [done|]].
        -- rewrite (os_jobs _ _ _ _ _ _ H1). case_decide; [by rewrite lookup_insert_ne|done].
        -- rewrite (os_users _ _ _ _ _ _ H1). exact Hp'.
    + exists rd2, pd2. split; [|eapply swept_then; [exact Hid|apply Hr|exact H1|exact H2]].
      intros w Hw. cbn [for_each]. eapply (out_bind _ _ _ tt); [|intros w1 H3; by apply Ho2].
      eapply out_bind; [by apply Ho1|]. intros w1 H3. by apply out_ret.
Qed.

(** *** A sweep *)

(** The jobs whose leases ended by [cutoff], in the order of the deadlines. *)
Definition expired_jobs rd (cutoff : Z) : list string :=
  snd <$> filter (fun p : Z * string => (p.1 <= cutoff)%Z) (ranked (processing rd)).

Lemma expired_ids rd cutoff n :
  (Z.of_nat (length (expired_jobs rd cutoff)) <= n)%Z ->
  zrange_score (processing rd) cutoff (if (n =? 0)%Z then None else Some n) = expired_jobs rd cutoff
  /\ NoDup (expired_jobs rd cutoff)
  /\ forall id, id ∈ expired_jobs rd cutoff <-> lease_expired rd id cutoff = true.
Proof.
  intros Hn. unfold expired_jobs in *. set (z := processing rd) in *.
  set (l := snd <$> filter (fun p : Z * string => (p.1 <= cutoff)%Z) (ranked z)) in *.
  split.
  { unfold zrange_score. fold l. destruct (n =? 0)%Z; [done|].
    destruct (n <? 0)%Z; [done|]. apply take_ge. lia. }
  split.
  - unfold l. eapply sublist_NoDup; [|apply fmap_sublist, sublist_filter].
    rewrite (ranked_perm z). unfold swap_list. rewrite <- list_fmap_compose.
    apply NoDup_fst_map_to_list.
  - intros id. unfold l, lease_expired. fold z. rewrite list_elem_of_fmap. split.
    + intros ([s k] & -> & [Hs Hin]%list_elem_of_filter). rewrite ranked_perm in Hin.
      unfold swap_list in Hin. apply list_elem_of_fmap in Hin as ([k' s'] & [= -> ->] & Hin).
      apply elem_of_map_to_list in Hin. cbn in *. rewrite Hin. by apply Z.leb_le.
    + destruct (z !! id) as [s|] eqn:Es; [|done]. intros Hs%Z.leb_le.
      exists (s, id). split; [done|]. apply list_elem_of_filter. split; [done|].
      rewrite ranked_perm. unfold swap_list. apply list_elem_of_fmap. exists (id, s).
      split; [done|]. by apply elem_of_map_to_list.
Qed.

(** C8: a job whose worker has disappeared is not lost.  Let the recovery
    loop of the composed program make a sweep, while no request is lost and
    nobody else interferes.  The rotation is well-formed, with room in its
    sequence for the sweep; the cached tiers are those of the users; and the
    expired leases are no more than a batch, however many leases are live, and
    all of recorded jobs, whose retry count fits a byte and which are terminal
    or have attempts left by the tier of their user.  The sweep succeeds.
    Afterwards no job with an expired lease is in processing, and the other
    leases are as they were; every expired job that was not terminal is in the
    queue of its user, recorded as created with one attempt more; no other row
    has changed; every queue first serves what it held, and then the jobs that
    were put back; and the state is well-formed again. *)
Theorem sweep_recovers w :
  let rd := rview (app_sys w) in let pd := dview (app_sys w) in
  let cutoff := ((time_Now (app_proc w)).1 / 10 ^ 6)%Z in
  at_rest w rd pd -> wf rd -> coherent rd pd ->
  (Z.of_nat (length (expired_jobs rd cutoff)) <= Recovery.batch md_recovery)%Z ->
  (rotseq rd + Z.of_nat (length (expired_jobs rd cutoff)) <= int64_max)%Z ->
  (forall id, lease_expired rd id cutoff = true -> exists row, recoverable pd id row) ->
  exists rd' pd', outcome (Recovery.Sweep md_recovery) w None rd' pd'
    /\ wf rd' /\ coherent rd' pd'
    /\ (forall id, processing rd' !! id =
          if lease_expired rd id cutoff then None else processing rd !! id)
    /\ (forall id row, lease_expired rd id cutoff = true -> pg_jobs pd !! id = Some row ->
          j_status row = "created" ->
          id ∈ queue rd' (j_user row) /\ pg_jobs pd' !! id = Some (retried row))
    /\ (forall id, (forall row, pg_jobs pd !! id = Some row -> lease_expired rd id cutoff = true ->
            j_status row <> "created") -> pg_jobs pd' !! id = pg_jobs pd !! id)
    /\ forall v, exists l, queue rd' v = l ++ queue rd v
         /\ forall id, id ∈ l -> lease_expired rd id cutoff = true.
Proof.
  cbv zeta. set (rd := rview (app_sys w)). set (pd := dview (app_sys w)).
  set (cutoff := (_ / 10 ^ 6)%Z). intros Hw Hwf Hc Hb Hs Hids.
  destruct (expired_ids rd cutoff _ Hb) as (Hids' & Hnd & Hin). set (ids := expired_jobs rd cutoff) in *.
  destruct (sweep_list cutoff ids rd pd Hnd Hwf Hc ltac:(lia)) as (rd' & pd' & Ho & [Sp Sq Sj Sk Sw Sc]).
  { intros id Hid%Hin. split; [done|]. by apply Hids. }
  exists rd', pd'. split; [|split; [exact Sw|split; [exact Sc|]]].
  - unfold Recovery.Sweep. eapply (out_bind _ _ _ (time_Now (app_proc w)).1).
    { split; [by cbn; unfold on_proc; destruct (time_Now (app_proc w))|by apply rest_proc]. }
    intros w1 H1. fold cutoff. eapply (out_bind _ _ _ (Ok ids)).
    { eapply out_bind; [by apply out_redis|]. intros w2 H2. rewrite run_tail in *.
      cbn [doc_exec fst snd lift_res] in *. fold (processing rd). rewrite Hids'. by apply out_ret. }
    intros w2 H2. cbv beta iota. eapply out_bind; [by apply Ho|]. intros w3 H3. by apply out_ret.
  - split_and!.
    + intros id. rewrite Sp. destruct (lease_expired rd id cutoff) eqn:Ee.
      * rewrite decide_True; [done|]. by apply Hin.
      * rewrite decide_False; [done|]. rewrite Hin. by rewrite Ee.
    + intros id row He. apply Sq. by apply Hin.
    + intros id Hid. apply Sj. intros He%Hin. destruct (Hids id He) as (row & Hrow & _).
      exists row. split; [done|]. by apply Hid.
    + intros v. destruct (Sk v) as (l & -> & Hl). exists l. split; [done|].
      intros id Hid. by apply Hin, Hl.
Qed.
End recovery.

(** ** At a concrete program *)

(** The worker that has claimed the job is gone. *)
Definition crashed : demo := with_others [] [] [] WiringDemo.claimed.
#[local] Abbreviation left := (rview (app_sys crashed)).

Lemma left_wf : wf left.
Proof.
  assert (Ha : active left = ∅) by (vm_compute; done).
  assert (Hl : r_lists left = ∅) by (vm_compute; done).
  assert (He : enq left = ∅) by (vm_compute; done).
  split.
  - intros u. rewrite Ha, lookup_empty. unfold queue, klist. rewrite Hl, lookup_empty.
    split; [by intros []|done].
  - intros u s. by rewrite Ha, lookup_empty.
  - intros u u' s. by rewrite Ha, lookup_empty.
  - by vm_compute.
  - intros j b. by rewrite He, lookup_empty.
Qed.

Lemma left_coherent : coherent left (dview (app_sys crashed)).
Proof.
  intros u b. unfold rstr. destruct (r_strs left !! _) as [[b' e]|] eqn:El; [|done]. intros [= ->].
  apply elem_of_map_to_list in El.
  assert (Hstrs : (map_to_list (r_strs left)).*1 =
    ["scheduler:rotation_seq"; "coalescing:u:inference:2503758302315516659"; "user:u:tier";
     "queue_idempotency_key:u:job-1:0"; "jobID:job-1:IdempotencyKey"]) by (vm_compute; done).
  assert (Hu : User.buildUserTierCacheKey u = User.buildUserTierCacheKey "u").
  { assert (Hin : User.buildUserTierCacheKey u ∈ (map_to_list (r_strs left)).*1)
      by (apply list_elem_of_fmap; exists (User.buildUserTierCacheKey u, (b, e)); split; [reflexivity|exact El]).
    rewrite Hstrs in Hin. unfold User.buildUserTierCacheKey in *.
    rewrite !elem_of_cons in Hin. destruct Hin as [Hin|[Hin|[Hin|[Hin|[Hin|Hin]]]]];
      [discriminate|discriminate|exact Hin|discriminate|discriminate|].
    destruct (not_elem_of_nil _ Hin). }
  apply UserThms.tier_key_inj in Hu as ->. apply elem_of_map_to_list in El.
  exists (MkUserRow "user" "free"). split; [by vm_compute|].
  assert (Hl : fst <$> r_strs left !! User.buildUserTierCacheKey "u" = Some (BStr "free"))
    by (vm_compute; done).
  rewrite El in Hl. by injection Hl.
Qed.

Lemma left_processing : processing left = {[ "job-1" := 30000%Z ]}.
Proof. by vm_compute. Qed.

Lemma sweep_recovers_witness :
  exists rd' pd', outcome (Recovery.Sweep md_recovery) crashed None rd' pd'
    /\ "job-1" ∈ queue rd' "u"
    /\ pg_jobs pd' !! "job-1" = Some (MkJobRow "u" "created" 2 0).
Proof.
  assert (Hrow : pg_jobs (dview (app_sys crashed)) !! "job-1" = Some (MkJobRow "u" "created" 1 0))
    by (vm_compute; done).
  destruct (sweep_recovers (E := process) crashed) as (rd' & pd' & Ho & _ & _ & _ & Hq & _).
  - by split_and!.
  - exact left_wf.
  - exact left_coherent.
  - by vm_compute.
  - by vm_compute.
  - intros id. unfold lease_expired. rewrite left_processing.
    destruct (decide (id = "job-1")) as [->|Hne]; [|by rewrite lookup_singleton_ne].
    intros _. exists (MkJobRow "u" "created" 1 0). split; [exact Hrow|]. split; [done|].
    intros _. exists (MkUserRow "user" "free"), (Job.MkRetryPolicy 3 second (60 * second)).
    by split_and!.
  - exists rd', pd'. split; [exact Ho|].
    apply (Hq "job-1" (MkJobRow "u" "created" 1 0)); [|exact Hrow|done].
    unfold lease_expired. rewrite left_processing, lookup_singleton_eq. by vm_compute.
Defined.
