(* ===== verification/EndToEnd.v ===== *)
(** * The composed program, end to end

    Theorems about the modules wired together: what a worker leaves in
    PostgreSQL and on the stream of its job, what a subscriber reads of a
    generated text, and where a submitted request is afterwards. *)

From S2P Require Import Prelude GoErr Redis Env Postgres System Wiring JobOutcome WiringThms WiringDemo.
From S2P Require Scheduler Admission Job JobThms Idempotency IdempotencyThms Inference.
From S2P Require Worker Recovery Stream StreamThms SseThms InferenceServer InferenceServerThms User.
From stdpp Require Import base gmap list strings.
From Stdlib Require Import ZArith Lia.

(** ** The outcome of a job *)

(** The event that tells the client about a final status. *)
Definition terminal_event (status : string) : option Stream.StreamEvent :=
  if String.eqb status "completed" then Some completed_event
  else if String.eqb status "failed" then Some failed_event else None.

Definition terminal_events (es : list Stream.StreamEvent) : list Stream.StreamEvent :=
  filter (fun e => is_terminal e = true) es.

Lemma terminal_events_quiet es : existsb is_terminal es = false -> terminal_events es = [].
Proof.
  unfold terminal_events. induction es as [|e es IH]; [done|]. cbn [existsb].
  intros [He Hq]%orb_false_iff. rewrite filter_cons_False by (by rewrite He). by apply IH.
Qed.

Lemma terminal_events_app es1 es2 :
  terminal_events (es1 ++ es2) = terminal_events es1 ++ terminal_events es2.
Proof. apply filter_app. Qed.

(** What a generation delivers when every chunk is published. *)
Lemma delivers_run {W} `{!JobView W} g es err :
  jv_reliable -> delivers g es err ->
  InferenceServerThms.run_gen g [] = (Stream.ev_Data <$> es, err) /\
  es = chunk <$> (Stream.ev_Data <$> es).
Proof.
  intros Hrel. induction 1 as [|c k answer es1 es2 err Hp _ [IH1 IH2]]; [done|].
  destruct answer; cbn in Hp; [by destruct Hp|]. subst es1. cbn. rewrite IH1. split; [done|].
  by rewrite <- IH2.
Qed.

Section outcome.
Context {R D E P : Type} `{!Redis R, !RedisDoc R, !Postgres D, !PostgresDoc D, !Process E}.
Context {gofmt : GoFmt} {luafloat : Admission.LuaFloat} {openai_error : InferenceServer.OpenAIError}.
Context {modules : Modules}.
#[local] Abbreviation W := (world R D E P).
Implicit Types w : W.
Context (claim : Worker.JobClaimResult) (subscriber : P -> option Z * list Stream.StreamEvent).
#[local] Abbreviation job := (Worker.jc_JobID claim).

(** The configuration of the worker and of the jobs: the publisher is there
    (the worker module requires it), and no tier and no default allows more
    than [m] attempts. *)
Definition attempts_bounded (m : Z) : Prop :=
  Worker.streamPublisher md_pool = true
  /\ (0 <= Worker.defaultMaxAttempts md_pool <= m)%Z /\ (m < 2 ^ 31)%Z /\ tiers_bounded m.

Definition job_row_of w : option job_row := pg_jobs (dview (app_sys w)) !! job.

(** From [w] to [w'] the events [es] went on the stream. *)
Definition streamed (es : list Stream.StreamEvent) w w' : Prop :=
  reaches claim subscriber es (sys_redis (app_sys w), app_peers w)
    (sys_redis (app_sys w'), app_peers w').

Lemma claimed_outcome calm stored request m w r :
  attempts_bounded m -> job_inv claim subscriber calm stored request w ->
  job_row_of w = Some r -> open_row r ->
  let p := app_process_claimed claim w in
  job_inv claim subscriber calm stored request p.2
  /\ job_outcome (JobView0 := job_view claim subscriber calm stored request) md_pool claim m r w p.2 p.1.
Proof.
  intros (Hpub & Hdef & Hm & Ht) Hw Hrow Hopen. cbv zeta.
  unfold app_process_claimed, Worker.with_scope. rewrite bind_unfold.
  pose proof (silent_proc claim subscriber calm stored request (Worker.beat_schedule (W := E)) w Hw) as Hs.
  change (Worker.beat_schedule (W := W)) with (on_proc Worker.beat_schedule : M W (list nat)).
  destruct (on_proc Worker.beat_schedule w) as [sched w0] eqn:Eq.
  assert (E0 : app_sys w0 = app_sys w /\ app_peers w0 = app_peers w).
  { unfold on_proc in Eq. destruct (Worker.beat_schedule (app_proc w)). by simplify_eq/=. }
  destruct E0 as [Es Ep]. destruct Hs as (Hw0 & Hr0 & _). cbn [fst snd] in *.
  pose proof (composed_job_world claim subscriber calm stored request m Ht) as Hjw.
  pose proof (process_claimed_outcome (JobWorld0 := Hjw)
    md_pool claim m (Worker.MkScope w0 None (Worker.Beating 0) 0 sched) r Hpub Hdef Hm Hw0) as H.
  cbn [Worker.sc_world Worker.sc_attempts] in H.
  specialize (H (eq_trans Hr0 Hrow) Hopen eq_refl).
  destruct (Worker.process_claimed md_pool claim _) as [res s]. cbn [fst snd] in *.
  destruct H as [H1 H2]. split; [exact H1|].
  destruct H2; [eapply outcome_completed|eapply outcome_failed|eapply outcome_abandoned]; try done;
    cbn in *; by rewrite Es, Ep in *.
Qed.

Lemma quiet_terminal `{!JobView W} es : quiet_events es -> terminal_events es = [].
Proof. intros [Hq _]. by apply terminal_events_quiet. Qed.

Lemma published_terminal calm stored request e err fin :
  is_terminal e = true -> published (JobView0 := job_view claim subscriber calm stored request) e err fin ->
  terminal_events fin = [e] \/ terminal_events fin = [] /\ ~ calm.
Proof.
  intros He Hp. assert (Hs : terminal_events [e] = [e]).
  { unfold terminal_events. by rewrite filter_cons_True. }
  destruct err; cbn in Hp; [destruct Hp as [Hc [->| ->]]; auto|subst fin; auto].
Qed.

(** The row after a write of the status. *)
Lemma marked_row calm stored request final n r err row :
  marked (JobView0 := job_view claim subscriber calm stored request) final n r err row ->
  exists r', row = Some r' /\ (r' = set_status final n r \/ r' = r /\ ~ stored)
    /\ (stored -> err = None).
Proof.
  destruct err; cbn; [|intros ->; by eexists; split; [done|split; [left|]]].
  intros [Hs [->| ->]]; (eexists; split; [done|split; [tauto|done]]).
Qed.

(** C5: the stream agrees with the record.  Let a worker process a claimed job
    whose row is in state created, in the program composed of all modules,
    whatever the inference server, the heartbeat and the lease do, whatever
    requests to Redis and to PostgreSQL are lost, and whatever the others do to
    the other keys and rows.  Either the job ends as completed or as failed:
    its row gets that status and a retry count of at most the attempts allowed
    - unless a request to PostgreSQL was lost, when the row may stay as it
    was -, and the events that went on its stream hold the event of that status
    and no other terminal event - unless a request to Redis was lost, when it
    may be missing.  Or its lease was lost: then the row is as it was, no
    terminal event went on the stream, and the error says so.  A row that says
    completed means that the worker saw no error, if PostgreSQL lost nothing. *)
Theorem stream_agrees calm stored request m w r :
  attempts_bounded m -> job_inv claim subscriber calm stored request w ->
  job_row_of w = Some r -> open_row r ->
  let p := app_process_claimed claim w in
  exists es r', streamed es w p.2 /\ job_row_of p.2 = Some r'
    /\ (stored -> j_status r' = "completed" -> p.1 = None)
    /\ ((exists status e n, terminal_event status = Some e /\ (0 <= n <= m)%Z
           /\ (r' = set_status status n r \/ r' = r /\ ~ stored)
           /\ (terminal_events es = [e] \/ terminal_events es = [] /\ ~ calm))
        \/ (r' = r /\ terminal_events es = []
            /\ exists e, p.1 = Some e /\ errors_Is (Some e) Worker.ErrLeaseExtendFailed = true)).
Proof.
  intros Hb Hw Hrow Hopen. cbv zeta.
  destruct (claimed_outcome calm stored request m w r Hb Hw Hrow Hopen) as [_ Ho].
  destruct (app_process_claimed claim w) as [res w']. cbn [fst snd] in *.
  pose proof (proj1 Hopen) as Hst.
  destruct Ho as [n pre es fin pl g err merr Hn Hr [Hpre _] _ Hg Hd Hp Hobs
                 |n es fin err merr res Hn Hr Hq Hp Hobs|es e Hr Hq Hobs He].
  - destruct (marked_row calm stored request _ _ _ _ _ Hr) as (r' & Hr' & Hor & Hnone).
    exists (pre ++ es ++ fin), r'. split; [exact Hobs|]. split; [exact Hr'|]. split; [auto|].
    left. exists "completed", completed_event, n. split; [done|]. split; [done|]. split; [exact Hor|].
    rewrite !terminal_events_app, (quiet_terminal _ Hpre).
    assert (Hq : terminal_events es = []).
    { apply terminal_events_quiet. clear -Hd.
      induction Hd as [|c k answer es1 es2 err Hp _ IH]; [done|]. rewrite existsb_app, IH, orb_false_r.
      destruct answer; cbn in Hp; [destruct Hp as [_ [->| ->]]|subst es1]; done. }
    rewrite Hq. by apply (published_terminal calm stored request _ err).
  - destruct (marked_row calm stored request _ _ _ _ _ Hr) as (r' & Hr' & Hor & Hnone).
    exists (es ++ fin), r'. split; [exact Hobs|]. split; [exact Hr'|]. split.
    { intros _ Hc. exfalso. destruct Hor as [->|[-> _]]; [done|congruence]. }
    left. exists "failed", failed_event, n. split; [done|]. split; [done|]. split; [exact Hor|].
    rewrite terminal_events_app, (quiet_terminal _ Hq).
    by apply (published_terminal calm stored request _ err).
  - exists es, r. split; [exact Hobs|]. split; [exact Hr|].
    split; [intros _ Hc; congruence|]. right. split; [done|].
    split; [by apply (quiet_terminal (JobView0 := job_view claim subscriber calm stored request))|].
    eauto.
Qed.

(** *** The text reaches the client *)

(** The input of the inference server for a stored request. *)
Definition generation_input (q : request_row) : Worker.GenerationInput :=
  Worker.MkGenerationInput (q_model q) (q_prompt q) (q_max q) (Worker.temperature md_pool).

(** What a client should show: the texts after the last news of a restart. *)
Definition text_events (pre : list Stream.StreamEvent) (texts : list string)
  : list Stream.StreamEvent := pre ++ (chunk <$> texts) ++ [completed_event].

Definition ends_with_restart (pre : list Stream.StreamEvent) : Prop :=
  existsb is_terminal pre = false
  /\ (pre = [] \/ exists es d, pre = es ++ [Stream.MkStreamEvent "retrying" d]).

Lemma upto_text_events pre texts :
  existsb is_terminal pre = false ->
  StreamThms.upto_terminal (text_events pre texts) = text_events pre texts.
Proof.
  intros Hpre. unfold text_events.
  rewrite StreamThms.upto_terminal_app by exact Hpre. f_equal.
  rewrite StreamThms.upto_terminal_app; [done|]. by induction texts.
Qed.

(** The events of a job that is recorded as completed. *)
Lemma completed_events request m w r :
  attempts_bounded m -> job_inv claim subscriber True False request w ->
  job_row_of w = Some r -> open_row r ->
  let w' := (app_process_claimed claim w).2 in
  j_status <$> job_row_of w' = Some "completed" ->
  exists q pre st, request = Some q /\ asked (E := E) (generation_input q) st
    /\ InferenceServerThms.complete st = true /\ ends_with_restart pre
    /\ let es := text_events pre (InferenceServerThms.texts (InferenceServer.st_events st)) in
       streamed es w w' /\ (engine_utf8 (E := E) -> Forall StreamThms.valid_event es)
       /\ (engine_no_CR (E := E) -> Forall SseThms.readable es).
Proof.
  intros Hb Hw Hrow Hopen. cbv zeta. intros Hdone.
  destruct (claimed_outcome True False request m w r Hb Hw Hrow Hopen) as [_ Ho].
  destruct (app_process_claimed claim w) as [res w']. cbn [fst snd] in *.
  pose proof (proj1 Hopen) as Hcreated.
  destruct Ho as [n pre es fin pl g err merr Hn Hr Hpre Hpl Hg Hd Hp Hobs
                 |n es fin err merr res Hn Hr Hq Hp Hobs|es e Hr Hq Hobs He].
  2:{ exfalso. destruct (marked_row True False request _ _ _ _ _ Hr) as (r' & Hr' & Hor & _).
      change (job_row_of w' = Some r') in Hr'. rewrite Hr' in Hdone.
      destruct Hor as [->|[-> _]]; cbn in Hdone; congruence. }
  2:{ exfalso. change (job_row_of w' = Some r) in Hr. rewrite Hr in Hdone. cbn in Hdone. congruence. }
  destruct (served_request claim subscriber True False request pl Hpl) as (q & -> & ->).
  destruct (engine_asked claim subscriber True False _ _ _ Hg) as (st & Hst & Hgst).
  pose proof (engine_texts claim subscriber True False _ _ _ _ _ Hg Hd) as Hv. subst g.
  destruct (delivers_run (JobView0 := job_view claim subscriber True False (Some q)) _ _ _ I Hd) as [Hrun Hes].
  rewrite InferenceServerThms.seen_all in Hrun. injection Hrun as Htexts Hend.
  exists q, pre, st. split; [done|]. split; [exact Hst|].
  split; [by apply InferenceServerThms.no_error_complete|].
  destruct Hpre as [[Hpre Hpv] Hshape]. split.
  { split; [exact Hpre|]. destruct Hshape as [->|[Hrel|Hshape]]; [by left|by destruct Hrel|by right]. }
  assert (Hfin : fin = [completed_event]).
  { destruct err; cbn in Hp; [by destruct Hp|exact Hp]. }
  unfold text_events. rewrite Htexts, <- Hes, <- Hfin. split; [exact Hobs|].
  assert (Hall : Forall (jv_valid (JobView := job_view claim subscriber True False (Some q))) (pre ++ es ++ fin)).
  { apply Forall_app; split; [exact Hpv|]. apply Forall_app; split; [exact Hv|].
    rewrite Hfin. constructor; [apply own_events_valid|constructor]. }
  split; intros Hu; (eapply Forall_impl; [exact Hall|]); intros e [H1 H2]; auto.
Qed.

(** What the subscriber has got of such a job, and what it will get. *)
Lemma subscriber_gets request m w r :
  attempts_bounded m -> job_inv claim subscriber True False request w ->
  job_row_of w = Some r -> open_row r -> engine_utf8 (E := E) ->
  StreamThms.empty_slot job (sys_redis (app_sys w)) ->
  subscriber (app_peers w) = (Some 0%Z, []) ->
  let w' := (app_process_claimed claim w).2 in
  let redis' := sys_redis (app_sys w') in
  (StreamThms.clock redis' < StreamThms.clock (sys_redis (app_sys w)) + 1800 * 10 ^ 6)%Z ->
  j_status <$> job_row_of w' = Some "completed" ->
  exists q pre st, request = Some q /\ asked (E := E) (generation_input q) st
    /\ InferenceServerThms.complete st = true /\ ends_with_restart pre
    /\ let es := text_events pre (InferenceServerThms.texts (InferenceServer.st_events st)) in
       let '(last, got) := subscriber (app_peers w') in
       (engine_no_CR (E := E) -> Forall SseThms.readable es) /\
       got `prefix_of` es
       /\ (last = None -> got = es)
       /\ forall id n, last = Some id -> (length es <= 100 * n)%nat ->
          let x := Stream.subscribe_loop StreamThms.sub_emit n job id (redis', got) in
          x.1 = None /\ x.2.2 = es.
Proof.
  intros Hb Hw Hrow Hopen Hutf Hempty Hsub. cbv zeta. intros Hclock Hdone.
  destruct (completed_events request m w r Hb Hw Hrow Hopen Hdone)
    as (q & pre & st & Hq & Hask & Hcomp & Hpre & Htrace & Hv & Hr). specialize (Hv Hutf).
  exists q, pre, st. split; [exact Hq|]. split; [exact Hask|]. split; [exact Hcomp|].
  split; [exact Hpre|]. set (texts := InferenceServerThms.texts _) in *. clearbody texts.
  unfold streamed, reaches, stream_of in Htrace. cbn [fst snd] in Htrace. rewrite Hsub in Htrace.
  pose proof (StreamThms.inv_delivered _ _ _ _ Hv
    (StreamThms.inv_trace _ _ _ _ _ Htrace Hv Hclock (StreamThms.inv_init _ _ Hempty)))
    as (H1 & H2 & H3).
  rewrite upto_text_events in * by apply Hpre. cbn [StreamThms.ss_got StreamThms.ss_last] in *.
  destruct (subscriber (app_peers (app_process_claimed claim w).2)) as [last got]. cbn [fst snd] in *.
  split; [exact Hr|]. split; [exact H1|]. split; [exact H2|]. intros id n Hl Hn. apply H3; [exact Hl| |exact Hn].
  unfold text_events. rewrite !existsb_app. cbn. by rewrite !orb_true_r.
Qed.

(** C4: the text that is generated is the text that is read.  A worker
    processes a claimed job in the program composed of all modules, while a
    subscriber reads the job's stream at its own pace, from the beginning and
    at any moments in between, and the others do what they want with other
    keys and rows.  Conditions: the job's row is still in state created, so
    that this is not a second delivery of a job that ended, and nothing has
    been published on its stream yet; no request to Redis is lost and the
    stream does not expire (half an hour); the inference server sends UTF-8,
    which the encoding of chunks does not alter.  Requests to PostgreSQL may be
    lost.  If the job ends up recorded as completed, then the inference server
    answered the stored prompt with a complete stream, and what the subscriber
    has got is a prefix of, and after enough further reads exactly: the events
    of the attempts before, which end with the news of a restart, the texts of
    that stream, in order, each once, and the event that says that the job is
    completed. *)
Theorem generated_text_is_read request m w r :
  attempts_bounded m -> job_inv claim subscriber True False request w ->
  job_row_of w = Some r -> open_row r -> engine_utf8 (E := E) ->
  StreamThms.empty_slot job (sys_redis (app_sys w)) ->
  subscriber (app_peers w) = (Some 0%Z, []) ->
  let w' := (app_process_claimed claim w).2 in
  let redis' := sys_redis (app_sys w') in
  (StreamThms.clock redis' < StreamThms.clock (sys_redis (app_sys w)) + 1800 * 10 ^ 6)%Z ->
  j_status <$> job_row_of w' = Some "completed" ->
  exists q pre st, request = Some q /\ asked (E := E) (generation_input q) st
    /\ InferenceServerThms.complete st = true /\ ends_with_restart pre
    /\ let es := text_events pre (InferenceServerThms.texts (InferenceServer.st_events st)) in
       let '(last, got) := subscriber (app_peers w') in
       got `prefix_of` es
       /\ (last = None -> got = es)
       /\ forall id n, last = Some id -> (length es <= 100 * n)%nat ->
          let x := Stream.subscribe_loop StreamThms.sub_emit n job id (redis', got) in
          x.1 = None /\ x.2.2 = es.
Proof.
  intros Hb Hw Hrow Hopen Hutf Hempty Hsub. cbv zeta. intros Hclock Hdone.
  destruct (subscriber_gets request m w r Hb Hw Hrow Hopen Hutf Hempty Hsub Hclock Hdone)
    as (q & pre & st & Hq & Hask & Hcomp & Hpre & Hgot).
  exists q, pre, st. repeat (split; [assumption|]). cbv zeta in Hgot |- *.
  destruct (subscriber (app_peers (app_process_claimed claim w).2)) as [last got].
  apply Hgot.
Qed.
End outcome.

(** ** Every composed program *)

Lemma build_tiers_bounded cfg m m' :
  Job.build_tiers cfg m = Ok m' -> map_Forall (fun _ p => 0 <= Job.MaxAttempts p <= 255)%Z m ->
  map_Forall (fun _ p => 0 <= Job.MaxAttempts p <= 255)%Z m'.
Proof.
  intros Hb Hm. pose proof (JobThms.build_tiers_spec cfg m) as Hs. rewrite Hb in Hs.
  destruct Hs as [Hall ->]. clear Hb. revert m Hm.
  induction Hall as [|[name c] cfg Hc _ IH]; intros m Hm; [done|]. apply IH.
  apply map_Forall_insert_2; [|done]. destruct Hc as (_ & Hc & _). cbn in *. lia.
Qed.

(** The settings of a composed program bound the attempts, when the default of
    the workers is in range: the tiers are checked by the job module, and the
    workers have their publisher. *)
Lemma composed_attempts {W} valid_name parse_uri wstart wstop rstart rstop cfg registry :
  App.composeModules (W := W) valid_name parse_uri wstart wstop rstart rstop cfg = Ok registry ->
  (0 <= Worker.DefaultMaxAttempts (App.WorkerCfg cfg) <= 255)%Z ->
  exists m, modules_of cfg = Ok m /\ attempts_bounded (modules := m) 255.
Proof.
  intros Hc Hd. destruct (composed_modules _ _ _ _ _ _ _ _ Hc) as (m & Hm & _).
  exists m. split; [exact Hm|]. revert Hm. unfold modules_of.
  destruct (Job.NewJobModule _ _ _ _) as [tiers|e] eqn:Ej; [|done].
  destruct (Scheduler.NewSchedulerModule _ _ _ _); [|done].
  destruct (Recovery.NewRecoveryModule _ _ _ _ _ _ _ _ _ _ _); [|done].
  destruct (Worker.NewWorkerModule _ _ _ _ _ _ _ _ _) as [pool|e] eqn:Ew; [|done].
  intros [= <-]. unfold attempts_bounded, tiers_bounded. cbn [md_pool md_tiers].
  unfold Worker.NewWorkerModule, Worker.NewWorkerPool in Ew. cbn [negb] in Ew.
  repeat (case_match; try discriminate). injection Ew as <-.
  cbn [Worker.streamPublisher Worker.defaultMaxAttempts].
  split; [done|]. split; [done|]. split; [lia|].
  unfold Job.NewJobModule, Job.BuildJobPolicyConfig in Ej. cbn [negb] in Ej.
  destruct (map_to_list _) as [|kv l]; [done|].
  eapply build_tiers_bounded; [exact Ej|]. apply map_Forall_empty.
Qed.

(** ** At a concrete program *)

Lemma demo_attempts : attempts_bounded 3.
Proof.
  split; [done|]. split; [cbn; lia|]. split; [lia|].
  unfold tiers_bounded. apply map_Forall_singleton. cbn. lia.
Qed.

(** The request that says that the job is completed is refused, and so no
    terminal event is on the stream: but the job is recorded as completed. *)
Lemma stream_agrees_witness :
  job_row_of claim lossy = Some row /\ exists es r' status e n,
    streamed claim (fun p : peers => p) es lossy (app_process_claimed claim lossy).2
    /\ job_row_of claim (app_process_claimed claim lossy).2 = Some r'
    /\ r' = set_status status n row /\ terminal_event status = Some e
    /\ (terminal_events es = [e] \/ terminal_events es = [] /\ ~ False).
Proof.
  assert (Hrow : job_row_of claim lossy = Some row) by (vm_compute; done).
  split; [exact Hrow|].
  destruct (stream_agrees claim (fun p : peers => p) False True (Some request) 3 lossy row)
    as (es & r' & Hs & Hr & _ & [(st & e & n & He & _ & Hor & Ht)|(_ & _ & e & He & _)]).
  - apply demo_attempts.
  - apply with_others_inv; [apply audience_bystanders|done|done].
  - exact Hrow.
  - vm_compute. done.
  - exists es, r', st, e, n. split; [exact Hs|]. split; [exact Hr|].
    destruct Hor as [Hor|[_ Hn]]; [|by destruct Hn]. by repeat (split; [assumption|]).
  - assert (H0 : (app_process_claimed claim lossy).1 = None) by (vm_compute; done). congruence.
Defined.

(** The event without the record: when the request to PostgreSQL that records
    the completion is refused, the stream is still closed as completed, the
    worker answers an error and the row stays created.  The completion marker
    makes up for it: the next reconciliation records the completion, with the
    retry count of the row instead of the worker's. *)
Example completed_event_unrecorded :
  let p := app_process_claimed claim unrecorded in
  let w' := (Recovery.ReconcileCompleted p.2).2 in
  p.1 <> None /\ job_row_of claim p.2 = Some row
  /\ Stream.ev_Type <$> (app_peers p.2).2 = ["chunk"; "retrying"; "chunk"; "chunk"; "completed"]
  /\ job_row_of claim w' = Some (set_status "completed" 1 row)
  /\ job_row_of claim (app_process_claimed claim working).2 = Some (set_status "completed" 2 row).
Proof. vm_compute. done. Qed.

(** The subscriber has got everything, and the stream is over for it. *)
Lemma generated_text_is_read_witness :
  exists pre st, asked (E := process) (generation_input request) st
    /\ (app_peers (app_process_claimed claim working).2).2
         = text_events pre (InferenceServerThms.texts (InferenceServer.st_events st)).
Proof.
  destruct (generated_text_is_read claim (fun p : peers => p) (Some request) 3 working row)
    as (q & pre & st & Hq & Hask & _ & _ & Hgot).
  - apply demo_attempts.
  - by apply with_others_inv; [apply audience_bystanders| |].
  - vm_compute. done.
  - vm_compute. done.
  - apply demo_utf8.
  - vm_compute. done.
  - vm_compute. done.
  - vm_compute. done.
  - vm_compute. done.
  - exists pre, st. injection Hq as <-. split; [exact Hask|].
    destruct (app_peers _) as [last got] eqn:Ep. destruct Hgot as (_ & Hgot & _).
    apply Hgot. change last with (last, got).1. rewrite <- Ep. vm_compute. done.
Defined.
