(* ===== verification/Submission.v ===== *)
(** * Where a submitted request is

    The composed program again, from the side of POST /request: when [Submit]
    answers a job id, the job is in PostgreSQL with its request, and in the
    queue of its user in Redis. *)

From S2P Require Import Prelude GoErr Redis Env Postgres System Wiring WiringThms WiringDemo.
From S2P Require Import Http HttpThms Transport Server.
From S2P Require Scheduler Admission Job JobThms Idempotency Inference InferenceThms User.
From S2P Require InferenceServer Auth TransportThms.
From stdpp Require Import base gmap list strings.
From Stdlib Require Import ZArith Lia Ascii.

Section submission.
Context {R D E P : Type} `{!Redis R, !RedisDoc R, !Postgres D, !PostgresDoc D, !Process E}.
Context {gofmt : GoFmt} {luafloat : Admission.LuaFloat} {modules : Modules}.
#[local] Abbreviation W := (world R D E P).
Implicit Types w : W.

(** The job [id] of the user [u] is stored with its request. *)
Definition stored (id u : string) (q : request_row) (d : pgdata) : Prop :=
  (exists row, pg_jobs d !! id = Some row /\ j_user row = u) /\ pg_requests d !! id = Some q.

(** The others delete no job and no request. *)
Definition durable (f : action R D P) : Prop := forall r d p id u q,
  stored id u q (pg_view d) ->
  let '(_, d', _) := f (r, d, p) in stored id u q (pg_view d').

Definition orderly w : Prop := Forall durable (app_next w).
Definition lasting id u q w : Prop := stored id u q (dview (app_sys w)) /\ orderly w.

(** ** What every program keeps *)

#[local] Instance orderly_interfere : Preserves orderly (interfere : M W unit).
Proof.
  intros w Hw. unfold interfere, modify_world, orderly in *. cbn [snd].
  destruct (app_next w) as [|f rest] eqn:En; [by rewrite En|].
  destruct (f _) as [[r d] p]. cbn. by apply Forall_cons in Hw as [_ Hw].
Qed.

#[local] Instance lasting_interfere id u q : Preserves (lasting id u q) (interfere : M W unit).
Proof.
  intros w [Hs Hw]. split; [|by apply orderly_interfere].
  unfold interfere, modify_world, orderly in *. cbn [snd].
  destruct (app_next w) as [|f rest]; [done|]. apply Forall_cons in Hw as [Hf _].
  specialize (Hf (sys_redis (app_sys w)) (pw_db (sys_pg (app_sys w))) (app_peers w) id u q Hs).
  by destruct (f _) as [[r d] p].
Qed.

#[local] Instance orderly_sys {A} (m : M (system R D) A) : Preserves orderly (on_sys m : M W A).
Proof. intros w Hw. unfold on_sys. by destruct (m (app_sys w)). Qed.

#[local] Instance orderly_proc {A} (m : M E A) : Preserves orderly (on_proc m : M W A).
Proof. intros w Hw. unfold on_proc. by destruct (m (app_proc w)). Qed.

#[local] Instance lasting_proc id u q {A} (m : M E A) :
  Preserves (lasting id u q) (on_proc m : M W A).
Proof. intros w Hw. unfold on_proc. by destruct (m (app_proc w)). Qed.

(** A request to Redis leaves the tables alone. *)
Lemma sys_script_pg {A} (s : script A) (x : system R D) : sys_pg (sys_script s x).2 = sys_pg x.
Proof.
  unfold sys_script. destruct (run_script s (sys_redis x)) as [a r].
  by destruct (sys_rfaults x) as [|[]].
Qed.

#[local] Instance orderly_redis {A} (s : script A) :
  Preserves orderly (rc_run s : M W (res goerr A)).
Proof. cbn [rc_run app_redis]. apply _. Qed.

#[local] Instance lasting_redis id u q {A} (s : script A) :
  Preserves (lasting id u q) (rc_run s : M W (res goerr A)).
Proof.
  cbn [rc_run app_redis]. apply Preserves_bind; [apply _|]. intros _ w [Hs Hw].
  split; [|by apply orderly_sys]. unfold on_sys.
  pose proof (sys_script_pg s (app_sys w)) as Hp.
  change (@rc_run (system R D) system_redis A s) with (sys_script (D := D) s).
  destruct (sys_script s (app_sys w)) as [a x]. cbn in *. unfold dview. by rewrite Hp.
Qed.

#[local] Instance orderly_sql tx {A} (c : sql A) :
  Preserves orderly (pg_run tx c : M W (res goerr A)).
Proof. cbn [pg_run app_pg]. apply _. Qed.

Ltac kept :=
  repeat lazymatch goal with
    | |- Preserves _ (rc_run _) => apply _
    | |- Preserves _ (pg_run _ _) => apply _
    | |- Preserves _ (mbind _ _) => apply Preserves_bind; [|intros ?]
    | |- Preserves _ (mret _) => apply _
    | |- Preserves _ skip => apply _
    | |- Preserves _ (when _ _) => apply Preserves_when
    | |- Preserves _ (on_proc _) => apply _
    | |- Preserves _ time_Now => cbn [time_Now app_clock]
    | |- Preserves _ (match _ with _ => _ end) => case_match
    end.

#[local] Instance orderly_tier u : Preserves orderly (User.us_Tier u : M W (res goerr string)).
Proof.
  cbn [User.us_Tier User.NewUserService]. unfold User.UserUseCase_Tier.
  cbn [User.tc_Get User.tc_Set User.Cacher User.ur_FindByID User.pg_UserRepository].
  unfold User.cache_Get, User.cache_Set, User.FindByID. kept.
Qed.

#[local] Instance orderly_claim u h ttl :
  Preserves orderly (Inference.port_ClaimOrGet u h ttl : M W _).
Proof.
  cbn [Inference.port_ClaimOrGet wire_IdempotencyStore Inference.redis_IdempotencyStore].
  unfold Idempotency.ClaimOrGet, Idempotency.now_rfc3339, rc_Result. kept.
Qed.

#[local] Instance orderly_coalesce u h ttl :
  Preserves orderly (Inference.port_TryCoalesce u h ttl : M W _).
Proof.
  cbn [Inference.port_TryCoalesce wire_Coalescer Inference.redis_Coalescer].
  unfold Idempotency.TryCoalesce, Idempotency.now_rfc3339, rc_Result. kept.
Qed.

#[local] Instance orderly_admit task : Preserves orderly (Inference.port_Admit task : M W _).
Proof.
  cbn [Inference.port_Admit Inference.adapted_RequestAdmitter].
  unfold Inference.RequestAdmitterAdapter_Admit. cbn [Inference.svc_Admit wire_Admitter].
  unfold Admission.Admit, Admission.admit_body, Admission.reject, Admission.RateLimitPolicy_Evaluate.
  cbn [Admission.GetUserPolicy Admission.UserPolicyAdapter Admission.UserService_Tier
    User.user_tier_service Admission.Limiter_Allow wire_Limiter
    Admission.RequestRejected Admission.RequestFinished app_admission_metrics].
  unfold Admission.Allow, rc_Int64, rc_Result. kept; apply _.
Qed.

(** ** Creating the job *)

(** A program over the connection to PostgreSQL, in the world. *)
Definition in_pg {A} (m : M (pgworld D) A) : M W A := on_sys (on_pg m).

Lemma in_pg_ret {A} (a : A) w : in_pg (mret a) w = (mret a : M W A) w.
Proof. by destruct w as [[] ? ? ?]. Qed.

Lemma in_pg_bind {A B} (m : M (pgworld D) A) (k : A -> M (pgworld D) B) w :
  in_pg (x ← m; k x) w = (x ← in_pg m; in_pg (k x) : M W B) w.
Proof.
  unfold in_pg, on_sys, on_pg. rewrite bind_unfold. cbn. rewrite bind_unfold.
  by destruct (m _).
Qed.

Lemma bind_ext {A B} (m m' : M W A) (k k' : A -> M W B) w :
  m w = m' w -> (forall a w, k a w = k' a w) -> (x ← m; k x) w = (x ← m'; k' x) w.
Proof. intros Hm Hk. rewrite !bind_unfold, Hm. apply Hk. Qed.

Lemma sql_in_pg {A} (c : sql A) w :
  (pg_run true c : M W (res goerr A)) w = in_pg (pg_run true c) w.
Proof. reflexivity. Qed.

(** What a unit of work does in its transaction. *)
Definition finish {V : Type} `{!PgClient V} (fn : M V (res goerr string))
  : M V (res goerr string) :=
  r ← (result ← fn;
       match result with
       | Err err => mret (Err err)
       | Ok result =>
           c ← pg_Commit;
           mret match c with
                | Some err =>
                    if errors_Is (Some err) ErrTxCommitRollback
                    then Err (errorf_w "transaction already rolled back: " (Some err))
                    else Err (errorf_w "commit transaction: " (Some err))
                | None => Ok result
                end
       end);
  _ ← pg_Rollback;
  mret r.

Lemma execute_finish {V : Type} `{!PgClient V} (fn : M V (res goerr string)) :
  Job.Execute fn = (b ← pg_Begin;
    match b with
    | Some err => mret (Err (errorf_w "start transaction: " (Some err)))
    | None => finish fn
    end).
Proof. reflexivity. Qed.

Lemma finish_in_pg (fn : M W (res goerr string)) (fnP : M (pgworld D) (res goerr string)) w :
  (forall w, fn w = in_pg fnP w) -> finish fn w = in_pg (finish fnP) w.
Proof.
  intros Hfn. unfold finish. rewrite in_pg_bind.
  apply bind_ext; [|intros a w2; rewrite in_pg_bind; apply bind_ext; [done|];
    intros ? ?; by rewrite in_pg_ret].
  rewrite in_pg_bind. apply bind_ext; [apply Hfn|]. intros [a|e] w2; [|by rewrite in_pg_ret].
  rewrite in_pg_bind. apply bind_ext; [done|]. intros c w3. by rewrite in_pg_ret.
Qed.

(** It depends only on what its function does. *)
Lemma finish_ext {V : Type} `{!PgClient V} (fn fn' : M V (res goerr string)) (v v' : V) :
  fn v = fn' v' -> finish fn v = finish fn' v'.
Proof. intros H. unfold finish. by rewrite !bind_unfold, H. Qed.

Lemma begin_in_pg w : (pg_Begin : M W (option goerr)) w = in_pg pg_Begin (interfere w).2.
Proof. cbn [pg_Begin app_pg]. by rewrite bind_unfold. Qed.

(** A unit of work in the world is one over the connection, after what the
    others do. *)
Lemma execute_in_pg (fn : M W (res goerr string)) (fnP : M (pgworld D) (res goerr string)) w :
  (forall w, fn w = in_pg fnP w) ->
  Job.Execute fn w = in_pg (Job.Execute fnP) (interfere w).2.
Proof.
  intros Hfn. rewrite !execute_finish, in_pg_bind, !bind_unfold, begin_in_pg.
  destruct (in_pg pg_Begin (interfere w).2) as [[e|] w1]; cbn [fst snd]; [by rewrite in_pg_ret|].
  by apply finish_in_pg.
Qed.

(** The same when the function begins with a fresh identifier. *)
Lemma execute_with_uuid (k : string -> M W (res goerr string))
    (kP : string -> M (pgworld D) (res goerr string)) w :
  (forall id w, k id w = in_pg (kP id) w) ->
  exists id, let p := Job.Execute (id ← Job.uuid_New; k id) w in
    let q := Job.Execute (kP id) (sys_pg (app_sys (interfere w).2)) in
    p.1 = q.1 /\ sys_pg (app_sys p.2) = q.2.
Proof.
  intros Hk. set (w1 := (interfere w).2). set (wb := in_pg pg_Begin w1).
  exists (Job.uuid_New (app_proc wb.2)).1. cbv zeta.
  rewrite !execute_finish, !bind_unfold, begin_in_pg. fold w1 wb.
  assert (Hb : pg_Begin (sys_pg (app_sys w1)) = (wb.1, sys_pg (app_sys wb.2))).
  { unfold wb, in_pg, on_sys, on_pg. by destruct (pg_Begin _). }
  rewrite Hb. cbn [fst snd]. destruct wb.1 as [e|]; [done|].
  set (id := (Job.uuid_New (app_proc wb.2)).1).
  assert (He : (i ← Job.uuid_New; k i) wb.2
    = k id (on_proc Job.uuid_New wb.2 : string * W).2).
  { rewrite bind_unfold. unfold id. cbn [Job.uuid_New app_uuid]. unfold on_proc.
    by destruct (Job.uuid_New (app_proc wb.2)). }
  rewrite (finish_ext _ (k id) _ _ He), (finish_in_pg _ (kP id)) by apply Hk.
  unfold in_pg, on_sys, on_pg, on_proc. destruct (Job.uuid_New (app_proc wb.2)). cbn [snd app_sys].
  by destruct (finish (kP id) _).
Qed.

Lemma in_pg_view {A} (m : M (pgworld D) A) w :
  (in_pg m w).1 = (m (sys_pg (app_sys w))).1
  /\ dview (app_sys (in_pg m w).2) = pg_view (pw_db (m (sys_pg (app_sys w))).2)
  /\ (orderly w -> orderly (in_pg m w).2).
Proof. unfold in_pg, on_sys, on_pg. by destruct (m _). Qed.

(** The two inserts of [Create]. *)
Lemma inserts_in_pg (jb : Job.Job) (rq : Job.JobPayload) id w :
  let body {V} `{!Job.JobRepository V} : M V (res goerr string) :=
    (e ← Job.jr_Save true jb;
     match e with
     | Some err => mret (Err err)
     | None => e ← Job.jr_SaveRequest true rq;
               mret match e with Some err => Err err | None => Ok id end
     end) in
  (body : M W _) w = in_pg body w.
Proof.
  cbv zeta. cbn [Job.jr_Save Job.jr_SaveRequest Job.pg_JobRepository].
  unfold Job.Save, Job.SaveRequest.
  rewrite in_pg_bind. apply bind_ext.
  { rewrite in_pg_bind. apply bind_ext; [apply sql_in_pg|]. intros a w1. by rewrite in_pg_ret. }
  intros [e|] w1; [by rewrite in_pg_ret|]. rewrite in_pg_bind. apply bind_ext.
  { rewrite in_pg_bind. apply bind_ext; [apply sql_in_pg|]. intros a w2. by rewrite in_pg_ret. }
  intros a w2. by rewrite in_pg_ret.
Qed.

Lemma create_lasting (req : Job.CreateJobRequest) w id :
  orderly w -> (Job.Create md_tiers req w).1 = Ok id ->
  lasting id (Job.cj_UserID req)
    (MkRequestRow (Job.cj_Model req) (Job.cj_Prompt req) (Job.cj_MaxOutputTokens req))
    (Job.Create md_tiers req w).2.
Proof.
  intros Hw. unfold Job.Create. rewrite bind_unfold.
  assert (H0 : orderly (Job.GetUserPolicy (Job.cj_UserID req) w).2).
  { cbn [Job.GetUserPolicy User.job_UserPolicyAdapter].
    exact (Preserves_bind _ _ _ (orderly_tier _) _ w Hw). }
  destruct (Job.GetUserPolicy _ w) as [[pol|e] w0]; cbn [fst snd] in *; [|done].
  destruct (md_tiers !! Job.Tier pol) as [p|]; [|done].
  rewrite bind_unfold. pose proof (orderly_proc Job.uuid_New w0 H0) as H1.
  change (Job.uuid_New (W := W)) with (on_proc (Job.uuid_New (W := E)) : M W string).
  destruct (on_proc Job.uuid_New w0) as [id' w1]. cbn [fst snd] in *.
  rewrite bind_unfold, ret_unfold. cbn [fst snd].
  set (jb := Job.MkJob _ _ _ _ _ _). set (rq := Job.MkJobPayload _ _ _ _).
  erewrite execute_in_pg; [|intros w2; apply (inserts_in_pg jb rq id')].
  pose proof (orderly_interfere w1 H1) as H2. set (w2 := (interfere w1).2) in *. clearbody w2.
  set (body := mbind _ (Job.jr_Save true jb)).
  destruct (in_pg_view (Job.Execute body) w2) as (-> & Hv & Ho).
  pose proof (JobThms.execute_atomic body
    (fun a d d' => a = id' /\ JobThms.created_rows req id' d d') (sys_pg (app_sys w2))) as He.
  cbv zeta in He. lapply He; [clear He; intros He|].
  2:{ intros x Hb1 Hb2. destruct (JobThms.inserts_spec req id' (Job.RetryAttempt jb) x) as [Hdb Hok].
      split; [exact Hdb|]. intros b Hb. destruct (Hok _ b Hb2 Hb) as [-> (t' & Htx & Hrows)].
      eauto. }
  destruct (Job.Execute body (sys_pg (app_sys w2))) as [[a|e] x]; cbn [fst snd] in *; [|done].
  intros [= <-]. destruct He as (-> & _ & _ & Hj & Hq & _). split; [|by apply Ho].
  rewrite Hv. unfold stored. rewrite Hj, Hq, !lookup_insert_eq. split; [by eexists|done].
Qed.

(** ** The queue *)

(** The script answers that the job was accepted only when it is in the list
    of the user. *)
Lemma enqueue_script_lands idem queue active rotation enqueued id ttl maxlen u d x :
  (run_script (Scheduler.Lua.enqueueScript idem queue active rotation enqueued id ttl maxlen u) d).1
    = Ok x ->
  is_ok (Scheduler.decode_enqueue x) = true ->
  id ∈ klist (run_script
    (Scheduler.Lua.enqueueScript idem queue active rotation enqueued id ttl maxlen u) d).2 queue.
Proof.
  unfold Scheduler.Lua.enqueueScript. lua1.
  destruct (_ <=? _)%Z; [by intros [= <-]|]. lua1.
  destruct (ttl <=? 0)%Z; [done|]. destruct (key_exists d idem); [by intros [= <-]|].
  cbn [negb]. lua1. lua1. lua1.
  set (d1 := put_list _ _ _). cbn [foldl fst snd].
  assert (Hin : id ∈ klist d1 queue) by (unfold d1; rewrite klist_put_eq; by left).
  clearbody d1. destruct (_ =? 0)%Z; [|by intros [= <-]].
  set (d2 := put_hash _ _ _ d1). assert (H2 : id ∈ klist d2 queue) by exact Hin. clearbody d2.
  assert (Hinc : klist (doc_exec (INCR rotation) d2).2 queue = klist d2 queue).
  { cbn. by repeat case_match. }
  rewrite run_call. destruct (doc_exec (INCR rotation) d2) as [[n|e] d3]; [|done].
  cbn [snd] in Hinc. rewrite <- Hinc in H2. lua1. intros _ _. cbn. by case_match.
Qed.

(** A request that is answered was executed. *)
Lemma redis_answered {A} (s : script A) w a :
  (rc_run s w).1 = Ok a ->
  exists d, run_script s d = (Ok a, rview (app_sys (rc_run s w).2)).
Proof.
  cbn [rc_run app_redis]. rewrite bind_unfold. unfold on_sys.
  set (w0 := (interfere w).2). change (@rc_run (system R D) system_redis) with (@sys_script R D _).
  unfold sys_script. pose proof (run_script_doc s (sys_redis (app_sys w0))) as Hdoc.
  destruct (run_script s (sys_redis (app_sys w0))) as [x r]. cbn [fst snd] in Hdoc.
  unfold rview. intros Ha. exists (redis_view (sys_redis (app_sys w0))). rewrite Hdoc. revert Ha.
  destruct (sys_rfaults (app_sys w0)) as [|[]]; cbn; try done; destruct x; try done; by intros [= ->].
Qed.

Lemma push_lands (entry : Scheduler.QueueEntry) w x :
  (Scheduler.PushLeft md_queue entry w).1 = Ok x ->
  Scheduler.qe_JobID entry ∈ klist (rview (app_sys (Scheduler.PushLeft md_queue entry w).2))
    (Scheduler.buildQueuePerUserKey (Scheduler.qe_UserID entry)).
Proof.
  unfold Scheduler.PushLeft, rc_Result. set (s := Scheduler.Lua.enqueueScript _ _ _ _ _ _ _ _ _).
  rewrite !bind_unfold, !ret_unfold. cbn [fst snd].
  destruct ((rc_run s w).1) as [v|e] eqn:Ev; [|done].
  destruct (redis_answered s w v Ev) as [d Hd].
  pose proof (enqueue_script_lands
    (Scheduler.buildJobIdempotencyKey (Scheduler.qe_UserID entry) (Scheduler.qe_JobID entry)
       (Scheduler.qe_CurrentAttempt entry))
    (Scheduler.buildQueuePerUserKey (Scheduler.qe_UserID entry))
    Scheduler.activeUsersKey Scheduler.rotationSequenceKey Scheduler.queueEnqueuedAtKey
    (Scheduler.qe_JobID entry)
    (duration_seconds (Scheduler.IdempotencyKeyTTL (Scheduler.repo_config md_queue)))
    (Scheduler.QueueCapacity (Scheduler.repo_config md_queue)) (Scheduler.qe_UserID entry) d v) as Hl.
  fold s in Hl. rewrite Hd in Hl. specialize (Hl eq_refl).
  destruct v; try done; intros Hx; apply Hl; by rewrite Hx.
Qed.

Lemma enqueue_lands (jb : Idempotency.InferenceJob) w b :
  (Inference.port_TryEnqueue jb w).1 = Ok b ->
  Idempotency.ij_JobID jb ∈ klist (rview (app_sys (Inference.port_TryEnqueue jb w).2))
    (Scheduler.buildQueuePerUserKey (Idempotency.ij_UserID jb)).
Proof.
  cbn [Inference.port_TryEnqueue Inference.adapted_Enqueuer].
  unfold Inference.JobEnqueuerAdapter_TryEnqueue. cbn [Inference.svc_Enqueue wire_PublicQueueService].
  unfold Scheduler.Enqueue. cbn [Scheduler.jq_PushLeft wire_JobQueue Scheduler.redis_JobQueue].
  rewrite !bind_unfold, !ret_unfold. cbn [fst snd].
  set (entry := Scheduler.MkQueueEntry _ _ _ _). set (w1 := (time_Now w).2).
  pose proof (push_lands entry w1) as Hl.
  destruct (Scheduler.PushLeft md_queue entry w1) as [[x|e] w2]; cbn [fst snd] in *.
  - intros _. exact (Hl x eq_refl).
  - destruct (EnsureAppError_some e (Scheduler.enqueue_code e) Scheduler.ErrTypeScheduler)
      as (e' & -> & _). by case_match.
Qed.

(** ** The whole submission *)

#[local] Instance lasting_set_job id u q u' h j :
  Preserves (lasting id u q) (Inference.port_SetJobID u' h j : M W _).
Proof.
  cbn [Inference.port_SetJobID wire_IdempotencyStore Inference.redis_IdempotencyStore].
  unfold Idempotency.SetJobID, rc_Int64, rc_Result. kept.
Qed.

#[local] Instance lasting_enqueue id u q jb :
  Preserves (lasting id u q) (Inference.port_TryEnqueue jb : M W _).
Proof.
  cbn [Inference.port_TryEnqueue Inference.adapted_Enqueuer].
  unfold Inference.JobEnqueuerAdapter_TryEnqueue. cbn [Inference.svc_Enqueue wire_PublicQueueService].
  unfold Scheduler.Enqueue. cbn [Scheduler.jq_PushLeft wire_JobQueue Scheduler.redis_JobQueue].
  unfold Scheduler.PushLeft, rc_Result. kept.
Qed.

(** The job of [id] is stored for [u], with its prompt and model, and in the
    queue of [u]. *)
Definition landed (id u prompt model : string) w : Prop :=
  (exists max, stored id u (MkRequestRow model prompt max) (dview (app_sys w)))
  /\ id ∈ klist (rview (app_sys w)) (Scheduler.buildQueuePerUserKey u).

Lemma submit_enqueue_lands jb u hash q w id :
  Idempotency.ij_UserID jb = u -> lasting (Idempotency.ij_JobID jb) u q w ->
  let p := Inference.submit_enqueue (Some Inference.JobAccepted) jb u hash w in
  p.1 = (id, None) -> landed id u (q_prompt q) (q_model q) p.2.
Proof.
  intros Hu Hl. cbv zeta. unfold Inference.submit_enqueue. rewrite bind_unfold.
  change (Inference.ctx_TimeLeft (W := W)) with (on_proc (Inference.ctx_TimeLeft (W := E)) : M W _).
  pose proof (lasting_proc _ _ _ (Inference.ctx_TimeLeft (W := E)) w Hl) as H1.
  destruct (on_proc Inference.ctx_TimeLeft w) as [dl w1]. cbn [fst snd] in *.
  case_match.
  { rewrite bind_unfold, ret_unfold. intros E1. by apply InferenceThms.submit_error_none in E1. }
  rewrite bind_unfold. pose proof (lasting_enqueue _ _ _ jb w1 H1) as H2.
  pose proof (enqueue_lands jb w1) as Hq.
  destruct (Inference.port_TryEnqueue jb w1) as [[b|e] w2]; cbn [fst snd] in *.
  2:{ rewrite bind_unfold, ret_unfold. intros E1. by apply InferenceThms.submit_error_none in E1. }
  specialize (Hq b eq_refl). rewrite bind_unfold, ret_unfold. cbn [fst snd]. intros [= <-].
  assert (Hs : app_sys (on_proc (Inference.JobAccepted (W := E)) w2).2 = app_sys w2).
  { unfold on_proc. by destruct (Inference.JobAccepted (app_proc w2)). }
  split; cbn [Inference.JobAccepted app_inference_metrics]; rewrite Hs.
  - exists (q_max q). destruct H2 as [H2 _]. by destruct q.
  - by rewrite <- Hu.
Qed.

Lemma submit_admitted_lands task u h hash w id :
  Idempotency.ir_UserID task = u -> orderly w -> id <> "" ->
  let p := Inference.submit_admitted (Some Inference.JobAccepted) task u h hash w in
  p.1 = (id, None) -> landed id u (Idempotency.ir_Prompt task) (Idempotency.ir_Model task) p.2.
Proof.
  intros Hu Hw Hid. cbv zeta. unfold Inference.submit_admitted. rewrite bind_unfold.
  pose proof (orderly_admit task w Hw) as H1.
  assert (Hadm : forall a, (Inference.port_Admit task w).1 = Ok a ->
    Idempotency.ir_UserID a = u /\ Idempotency.ir_Prompt a = Idempotency.ir_Prompt task
    /\ Idempotency.ir_Model a = Idempotency.ir_Model task).
  { cbn [Inference.port_Admit Inference.adapted_RequestAdmitter].
    unfold Inference.RequestAdmitterAdapter_Admit. rewrite bind_unfold, ret_unfold. cbn [fst].
    intros a. repeat case_match; try done. by intros [= <-]. }
  destruct (Inference.port_Admit task w) as [[a|e] w1]; cbn [fst snd] in *.
  2:{ rewrite bind_unfold, ret_unfold. intros E1. by apply InferenceThms.cleanup_error in E1. }
  destruct (Hadm a eq_refl) as (Ea1 & Ea2 & Ea3). clear Hadm. rewrite bind_unfold.
  cbn [Inference.port_Create Inference.adapted_JobService]. unfold Inference.JobCreatorAdapter_Create.
  rewrite bind_unfold, ret_unfold. cbn [Inference.svc_Create wire_PublicJobService fst snd].
  set (req := Job.MkCreateJobRequest _ _ _ _).
  pose proof (create_lasting req w1) as Hc.
  destruct (Job.Create md_tiers req w1) as [[j|e] w2]; cbn [fst snd] in *.
  2:{ rewrite bind_unfold, ret_unfold. intros E1. by apply InferenceThms.cleanup_lost in E1 as [_ E1]. }
  specialize (Hc j H1 eq_refl). cbn [Job.cj_UserID Job.cj_Model Job.cj_Prompt req] in Hc.
  rewrite Ea1, Ea2, Ea3 in Hc. rewrite bind_unfold. cbn [Idempotency.ij_JobID].
  pose proof (lasting_set_job _ _ _ u h j w2 Hc) as H3.
  destruct (Inference.port_SetJobID u h j w2) as [[e|] w3]; cbn [fst snd] in *.
  { rewrite !bind_unfold, ret_unfold. intros E1. by apply InferenceThms.cleanup_lost in E1 as [_ E1]. }
  intros E1. pose proof (submit_enqueue_lands (Idempotency.MkInferenceJob j (Idempotency.ir_UserID a) 0)
    u hash _ w3 id Ea1 H3 E1) as H4. exact H4.
Qed.

(** When [Submit] answers a job id without an error, the idempotency key was
    answered REPLAY with that id; or the job is stored and queued.  The empty
    id is the one exception: the lost error of the compensation paths. *)
Lemma submission_lands inp u h w id :
  orderly w -> id <> "" -> (app_Submit inp u h w).1 = (id, None) ->
  let w' := (app_Submit inp u h w).2 in
  (exists r, (Inference.port_ClaimOrGet u h (Idempotency.IdempotencyTTL md_inference) w).1 = Ok r
     /\ Idempotency.id_Action r = Idempotency.ActionReplay /\ id = Idempotency.id_JobID r)
  \/ exists v, Idempotency.ValidateInferenceInput inp = Ok v
       /\ landed id u (Idempotency.ir_Prompt v) (Idempotency.ir_Model v) w'.
Proof.
  intros Hw Hid. cbv zeta. unfold app_Submit, Inference.Submit.
  destruct (Idempotency.ValidateInferenceInput inp) as [v|e].
  2:{ rewrite ret_unfold. intros E1. by apply InferenceThms.submit_error_none in E1. }
  rewrite bind_unfold.
  pose proof (orderly_claim u h (Idempotency.IdempotencyTTL md_inference) w Hw) as H1.
  pose proof (InferenceThms.claim_error (IdempotencyContract :=
    InferenceThms.redis_idempotency_contract md_inference) u h
    (Idempotency.IdempotencyTTL md_inference) w) as Herr.
  change (Inference.redis_IdempotencyStore md_inference) with
    (wire_IdempotencyStore (W := W)) in Herr.
  destruct (Inference.port_ClaimOrGet u h _ w) as [[r|e] w1]; cbn [fst snd] in *.
  2:{ rewrite ret_unfold. intros E1. by apply InferenceThms.submit_error_none in E1. }
  specialize (Herr r eq_refl). destruct (Idempotency.id_Action r) eqn:Ea.
  2,4,5: rewrite ret_unfold; specialize (Herr ltac:(done) ltac:(done));
    destruct (Idempotency.id_Err r); [intros E1; by apply InferenceThms.submit_error_none in E1|done].
  2:{ rewrite ret_unfold. intros [= <-]. left. by exists r. }
  unfold Inference.submit_coalesce. rewrite bind_unfold. set (hash := Inference.port_HashRequest _).
  pose proof (orderly_coalesce u hash (Idempotency.CoalescingTTL md_inference) w1 H1) as H2.
  pose proof (InferenceThms.coalesce_error (CoalescerContract :=
    InferenceThms.redis_coalescer_contract) u hash (Idempotency.CoalescingTTL md_inference) w1) as Hd.
  change Inference.redis_Coalescer with (wire_Coalescer (W := W)) in Hd.
  destruct (Inference.port_TryCoalesce u hash _ w1) as [[d|e] w2]; cbn [fst snd] in *.
  2:{ rewrite ret_unfold. intros E1. by apply InferenceThms.submit_error_none in E1. }
  specialize (Hd d eq_refl). destruct (Idempotency.cd_Action d).
  2,3: rewrite ret_unfold; specialize (Hd ltac:(done)); destruct (Idempotency.cd_Error d);
    [intros E1; by apply InferenceThms.submit_error_none in E1|done].
  intros E1. right. exists v. split; [done|].
  exact (submit_admitted_lands (Idempotency.MkInferenceRequest u (Idempotency.ir_Prompt v)
    (Idempotency.ir_Model v) (Idempotency.ir_MaxOutputTokens v)) u h hash w2 id eq_refl H2 Hid E1).
Qed.
End submission.

(** ** Over HTTP *)

Section http.
Context {R D E P G : Type} `{!Redis R, !RedisDoc R, !Postgres D, !PostgresDoc D, !Process E}.
Context `{!ServerProcess E, !Gin G, !GinDoc G}.
Context {gofmt : GoFmt} {luafloat : Admission.LuaFloat} {modules : Modules}.
Context `{!Auth.Jwt, !AuthSettings}.
#[local] Abbreviation W := (world R D E P).
Implicit Types w : W.

(** What the process itself does leaves the servers and the others alone. *)
Definition outside w : system R D * list (action R D P) := (app_sys w, app_next w).

Lemma outside_proc {A} (m : M E A) w : outside (on_proc m w).2 = outside w.
Proof. unfold on_proc. by destruct (m (app_proc w)). Qed.

Lemma outside_token tok w : outside (inference_ValidateAccessToken tok w).2 = outside w.
Proof.
  unfold inference_ValidateAccessToken, Auth.TokenAdapter_ValidateAccessToken,
    Auth.Authenticator_ValidateAccessToken. rewrite !bind_unfold, ret_unfold.
  cbn [Auth.tm_ValidateAccessToken wire_AuthTokenManager Auth.NewJWTService].
  unfold Auth.Jwt_ValidateAccessToken, Auth.validateToken. rewrite !bind_unfold, !ret_unfold.
  cbn [fst snd]. apply outside_proc.
Qed.

Lemma orderly_outside w w' : outside w' = outside w -> orderly w -> orderly w'.
Proof. unfold orderly. by intros [= _ ->]. Qed.

(** The token, the fields and the key of a request; and what became of it. *)
Definition token_of (s : gin_state) : option string :=
  match GoText.cut " "%char (header s "Authorization") with
  | Some (_, rest) => Some (GoText.TrimSpace rest)
  | None => None
  end.

Definition taken (inp : Idempotency.InferenceInput) (u key id : string) w w' : Prop :=
  (exists r w1, outside w1 = outside w
     /\ (Inference.port_ClaimOrGet u key (Idempotency.IdempotencyTTL md_inference) w1).1 = Ok r
     /\ Idempotency.id_Action r = Idempotency.ActionReplay /\ id = Idempotency.id_JobID r)
  \/ exists v, Idempotency.ValidateInferenceInput inp = Ok v
       /\ landed id u (Idempotency.ir_Prompt v) (Idempotency.ir_Model v) w'.

Lemma route_takes (g : G) w :
  unanswered (gin_view g) ->
  (forall fs, g_bind (gin_view g) ["prompt"; "model"] = Ok fs -> length fs = 2) ->
  orderly w ->
  let s := gin_view g in
  let p := RegisterInferenceRoutes inference_ValidateAccessToken app_Submit (g, w) in
  g_status (gin_view p.2.1) = Some 202%Z ->
  exists token u role prompt model id w1,
    token_of s = Some token /\ outside w1 = outside w
    /\ (inference_ValidateAccessToken token w1).1 = Ok (u, role)
    /\ header s "Idempotency-Key" <> "" /\ g_bind s ["prompt"; "model"] = Ok [prompt; model]
    /\ g_bodies (gin_view p.2.1) = [accepted_response id]
    /\ (id <> "" -> taken (Idempotency.MkInferenceInput prompt model) u
                     (header s "Idempotency-Key") id w p.2.2).
Proof.
  intros Hu Hlen Hw. cbv zeta. intros Hst.
  destruct (TransportThms.route_answers inference_ValidateAccessToken app_Submit g w Hu Hlen)
    as [Hv Ha].
  rewrite Hv. clear Hv. revert Ha. unfold TransportThms.request_outcome, token_of.
  assert (Herr : forall err, answered (TransportThms.accepted (g_host (gin_view g)))
      InferenceCodeRegistry "INFERENCE_FAILED" (gin_view g)
      (gin_view (RegisterInferenceRoutes inference_ValidateAccessToken app_Submit (g, w)).2.1)
      (Err err) -> False).
  { intros err [Hs _]. cbv zeta in Hs. rewrite Hst in Hs.
    pose proof (error_status InferenceCodeRegistry err "INFERENCE_FAILED" eq_refl) as He. revert He Hs.
    generalize (StatusCode (ResolveError (Some err) InferenceCodeRegistry "INFERENCE_FAILED")).
    intros z He [= <-]. lia. }
  destruct (GoText.cut _ _) as [[scheme rest]|]; [|by intros []%Herr].
  destruct (negb _); [by intros []%Herr|]. destruct (str_empty (GoText.TrimSpace rest)); [by intros []%Herr|].
  pose proof (outside_token (GoText.TrimSpace rest) w) as Ho.
  destruct (inference_ValidateAccessToken _ w) as [[[u role]|err] w1] eqn:Et; cbn [fst snd] in *;
    [|by intros []%Herr].
  destruct (str_empty (header (gin_view g) "Idempotency-Key")) eqn:Hk; [by intros []%Herr|].
  apply String.eqb_neq in Hk.
  unfold TransportThms.bound_request. destruct (_ <? _)%Z; [by intros []%Herr|].
  destruct (g_bind (gin_view g) ["prompt"; "model"]) as [fs|err] eqn:Ef; [|by intros []%Herr].
  specialize (Hlen fs eq_refl). destruct fs as [|prompt [|model [|]]]; try discriminate.
  set (inp := Idempotency.MkInferenceInput prompt model). set (key := header _ _) in *.
  pose proof (fun id => submission_lands inp u key w1 id (orderly_outside _ _ Ho Hw)) as Hl.
  destruct (app_Submit inp u key w1) as [[id [err|]] w2]; cbn [fst snd] in *; [by intros []%Herr|].
  intros (_ & Hb & _). exists (GoText.TrimSpace rest), u, role, prompt, model, id, w.
  rewrite Et. repeat (split; [done|]). intros Hid.
  destruct (Hl id Hid eq_refl) as [(r & Hr & Hact & Hj)|Hland]; [left|right; exact Hland].
  by exists r, w1.
Qed.

(** C6: a request that the client sees accepted is not lost.  A client sends
    POST /api/request to the program composed of all modules, through the
    whole stack of middleware; requests to the two servers may be lost, and
    the others do what they want short of deleting jobs.  If the response has
    status 202, it carries a job id, the token in the header was validated for
    a user, the idempotency key was there, and: the key was answered REPLAY
    with that job id; or the job is stored in PostgreSQL for the user of the
    token, together with the prompt and the model of the body, and it is in
    the user's queue in Redis.  (The empty id is the exception: the lost error
    of the compensation paths is answered 202, too.) *)
Theorem accepted_request_lands uuid_ok SetWriteDeadline flusher stream_metrics subscribe recorder
    (g : G) w :
  unanswered (gin_view g) ->
  (forall fs, g_bind (gin_view g) ["prompt"; "model"] = Ok fs -> length fs = 2) ->
  orderly w ->
  let s := gin_view g in
  let p := serve uuid_ok SetWriteDeadline flusher stream_metrics subscribe recorder
             RequestRoute (g, w) in
  g_status (gin_view p.2.1) = Some 202%Z ->
  exists token u role prompt model id w1,
    token_of s = Some token /\ outside w1 = outside w
    /\ (inference_ValidateAccessToken token w1).1 = Ok (u, role)
    /\ header s "Idempotency-Key" <> "" /\ g_bind s ["prompt"; "model"] = Ok [prompt; model]
    /\ g_bodies (gin_view p.2.1) = [accepted_response id]
    /\ (id <> "" -> taken (Idempotency.MkInferenceInput prompt model) u
                     (header s "Idempotency-Key") id w p.2.2).
Proof.
  intros Hu Hlen Hw. cbv zeta. unfold serve. cbn [api_handler].
  set (h := RegisterInferenceRoutes _ _). intros Hst.
  destruct (api_runs outside (route_line RequestRoute).1
    ((fun f x => on_proc (f x)) <$> recorder) Job.uuid_New h g w) as (g1 & w1 & rid & Hg1 & Hw1 & _ & Hv & Hp).
  - intros v. apply outside_proc.
  - intros v. apply outside_proc.
  - intros record x v Hr. destruct recorder; [|done]. injection Hr as <-. apply outside_proc.
  - rewrite Hv in Hst |- *.
    destruct (route_takes g1 w1) as (token & u & role & prompt & model & id & w2 & H1 & H2 & H3 & H4 & H5 & H6 & H7).
    + by rewrite Hg1.
    + by rewrite Hg1.
    + by apply (orderly_outside w).
    + exact Hst.
    + rewrite Hg1 in H1, H4, H5, H7. exists token, u, role, prompt, model, id, w2.
      split; [exact H1|]. split; [by rewrite H2|]. split; [exact H3|]. split; [exact H4|].
      split; [exact H5|]. split; [exact H6|]. intros Hid.
      destruct (H7 Hid) as [(r & w3 & Ho & Hr)|(v & Hvd & Hland)].
      * left. exists r, w3. split; [by rewrite Ho|exact Hr].
      * right. exists v. split; [exact Hvd|]. unfold landed.
        rewrite (f_equal fst Hp : app_sys _ = app_sys _). exact Hland.
Qed.
End http.

(** ** At a concrete program *)

(** While the request is served, somebody queues another job and time passes. *)
Definition busy : demo :=
  with_others
    [runs (call (LPUSH "queue:user:v" "job-0")); waits 5; waits (10 ^ 6)] [] [] idle.

Lemma busy_orderly : orderly busy.
Proof.
  unfold orderly, busy, with_others. cbn [app_next].
  repeat (apply Forall_cons; split; [by intros r d p id u q|]). by apply Forall_nil.
Qed.

#[export] Instance demo_server : ServerProcess process := {|
  sp_rand := {| Auth.rand_Read := fun n => mret (Ok (repeat 0%N n)); Auth.rand_Int := fun _ => mret (Ok 0%Z) |};
  sp_http := {| Auth.http_Do := fun _ _ => mret (Err (errors_New "no route to host")) |};
  sp_ping := {| Health.pg_Ping := mret None |} |}.

(** A library of tokens that knows one token, of the user u. *)
#[export] Instance demo_jwt : Auth.Jwt := {|
  Auth.jwt_SignedString := fun _ _ => Ok "tok";
  Auth.jwt_ParseWithClaims := fun token _ _ _ _ =>
    if String.eqb token "tok"
    then Ok (Auth.MkCustomClaims "u" "user" "queue" "access-token" ["api"] 100 0, true)
    else Err (errors_New "token is malformed") |}.
#[export] Instance demo_auth : AuthSettings := {|
  auth_cfg := Auth.MkAuthConfig (Auth.MkGitHubConfig "id" "secret" "https://queue.example/callback")
    (Auth.MkJwtTokenConfig "secret" "queue" (3600 * second) "api" "access-token")
    (Auth.MkHttpClientConfig second 10 10 second second second 3 second) |}.

(** The client's request: its headers and body. *)
Definition post : gin_state :=
  TransportThms.request [("Authorization", "Bearer tok"); ("Idempotency-Key", "h")] 40
    (Ok ["hello"; "m"]).

Definition answer : gin_state * demo :=
  (serve (fun _ => true) (mret None) true None (fun _ => mret (Ok [])) None RequestRoute
     (post, busy)).2.

Lemma accepted_request_lands_witness :
  g_bodies answer.1 = [accepted_response "job-1"] /\ landed "job-1" "u" "hello" "m" answer.2.
Proof.
  assert (Hb : g_bodies answer.1 = [accepted_response "job-1"]) by (vm_compute; done).
  split; [exact Hb|].
  destruct (accepted_request_lands (fun _ => true) (mret None) true None (fun _ => mret (Ok [])) None
    post busy) as (token & u & role & prompt & model & id & w1 & Ht & _ & Hu & _ & Hf & Hbody & Hl).
  - by split_and!.
  - intros fs E. vm_compute in E. by injection E as <-.
  - exact busy_orderly.
  - by vm_compute.
  - assert (Hid : id = "job-1").
    { change (g_bodies answer.1 = [accepted_response id]) in Hbody. rewrite Hb in Hbody.
      symmetry. eapply TransportThms.response_inj. exact (f_equal (hd GoText.JNull) Hbody). }
    injection Hf as <- <-. injection Ht as <-. vm_compute in Hu. injection Hu as <- _.
    destruct (Hl ltac:(by rewrite Hid)) as [(r & w2 & Ho & Hr & Ha & _)|(v & Hv & Hland)].
    + exfalso. destruct w2 as [sys pr pe nx]. injection Ho as -> ->.
      vm_compute in Hr. injection Hr as <-. discriminate.
    + injection Hv as <-. rewrite Hid in Hland. exact Hland.
Defined.
