(* ===== verification/Client.v ===== *)
(** * What the client of a stream reads

    The composed program once more, from the side of GET /stream/:jobID: the
    text that the inference server generates for a job is what a client of
    the event stream of that job shows.  The theorem puts the worker and its
    subscriber (EndToEnd.v), the handler of the stream and its middleware
    (Server.v) and the rules of event streams (SseThms.v) together. *)

From S2P Require Import Prelude GoErr Redis Env Postgres System Wiring JobOutcome WiringThms WiringDemo.
From S2P Require Import Http HttpThms Server EndToEnd Submission.
From S2P Require Scheduler Admission Job Idempotency Inference Worker Stream StreamThms SseThms.
From S2P Require InferenceServer InferenceServerThms Auth Health.
From stdpp Require Import base gmap list strings.
From Stdlib Require Import ZArith Lia Ascii.

(** ** The channel of a subscription *)

(** What the selects of the handler find when the channel carries [es]: the
    events in order, ticks of the heartbeat anywhere, and in the end the
    closed channel, or at any moment the end of the context. *)
Inductive carries : list Stream.occurrence -> list Stream.StreamEvent -> Prop :=
| carries_closed : carries [Stream.EventsClosed] []
| carries_left es : carries [Stream.ContextDone] es
| carries_beat found es : carries found es -> carries (Stream.HeartbeatTick :: found) es
| carries_event e found es :
    carries found es -> carries (Stream.EventReceived e :: found) (e :: es).

(** The client has stayed. *)
Definition stays (found : list Stream.occurrence) : Prop := Stream.ContextDone ∉ found.

Lemma carries_received found es :
  carries found es ->
  SseThms.received found `prefix_of` StreamThms.upto_terminal es
  /\ (stays found -> SseThms.received found = StreamThms.upto_terminal es).
Proof.
  unfold stays. induction 1 as [|es|found es _ [IH1 IH2]|e found es _ [IH1 IH2]].
  - split; [by apply prefix_nil|done].
  - split; [by apply prefix_nil|]. intros []. by left.
  - split; [exact IH1|]. intros H. apply IH2. intros Hin. apply H. by right.
  - cbn [SseThms.received StreamThms.upto_terminal]. unfold StreamThms.is_terminal.
    destruct (Stream.isTerminalEvent (Stream.ev_Type e)); [done|]. split.
    + by apply prefix_cons.
    + intros H. rewrite IH2; [done|]. intros Hin. apply H. by right.
Qed.

Lemma carries_readable found es :
  carries found es -> Forall SseThms.readable es -> Forall SseThms.readable_occurrence found.
Proof.
  induction 1 as [|es|found es _ IH|e found es _ IH]; intros H; try by repeat constructor.
  - constructor; [done|]. by apply IH.
  - apply Forall_cons in H as [He H]. constructor; [exact He|]. by apply IH.
Qed.

(** ** What a client shows *)

(** The chunks, from the start again when it is told of a new attempt. *)
Definition show (shown : string) (e : Stream.StreamEvent) : string :=
  if String.eqb (Stream.ev_Type e) "chunk" then shown +:+ Stream.ev_Data e
  else if String.eqb (Stream.ev_Type e) "retrying" then "" else shown.
Definition shown (es : list Stream.StreamEvent) : string := foldl show "" es.

Lemma show_chunks texts acc : foldl show acc (chunk <$> texts) = acc +:+ SseThms.text texts.
Proof.
  revert acc. induction texts as [|t texts IH]; intros acc.
  - by rewrite SseThms.str_app_nil.
  - cbn [fmap list_fmap foldl]. change (show acc (chunk t)) with (acc +:+ t).
    rewrite IH, SseThms.str_app_assoc. done.
Qed.

(** The attempts before leave no trace. *)
Lemma shown_text pre texts :
  ends_with_restart pre -> shown (text_events pre texts) = SseThms.text texts.
Proof.
  intros [_ Hpre]. unfold shown, text_events. rewrite !foldl_app.
  assert (H0 : foldl show "" pre = "").
  { destruct Hpre as [->|(es & d & ->)]; [done|]. by rewrite foldl_app. }
  rewrite H0, show_chunks. done.
Qed.

(** ** The handler behind its middleware *)

Section route.
Context {G V : Type} `{!Gin G, !GinDoc G}.
Context (uuid_ok : string -> bool) (SetWriteDeadline : M (G * V) (option goerr)).
Context (metrics : option (Stream.stream_metric -> M V unit)).
Context (jobAcceptedAtReader : option (string -> M V (res goerr Z))).
Context (subscribe : string -> M V (res goerr (list Stream.occurrence))).
Context (ValidateAccessToken : string -> M V (res goerr (string * string))).

(** A request for the stream of [job], with a token that somebody holds, to
    a writer whose write deadline can be cleared and that flushes. *)
Record asks_for (job : string) (s : gin_state) : Prop := {
  asks_token : exists scheme token,
    GoText.cut " "%char (header s "Authorization") = Some (scheme, token)
    /\ GoText.lower scheme = "bearer"
    /\ forall v, exists claims, (ValidateAccessToken token v).1 = Ok claims;
  asks_job : g_params s !! "jobID" = Some job;
  asks_id : str_empty job = false /\ uuid_ok job = true;
  asks_deadline : forall x : G * V, (SetWriteDeadline x).1 = None
    /\ gin_view (SetWriteDeadline x).2.1 = gin_view x.1;
  asks_unanswered : unanswered s;
  asks_open : g_writes s = [] /\ g_stream s = [] }.

(** The response to it. *)
Definition event_stream (es : list Stream.StreamEvent) (s : gin_state) : Prop :=
  g_errors s = [] /\ g_bodies s = [] /\ default 200%Z (g_status s) = 200%Z
  /\ g_out s !! "Content-Type" = Some "text/event-stream"
  /\ SseThms.sse_parse (SseThms.text (g_stream s)) = es.

Lemma handler_streams job found (g : G) (v : V) :
  let s := gin_view g in
  g_params s !! "jobID" = Some job -> str_empty job = false -> uuid_ok job = true ->
  (forall x : G * V, (SetWriteDeadline x).1 = None
     /\ gin_view (SetWriteDeadline x).2.1 = gin_view x.1) ->
  unanswered s -> g_writes s = [] -> g_stream s = [] ->
  (forall v, (subscribe job v).1 = Ok found) -> Forall SseThms.readable_occurrence found ->
  event_stream (SseThms.received found)
    (gin_view (Stream.HandleStream uuid_ok SetWriteDeadline true metrics jobAcceptedAtReader
                 subscribe (g, v)).2.1).
Proof.
  cbv zeta. intros Hj Hne Hid Hd (He & Hst & Hb) Hw Hs Hsub Hr.
  unfold Stream.HandleStream. rewrite bind_unfold, gin_run. cbn [doc_gin fst snd].
  rewrite Hj. change (default "" (Some job)) with job. rewrite Hne, Hid. cbn [negb].
  rewrite bind_unfold. set (x0 := ((gin_call _ g).2, v)). destruct (Hd x0) as [E1 E2].
  assert (E0 : gin_view x0.1 = gin_view g) by (unfold x0; cbn [fst]; by rewrite gin_run_view).
  rewrite E0 in E2. clear E0. clearbody x0. destruct (SetWriteDeadline x0) as [r [g1 v1]].
  cbn [fst snd] in *. subst r. gin_step.
  match goal with |- context [subscribe job v1] => pose proof (Hsub v1) as Hv1 end.
  destruct (subscribe job v1) as [r v2]. cbn [fst snd] in *. subst r. gin_step.
  match goal with |- context [Stream.stream_loop _ _ _ _ ?w] => set (w0 := w) end.
  assert (Hv : gin_view w0.1 = set_out <["Access-Control-Allow-Origin" := "*"]>
      (set_out <["Connection" := "keep-alive"]> (set_out <["Cache-Control" := "no-cache"]>
        (set_out <["Content-Type" := "text/event-stream"]> (gin_view g))))).
  { unfold w0. cbn [fst]. rewrite !gin_run_view. cbn [doc_gin fst snd]. by rewrite E2. }
  assert (Hopen : SseThms.open_writer w0) by (unfold SseThms.open_writer; by rewrite Hv).
  destruct (SseThms.loop_wrote metrics jobAcceptedAtReader job found w0 Hr Hopen)
    as (ws & [_ Hws] & Htext).
  pose proof (SseThms.streaming_loop metrics jobAcceptedAtReader job found w0) as Hk.
  unfold SseThms.streaming in Hk. rewrite Hv in Hk, Hws. cbn in Hk.
  destruct Hk as (K1 & K2 & K3 & K4).
  { rewrite He, Hb, Hst. repeat (split; [done|]).
    do 3 (rewrite lookup_insert_ne by done). apply lookup_insert_eq. }
  unfold event_stream. do 4 (split; [done|]). change (g_stream (gin_view _)) with
    (g_stream (gin_view (Stream.stream_loop metrics jobAcceptedAtReader job found w0).2.1)).
  rewrite Hws. cbn [g_stream set_out]. rewrite Hs. cbn [app].
  rewrite Htext. by apply SseThms.parse_sent.
Qed.

Lemma route_streams job found (g : G) (v : V) :
  asks_for job (gin_view g) ->
  (forall v, (subscribe job v).1 = Ok found) -> Forall SseThms.readable_occurrence found ->
  event_stream (SseThms.received found)
    (gin_view (Stream.RegisterStreamRoutes uuid_ok SetWriteDeadline true metrics
                 jobAcceptedAtReader subscribe ValidateAccessToken (g, v)).2.1).
Proof.
  intros [(scheme & token & Hcut & Hsch & Htok) Hj [Hne Hid] Hd Hu [Hw Hs]] Hsub Hr.
  unfold Stream.RegisterStreamRoutes, chain, Stream.stream_TimeoutMiddleware, TimeoutMiddleware,
    Stream.stream_ErrorHandler, ErrorHandler, Stream.stream_AuthenticateMiddleware. cbn [foldr].
  rewrite !bind_unfold, gin_run. cbn [fst snd]. set (g1 := (gin_call _ g).2).
  assert (Hg1 : exists t, gin_view g1 = set_timeout t (gin_view g))
    by (unfold g1; rewrite gin_run_view; by eexists).
  destruct Hg1 as [t Hg1]. clearbody g1.
  rewrite gin_run. cbn [doc_gin fst snd]. change (default "" (g_headers (gin_view g1) !! "Authorization"))
    with (header (gin_view g1) "Authorization").
  rewrite Hg1. change (header (set_timeout t (gin_view g))) with (header (gin_view g)).
  rewrite Hcut, Hsch. cbn [String.eqb Ascii.eqb Bool.eqb negb].
  rewrite bind_unfold, svc_run. cbn [fst snd]. destruct (Htok v) as [[u role] ->].
  rewrite !bind_unfold. gin_step.
  match goal with |- context [Stream.HandleStream _ _ _ _ _ _ (?x, ?y)] =>
    set (g2 := x); set (v2 := y) end.
  assert (Hg2 : gin_view g2 = set_values <["user_id" := u]> (set_keys <["userRole" := role]>
      (set_keys <["userID" := u]> (set_timeout t (gin_view g))))).
  { unfold g2. rewrite !gin_run_view. cbn [doc_gin fst snd]. by rewrite Hg1. }
  pose proof (handler_streams job found g2 v2) as H. rewrite Hg2 in H. cbv zeta in H.
  specialize (H Hj Hne Hid Hd Hu Hw Hs Hsub Hr).
  destruct (Stream.HandleStream _ _ _ _ _ _ (g2, v2)) as [r [g3 v3]]. cbn [fst snd] in *.
  destruct H as (H1 & H2 & H3 & H4 & H5).
  rewrite gin_run. cbn [doc_gin fst snd]. rewrite H1. cbn [last]. unfold skip. rewrite ret_unfold. cbn [fst snd].
  rewrite !gin_run_view. cbn [doc_gin fst snd]. by repeat split.
Qed.
End route.

(** ** From the inference server to the client *)

Lemma upto_terminal_prefix_of es : StreamThms.upto_terminal es `prefix_of` es.
Proof.
  induction es as [|e es IH]; [done|]. cbn. destruct (StreamThms.is_terminal e).
  - apply prefix_cons, prefix_nil.
  - by apply prefix_cons.
Qed.

Section client.
Context {R D E P G : Type} `{!Redis R, !RedisDoc R, !Postgres D, !PostgresDoc D, !Process E}.
Context `{!ServerProcess E, !Gin G, !GinDoc G}.
Context {gofmt : GoFmt} {luafloat : Admission.LuaFloat} {openai_error : InferenceServer.OpenAIError}.
Context {modules : Modules} `{!Auth.Jwt, !AuthSettings}.
#[local] Abbreviation W := (world R D E P).
Implicit Types w : W.
Context (claim : Worker.JobClaimResult) (subscriber : P -> option Z * list Stream.StreamEvent).
#[local] Abbreviation job := (Worker.jc_JobID claim).
Context (uuid_ok : string -> bool) (SetWriteDeadline : M (G * W) (option goerr)).
Context (stream_metrics : option (Stream.stream_metric -> M E unit)).
Context (subscribe : string -> M W (res goerr (list Stream.occurrence))).
Context (recorder : option (http_metric -> M E unit)).

(** The response of the whole server to a request for a stream. *)
Lemma server_streams found (g : G) w :
  asks_for uuid_ok SetWriteDeadline stream_ValidateAccessToken job (gin_view g) ->
  (forall w, (subscribe job w).1 = Ok found) -> Forall SseThms.readable_occurrence found ->
  event_stream (SseThms.received found)
    (gin_view (serve uuid_ok SetWriteDeadline true stream_metrics subscribe recorder
                 StreamRoute (g, w)).2.1).
Proof.
  intros Hask Hsub Hr. unfold serve. cbn [api_handler].
  set (h := Stream.RegisterStreamRoutes _ _ _ _ _ _ _).
  destruct (api_runs (fun _ : W => tt) (route_line StreamRoute).1
    ((fun f x => on_proc (f x)) <$> recorder) Job.uuid_New h g w)
    as (g1 & w1 & id & Hg1 & _ & _ & -> & _); [done..|].
  apply (route_streams _ _ _ _ _ _ job); [|exact Hsub|exact Hr]. rewrite Hg1.
  by destruct Hask; split.
Qed.

(** C3: the text that is generated is the text that the client shows.  A
    worker processes a claimed job in the composed program while a subscriber
    reads its stream from the beginning and the others act on other keys and
    rows.  Conditions: the job's row is still in state created - a job that
    ended and is delivered again is not covered - and nothing has been
    published on its stream yet; no request to Redis is lost and the stream
    does not expire (half an hour); the inference server sends UTF-8 without
    carriage returns.  Requests to PostgreSQL may be lost.  A client asks with
    a valid token for GET /api/stream/:jobID, through the whole middleware; its
    channel carries what the subscriber has got, with heartbeats anywhere,
    until the client leaves.  If the job is recorded as completed, the
    inference server answered its prompt with a complete stream; the response
    is an event stream of status 200 which, read by the rules of event streams,
    is a prefix of the events of the job; and if the subscription has ended and
    the client has stayed, it is all of them, and the text shown is that of the
    inference server's stream, whatever the attempts before it published. *)
Theorem client_reads_text request m w r found (g : G) w2 :
  attempts_bounded m -> job_inv claim subscriber True False request w ->
  job_row_of claim w = Some r -> open_row r ->
  engine_utf8 (E := E) -> engine_no_CR (E := E) ->
  StreamThms.empty_slot job (sys_redis (app_sys w)) ->
  subscriber (app_peers w) = (Some 0%Z, []) ->
  let w' := (app_process_claimed claim w).2 in
  (StreamThms.clock (sys_redis (app_sys w'))
     < StreamThms.clock (sys_redis (app_sys w)) + 1800 * 10 ^ 6)%Z ->
  j_status <$> job_row_of claim w' = Some "completed" ->
  asks_for uuid_ok SetWriteDeadline stream_ValidateAccessToken job (gin_view g) ->
  (forall w, (subscribe job w).1 = Ok found) ->
  carries found (subscriber (app_peers w')).2 ->
  let s' := gin_view (serve uuid_ok SetWriteDeadline true stream_metrics subscribe recorder
                        StreamRoute (g, w2)).2.1 in
  exists q pre st events, request = Some q /\ asked (E := E) (generation_input q) st
    /\ InferenceServerThms.complete st = true /\ ends_with_restart pre
    /\ event_stream events s'
    /\ let texts := InferenceServerThms.texts (InferenceServer.st_events st) in
       events `prefix_of` text_events pre texts
       /\ ((subscriber (app_peers w')).1 = None -> stays found ->
           events = text_events pre texts /\ shown events = SseThms.text texts).
Proof.
  intros Hb Hw Hrow Hopen Hutf Hcr Hempty Hsub. cbv zeta. intros Hclock Hdone Hasks Hch Hcar.
  destruct (subscriber_gets claim subscriber request m w r Hb Hw Hrow Hopen Hutf Hempty Hsub
    Hclock Hdone) as (q & pre & st & Hq & Hask & Hcomp & Hpre & Hgot).
  cbv zeta in Hgot.
  destruct (subscriber (app_peers (app_process_claimed claim w).2)) as [last got].
  destruct Hgot as (Hread & Hprefix & Hall & _). specialize (Hread Hcr). cbn [fst snd] in *.
  assert (Hrg : Forall SseThms.readable got).
  { destruct Hprefix as [more E1]. rewrite E1 in Hread. by apply Forall_app in Hread as [? _]. }
  destruct (carries_received _ _ Hcar) as [H1 H2].
  exists q, pre, st, (SseThms.received found). do 4 (split; [assumption|]).
  split; [apply server_streams; [exact Hasks|exact Hch|by eapply carries_readable]|]. split.
  - etransitivity; [exact H1|]. etransitivity; [apply upto_terminal_prefix_of|exact Hprefix].
  - intros Hlast Hstay. rewrite (H2 Hstay), (Hall Hlast), upto_text_events by apply Hpre.
    split; [done|]. by apply shown_text.
Qed.
End client.

(** ** At a concrete program *)

(** A request for the stream of the job of WiringDemo.v, and what the handler
    finds: the subscriber's events between ticks. *)
Definition watch : gin_state :=
  MkGin (list_to_map [("Authorization", "Bearer tok")]) {["jobID" := "job-1"]} (fun _ => Ok []) 0
    "api.example" "/api/stream/:jobID" ∅ ∅ None None [] false ∅ None [] [] [].

Definition got : list Stream.StreamEvent := (app_peers (app_process_claimed claim working).2).2.

Definition channel : list Stream.occurrence :=
  [Stream.HeartbeatTick] ++ mjoin ((fun e => [Stream.EventReceived e; Stream.HeartbeatTick]) <$> got)
  ++ [Stream.EventsClosed].

Definition response : gin_state :=
  (serve (fun _ => true) (mret None) true None (fun _ => mret (Ok channel)) None StreamRoute
     (watch, working)).2.1.

Lemma channel_carries : carries channel got.
Proof.
  unfold channel. generalize got as es. intros es. apply carries_beat.
  induction es as [|e es IH]; [constructor|]. cbn. by do 2 constructor.
Qed.

Lemma demo_no_CR : engine_no_CR (E := process).
Proof. intros req [|n]; cbn; repeat constructor. Qed.

Lemma channel_stays : stays channel.
Proof.
  unfold stays, channel. generalize got as es. intros es Hin.
  apply elem_of_cons in Hin as [[=]|Hin]. revert Hin.
  induction es as [|e es IH]; cbn; intros Hin; repeat apply elem_of_cons in Hin as [[=]|Hin];
    [by apply elem_of_nil in Hin|by apply IH].
Qed.

Lemma client_reads_text_witness :
  Stream.ev_Type <$> got = ["chunk"; "retrying"; "chunk"; "chunk"; "completed"]
  /\ shown (SseThms.sse_parse (SseThms.text (g_stream response))) = "Hello, world".
Proof.
  split; [by vm_compute|].
  destruct (client_reads_text claim (fun p : peers => p) (fun _ => true) (mret None) None
    (fun _ => mret (Ok channel)) None (Some request) 3 working row channel watch working)
    as (q & pre & st & events & _ & Hask & Hcomp & _ & (_ & _ & _ & _ & Hev) & _ & Hall).
  - apply demo_attempts.
  - by apply with_others_inv; [apply audience_bystanders| |].
  - by vm_compute.
  - by vm_compute.
  - apply demo_utf8.
  - apply demo_no_CR.
  - by vm_compute.
  - by vm_compute.
  - by vm_compute.
  - by vm_compute.
  - split; [|by vm_compute|done|done|by split_and!|done].
    exists "Bearer", "tok". split; [by vm_compute|]. split; [by vm_compute|].
    intros w. by eexists.
  - done.
  - apply channel_carries.
  - transitivity (shown events); [f_equal; exact Hev|].
    assert (Hlast : (app_peers (app_process_claimed claim working).2).1 = None) by (by vm_compute).
    destruct (Hall Hlast channel_stays) as [_ Hs]. rewrite Hs. clear - Hask Hcomp.
    destruct Hask as [[|n] <-]; [discriminate|reflexivity].
Defined.
