(* ===== verification/SignIn.v ===== *)
(** * Signing in, and what the token opens

    The composed program from the side of GET /auth/github/callback: for whom
    a token is issued, and that the routes of the other modules recognise
    that user by it. *)

From S2P Require Import Prelude GoText GoErr Redis Env Postgres System Wiring WiringDemo.
From S2P Require Import Http HttpThms Server Submission.
From S2P Require Scheduler Admission Job JobThms Idempotency Inference Worker Stream User Auth AuthThms.
From S2P Require InferenceServer Health.
From stdpp Require Import base gmap list strings.
From Stdlib Require Import ZArith Lia Ascii.

(** ** Reading and writing the tables *)

Section tables.
Context {R D E P : Type} `{!Redis R, !RedisDoc R, !Postgres D, !PostgresDoc D, !Process E}.
#[local] Abbreviation W := (world R D E P).
Implicit Types w : W.

(** An answer to a query is what the tables hold then. *)
Lemma read_table {A} (c : sql A) w a :
  (forall d, (doc_sql c d).2 = d) -> (pg_run false c w).1 = Ok a ->
  (doc_sql c (dview (app_sys (pg_run false c w).2))).1 = Ok a.
Proof.
  intros Hread. cbn [pg_run app_pg negb]. rewrite bind_unfold. cbn [when].
  generalize (interfere w).2 as w1. clear w. intros w.
  assert (Hx : forall x : pgworld D, (pw_exec false c x).1 = Ok a ->
    (doc_sql c (pg_view (pw_db (pw_exec false c x).2))).1 = Ok a).
  { intros x. unfold pw_exec. pose proof (pg_call_reply c (pw_db x)) as Hr.
    pose proof (pg_call_view c (pw_db x)) as Hv.
    destruct (pg_call c (pw_db x)) as [[b|m] d']; cbn in *; [|done]. intros [= <-].
    by rewrite Hv, Hread, <- Hr. }
  assert (Hy : forall x : pgworld D, (pg_run false c x).1 = Ok a ->
    (doc_sql c (pg_view (pw_db (pg_run false c x).2))).1 = Ok a).
  { intros x. cbn. unfold pw_request, next_outcome.
    destruct (pw_faults x) as [|[|e|e] fs]; [apply Hx|apply Hx|done|].
    by destruct (pw_exec false c _). }
  unfold on_sys. cbn [pg_run system_pg]. unfold on_pg, dview.
  specialize (Hy (sys_pg (app_sys w))).
  destruct (pg_run false c (sys_pg (app_sys w))) as [r x]. exact Hy.
Qed.


(** *** Accounts and roles *)

Implicit Types oauthUser : Auth.OAuthUser.

Definition account oauthUser : string * string :=
  (Auth.ou_Provider oauthUser, Auth.ou_ProviderUserID oauthUser).

(** The user of an account, which is created when there is none. *)
Definition look_up oauthUser : M W (res goerr string) :=
  found ← Auth.ar_FindByProviderUserID (Auth.ou_Provider oauthUser)
            (Auth.ou_ProviderUserID oauthUser);
  match found with
  | Ok user => mret (Ok (Auth.au_UserID user))
  | Err err =>
      if errors_Is (Some err) Auth.ErrOauthAccountNotFound
      then Job.Execute (Auth.link_new_user oauthUser) else mret (Err err)
  end.

(** The transaction of a new account, given its identifier. *)
Definition link_rows {V} `{!PgClient V} (id : string) oauthUser : M V (res goerr string) :=
  err ← User.UserUseCase_Register true id;
  match err with
  | Some err => mret (Err err)
  | None =>
      r ← Auth.oauth_Create true (Auth.ou_ProviderUserID oauthUser)
            (Auth.ou_Provider oauthUser) id;
      mret (res_map Auth.au_UserID r)
  end.

Lemma link_rows_in_pg id oauthUser w :
  (link_rows id oauthUser : M W (res goerr string)) w = in_pg (link_rows id oauthUser) w.
Proof.
  unfold link_rows, User.UserUseCase_Register, Auth.oauth_Create.
  cbn [User.ur_Save User.pg_UserRepository]. unfold User.user_Save.
  rewrite in_pg_bind. apply bind_ext.
  { rewrite in_pg_bind. apply bind_ext; [|intros a w1; by rewrite in_pg_ret].
    rewrite in_pg_bind. apply bind_ext; [apply sql_in_pg|]. intros a w1. by rewrite in_pg_ret. }
  intros [e|] w1; [by rewrite in_pg_ret|]. rewrite in_pg_bind. apply bind_ext.
  { rewrite in_pg_bind. apply bind_ext; [apply sql_in_pg|]. intros a w2. by rewrite in_pg_ret. }
  intros a w2. by rewrite in_pg_ret.
Qed.

(** A new account is in the tables when its unit of work has succeeded. *)
Lemma created_account oauthUser w u :
  (Job.Execute (Auth.link_new_user oauthUser) w).1 = Ok u ->
  pg_oauth (dview (app_sys (Job.Execute (Auth.link_new_user oauthUser) w).2)) !! account oauthUser
    = Some u.
Proof.
  destruct (execute_with_uuid (fun id => link_rows id oauthUser) (fun id => link_rows id oauthUser) w
    (fun id w => link_rows_in_pg id oauthUser w)) as (id & H1 & H2).
  change (Auth.link_new_user oauthUser : M W (res goerr string))
    with (i ← Job.uuid_New; link_rows i oauthUser : M W (res goerr string)).
  unfold dview. rewrite H1, H2. set (x := sys_pg _). clearbody x. clear H1 H2 w.
  pose (uuid := Job.Build_Uuid (pgworld D) (mret id)).
  pose (cache := {| User.tc_Invalidate := fun _ => mret None;
    User.tc_Get := fun _ => mret (Ok ""); User.tc_Set := fun _ _ => mret None |}
    : User.UserTierCache (pgworld D)).
  assert (Hid : forall y : pgworld D, JobThms.same_pg y (Job.uuid_New y).2) by done.
  change (link_rows id oauthUser : M (pgworld D) (res goerr string))
    with (Auth.link_new_user oauthUser : M (pgworld D) (res goerr string)).
  pose proof (JobThms.execute_atomic (Auth.link_new_user oauthUser)
    (AuthThms.linked oauthUser) x) as He.
  lapply He; [clear He; cbv zeta; intros He|].
  2: { intros y Hdb Htx. destruct (AuthThms.link_spec Hid oauthUser y) as [H1 H2].
       split; [done|]. intros a Ha. destruct (H2 _ a Htx Ha) as (t' & ? & ?). eauto. }
  intros Hu. rewrite Hu in He. destruct He as (_ & _ & _ & Ho & _). rewrite Ho.
  apply lookup_insert_eq.
Qed.

(** The account that has been looked up is that of the user. *)
Lemma looked_up oauthUser w u :
  (look_up oauthUser w).1 = Ok u ->
  pg_oauth (dview (app_sys (look_up oauthUser w).2)) !! account oauthUser = Some u.
Proof.
  unfold look_up. cbn [Auth.ar_FindByProviderUserID Auth.oauthRepository].
  unfold Auth.FindByProviderUserID. rewrite !bind_unfold, ret_unfold. cbn [fst snd].
  set (c := SELECT_OAUTH _ _).
  pose proof (fun a => read_table c w a (fun d => eq_refl)) as Hr.
  destruct (pg_run false c w) as [[[id|]|e] w1]; cbn [fst snd].
  - rewrite ret_unfold. cbn [fst snd Auth.au_UserID]. intros [= ->].
    specialize (Hr (Some u) eq_refl). by injection Hr.
  - destruct (errors_Is _ _); [apply created_account|done].
  - destruct (errors_Is _ _); [apply created_account|done].
Qed.

(** The role that has been read is that of the user's row. *)
Lemma role_read u role w :
  (User.us_Role u w).1 = Ok role ->
  exists row, pg_users (dview (app_sys (User.us_Role u w : _ * W).2)) !! u = Some row /\ u_role row = role.
Proof.
  cbn [User.us_Role User.NewUserService]. unfold User.UserUseCase_Role.
  cbn [User.ur_FindByID User.pg_UserRepository]. unfold User.FindByID.
  rewrite !bind_unfold, !ret_unfold. cbn [fst snd]. set (c := SELECT_USER _).
  pose proof (fun a => read_table c w a (fun d => eq_refl)) as Hr.
  destruct (pg_run false c w) as [[[row|]|e] w1]; cbn [fst snd]; [|done|done].
  cbn [User.usr_Role]. intros [= <-]. exists row. split; [|done].
  specialize (Hr (Some row) eq_refl). by injection Hr.
Qed.
End tables.

(** ** The use case *)

Section callback.
Context {R D E P : Type} `{!Redis R, !RedisDoc R, !Postgres D, !PostgresDoc D, !Process E}.
Context `{!ServerProcess E, !Auth.Jwt, !AuthSettings}.
#[local] Abbreviation W := (world R D E P).
Implicit Types w : W.

(** What stands behind a token: a state that was waiting, a code that GitHub
    exchanged, the account it named, the user that the tables link to the
    account, and the role of the user's row; [until] is when it expires. *)
Definition signed_in (code state u role token : string) (until : Z) w : Prop :=
  let w1 : W := (Auth.ss_Exists state "github" w).2 in
  let w2 : W := (Auth.ss_Delete state "github" w1).2 in
  let exchanged := Auth.oa_ExchangeCode code w2 in
  (Auth.ss_Exists state "github" w).1 = None
  /\ exists access oauthUser,
    let info := Auth.oa_GetUserInfo access exchanged.2 in
    let found := look_up oauthUser info.2 in
    let read : res goerr string * W := User.us_Role u found.2 in
    exchanged.1 = Ok access /\ info.1 = Ok oauthUser
    /\ pg_oauth (dview (app_sys found.2)) !! account oauthUser = Some u
    /\ (exists row, pg_users (dview (app_sys read.2)) !! u = Some row /\ u_role row = role)
    /\ (Auth.tm_Generate (Auth.MkAuthenticatedUser u role) read.2).1 = Ok token
    /\ until = AuthThms.expires (Auth.ac_JwtToken auth_cfg) read.2.

Lemma response_token (u role token : string) w :
  (Auth.generateAuthResponse (Auth.MkAuthenticatedUser u role) w).1 = Ok token ->
  (Auth.tm_Generate (Auth.MkAuthenticatedUser u role) w).1 = Ok token.
Proof.
  unfold Auth.generateAuthResponse. rewrite bind_unfold, ret_unfold. cbn [fst].
  by destruct (Auth.tm_Generate _ w).1.
Qed.

Lemma callback_signs_in code state token w :
  (Auth.HandleCallback code state w).1 = Ok token ->
  exists u role until, signed_in code state u role token until w.
Proof.
  unfold Auth.HandleCallback, signed_in. rewrite bind_unfold.
  destruct (Auth.ss_Exists state "github" w) as [[err|] w1] eqn:Es; [done|]. cbn [fst snd].
  rewrite bind_unfold. set (w2 := (Auth.ss_Delete _ _ w1).2). unfold Auth.callback_sign_in.
  rewrite bind_unfold. destruct (Auth.oa_ExchangeCode code w2) as [[access|err] w3]; [|done].
  cbn [fst snd]. rewrite bind_unfold.
  destruct (Auth.oa_GetUserInfo access w3) as [[oauthUser|err] w4] eqn:Ei; [|done]. cbn [fst snd].
  intros Ht. enough (exists u role, (look_up oauthUser w4).1 = Ok u
    /\ (User.us_Role u (look_up oauthUser w4).2).1 = Ok role
    /\ (Auth.generateAuthResponse (Auth.MkAuthenticatedUser u role)
          (User.us_Role u (look_up oauthUser w4).2 : _ * W).2).1 = Ok token)
    as (u & role & Hl & Hr & Hg%response_token).
  { exists u, role, (AuthThms.expires (Auth.ac_JwtToken auth_cfg)
      (User.us_Role u (look_up oauthUser w4).2 : _ * W).2).
    split; [done|]. exists access, oauthUser. rewrite Ei. cbn [fst snd].
    split; [done|]. split; [done|]. split; [by apply looked_up|].
    split; [by apply role_read|]. by split. }
  revert Ht. unfold look_up. rewrite !bind_unfold.
  destruct (Auth.ar_FindByProviderUserID _ _ w4) as [[user|err] w5]; cbn [fst snd].
  - rewrite ret_unfold. cbn [fst snd]. rewrite bind_unfold.
    destruct (User.us_Role (Auth.au_UserID user) w5) as [[role|err] w6] eqn:Er; [|done].
    cbn [fst snd]. intros Ht. exists (Auth.au_UserID user), role. by rewrite Er.
  - destruct (errors_Is _ _); [|done]. unfold Auth.createNewUserAndLinkOAuth. rewrite bind_unfold.
    destruct (Job.Execute (Auth.link_new_user oauthUser) w5) as [[u|err'] w6]; [|done].
    cbn [fst snd]. rewrite bind_unfold.
    destruct (User.us_Role u w6) as [[role|err'] w7] eqn:Er; [|done]. cbn [fst snd].
    intros Ht. exists u, role. by rewrite Er.
Qed.
End callback.

(** ** Over HTTP *)

Section http.
Context {R D E P G : Type} `{!Redis R, !RedisDoc R, !Postgres D, !PostgresDoc D, !Process E}.
Context `{!ServerProcess E, !Gin G, !GinDoc G}.
Context {gofmt : GoFmt} {luafloat : Admission.LuaFloat} {modules : Modules}.
Context `{!Auth.Jwt, !AuthThms.JwtDoc, !AuthSettings}.
#[local] Abbreviation W := (world R D E P).
Implicit Types w : W.

(** The modules that ask for a token take this one for the user and the role,
    until it expires, and refuse it from then on. *)
Definition recognised (token u role : string) (until : Z) w : Prop :=
  let asked : list (res goerr (string * string)) :=
    [(inference_ValidateAccessToken token w).1; (stream_ValidateAccessToken token w).1;
     (User.ut_ValidateAccessToken token w).1] in
  if ((time_Now w).1 <? until)%Z then Forall (fun r => r = Ok (u, role)) asked
  else Forall (fun r => is_ok r = false) asked.

Lemma issued_recognised code state u role token until w w2 :
  signed_in code state u role token until w -> recognised token u role until w2.
Proof.
  intros (_ & access & oauthUser & _ & _ & _ & _ & Ht & ->). unfold recognised.
  set (w1 := (User.us_Role _ _).2) in *. clearbody w1.
  pose proof (AuthThms.token_accepted (Auth.ac_JwtToken auth_cfg)
    (Auth.MkAuthenticatedUser u role) w1 w2 token Ht) as Hacc.
  cbn [Auth.au_UserID Auth.au_Role] in Hacc.
  change (Auth.TokenAdapter_ValidateAccessToken (AuthTokenManager0 :=
    AuthThms.jwt_service (Auth.ac_JwtToken auth_cfg)) token w2)
    with (inference_ValidateAccessToken token w2) in Hacc.
  change (stream_ValidateAccessToken token w2) with (inference_ValidateAccessToken token w2).
  change (User.ut_ValidateAccessToken token w2) with (inference_ValidateAccessToken token w2).
  destruct (_ <? _)%Z; [by rewrite Hacc; repeat constructor|].
  destruct Hacc as (e & -> & _). by repeat constructor.
Qed.

(** The outcome of a callback. *)
Definition callback_outcome (s : gin_state) w : res goerr string * W :=
  match (doc_gin (ShouldBind ["code"; "state"]) s).1 with
  | Ok [code; state] => Auth.HandleCallback code state w
  | Ok _ => (Ok "", w)
  | Err err => (Err err, w)
  end.

Definition welcomed (token : string) (s' : gin_state) : Prop :=
  g_status s' = Some 200%Z /\ g_bodies s' = [Auth.OauthCallbackResponse token]
  /\ g_out s' !! "Authorization" = Some ("Bearer " +:+ token).

Lemma callback_route (g : G) w :
  unanswered (gin_view g) ->
  (forall fs, g_bind (gin_view g) ["code"; "state"] = Ok fs -> length fs = 2%nat) ->
  let s := gin_view g in
  let p := (Auth.RegisterAuthRoutes Auth.GET_github_callback (g, w)).2 in
  p.2 = (callback_outcome s w).2
  /\ answered welcomed Auth.AuthErrCodeRegistry "OAUTH_FAILED" s (gin_view p.1)
       (callback_outcome s w).1.
Proof.
  intros Hu Hlen. apply (module_answers welcomed Auth.AuthErrCodeRegistry "OAUTH_FAILED"
    (20 * second) Auth.HandleOauthCallback). intros g1 Hg1.
  assert (Hu1 : unanswered (gin_view g1)) by by rewrite Hg1.
  assert (Hid : g_values (gin_view g1) !! "request_id" = g_values (gin_view g) !! "request_id")
    by by rewrite Hg1.
  assert (Hb : (doc_gin (ShouldBind ["code"; "state"]) (gin_view g1)).1
    = (doc_gin (ShouldBind ["code"; "state"]) (gin_view g)).1) by by rewrite Hg1.
  unfold Auth.HandleOauthCallback, callback_outcome. rewrite bind_unfold, gin_run. cbn [fst snd].
  rewrite Hb. set (g2 := (gin_call _ g1).2).
  assert (Hg2 : gin_view g2 = gin_view g1) by (unfold g2; by rewrite gin_run_view). clearbody g2.
  rewrite <- Hg2 in Hu1, Hid. cbn [doc_gin fst].
  assert (Hfs : forall fs, match g_limit (gin_view g) with
    | Some n => if (n <? g_size (gin_view g))%Z
                then Err (Leaf MaxBytesError "http: request body too large")
                else g_bind (gin_view g) ["code"; "state"]
    | None => g_bind (gin_view g) ["code"; "state"]
    end = Ok fs -> length fs = 2%nat).
  { intros fs. repeat case_match; try done; apply Hlen. }
  destruct (match g_limit (gin_view g) with Some _ => _ | None => _ end) as [fs|err].
  - specialize (Hfs fs eq_refl). destruct fs as [|code [|state [|]]]; try discriminate.
    rewrite bind_unfold, svc_run. cbn [fst snd].
    destruct (Auth.HandleCallback code state w) as [[token|err] w1]; cbn [fst snd].
    + destruct Hu1 as (He & Hst & Hbd). run_gin. split; [done|]. split; [done|].
      unfold welcomed. cbn. rewrite Hst, Hbd. split; [done|]. split; [done|].
      apply lookup_insert_eq.
    + destruct (fail_left welcomed (gin_view g) g2 w1 err Hu1 Hid) as (Hl1 & Hl2 & _). by split.
  - destruct (fail_left welcomed (gin_view g) g2 w err Hu1 Hid) as (Hl1 & Hl2 & _). by split.
Qed.

(** C7: signing in.  A client calls GET /api/auth/github/callback of the
    program composed of all modules, through the whole middleware, while the
    others do what they want and requests to the servers may be lost.  If the
    response has status 200, then the state it sent was waiting in Redis,
    GitHub exchanged its code and named an account, PostgreSQL links that
    account to a user (found, or created with its account in one transaction),
    and the response carries a token for this user with the role of the
    user's row: the routes of requests, of streams and of administrators all
    take the token for that user and role until the second in which it
    expires, and refuse it from then on. *)
Theorem sign_in_recognised uuid_ok SetWriteDeadline flusher stream_metrics subscribe recorder
    (g : G) w :
  unanswered (gin_view g) ->
  (forall fs, g_bind (gin_view g) ["code"; "state"] = Ok fs -> length fs = 2%nat) ->
  let p := serve uuid_ok SetWriteDeadline flusher stream_metrics subscribe recorder
             (AuthRoute Auth.GET_github_callback) (g, w) in
  g_status (gin_view p.2.1) = Some 200%Z ->
  exists code state token u role until w1,
    g_bind (gin_view g) ["code"; "state"] = Ok [code; state]
    /\ outside w1 = outside w /\ signed_in code state u role token until w1
    /\ g_bodies (gin_view p.2.1) = [Auth.OauthCallbackResponse token]
    /\ g_out (gin_view p.2.1) !! "Authorization" = Some ("Bearer " +:+ token)
    /\ forall w2, recognised token u role until w2.
Proof.
  intros Hu Hlen. cbv zeta. unfold serve. cbn [api_handler].
  set (h := Auth.RegisterAuthRoutes _). intros Hst.
  destruct (api_runs outside (route_line (AuthRoute Auth.GET_github_callback)).1
    ((fun f x => on_proc (f x)) <$> recorder) Job.uuid_New h g w)
    as (g1 & w1 & rid & Hg1 & Hw1 & _ & Hv & _).
  - intros v. apply outside_proc.
  - intros v. apply outside_proc.
  - intros record x v Hr. destruct recorder; [|done]. injection Hr as <-. apply outside_proc.
  - rewrite Hv in Hst |- *.
    destruct (callback_route g1 w1) as [_ Ha]; [by rewrite Hg1|by rewrite Hg1|].
    fold h in Ha. revert Ha. unfold callback_outcome.
    assert (Herr : forall err, answered welcomed Auth.AuthErrCodeRegistry "OAUTH_FAILED"
      (gin_view g1) (gin_view (h (g1, w1)).2.1) (Err err) -> False).
    { intros err [Hs _]. cbv zeta in Hs. rewrite Hst in Hs.
      pose proof (error_status Auth.AuthErrCodeRegistry err "OAUTH_FAILED" eq_refl) as He.
      revert He Hs. generalize (StatusCode (ResolveError (Some err) Auth.AuthErrCodeRegistry "OAUTH_FAILED")).
      intros z He [= <-]. lia. }
    assert (Hb : forall fs, (doc_gin (ShouldBind ["code"; "state"]) (gin_view g1)).1 = Ok fs ->
      g_bind (gin_view g) ["code"; "state"] = Ok fs).
    { intros fs. rewrite Hg1. cbn. by repeat case_match. }
    destruct (doc_gin (ShouldBind ["code"; "state"]) (gin_view g1)).1 as [fs|err]; [|by intros []%Herr].
    specialize (Hb fs eq_refl). pose proof (Hlen fs Hb) as Hl.
    destruct fs as [|code [|state [|]]]; try discriminate.
    pose proof (fun t => callback_signs_in code state t w1) as Hsi.
    destruct (Auth.HandleCallback code state w1) as [[token|err] w2]; cbn [fst]; [|by intros []%Herr].
    intros (_ & Hbody & Hout). destruct (Hsi token eq_refl) as (u & role & until & Hs).
    exists code, state, token, u, role, until, w1. split; [exact Hb|]. split; [exact Hw1|].
    split; [exact Hs|]. split; [exact Hbody|]. split; [exact Hout|].
    intros w3. by eapply issued_recognised.
Qed.
End http.

(** ** At a concrete program *)

(** GitHub answers every request with a token and the account 42. *)
#[local] Instance github_server : ServerProcess process := {|
  sp_rand := {| Auth.rand_Read := fun n => mret (Ok (repeat 0%N n)); Auth.rand_Int := fun _ => mret (Ok 0%Z) |};
  sp_http := {| Auth.http_Do := fun _ _ =>
    mret (Ok (Auth.MkHttpResponse 200 (fun _ => Ok ["tok"; "read"; "bearer"; ""]) (fun _ => Ok 42%Z) None)) |};
  sp_ping := {| Health.pg_Ping := mret None |} |}.
#[local] Existing Instances AuthThms.AuthDemo.jwt AuthThms.AuthDemo.jwt_doc.

(** After GET /api/auth/login/github, whose state comes back. *)
Definition waiting : demo := Eval vm_compute in (Auth.GenerateAuthURL idle).2.
Definition sent_state : string :=
  match (Auth.sg_Generate idle).1 with Ok s => s | Err _ => "" end.
Definition callback : gin_state :=
  MkGin ∅ ∅ (fun _ => Ok ["code"; sent_state]) 0 "api.example" "/api/auth/github/callback"
    ∅ ∅ None None [] false ∅ None [] [] [].
Definition welcome : gin_state * demo :=
  (serve (fun _ => true) (mret None) true None (fun _ => mret (Ok [])) None
     (AuthRoute Auth.GET_github_callback) (callback, waiting)).2.

(** A new user signs in, and the routes know it by its token. *)
Lemma sign_in_recognised_witness :
  g_status welcome.1 = Some 200%Z
  /\ exists token u role, g_bodies welcome.1 = [Auth.OauthCallbackResponse token]
     /\ pg_oauth (dview (app_sys welcome.2)) = {[ ("github", "42") := "job-1" ]}
     /\ (inference_ValidateAccessToken token welcome.2).1 = Ok (u, role).
Proof.
  assert (Hst : g_status welcome.1 = Some 200%Z) by (vm_compute; done).
  split; [exact Hst|].
  destruct (sign_in_recognised (fun _ => true) (mret None) true None (fun _ => mret (Ok [])) None
    callback waiting) as (code & state & token & u & role & until & w1 & _ & _ & Hs & Hb & _ & Hr).
  - by split_and!.
  - intros fs [= <-]. done.
  - exact Hst.
  - exists token, u, role. split; [exact Hb|]. split; [vm_compute; done|].
    specialize (Hr welcome.2). destruct Hs as (_ & access & oauthUser & _ & _ & _ & _ & _ & ->).
    unfold recognised, AuthThms.expires in Hr.
    assert (Hc : forall w : demo, (time_Now w).1 = (60 * 10 ^ 9)%Z) by (intros [? ? ? ?]; done).
    rewrite !Hc in Hr. cbn in Hr. by inversion Hr.
Defined.
